(* ===== verification/_CoqProject ===== *)
-Q . S2P
Prelude.v
Pool.v
Errors.v
GoStrings.v
GoFloat.v
FloatBound.v
GateConfig.v
CircuitBreaker.v
BreakerConcurrency.v
RateLimiter.v
ConnectionLimiter.v
Gate.v
GateConcurrency.v
Cache.v
StmtCache.v
Metrics.v
Retry.v
Sql.v
Db.v
Open.v
Strconv.v
JsonString.v
Json.v
JsonText.v
GoDecimal.v
JsonValue.v
Rfc3339.v
Config.v
Runtime.v
RuntimeInv.v
Utils.v
Rows.v
Monitor.v
Report.v
TcpProtocol.v
Scanner.v
TcpAddr.v
TcpServer.v
TcpShutdown.v
TcpClient.v
TcpWire.v
Md5.v
FileSystem.v
Blob.v
BlobFs.v
BlobDb.v
BlobTable.v
BlobOnly.v
Program.v
Machine.v
ExampleTcp.v
ExampleDb.v
