(* ===== verification/Prelude.v ===== *)
(** * Fluxor-DB: a verification library

    Fluxor-DB (Go, [src/]) puts a protection layer in front of [database/sql]: a gate
    (circuit breaker, rate limiter, connection limiter), a wrapper with retries,
    metrics and a prepared-statement cache, a result cache, a runtime that ties them
    together, a TCP server and client that expose the runtime, blob stores on the
    runtime and on files, and a blob tool.  This library models those parts definition
    by definition and proves what they do.

    ** How the parts call each other
<<
      TcpClient --TcpWire--> TcpServer --> Runtime --> Db --> Gate --> CircuitBreaker
         |  Scanner, TcpProtocol  |          |  \       |           --> RateLimiter
         v                        v          v   \      v           --> ConnectionLimiter
      JsonValue, JsonText ...   Cache      Cache  Open  Retry, Metrics, StmtCache
      Utils, Monitor, Report --> Runtime                TcpShutdown: TcpServer's goroutines
      BlobTable --> BlobDb --> Runtime
      Rows --> Utils, Runtime                           GateConcurrency: Gate's goroutines
      BlobFs, BlobOnly --> FileSystem                   Machine --> client, server, runtime
      ExampleTcp, ExampleDb --> Machine --> Program
>>

    ** The files
    - [Prelude]: int64 and uint64 arithmetic with its wrap-around, instants and
      durations, results and panics, runs of a step function with their invariant
      principle, the hint database and tactics.  [Pool]: counting over the goroutines
      of a system, one of which takes a step.
    - [Errors] (errors.go): the error values, their text, [errors.Is]/[errors.As].
    - [GoStrings], [GoFloat], [FloatBound], [Strconv], [GoDecimal], [Rfc3339], [Md5]: what
      the code uses of Go's strings, float64 (on the Standard Library's IEEE 754
      [spec_float], with a bound on its rounding), strconv and time.ParseDuration, the decimal text of floats, time.Format and
      crypto/md5.
    - [GateConfig], [CircuitBreaker], [RateLimiter], [ConnectionLimiter], [Gate]
      (gate.go): [Allow], [RecordSuccess], [RecordFailure], [AcquireWithContext],
      [Release], [ExecuteWithGate].  The breaker is refined to a state diagram
      ([diagram]): that of ARCHITECTURE.md with three amendments; [BreakerConcurrency] interleaves its calls at the grain of their
      atomic loads and stores.  The limiter's semaphore and mutex are step relations
      ([lim_step], [mutex_step]) over any number of goroutines.  [GateConcurrency]
      interleaves whole calls of [ExecuteWithGate], each a program counter over the
      breaker, the limiter and the two mutexes; alone, a call is the function of [Gate].
    - [Cache] (cache.go): the map and the linked list of [InMemoryCache], refined to an
      LRU list of entries with deadlines; the [Cache] interface is a class, with
      [LawfulCache] as the promise its clients rely on.
    - [StmtCache], [Metrics], [Retry], [Db] (db.go): the statement cache, the counters,
      the retry loops (with [WithRetry] of utils.go), the wrapper and its transactions.
      [Sql] is the interface to [database/sql]: the class [SqlDB] of calls,
      [LawfulSqlDB] of the documented laws used, and [OneCell], a small database that
      has them and on which the witnesses run.
    - [Open] (open.go): the connection manager, leak detector and validator over the
      class [SqlPool].  [Config] (config.go): the builder and the environment.
    - [Runtime] (dbruntime.go): [DBRuntime], with [QueryCached] over any lawful cache;
      [CellRuntime] is the runtime on the one-cell database.  [RuntimeInv]: the
      well-formedness of a whole runtime and that every call keeps it.
    - [Utils], [Report] (utils.go, the recovery of errors.go), [Monitor] (monitor.go):
      query executor, [Transaction], [CheckHealth], [ErrorRecovery]; the texts that are
      printed; the monitor with its loops and the rest of the program as a step
      function over schedules.  [Rows]: the loops over a driver's rows, over a class of
      drivers ([LawfulRows]) that give their rows in order and then end, or fail.
    - [JsonString], [Json], [JsonText], [JsonValue]: the JSON text encoding/json writes
      and reads, and its codec by struct tags.  [TcpProtocol] (tcp_protocol.go):
      messages, responses and results as that text.
    - [Scanner], [TcpAddr], [TcpServer], [TcpShutdown] (tcp_server.go): the lines of a
      connection, addresses, the guards, idempotency, dispatch and connection loop, and
      [Stop] against the accept loop and the handlers as a step relation.
    - [TcpClient] (tcp_client.go): the client with its two locks; [TcpWire] joins it to
      the server by a link, which is an instance of the client's socket class, and runs
      queries, Execs and keyed Execs from the client's call to the database and back.
    - [FileSystem], [Blob], [BlobFs], [BlobDb] (blob.go), [BlobOnly]
      (cmd/blobonly/main.go): files and directories, the two stores of the library, and
      the tool from its arguments to its output and exit status.  [BlobTable]: the
      database store over a class of databases ([LawfulBlobTable]) whose statements do
      what SQL says, and its map specification [blob_spec], with and without faults.
    - [Program], [Machine], [ExampleTcp], [ExampleDb] (examples*.go, [main] of
      dbruntime.go): a monad for functions that print, return, panic, end the process or
      never end, with triples; the library's operations as its statements; the example
      functions.  The goroutines they start take turns as a schedule says.

    ** What the theorems show
    - Gate: the breaker gives the answers of the documented diagram with three amendments
      on every schedule, none of which can be left out, and trips at the maxFailures-th
      failure in a row; the bucket admits no more than its tokens and the rate times the
      time that has passed, to one part in 2^50; no
      interleaving takes more slots than configured; and a gate serves at most
      [MaxConcurrentConnections] successes in its life, because a success never releases
      its slot, under every interleaving of its callers, and no interleaving goes on
      for ever.
    - Cache: it answers as the LRU specification, serves only the last live write, and
      keeps an entry for [capacity - 1] touches of other keys.
    - Database: every call keeps the runtime well formed; a [Begin] transaction never
      commits, [Transaction] reports success for it, failures are not counted, a second
      close panics.
    - Retry: the loops make exactly the attempts and waits of a policy specification.
    - TCP: what a message carries arrives (with integers as float64), an Exec over the
      link is the runtime's Exec, a Query brings all the rows of the database to the
      client's caller or an error (both with the guard off and lines of at most a
      megabyte), a message over a megabyte ends the connection; a keyed request is run
      once in its window when messages are handled one after another, but the client's own keyed Exec cannot be repeated, since
      its second answer bears the first one's ID; addresses are admitted a fixed number
      of times for life; one missed answer desynchronises a client for good; Stop winds
      down, or deadlocks with the guard on.
    - Result sets: what the runtime's cached query, and a select, make of the rows of a
      driver, in order, each once, or the error that reading them met.
    - Monitor: one loop at a time, and Stop ends it in finitely many of its own steps.
    - Blob stores: each refines a map from keys, the database's one with a limited number
      of writes, exactly when there are no faults, and up to failures when there are; the tool gives back what was stored, and keys reach outside of the root.
    - Examples: which ends the functions have on any database and network: client
      examples hang, transactions are never committed, filters admit nobody.
    Each theorem marked [C<n>] is a main property; the lemma [<theorem>_witness] applies
    it to concrete data.

    ** Conventions
    - Mutating methods take the receiver and return it; where other state is touched
      (driver, socket, clock) it is an abstract world [W] threaded through.
    - The clock is an argument: one reading per call of [time.Now] in the code.
      Instants are integers, in nanoseconds, and 0 is the zero [time.Time].
    - [outcome] separates a return from a panic, [option] around a result means that the
      call never returns, or that the fuel of a loop over a driver's rows ran out; fuel
      above the number of rows left is enough ([scan_rows_all], [select_loop_all]).
    - The JSON reader takes the length of its text as the bound of its loops, and any
      larger bound gives the same ([parse_value_bound]); nesting is limited to 10000 as in
      encoding/json.  The scanner's lines take one unit of fuel per byte and one more.
      All other loops are structural.
    - A method that holds one mutex from its first line to its last is one step;
      where the code releases locks or uses atomics, the steps are written out.

    ** Not modelled
    The sockets themselves (the class [NetConn] and events instead), [WithTimeout]'s
    timers (the world decides when a context is done), the flag package's parsing, links,
    permissions and space in the file system, roots that go through missing directories
    with dot-dots.  The error texts of encoding/json are abbreviated.  The time zone is a
    parameter, and that 17 digits identify a float64 is used, not proved.  In the
    example functions nothing else happens to a program's objects while it runs than its
    own goroutines, which take turns at the library's calls, and what the schedule of
    ExampleTCPServerMultiClient says of the server's.  The tests are not modelled. *)
From stdpp Require Export base gmap strings list fin_maps numbers pretty relations.
From coqutil Require Export Datatypes.RecordSetters.
Export DoubleBraceUpdate.

#[export] Set Default Goal Selector "!".

Create HintDb fluxor discriminated.

Arguments constant {E} newValue _ /.

(** ** Machine integers

    Go's [int], [int64] and [time.Duration] are 64-bit two's complement on the
    platforms the repository targets; an operation that can leave the range is
    written with [wrap64].  [uint64] counters use [wrapu64]. *)
Section Int64.
Local Open Scope Z_scope.

Definition int64_min : Z := - 2 ^ 63.
Definition int64_max : Z := 2 ^ 63 - 1.
Definition wrap64 (z : Z) : Z := (z + 2 ^ 63) mod 2 ^ 64 - 2 ^ 63.
Definition wrapu64 (z : Z) : Z := z mod 2 ^ 64.
Definition in_int64 (z : Z) : Prop := int64_min <= z <= int64_max.
Definition in_uint64 (z : Z) : Prop := 0 <= z < 2 ^ 64.

#[export] Instance in_int64_dec z : Decision (in_int64 z).
Proof. unfold in_int64. apply _. Defined.

Lemma wrap64_in z : in_int64 (wrap64 z).
Proof.
  unfold in_int64, wrap64, int64_min, int64_max.
  pose proof (Z.mod_pos_bound (z + 2 ^ 63) (2 ^ 64)). lia.
Qed.

Lemma wrap64_id z : in_int64 z -> wrap64 z = z.
Proof.
  unfold in_int64, wrap64, int64_min, int64_max. intros H.
  rewrite Z.mod_small by lia. lia.
Qed.

Lemma wrap64_wrap_l z d : wrap64 (wrap64 z + d) = wrap64 (z + d).
Proof.
  unfold wrap64.
  replace ((z + 2 ^ 63) mod 2 ^ 64 - 2 ^ 63 + d + 2 ^ 63)
    with ((z + 2 ^ 63) mod 2 ^ 64 + d) by lia.
  rewrite Zplus_mod_idemp_l. do 2 f_equal. lia.
Qed.

(** An atomic increment and the decrement that undoes it. *)
Lemma wrap64_undo z : in_int64 z -> wrap64 (wrap64 (z + 1) + -1) = z.
Proof.
  intros Hz. rewrite wrap64_wrap_l. replace (z + 1 + -1) with z by lia. by apply wrap64_id.
Qed.

Lemma wrapu64_in z : in_uint64 (wrapu64 z).
Proof. apply Z.mod_pos_bound. lia. Qed.

Lemma wrapu64_id z : in_uint64 z -> wrapu64 z = z.
Proof. apply Z.mod_small. Qed.

Lemma wrapu64_succ_l z : wrapu64 (wrapu64 z + 1) = wrapu64 (z + 1).
Proof. unfold wrapu64. by rewrite Zplus_mod_idemp_l. Qed.
End Int64.

#[export] Hint Resolve wrap64_in wrapu64_in : fluxor.

(** Decides range facts about concrete or bounded integers. *)
Ltac solve_int64 :=
  unfold in_int64, in_uint64, int64_min, int64_max in *; lia.

(** ** Time

    A [time.Time] is the number of nanoseconds since the zero instant
    (January 1, year 1), so that [IsZero] is a comparison with [0];
    [Sub] saturates to the range of a Duration, as the library's does.
    The clock is read by the code with [time.Now()]; every definition that reads
    it takes the reading as an argument [now]. *)
Section Time.
Local Open Scope Z_scope.

Definition Time_IsZero (t : Z) : bool := t =? 0.
Definition Time_After (t u : Z) : bool := u <? t.
Definition Time_Sub (t u : Z) : Z := Z.max int64_min (Z.min int64_max (t - u)).
Definition Time_Add (t d : Z) : Z := t + d.

Definition Nanosecond : Z := 1.
Definition Millisecond : Z := 1000000.
Definition Second : Z := 1000000000.
Definition Minute : Z := 60 * Second.

Lemma Time_Sub_exact t u : in_int64 (t - u) -> Time_Sub t u = t - u.
Proof. unfold Time_Sub. solve_int64. Qed.

Lemma Time_Sub_in t u : in_int64 (Time_Sub t u).
Proof. unfold Time_Sub. solve_int64. Qed.
End Time.

#[export] Hint Resolve Time_Sub_in : fluxor.

(** ** Results

    A Go function returning [(T, error)] is modelled by [result E T]: the code
    returns the zero value with every non-nil error, so exactly one of the two
    carries information.  [outcome] adds a run-time panic. *)
Inductive result (E T : Type) : Type :=
  | Ok (v : T)
  | Err (e : E).
Arguments Ok {E T} v.
Arguments Err {E T} e.

Inductive outcome (T : Type) : Type :=
  | Ret (v : T)
  | Panic (msg : string).
Arguments Ret {T} v.
Arguments Panic {T} msg.

Definition is_Ok {E T} (r : result E T) : bool :=
  match r with Ok _ => true | Err _ => false end.

Definition result_map {E A B} (f : A -> B) (r : result E A) : result E B :=
  match r with Ok v => Ok (f v) | Err e => Err e end.

Definition result_error {E T} (r : result E T) : option E :=
  match r with Ok _ => None | Err e => Some e end.

Definition outcome_bind {A B} (o : outcome A) (k : A -> outcome B) : outcome B :=
  match o with Ret v => k v | Panic m => Panic m end.

Declare Scope fluxor_scope.
Notation "x <-! o ; k" := (outcome_bind o (fun x => k))
  (at level 100, o at next level, right associativity) : fluxor_scope.
Open Scope fluxor_scope.

(** ** Tactics shared by the components *)

(** Case analysis on every discriminee of a [match] or an [if] in the goal,
    remembering the equation. *)
Ltac split_matches :=
  repeat match goal with
         | |- context [match ?x with _ => _ end] =>
             lazymatch x with
             | context [match _ with _ => _ end] => fail
             | _ => destruct x eqn:?
             end
         end.

(** Case analysis on the conditions of the [if]s in the goal only. *)
Ltac split_ifs :=
  repeat match goal with
         | |- context [if ?b then _ else _] =>
             match type of b with bool => destruct b eqn:? end
         end.

(** Turns boolean comparisons on [Z] in the context into propositions. *)
Ltac bool_to_prop :=
  repeat match goal with
         | H : (_ && _)%bool = true |- _ => apply andb_prop in H as [? ?]
         | H : (_ || _)%bool = false |- _ => apply orb_false_elim in H as [? ?]
         | H : negb _ = true |- _ => apply negb_true_iff in H
         | H : negb _ = false |- _ => apply negb_false_iff in H
         | H : (_ =? _)%Z = true |- _ => apply Z.eqb_eq in H
         | H : (_ =? _)%Z = false |- _ => apply Z.eqb_neq in H
         | H : (_ <? _)%Z = true |- _ => apply Z.ltb_lt in H
         | H : (_ <? _)%Z = false |- _ => apply Z.ltb_ge in H
         | H : (_ <=? _)%Z = true |- _ => apply Z.leb_le in H
         | H : (_ <=? _)%Z = false |- _ => apply Z.leb_gt in H
         | H : (_ >=? _)%Z = true |- _ => rewrite Z.geb_leb in H
         | H : (_ >=? _)%Z = false |- _ => rewrite Z.geb_leb in H
         | H : (_ >? _)%Z = true |- _ => rewrite Z.gtb_ltb in H
         | H : (_ >? _)%Z = false |- _ => rewrite Z.gtb_ltb in H
         | H : String.eqb _ _ = true |- _ => apply String.eqb_eq in H
         | H : String.eqb _ _ = false |- _ => apply String.eqb_neq in H
         end.

(** Equality of two terms built alike from integers that [lia] proves equal. *)
Ltac f_equal_lia := first [done | lia | progress f_equal; f_equal_lia].

(** ** Folding an operation over a schedule *)
Section Run.
Context {S O : Type} (step : O -> S -> S).

Definition run (ops : list O) (s : S) : S := foldl (fun s o => step o s) s ops.

Lemma run_nil s : run [] s = s.
Proof. done. Qed.

Lemma run_cons o ops s : run (o :: ops) s = run ops (step o s).
Proof. done. Qed.

Lemma run_app ops1 ops2 s : run (ops1 ++ ops2) s = run ops2 (run ops1 s).
Proof. apply foldl_app. Qed.

(** An invariant of every step is an invariant of every schedule. *)
Lemma run_invariant (I : S -> Prop) :
  (forall o s, I s -> I (step o s)) -> forall ops s, I s -> I (run ops s).
Proof.
  intros Hstep ops. induction ops as [|o ops IH]; intros s Hs; [done|].
  rewrite run_cons. auto.
Qed.
End Run.

(** ** Filtering lists with boolean predicates *)
Section Filter.
Context {A B : Type}.

Lemma filter_map_swap (f : A -> B) (P : B -> bool) l :
  List.filter P (map f l) = map f (List.filter (fun x => P (f x)) l).
Proof. induction l as [|x l IH]; cbn; [done|]. rewrite IH. by destruct (P (f x)). Qed.

Lemma elem_of_bfilter (P : A -> bool) l x : x ∈ List.filter P l <-> x ∈ l /\ P x = true.
Proof. rewrite !list_elem_of_In. apply List.filter_In. Qed.

Lemma bfilter_ext (P Q : A -> bool) l :
  (forall x, x ∈ l -> P x = Q x) -> List.filter P l = List.filter Q l.
Proof. intros H. apply List.filter_ext_in. intros x Hx. apply H. by apply list_elem_of_In. Qed.

Lemma bfilter_all (P : A -> bool) l : (forall x, x ∈ l -> P x = true) -> List.filter P l = l.
Proof.
  induction l as [|x l IH]; intros H; cbn; [done|].
  rewrite H by (apply elem_of_cons; by left). f_equal. apply IH. intros y Hy. apply H.
  apply elem_of_cons. by right.
Qed.

Lemma bfilter_bfilter (P Q : A -> bool) l :
  List.filter P (List.filter Q l) = List.filter (fun x => Q x && P x) l.
Proof.
  induction l as [|x l IH]; cbn; [done|].
  destruct (Q x) eqn:HQ; cbn; [destruct (P x)|]; by rewrite ?IH.
Qed.

Lemma NoDup_map_bfilter (f : A -> B) (P : A -> bool) l :
  NoDup (map f l) -> NoDup (map f (List.filter P l)).
Proof.
  induction l as [|x l IH]; cbn; [done|]. intros [Hx Hl]%NoDup_cons.
  destruct (P x); cbn; [|by apply IH]. apply NoDup_cons. split; [|by apply IH].
  rewrite list_elem_of_In, in_map_iff in *. intros (y & Hy & Hin). apply Hx. exists y. split; [done|].
  by apply filter_In in Hin as [? _].
Qed.

(** With injective [f], the element of a list is given by its image. *)
Lemma NoDup_map_inj (f : A -> B) l x y :
  NoDup (map f l) -> x ∈ l -> y ∈ l -> f x = f y -> x = y.
Proof.
  induction l as [|z l IH]; cbn; [by intros _ ?%elem_of_nil|].
  intros [Hz Hl]%NoDup_cons Hx Hy Hf.
  assert (Hin : forall w, w ∈ l -> f w <> f z).
  { intros w Hw He. apply Hz. rewrite list_elem_of_In, in_map_iff. exists w. split; [done|].
    by apply list_elem_of_In. }
  apply elem_of_cons in Hx as [->|Hx]; apply elem_of_cons in Hy as [->|Hy]; auto.
  - exfalso. by apply (Hin y).
  - exfalso. by apply (Hin x).
Qed.
End Filter.
