(* ===== verification/Pool.v ===== *)
(** * Pools of goroutines

    Lemmas on a list of goroutines of which one moves at a time: how many are at a
    given place ([count]), and the sum of a measure over them ([total]). *)
From S2P Require Import Prelude.

Definition b2n (b : bool) : nat := if b then 1 else 0.

Section Pool.
Context {A : Type}.
Implicit Types (l : list A) (P Q : A -> bool) (m : A -> nat).

Fixpoint total m l : nat :=
  match l with
  | [] => 0
  | x :: l => m x + total m l
  end.

Definition count P l : nat := total (fun x => b2n (P x)) l.

(** What one goroutine's move does to a sum. *)
Lemma total_insert m l i x y :
  l !! i = Some x -> total m (<[i := y]> l) + m x = total m l + m y.
Proof.
  revert i. induction l as [|z l IH]; intros [|i]; cbn; try done.
  - intros [= ->]. lia.
  - intros H. specialize (IH i H). change (m z + total m (<[i := y]> l) + m x = m z + total m l + m y). lia.
Qed.

Lemma count_insert P l i x y :
  l !! i = Some x -> count P (<[i := y]> l) + b2n (P x) = count P l + b2n (P y).
Proof. apply (total_insert (fun x => b2n (P x))). Qed.

Lemma total_lookup m l i x : l !! i = Some x -> m x <= total m l.
Proof.
  revert i. induction l as [|z l IH]; intros [|i]; cbn; try done.
  - intros [= ->]. lia.
  - intros H. specialize (IH i H). lia.
Qed.

Lemma count_lookup P l i x : l !! i = Some x -> b2n (P x) <= count P l.
Proof. apply (total_lookup (fun x => b2n (P x))). Qed.

Lemma count_exists P l : 0 < count P l -> exists i x, l !! i = Some x /\ P x = true.
Proof.
  induction l as [|z l IH]; cbn; [lia|]. destruct (P z) eqn:Hz.
  - intros _. by exists 0, z.
  - intros H. destruct (IH H) as (i & x & Hi & Hx). by exists (S i), x.
Qed.

Lemma count_zero P l : (forall i x, l !! i = Some x -> P x = false) -> count P l = 0.
Proof.
  intros H. destruct (count P l) eqn:Hc; [done|].
  destruct (count_exists P l) as (i & x & Hi & Hx); [lia|]. by rewrite (H i x Hi) in Hx.
Qed.

Lemma count_le P Q l : (forall x, P x = true -> Q x = true) -> count P l <= count Q l.
Proof.
  unfold count. intros H. induction l as [|x l IH]; cbn; [done|]. specialize (H x).
  destruct (P x), (Q x); cbn; first [lia|by specialize (H eq_refl)].
Qed.

(** Goroutines at one of two places. *)
Lemma count_add P Q l :
  (forall x, P x = true -> Q x = false) ->
  count (fun x => P x || Q x) l = count P l + count Q l.
Proof.
  unfold count. intros H. induction l as [|x l IH]; cbn; [done|]. specialize (H x). rewrite IH.
  destruct (P x), (Q x); cbn; first [lia|by specialize (H eq_refl)].
Qed.

Lemma count_ext P Q l :
  (forall i x, l !! i = Some x -> P x = Q x) -> count P l = count Q l.
Proof.
  unfold count. intros H. induction l as [|x l IH]; cbn; [done|].
  rewrite (H 0 x eq_refl), IH; [done|]. intros i y. exact (H (S i) y).
Qed.

Lemma total_bound m l b : (forall x, m x <= b) -> total m l <= b * length l.
Proof. intros H. induction l as [|x l IH]; cbn; [lia|]. specialize (H x). lia. Qed.

End Pool.

(** A relation each of whose steps takes something off a measure makes no more steps
    than the measure. *)
Lemma nsteps_measure {S : Type} (R : S -> S -> Prop) (m : S -> nat) :
  (forall s s', R s s' -> m s' < m s) ->
  forall n s s', nsteps R n s s' -> n + m s' <= m s.
Proof.
  intros HR n. induction n as [|n IH]; intros s s'; inversion 1; subst; [lia|].
  match goal with H1 : R _ _, H2 : nsteps _ _ _ _ |- _ => apply HR in H1; apply IH in H2 end. lia.
Qed.

(** A step to a state given by an equal term. *)
Lemma step_to {S : Type} (R : S -> S -> Prop) s x y : R s x -> x = y -> R s y.
Proof. by intros ? <-. Qed.
