(* ===== verification/Errors.v ===== *)
(** * Errors (errors.go, and the sentinel errors of gate.go)

    Go [error] values as an inductive type: the package's sentinel errors, the
    two context errors, errors made outside the repository, the formatted errors
    of [fmt.Errorf] and the repository's own [DatabaseError].  A nil error is
    [None : option error]. *)
From S2P Require Import Prelude.

Inductive error : Type :=
  | ErrCircuitOpen                 (* errors.New("circuit breaker is open") *)
  | ErrRateLimitExceeded           (* errors.New("rate limit exceeded") *)
  | ErrConnectionLimit             (* errors.New("connection limit exceeded") *)
  | DeadlineExceeded               (* context.DeadlineExceeded *)
  | Canceled                       (* context.Canceled *)
  | External (id : Z) (msg : string)
      (* an error value made by database/sql, a driver, net or os; [id] stands
         for the identity of the value, which is what [==] compares *)
  | Errorf (msg : string)          (* fmt.Errorf without %w *)
  | Wrapf (pre : string) (err : error) (post : string)
      (* fmt.Errorf("pre%wpost", err): Unwrap gives err back *)
  | DatabaseError (Code Message : string) (Err : option error).

Definition error_dec : forall x y : error, {x = y} + {x <> y}.
Proof.
  fix IH 1. intros x y.
  destruct x as [| | | | |i m|m|p e q|c m o], y as [| | | | |i' m'|m'|p' e' q'|c' m' o'];
    try (left; reflexivity); try (right; discriminate).
  - destruct (decide (i = i')), (decide (m = m')); [left|right..]; congruence.
  - destruct (decide (m = m')); [left|right]; congruence.
  - destruct (decide (p = p')), (decide (q = q')), (IH e e'); [left|right..]; congruence.
  - assert ({o = o'} + {o <> o'}) as [|].
    { destruct o as [e|], o' as [e'|]; try (left; reflexivity); try (right; discriminate).
      destruct (IH e e'); [left|right]; congruence. }
    + destruct (decide (c = c')), (decide (m = m')); [left|right..]; congruence.
    + right; congruence.
Defined.

#[export] Instance error_eq_dec : EqDecision error := error_dec.

(** ** Text and unwrapping *)
Definition DatabaseError_Error (Code Message : string) (inner : option string) : string :=
  match inner with
  | Some t => Code +:+ ": " +:+ Message +:+ " (" +:+ t +:+ ")"
  | None => Code +:+ ": " +:+ Message
  end.

(** [err.Error()], the text of an error. *)
Fixpoint Error_text (e : error) : string :=
  match e with
  | ErrCircuitOpen => "circuit breaker is open"
  | ErrRateLimitExceeded => "rate limit exceeded"
  | ErrConnectionLimit => "connection limit exceeded"
  | DeadlineExceeded => "context deadline exceeded"
  | Canceled => "context canceled"
  | External _ msg => msg
  | Errorf msg => msg
  | Wrapf pre err post => pre +:+ Error_text err +:+ post
  | DatabaseError c m o =>
      DatabaseError_Error c m (match o with Some err => Some (Error_text err) | None => None end)
  end.

(** [errors.Unwrap]. *)
Definition Unwrap (e : error) : option error :=
  match e with
  | Wrapf _ err _ => Some err
  | DatabaseError _ _ o => o
  | _ => None
  end.

(** [errors.As(err, &dbErr)] for a [*DatabaseError] target: the first one met
    from the outside in, given by its [Code], [Message] and [Err]. *)
Fixpoint errors_As_DatabaseError (e : error) : option (string * string * option error) :=
  match e with
  | DatabaseError c m o => Some (c, m, o)
  | Wrapf _ err _ => errors_As_DatabaseError err
  | _ => None
  end.

Definition ErrCodeConnectionFailed : string := "CONNECTION_FAILED".
Definition ErrCodeQueryFailed : string := "QUERY_FAILED".
Definition ErrCodeTransactionFailed : string := "TRANSACTION_FAILED".
Definition ErrCodeCircuitBreakerOpen : string := "CIRCUIT_BREAKER_OPEN".
Definition ErrCodeRateLimitExceeded : string := "RATE_LIMIT_EXCEEDED".
Definition ErrCodeConnectionLeak : string := "CONNECTION_LEAK".
Definition ErrCodeValidationFailed : string := "VALIDATION_FAILED".
Definition ErrCodeTimeout : string := "TIMEOUT".
Definition ErrCodeRetryExhausted : string := "RETRY_EXHAUSTED".

Definition NewDatabaseError (code message : string) (err : option error) : error :=
  DatabaseError code message err.

Definition IsRetryableError (err : option error) : bool :=
  match err with
  | None => false
  | Some e =>
      match errors_As_DatabaseError e with
      | Some (code, _, _) =>
          String.eqb code ErrCodeTimeout || String.eqb code ErrCodeConnectionFailed
      | None => false
      end
  end.

Definition IsCircuitBreakerError (err : option error) : bool :=
  match err with
  | None => false
  | Some e =>
      match errors_As_DatabaseError e with
      | Some (code, _, _) => String.eqb code ErrCodeCircuitBreakerOpen
      | None => false
      end
  end.

Definition WrapError (code message : string) (err : option error) : option error :=
  match err with
  | None => None
  | Some e => Some (NewDatabaseError code message (Some e))
  end.

(** ** Lemmas *)
Section Classification.
(** An error is found through any number of [%w] wrappings. *)
Lemma errors_As_Wrapf pre e post :
  errors_As_DatabaseError (Wrapf pre e post) = errors_As_DatabaseError e.
Proof. done. Qed.

Lemma IsRetryableError_Wrapf pre e post :
  IsRetryableError (Some (Wrapf pre e post)) = IsRetryableError (Some e).
Proof. done. Qed.

(** The sentinel errors the gate returns are not [DatabaseError]s, so neither
    classifier recognises them. *)
Lemma sentinel_not_classified e :
  e ∈ [ErrCircuitOpen; ErrRateLimitExceeded; ErrConnectionLimit; DeadlineExceeded; Canceled] ->
  IsRetryableError (Some e) = false /\ IsCircuitBreakerError (Some e) = false.
Proof.
  rewrite !elem_of_cons, elem_of_nil. by intros [->|[->|[->|[->|[->|[]]]]]].
Qed.
End Classification.
