(* ===== verification/GoStrings.v ===== *)
(** * The functions of package strings that the repository uses

    Splitting, joining, trimming and looking for prefixes, suffixes and substrings, on
    byte strings; with the lemmas that undo one by the other. *)
From Stdlib Require Import Ascii.
From S2P Require Import Prelude.
Local Open Scope string_scope.
Local Open Scope list_scope.

(** [strings.Split(s, sep)] for a separator of one character. *)
Fixpoint Split (sep : ascii) (s : string) : list string :=
  match s with
  | EmptyString => [""]
  | String c s =>
      if Ascii.eqb c sep then "" :: Split sep s
      else match Split sep s with
           | x :: xs => String c x :: xs
           | [] => [String c ""]
           end
  end.

(** [strings.Join(ss, sep)] *)
Fixpoint strings_Join (sep : string) (ss : list string) : string :=
  match ss with
  | [] => ""
  | [s] => s
  | s :: ss => s +:+ sep +:+ strings_Join sep ss
  end.

Definition HasPrefix (s pre : string) : bool := String.prefix pre s.

Definition HasSuffix (s suf : string) : bool :=
  (String.length suf <=? String.length s)%nat &&
  String.eqb (String.substring (String.length s - String.length suf) (String.length suf) s) suf.

(** [strings.Contains(s, sub)] *)
Fixpoint Contains (s sub : string) : bool :=
  HasPrefix s sub || match s with EmptyString => false | String _ s => Contains s sub end.

(** [strings.SplitN(s, sep, 2)], when it has two parts. *)
Fixpoint Cut (sep : ascii) (s : string) : option (string * string) :=
  match s with
  | EmptyString => None
  | String c s =>
      if Ascii.eqb c sep then Some ("", s)
      else '(x, y) ← Cut sep s; Some (String c x, y)
  end.

Definition in_cutset (cutset : string) (c : ascii) : bool :=
  existsb (Ascii.eqb c) (String.list_ascii_of_string cutset).

Fixpoint TrimLeft (cutset s : string) : string :=
  match s with
  | EmptyString => ""
  | String c s' => if in_cutset cutset c then TrimLeft cutset s' else s
  end.

Fixpoint TrimRight (cutset s : string) : string :=
  match s with
  | EmptyString => ""
  | String c s =>
      match TrimRight cutset s with
      | EmptyString => if in_cutset cutset c then "" else String c ""
      | r => String c r
      end
  end.

(** [strings.Trim(s, cutset)] *)
Definition Trim (s cutset : string) : string := TrimRight cutset (TrimLeft cutset s).

(** ** Splitting *)
Lemma Split_nonempty sep s : Split sep s <> [].
Proof. destruct s as [|c s]; cbn; [done|]. destruct (Ascii.eqb c sep); [done|]. by destruct (Split sep s). Qed.

Lemma Split_app sep s t :
  Split sep s = [s] -> Split sep (s +:+ String sep t) = s :: Split sep t.
Proof.
  intros Hs. induction s as [|c s IH].
  { change (Split sep (String sep t) = "" :: Split sep t). cbn [Split]. by rewrite Ascii.eqb_refl. }
  change (Split sep (String c (s +:+ String sep t)) = String c s :: Split sep t). cbn [Split] in *.
  destruct (Ascii.eqb c sep); [done|]. destruct (Split sep s) as [|x xs] eqn:Hx; [by destruct (Split_nonempty sep s)|].
  injection Hs as -> ->. by rewrite IH.
Qed.

Lemma Split_snoc sep s t : Split sep s = [s] -> Split sep t = [t] -> Split sep (s +:+ t) = [s +:+ t].
Proof.
  intros Hs Ht. induction s as [|c s IH]; [done|].
  change (Split sep (String c (s +:+ t)) = [String c (s +:+ t)]). cbn [Split] in *.
  destruct (Ascii.eqb c sep); [done|]. destruct (Split sep s) as [|x xs] eqn:Hx; [by destruct (Split_nonempty sep s)|].
  injection Hs as -> ->. by rewrite IH.
Qed.

Lemma Split_strings_Join sep ks :
  ks <> [] -> Forall (fun k => Split sep k = [k]) ks ->
  Split sep (strings_Join (String sep "") ks) = ks.
Proof.
  intros Hne Hks. induction Hks as [|k ks Hk _ IH]; [done|].
  destruct ks as [|k' ks]; [done|].
  change (Split sep (k +:+ String sep (strings_Join (String sep "") (k' :: ks))) = k :: k' :: ks).
  rewrite Split_app by done. by rewrite IH.
Qed.

(** A string that does not contain the separator is cut at the first one after it. *)
Lemma Cut_app sep s t : Split sep s = [s] -> Cut sep (s +:+ String sep t) = Some (s, t).
Proof.
  intros Hs. induction s as [|c s IH].
  { change (Cut sep (String sep t) = Some ("", t)). cbn [Cut]. by rewrite Ascii.eqb_refl. }
  change (Cut sep (String c (s +:+ String sep t)) = Some (String c s, t)). cbn [Split Cut] in *.
  destruct (Ascii.eqb c sep); [done|]. destruct (Split sep s) as [|x xs] eqn:Hx; [by destruct (Split_nonempty sep s)|].
  injection Hs as -> ->. by rewrite IH.
Qed.

(** ** Trimming *)
Lemma TrimRight_app cutset s t :
  TrimRight cutset t = "" -> TrimRight cutset (s +:+ t) = TrimRight cutset s.
Proof.
  intros Ht. induction s as [|c s IH]; [done|].
  change (TrimRight cutset (String c (s +:+ t)) = TrimRight cutset (String c s)). cbn [TrimRight].
  by rewrite IH.
Qed.

Lemma TrimRight_last cutset s c :
  in_cutset cutset c = false -> TrimRight cutset (s +:+ String c "") = s +:+ String c "".
Proof.
  intros Hc. induction s as [|d s IH].
  { change (TrimRight cutset (String c "") = String c ""). cbn [TrimRight]. by rewrite Hc. }
  change (TrimRight cutset (String d (s +:+ String c "")) = String d (s +:+ String c "")). cbn [TrimRight].
  rewrite IH. by destruct s.
Qed.

(** A string wrapped in characters of the cut set, itself starting and ending with
    others. *)
Lemma Trim_wrapped cutset a s b :
  in_cutset cutset a = true -> in_cutset cutset b = true ->
  TrimLeft cutset s = s -> TrimRight cutset s = s ->
  Trim (String a "" +:+ s +:+ String b "") cutset = s.
Proof.
  intros Ha Hb Hl Hr. unfold Trim.
  change (TrimRight cutset (TrimLeft cutset (String a (s +:+ String b ""))) = s). cbn [TrimLeft]. rewrite Ha.
  assert (Hb' : TrimRight cutset (String b "") = "") by (cbn [TrimRight]; by rewrite Hb).
  destruct s as [|c s].
  - change (TrimRight cutset (TrimLeft cutset (String b "")) = ""). cbn [TrimLeft]. by rewrite Hb.
  - change (TrimRight cutset (TrimLeft cutset (String c (s +:+ String b ""))) = String c s).
    cbn [TrimLeft] in *. destruct (in_cutset cutset c) eqn:Hc.
    + exfalso. assert (forall x, String.length (TrimLeft cutset x) <= String.length x)%nat as Hlen.
      { induction x as [|d x IH]; cbn [TrimLeft]; [done|]. destruct (in_cutset cutset d); cbn; lia. }
      specialize (Hlen s). rewrite Hl in Hlen. cbn in Hlen. lia.
    + change (TrimRight cutset (String c s +:+ String b "") = String c s). by rewrite TrimRight_app.
Qed.

(** ** Suffixes *)
Lemma String_app_cons (c : ascii) s t : String c s +:+ t = String c (s +:+ t).
Proof. reflexivity. Qed.

Lemma String_app_nil (s : string) : s +:+ "" = s.
Proof. induction s as [|c s IH]; [done|]. change (String c (s +:+ "") = String c s). by rewrite IH. Qed.

Lemma String_app_assoc s t u : (s +:+ t) +:+ u = s +:+ (t +:+ u).
Proof.
  induction s as [|c s IH]; [done|].
  change (String c ((s +:+ t) +:+ u) = String c (s +:+ (t +:+ u))). by rewrite IH.
Qed.

Lemma String_length_app s t : String.length (s +:+ t) = (String.length s + String.length t)%nat.
Proof.
  induction s as [|c s IH]; [done|]. change (S (String.length (s +:+ t)) = S (String.length s) + String.length t)%nat.
  lia.
Qed.

Lemma substring_all s : String.substring 0 (String.length s) s = s.
Proof. induction s as [|c s IH]; cbn; [done|]. by rewrite IH. Qed.

Lemma substring_suffix s t :
  String.substring (String.length s) (String.length t) (s +:+ t) = t.
Proof. induction s as [|c s IH]; [apply substring_all|]. exact IH. Qed.

Lemma HasSuffix_app s t : HasSuffix (s +:+ t) t = true.
Proof.
  unfold HasSuffix. rewrite String_length_app.
  replace (String.length s + String.length t - String.length t)%nat with (String.length s) by lia.
  rewrite substring_suffix, String.eqb_refl, andb_true_r. apply Nat.leb_le. lia.
Qed.

Lemma String_app_inj_l s t suf : s +:+ suf = t +:+ suf -> s = t.
Proof.
  revert t. induction s as [|c s IH]; intros [|d t]; [done|..].
  - intros H%(f_equal String.length). rewrite !String_length_app in H. cbn in H. lia.
  - intros H%(f_equal String.length). rewrite !String_length_app in H. cbn in H. lia.
  - change (String c (s +:+ suf) = String d (t +:+ suf) -> String c s = String d t).
    intros [= -> H]. by rewrite (IH t).
Qed.
