(* ===== verification/GoFloat.v ===== *)
(** * Go's float64 arithmetic

    The rate limiter and the retry loops compute with [float64].  Values and
    operations are those of IEEE 754 binary64 (Stdlib's executable [SpecFloat],
    rounding to nearest even), which is what Go specifies.  Conversion of a value
    outside the integer type is implementation-defined in Go: it is the parameter
    [oor] of [Int64_of_float].  The lemmas give the exactness the components
    rely on: products of integers below 2^53. *)
From Stdlib Require Export SpecFloat.
From S2P Require Import Prelude.
Local Open Scope Z_scope.

Definition float64 : Type := spec_float.

Definition f64_of_Z (z : Z) : float64 := binary_normalize 53 1024 z 0 false.
Definition f64_mul (x y : float64) : float64 := SFmul 53 1024 x y.
Definition f64_add (x y : float64) : float64 := SFadd 53 1024 x y.
Definition f64_div (x y : float64) : float64 := SFdiv 53 1024 x y.

(** The integer part of a finite value; [None] for a NaN and the infinities. *)
Definition f64_trunc (x : float64) : option Z :=
  match x with
  | S754_zero _ => Some 0
  | S754_finite s m e =>
      let a := if 0 <=? e then Zpos m * 2 ^ e else Zpos m / 2 ^ (- e) in
      Some (if s then - a else a)
  | _ => None
  end.

(** [int64(x)] *)
Definition Int64_of_float (oor : float64 -> Z) (x : float64) : Z :=
  match f64_trunc x with
  | Some z => if decide (in_int64 z) then z else wrap64 (oor x)
  | None => wrap64 (oor x)
  end.

(** [d.Seconds()]: the whole seconds plus the nanoseconds over 1e9. *)
Definition Duration_Seconds (d : Z) : float64 :=
  let sec := Z.quot d Second in
  let nsec := Z.rem d Second in
  f64_add (f64_of_Z sec) (f64_div (f64_of_Z nsec) (f64_of_Z 1000000000)).

(** The normal form of a positive integer below 2^53. *)
Definition f64_nat (n : Z) : float64 :=
  S754_finite false (Z.to_pos (n * 2 ^ (52 - Z.log2 n))) (Z.log2 n - 52).

Section Exact.

Lemma digits2_pos_log2 p : Zpos (digits2_pos p) = Z.log2 (Zpos p) + 1.
Proof.
  assert (digits2_pos p = Pos.size p) as ->.
  { induction p as [p IH|p IH|]; cbn; rewrite ?IH; done. }
  destruct p; cbn; lia.
Qed.

Lemma Zdigits2_log2 m : 0 < m -> Zdigits2 m = Z.log2 m + 1.
Proof. intros Hm. destruct m as [|p|p]; [lia| |lia]. apply digits2_pos_log2. Qed.

(** Shifting out zeros loses nothing. *)
Lemma shr_1_double k : 0 < k ->
  shr_1 (Build_shr_record (k * 2) false false) = Build_shr_record k false false.
Proof. intros Hk. destruct k as [|p|p]; [lia| |lia]. by rewrite Z.mul_comm. Qed.

Lemma iter_shr_exact n : forall k, 0 < k ->
  SpecFloat.iter_pos shr_1 n (Build_shr_record (k * 2 ^ Zpos n) false false) =
    Build_shr_record k false false.
Proof.
  induction n as [n IH|n IH|]; intros k Hk; cbn [SpecFloat.iter_pos].
  - replace (k * 2 ^ Zpos n~1) with (k * 2 ^ Zpos n * 2 ^ Zpos n * 2).
    2:{ replace (Zpos n~1) with (Zpos n + Zpos n + 1) by lia. rewrite !Z.pow_add_r by lia. lia. }
    rewrite shr_1_double, !IH by (repeat apply Z.mul_pos_pos; lia). done.
  - replace (k * 2 ^ Zpos n~0) with (k * 2 ^ Zpos n * 2 ^ Zpos n).
    2:{ replace (Zpos n~0) with (Zpos n + Zpos n) by lia. rewrite Z.pow_add_r by lia. lia. }
    rewrite !IH by (repeat apply Z.mul_pos_pos; lia). done.
  - change (2 ^ 1) with 2. by apply shr_1_double.
Qed.

Lemma shr_fexp_exact k n e :
  0 < k -> 0 <= n -> Z.log2 k = 52 -> -1074 <= e + n ->
  shr_fexp 53 1024 (k * 2 ^ n) e loc_Exact = (Build_shr_record k false false, e + n).
Proof.
  intros Hk Hn Hlog He. unfold shr_fexp.
  rewrite Zdigits2_log2 by (apply Z.mul_pos_pos; lia).
  rewrite Z.log2_mul_pow2, Hlog by lia.
  replace (fexp 53 1024 (n + 52 + 1 + e) - e) with n by (unfold fexp, emin; lia).
  destruct n as [|p|p]; [|by cbn; rewrite iter_shr_exact|lia].
  cbn. by rewrite Z.mul_1_r, Z.add_0_r.
Qed.

Lemma round_exact s k n e :
  0 < k -> 0 <= n -> Z.log2 k = 52 -> -1074 <= e + n <= 971 ->
  binary_round_aux 53 1024 s (k * 2 ^ n) e loc_Exact = S754_finite s (Z.to_pos k) (e + n).
Proof.
  intros Hk Hn Hlog He. unfold binary_round_aux.
  rewrite shr_fexp_exact by lia. cbn [shr_m loc_of_shr_record round_nearest_even].
  pose proof (shr_fexp_exact k 0 (e + n)) as H0.
  rewrite Z.mul_1_r, Z.add_0_r in H0. rewrite H0 by lia. cbn [shr_m].
  destruct k as [|p|p]; [lia| |lia].
  destruct (Z.leb_spec (e + n) (1024 - 53)); [done|lia].
Qed.

Lemma log2_scaled n : 0 < n < 2 ^ 53 -> Z.log2 n <= 52 /\ Z.log2 (n * 2 ^ (52 - Z.log2 n)) = 52.
Proof.
  intros Hn. assert (Z.log2 n < 53) by (apply Z.log2_lt_pow2; lia).
  split; [lia|]. rewrite Z.log2_mul_pow2; lia.
Qed.

Lemma iter_xO n p : Zpos (Pos.iter xO p n) = Zpos p * 2 ^ Zpos n.
Proof.
  revert p. induction n as [|n IH] using Pos.peano_ind; intros p; [cbn; lia|].
  rewrite Pos.iter_succ, Pos2Z.inj_xO, IH, Pos2Z.inj_succ, Z.pow_succ_r by lia. lia.
Qed.

Lemma f64_of_Z_nat n : 0 < n < 2 ^ 53 -> f64_of_Z n = f64_nat n.
Proof.
  intros Hn. destruct (log2_scaled n Hn) as [Hl Hs]. pose proof (Z.log2_nonneg n).
  destruct n as [|p|p]; [lia| |lia].
  unfold f64_of_Z, f64_nat. cbn [binary_normalize]. unfold binary_round.
  rewrite digits2_pos_log2.
  assert (fexp 53 1024 (Z.log2 (Zpos p) + 1 + 0) = Z.log2 (Zpos p) - 52) as ->
    by (unfold fexp, emin; lia).
  unfold shl_align.
  assert (exists q, shl_align p 0 (Z.log2 (Zpos p) - 52) = (q, Z.log2 (Zpos p) - 52) /\
    Zpos q = Zpos p * 2 ^ (52 - Z.log2 (Zpos p))) as (q & Hq & Hqv).
  { unfold shl_align. destruct (Z.log2 (Zpos p) - 52 - 0) as [|d|d] eqn:Hd; [|lia|].
    - exists p. replace (Z.log2 (Zpos p)) with 52 by lia. split; [done|]. cbn; lia.
    - eexists. split; [done|]. rewrite iter_xO. repeat f_equal. lia. }
  unfold shl_align in Hq. rewrite Hq, Hqv.
  pose proof (round_exact false (Zpos p * 2 ^ (52 - Z.log2 (Zpos p))) 0 (Z.log2 (Zpos p) - 52)) as Hr.
  rewrite Z.mul_1_r, Z.add_0_r in Hr. apply Hr; lia.
Qed.

Lemma f64_nat_mul a b : 0 < a -> 0 < b -> a * b < 2 ^ 53 ->
  f64_mul (f64_nat a) (f64_nat b) = f64_nat (a * b).
Proof.
  intros Ha Hb Hab.
  assert (0 < a < 2 ^ 53) as Ha' by nia. assert (0 < b < 2 ^ 53) as Hb' by nia.
  assert (0 < a * b < 2 ^ 53) as Hab' by nia.
  destruct (log2_scaled _ Ha'), (log2_scaled _ Hb'), (log2_scaled _ Hab').
  pose proof (Z.log2_mul_below a b). pose proof (Z.log2_nonneg a). pose proof (Z.log2_nonneg b).
  unfold f64_mul, f64_nat. cbn [SFmul xorb].
  rewrite Pos2Z.inj_mul, !Z2Pos.id by (apply Z.mul_pos_pos; lia).
  assert (2 ^ (52 - Z.log2 a) * 2 ^ (52 - Z.log2 b) =
    2 ^ (52 - Z.log2 (a * b)) * 2 ^ (52 + Z.log2 (a * b) - Z.log2 a - Z.log2 b)) as Hpow.
  { rewrite <- !Z.pow_add_r by lia. f_equal. lia. }
  replace (a * 2 ^ (52 - Z.log2 a) * (b * 2 ^ (52 - Z.log2 b)))
    with (a * b * 2 ^ (52 - Z.log2 (a * b)) * 2 ^ (52 + Z.log2 (a * b) - Z.log2 a - Z.log2 b)).
  2:{ transitivity (a * b * (2 ^ (52 - Z.log2 a) * 2 ^ (52 - Z.log2 b))); [|ring].
      rewrite Hpow. ring. }
  rewrite round_exact by (try apply Z.mul_pos_pos; lia).
  f_equal. lia.
Qed.

Lemma f64_nat_trunc n : 0 < n < 2 ^ 53 -> f64_trunc (f64_nat n) = Some n.
Proof.
  intros Hn. destruct (log2_scaled n Hn). unfold f64_nat, f64_trunc.
  rewrite Z2Pos.id by (apply Z.mul_pos_pos; lia).
  destruct (Z.leb_spec 0 (Z.log2 n - 52)).
  - replace (52 - Z.log2 n) with 0 by lia. replace (Z.log2 n - 52) with 0 by lia. f_equal; lia.
  - replace (- (Z.log2 n - 52)) with (52 - Z.log2 n) by lia.
    rewrite Z.div_mul; [done|]. apply Z.pow_nonzero; lia.
Qed.

(** Products of integers below 2^53 are exact. *)
Lemma f64_mul_exact a b : 0 <= a -> 0 <= b -> a < 2 ^ 53 -> b < 2 ^ 53 -> a * b < 2 ^ 53 ->
  f64_trunc (f64_mul (f64_of_Z a) (f64_of_Z b)) = Some (a * b).
Proof.
  intros Ha Hb Ha' Hb' Hab.
  destruct (decide (a = 0)) as [->|], (decide (b = 0)) as [->|].
  - done.
  - by rewrite (f64_of_Z_nat b) by lia.
  - rewrite Z.mul_0_r. by rewrite (f64_of_Z_nat a) by lia.
  - rewrite !f64_of_Z_nat, f64_nat_mul, f64_nat_trunc by nia. done.
Qed.

(** [Seconds] of a whole number of seconds. *)
Lemma Duration_Seconds_whole s : 0 <= s < 2 ^ 53 -> Duration_Seconds (s * Second) = f64_of_Z s.
Proof.
  intros Hs. unfold Duration_Seconds. rewrite Z.quot_mul, Z.rem_mul by (unfold Second; lia).
  destruct (decide (s = 0)) as [->|]; [done|]. by rewrite f64_of_Z_nat by lia.
Qed.

Lemma Int64_of_float_in oor x : in_int64 (Int64_of_float oor x).
Proof. unfold Int64_of_float. destruct (f64_trunc x); [case_decide|]; auto with fluxor. Qed.

Lemma Int64_of_float_trunc oor x z : f64_trunc x = Some z -> in_int64 z -> Int64_of_float oor x = z.
Proof. intros Hx Hz. unfold Int64_of_float. rewrite Hx. by rewrite decide_True. Qed.

(** ** Integers of machine size are in range *)
Definition f64_finite (x : float64) : bool :=
  match x with S754_zero _ | S754_finite _ _ _ => true | _ => false end.

Lemma shr_1_bound mrs m : 0 <= shr_m mrs <= m -> 0 <= shr_m (shr_1 mrs) <= m.
Proof.
  destruct mrs as [[|p|p] r s]; cbn; [done| |lia].
  intros H. destruct p as [p|p|]; cbn; lia.
Qed.

Lemma iter_shr_bound n : forall mrs m,
  0 <= shr_m mrs <= m -> 0 <= shr_m (SpecFloat.iter_pos shr_1 n mrs) <= m.
Proof.
  induction n as [n IH|n IH|]; intros mrs m Hm; cbn [SpecFloat.iter_pos].
  - apply IH, IH. by apply shr_1_bound.
  - by apply IH, IH.
  - by apply shr_1_bound.
Qed.

Lemma Zdigits2_bound m k : 0 <= m < 2 ^ k -> 0 <= k -> Zdigits2 m <= k.
Proof.
  intros Hm Hk. destruct (decide (m = 0)) as [->|Hne]; [done|].
  rewrite Zdigits2_log2 by lia. assert (Z.log2 m < k) by (apply Z.log2_lt_pow2; lia). lia.
Qed.

Lemma shr_fexp_bound m e l k : 0 <= m < 2 ^ k -> 53 <= k -> -1074 <= k - 53 + e ->
  0 <= shr_m (shr_fexp 53 1024 m e l).1 <= m /\ (shr_fexp 53 1024 m e l).2 <= Z.max e (k - 53 + e).
Proof.
  intros Hm Hk He. unfold shr_fexp, shr.
  assert (Hrec : 0 <= shr_m (shr_record_of_loc m l) <= m) by (destruct l as [|[]]; cbn; lia).
  pose proof (Zdigits2_bound m k Hm ltac:(lia)) as Hd.
  assert (Hf : fexp 53 1024 (Zdigits2 m + e) <= k - 53 + e) by (unfold fexp, emin; lia).
  destruct (fexp 53 1024 (Zdigits2 m + e) - e) as [|p|p] eqn:Hp; cbn [fst snd]; [lia| |lia].
  split; [by apply iter_shr_bound|lia].
Qed.

Lemma round_finite s m e l : 0 <= m < 2 ^ 100 -> -1074 <= e <= 100 ->
  f64_finite (binary_round_aux 53 1024 s m e l) = true.
Proof.
  intros Hm He. unfold binary_round_aux.
  pose proof (shr_fexp_bound m e l 100 Hm ltac:(lia) ltac:(lia)) as [H1 He1].
  destruct (shr_fexp 53 1024 m e l) as [mrs e1]. cbn [fst snd] in *.
  set (m1 := round_nearest_even (shr_m mrs) (loc_of_shr_record mrs)).
  assert (Hm1 : 0 <= m1 < 2 ^ 101).
  { unfold m1, round_nearest_even. destruct (loc_of_shr_record mrs) as [|[]]; try lia.
    destruct (Z.even (shr_m mrs)); lia. }
  assert (He2 : (shr_fexp 53 1024 m1 e1 loc_Exact).2 <= 971 /\ 0 <= shr_m (shr_fexp 53 1024 m1 e1 loc_Exact).1).
  { destruct (Z.le_gt_cases (-1074) (101 - 53 + e1)) as [Hlow|Hlow].
    - pose proof (shr_fexp_bound m1 e1 loc_Exact 101 Hm1 ltac:(lia) Hlow). lia.
    - pose proof (shr_fexp_bound m1 e1 loc_Exact (53 - 1074 - e1)) as Hb.
      assert (2 ^ 101 <= 2 ^ (53 - 1074 - e1)) by (apply Z.pow_le_mono_r; lia). lia. }
  destruct (shr_fexp 53 1024 m1 e1 loc_Exact) as [mrs2 e2]. cbn [fst snd] in *.
  destruct (shr_m mrs2); [done| |lia]. destruct (Z.leb_spec e2 (1024 - 53)); [done|lia].
Qed.

Lemma f64_of_Z_finite z : Z.abs z <= 2 ^ 64 -> f64_finite (f64_of_Z z) = true.
Proof.
  assert (Hp : forall s p, Zpos p <= 2 ^ 64 -> f64_finite (binary_round 53 1024 s p 0) = true).
  { intros s p Hp. unfold binary_round. rewrite digits2_pos_log2.
    assert (Hl : Z.log2 (Zpos p) <= 64) by (transitivity (Z.log2 (2 ^ 64)); [by apply Z.log2_le_mono|done]).
    pose proof (Z.log2_nonneg (Zpos p)) as Hl0.
    set (f := fexp 53 1024 (Z.log2 (Zpos p) + 1 + 0)).
    assert (Hf : f = Z.log2 (Zpos p) - 52) by (unfold f, fexp, emin; lia).
    unfold shl_align. destruct (f - 0) as [|d|d] eqn:Hd; [apply round_finite; lia..|].
    apply round_finite; [|lia]. split; [lia|]. unfold shift_pos.
    rewrite iter_xO. assert (Zpos p < 2 ^ (Z.log2 (Zpos p) + 1)) by (rewrite Z.add_1_r; apply Z.log2_spec; lia).
    assert (Hpow : 2 ^ (Z.log2 (Zpos p) + 1) * 2 ^ Zpos d = 2 ^ 53) by (rewrite <- Z.pow_add_r by lia; f_equal; lia).
    assert (0 < 2 ^ Zpos d) by (apply Z.pow_pos_nonneg; lia). nia. }
  unfold f64_of_Z. destruct z as [|p|p]; cbn [binary_normalize Z.abs]; [done|apply Hp..].
Qed.

End Exact.

#[export] Hint Resolve Int64_of_float_in : fluxor.
