(* ===== verification/FloatBound.v ===== *)
(** * How far float64 arithmetic can exceed the exact result

    Sums, products and quotients of positive numbers of ordinary size, rounded to
    nearest, exceed the exact value by less than one part in 2^52. The value of a float
    is an integer once scaled by [2 ^ K] for a [K] that is large enough. *)
From S2P Require Import Prelude.
From S2P Require Import GoFloat.
Local Open Scope Z_scope.

(** Shifting right by [n] is dividing by [2 ^ n]. *)
Lemma shr_1_half mrs : 0 <= shr_m mrs -> shr_m (shr_1 mrs) = shr_m mrs / 2.
Proof.
  destruct mrs as [[|p|p] r s]; cbn [shr_m shr_1]; [done| |lia]. intros _.
  destruct p as [p|p|]; cbn [shr_m]; [apply (Z.div_unique _ _ _ 1)|apply (Z.div_unique _ _ _ 0)|done]; lia.
Qed.

Lemma iter_shr_div n : forall mrs,
  0 <= shr_m mrs -> shr_m (SpecFloat.iter_pos shr_1 n mrs) = shr_m mrs / 2 ^ Zpos n.
Proof.
  assert (Hp : forall k, 0 < 2 ^ Zpos k) by (intros; apply Z.pow_pos_nonneg; lia).
  assert (Hi : forall k mrs, 0 <= shr_m mrs -> 0 <= shr_m (SpecFloat.iter_pos shr_1 k mrs))
    by (intros k mrs Hm; apply (iter_shr_bound k mrs (shr_m mrs)); lia).
  assert (H1 : forall mrs, 0 <= shr_m mrs -> 0 <= shr_m (shr_1 mrs))
    by (intros mrs Hm; apply (shr_1_bound mrs (shr_m mrs)); lia).
  induction n as [n IH|n IH|]; intros mrs Hm; cbn [SpecFloat.iter_pos].
  - rewrite !IH, shr_1_half by auto. rewrite !Z.div_div by (auto with lia). f_equal.
    replace (Zpos n~1) with (Zpos n + Zpos n + 1) by lia. rewrite !Z.pow_add_r by lia. lia.
  - rewrite !IH by auto. rewrite !Z.div_div by (auto with lia). f_equal.
    replace (Zpos n~0) with (Zpos n + Zpos n) by lia. rewrite !Z.pow_add_r by lia. lia.
  - by rewrite shr_1_half.
Qed.

Lemma shr_record_of_loc_m m l : shr_m (shr_record_of_loc m l) = m.
Proof. by destruct l as [|[]]. Qed.

(** A mantissa of more than 53 digits loses its last ones. *)
Lemma shr_fexp_normal m e l :
  0 < m -> -1000 <= e ->
  let n := Z.max 0 (Z.log2 m - 52) in
  shr_m (shr_fexp 53 1024 m e l).1 = m / 2 ^ n /\ (shr_fexp 53 1024 m e l).2 = e + n /\
  (n = 0 -> (shr_fexp 53 1024 m e l).1 = shr_record_of_loc m l).
Proof.
  intros Hm He n. unfold shr_fexp. rewrite Zdigits2_log2 by done. pose proof (Z.log2_nonneg m).
  replace (fexp 53 1024 (Z.log2 m + 1 + e) - e) with (Z.log2 m - 52) by (unfold fexp, emin; lia).
  unfold shr. destruct (Z.log2 m - 52) as [|p|p] eqn:Hp; cbn [fst snd]; unfold n.
  - rewrite shr_record_of_loc_m, Z.div_1_r. split_and!; [done|lia|done].
  - rewrite iter_shr_div by (rewrite shr_record_of_loc_m; lia). rewrite shr_record_of_loc_m.
    split_and!; [by rewrite Z.max_r by lia|lia|lia].
  - rewrite Z.max_l by lia. rewrite shr_record_of_loc_m, Z.div_1_r. split_and!; [done|lia|done].
Qed.

Lemma div_pow2_log2 m : 0 < m -> 52 <= Z.log2 m -> 2 ^ 52 <= m / 2 ^ (Z.log2 m - 52) < 2 ^ 53.
Proof.
  intros Hm Hl. pose proof (Z.log2_spec m Hm) as [H1 H2].
  assert (0 < 2 ^ (Z.log2 m - 52)) by (apply Z.pow_pos_nonneg; lia).
  replace (Z.log2 m) with (52 + (Z.log2 m - 52)) in H1 by lia.
  replace (Z.succ (Z.log2 m)) with (53 + (Z.log2 m - 52)) in H2 by lia.
  rewrite Z.pow_add_r in H1, H2 by lia. split.
  - apply Z.div_le_lower_bound; lia.
  - apply Z.div_lt_upper_bound; lia.
Qed.

Section Bound.
Context (K : Z) (HK : 1000 <= K).

(** The value of a mantissa and an exponent, scaled. *)
Definition scaled_value (m e : Z) : Z := m * 2 ^ (e + K).

Lemma scaled_value_shift m e n : 0 <= n -> -1000 <= e -> scaled_value m (e + n) = scaled_value (m * 2 ^ n) e.
Proof.
  intros Hn He. unfold scaled_value. replace (e + n + K) with (n + (e + K)) by lia.
  rewrite Z.pow_add_r by lia. lia.
Qed.

Lemma scaled_value_mono m m' e : m <= m' -> scaled_value m e <= scaled_value m' e.
Proof. intros H. unfold scaled_value. apply Z.mul_le_mono_nonneg_r; [apply Z.pow_nonneg; lia|done]. Qed.

Lemma round_upper m e l :
  0 < m < 2 ^ 500 -> -900 <= e <= 200 -> (l = loc_Exact \/ 2 ^ 52 <= m) ->
  exists m' e', binary_round_aux 53 1024 false m e l = S754_finite false m' e' /\
    Zpos m' < 2 ^ 53 /\ e <= e' <= e + Z.max 0 (Z.log2 m - 52) + 1 /\
    scaled_value (Zpos m') e' * 2 ^ 52 <= scaled_value m e * (2 ^ 52 + 1).
Proof.
  intros Hm He Hl. unfold binary_round_aux.
  pose proof (shr_fexp_normal m e l ltac:(lia) ltac:(lia)) as H. cbv zeta in H.
  set (n := Z.max 0 (Z.log2 m - 52)) in *.
  destruct (shr_fexp 53 1024 m e l) as [mrs e1]. cbn [fst snd] in H. destruct H as (Hm1 & -> & Hexact).
  assert (Hlog : Z.log2 m < 500) by (apply Z.log2_lt_pow2; lia). pose proof (Z.log2_nonneg m).
  set (m1 := round_nearest_even (shr_m mrs) (loc_of_shr_record mrs)).
  (* one more than the truncated mantissa at most, and no more than exact where it is *)
  assert (Hup : m / 2 ^ n <= m1 <= m / 2 ^ n + 1 /\ (n = 0 -> l = loc_Exact -> m1 = m)).
  { split.
    - unfold m1, round_nearest_even. rewrite Hm1. destruct (loc_of_shr_record mrs) as [|[]]; try lia.
      destruct (Z.even _); lia.
    - intros Hn ->. unfold m1. rewrite (Hexact Hn). done. }
  assert (Hpn : 0 < 2 ^ n) by (apply Z.pow_pos_nonneg; lia).
  assert (Hm1range : 0 < m1 <= 2 ^ 53).
  { destruct (Z.le_gt_cases 52 (Z.log2 m)) as [Hbig|Hsmall].
    - pose proof (div_pow2_log2 m ltac:(lia) Hbig). replace n with (Z.log2 m - 52) in Hup by lia. lia.
    - replace n with 0 in Hup by lia. rewrite Z.div_1_r in Hup.
      assert (m < 2 ^ 53) by (apply Z.log2_lt_cancel; rewrite Z.log2_pow2; lia). lia. }
  assert (Hval : scaled_value m1 (e + n) * 2 ^ 52 <= scaled_value m e * (2 ^ 52 + 1)).
  { rewrite scaled_value_shift by lia. unfold scaled_value.
    assert (0 < 2 ^ (e + K)) by (apply Z.pow_pos_nonneg; lia).
    enough (m1 * 2 ^ n * 2 ^ 52 <= m * (2 ^ 52 + 1)) by nia.
    pose proof (Z.mul_div_le m (2 ^ n) Hpn). destruct (decide (n = 0)) as [Hn|Hn].
    - rewrite Hn in *. rewrite Z.div_1_r in *. destruct Hl as [Hl|Hl]; [|lia].
      destruct Hup as [_ Hup]. rewrite (Hup eq_refl Hl). lia.
    - assert (2 ^ 52 * 2 ^ n <= m).
      { rewrite <- Z.pow_add_r by lia. replace (52 + n) with (Z.log2 m) by lia. apply Z.log2_spec. lia. }
      nia. }
  clearbody m1. clear Hup Hm1 Hexact.
  pose proof (shr_fexp_normal m1 (e + n) loc_Exact ltac:(lia) ltac:(lia)) as H1. cbv zeta in H1.
  set (n1 := Z.max 0 (Z.log2 m1 - 52)) in *.
  destruct (shr_fexp 53 1024 m1 (e + n) loc_Exact) as [mrs2 e2]. cbn [fst snd] in H1. destruct H1 as (Hm2 & -> & _).
  assert (Hlog1 : Z.log2 m1 <= 53) by (transitivity (Z.log2 (2 ^ 53)); [apply Z.log2_le_mono; lia|by rewrite Z.log2_pow2]).
  assert (Hpn1 : 0 < 2 ^ n1) by (apply Z.pow_pos_nonneg; lia).
  assert (Hrange2 : 0 < m1 / 2 ^ n1 < 2 ^ 53).
  { pose proof (Z.log2_nonneg m1). destruct (Z.le_gt_cases 52 (Z.log2 m1)) as [Hbig|Hsmall].
    - pose proof (div_pow2_log2 m1 ltac:(lia) Hbig). replace n1 with (Z.log2 m1 - 52) by lia. lia.
    - replace n1 with 0 by lia. rewrite Z.div_1_r.
      assert (m1 < 2 ^ 53) by (apply Z.log2_lt_cancel; rewrite Z.log2_pow2; lia). lia. }
  rewrite Hm2. destruct (m1 / 2 ^ n1) as [|p|p] eqn:Hp; [lia| |lia].
  destruct (Z.leb_spec (e + n + n1) (1024 - 53)) as [_|Hbad]; [|lia].
  exists p, (e + n + n1). split_and!; [done|lia..|].
  etrans; [|exact Hval]. apply Z.mul_le_mono_nonneg_r; [lia|].
  rewrite (scaled_value_shift _ (e + n)) by lia. apply scaled_value_mono.
  rewrite <- Hp. rewrite Z.mul_comm. apply Z.mul_div_le. lia.
Qed.

(** Not negative, finite, with an exponent in a range, and with a value of at most [n / d]
    as far as [k] roundings may have raised it. *)
Definition at_most (lo hi : Z) (x : float64) (n d k : Z) : Prop :=
  match x with
  | S754_zero false => 0 <= n
  | S754_finite false m e =>
      Zpos m < 2 ^ 53 /\ lo <= e <= hi /\
      scaled_value (Zpos m) e * d * (2 ^ 52) ^ k <= n * 2 ^ K * (2 ^ 52 + 1) ^ k
  | _ => False
  end.

Lemma at_most_weaken lo hi x n d k :
  0 < d -> 0 <= n -> 0 <= k -> at_most lo hi x n d k -> at_most lo hi x n d (k + 1).
Proof.
  intros Hd Hn Hk. destruct x as [[]|[]| |[] m e]; cbn [at_most]; try done. intros (Hm & He & Hv).
  split; [done|split; [done|]]. rewrite !Z.pow_add_r, !Z.pow_1_r by lia.
  assert (0 <= n * 2 ^ K * (2 ^ 52 + 1) ^ k) by (repeat apply Z.mul_nonneg_nonneg; try apply Z.pow_nonneg; lia).
  nia.
Qed.

Lemma at_most_exact n : 0 <= n < 2 ^ 53 -> at_most (-52) 0 (f64_of_Z n) n 1 0.
Proof.
  intros Hn. destruct (decide (n = 0)) as [->|Hne]; [done|]. rewrite f64_of_Z_nat by lia.
  destruct (log2_scaled n) as [Hl Hs]; [lia|]. pose proof (Z.log2_nonneg n).
  assert (Hpos : 0 < n * 2 ^ (52 - Z.log2 n)) by (apply Z.mul_pos_pos; [|apply Z.pow_pos_nonneg]; lia).
  unfold f64_nat, at_most. rewrite Z2Pos.id by done. split_and!; [|lia..|].
  - apply Z.log2_lt_cancel. rewrite Hs, Z.log2_pow2; lia.
  - unfold scaled_value. rewrite !Z.pow_0_r, !Z.mul_1_r, <- Z.mul_assoc, <- Z.pow_add_r by lia.
    replace (52 - Z.log2 n + (Z.log2 n - 52 + K)) with K by lia. lia.
Qed.

(** One rounding of an exact value. *)
Lemma round_at_most m e l lo hi n d k :
  0 < m < 2 ^ 500 -> -900 <= e <= 200 -> (l = loc_Exact \/ 2 ^ 52 <= m) ->
  lo <= e -> e + Z.max 0 (Z.log2 m - 52) + 1 <= hi -> 0 <= k -> 0 < d ->
  scaled_value m e * d * (2 ^ 52) ^ k <= n * 2 ^ K * (2 ^ 52 + 1) ^ k ->
  at_most lo hi (binary_round_aux 53 1024 false m e l) n d (k + 1).
Proof.
  intros Hm He Hl Hlo Hhi Hk Hd Hv.
  destruct (round_upper m e l Hm He Hl) as (m' & e' & -> & Hm' & He' & Hv'). cbn [at_most].
  split_and!; [done|lia..|]. rewrite !Z.pow_add_r, !Z.pow_1_r by lia.
  set (a := (2 ^ 52) ^ k) in *. assert (0 < a) by (apply Z.pow_pos_nonneg; lia).
  set (b := (2 ^ 52 + 1) ^ k) in *. set (N := n * 2 ^ K) in *.
  transitivity (scaled_value m e * (2 ^ 52 + 1) * (d * a)).
  - replace (scaled_value (Zpos m') e' * d * (a * 2 ^ 52)) with (scaled_value (Zpos m') e' * 2 ^ 52 * (d * a)) by ring.
    apply Z.mul_le_mono_nonneg_r; [apply Z.mul_nonneg_nonneg; lia|done].
  - replace (scaled_value m e * (2 ^ 52 + 1) * (d * a)) with (scaled_value m e * d * a * (2 ^ 52 + 1)) by ring.
    replace (N * (b * (2 ^ 52 + 1))) with (N * b * (2 ^ 52 + 1)) by ring.
    apply Z.mul_le_mono_nonneg_r; [lia|done].
Qed.

Lemma mul_at_most lo1 hi1 x n1 d1 k1 lo2 hi2 y n2 d2 k2 :
  -400 <= lo1 -> -400 <= lo2 -> hi1 <= 90 -> hi2 <= 90 ->
  0 <= n1 -> 0 < d1 -> 0 <= k1 -> 0 <= n2 -> 0 < d2 -> 0 <= k2 ->
  at_most lo1 hi1 x n1 d1 k1 -> at_most lo2 hi2 y n2 d2 k2 ->
  at_most (lo1 + lo2) (hi1 + hi2 + 60) (f64_mul x y) (n1 * n2) (d1 * d2) (k1 + k2 + 1).
Proof.
  intros Hlo1 Hlo2 Hhi1 Hhi2 Hn1 Hd1 Hk1 Hn2 Hd2 Hk2. unfold f64_mul.
  assert (Hz : 0 <= n1 * n2) by nia.
  destruct x as [[]|[]| |[] m1 e1]; try done; destruct y as [[]|[]| |[] m2 e2]; try done; cbn [SFmul xorb].
  intros (Hm1 & He1 & Hv1) (Hm2 & He2 & Hv2).
  assert (Hm : 0 < Zpos m1 * Zpos m2 < 2 ^ 106) by (change (2 ^ 106) with (2 ^ 53 * 2 ^ 53); nia).
  assert (Hlog : Z.log2 (Zpos m1 * Zpos m2) < 106) by (apply Z.log2_lt_pow2; lia).
  rewrite Pos2Z.inj_mul. apply round_at_most; try lia; try (by left).
  assert (Hs : scaled_value (Zpos m1 * Zpos m2) (e1 + e2) * 2 ^ K = scaled_value (Zpos m1) e1 * scaled_value (Zpos m2) e2).
  { unfold scaled_value. rewrite <- Z.mul_assoc, <- Z.pow_add_r by lia.
    replace (e1 + e2 + K + K) with ((e1 + K) + (e2 + K)) by lia. rewrite Z.pow_add_r by lia. ring. }
  assert (HP : 0 < 2 ^ K) by (apply Z.pow_pos_nonneg; lia).
  rewrite !Z.pow_add_r by lia. apply (Z.mul_le_mono_pos_r _ _ (2 ^ K)); [done|].
  set (a1 := (2 ^ 52) ^ k1) in *. set (a2 := (2 ^ 52) ^ k2) in *.
  set (b1 := (2 ^ 52 + 1) ^ k1) in *. set (b2 := (2 ^ 52 + 1) ^ k2) in *.
  replace (scaled_value (Zpos m1 * Zpos m2) (e1 + e2) * (d1 * d2) * (a1 * a2) * 2 ^ K)
    with (scaled_value (Zpos m1 * Zpos m2) (e1 + e2) * 2 ^ K * (d1 * d2) * (a1 * a2)) by ring.
  rewrite Hs. set (v1 := scaled_value (Zpos m1) e1) in *. set (v2 := scaled_value (Zpos m2) e2) in *.
  transitivity ((v1 * d1 * a1) * (v2 * d2 * a2)); [apply Z.eq_le_incl; ring|].
  transitivity ((n1 * 2 ^ K * b1) * (n2 * 2 ^ K * b2)); [|apply Z.eq_le_incl; ring].
  assert (0 < a1) by (apply Z.pow_pos_nonneg; lia). assert (0 < a2) by (apply Z.pow_pos_nonneg; lia).
  assert (0 <= v1) by (apply Z.mul_nonneg_nonneg; [lia|apply Z.pow_nonneg; lia]).
  assert (0 <= v2) by (apply Z.mul_nonneg_nonneg; [lia|apply Z.pow_nonneg; lia]).
  apply Z.mul_le_mono_nonneg; [repeat apply Z.mul_nonneg_nonneg; lia|done|repeat apply Z.mul_nonneg_nonneg; lia|done].
Qed.

Lemma at_most_mono lo hi lo' hi' x n n' d k :
  lo' <= lo -> hi <= hi' -> n <= n' -> 0 <= k -> at_most lo hi x n d k -> at_most lo' hi' x n' d k.
Proof.
  intros Hlo Hhi Hn Hk. destruct x as [[]|[]| |[] m e]; cbn [at_most]; try done; [lia|]. intros (Hm & He & Hv).
  split; [done|]. split; [lia|]. etrans; [exact Hv|].
  apply Z.mul_le_mono_nonneg_r; [apply Z.pow_nonneg; lia|].
  apply Z.mul_le_mono_nonneg_r; [apply Z.pow_nonneg; lia|done].
Qed.

Lemma at_most_scale lo hi x n d k c : 0 < c -> at_most lo hi x n d k -> at_most lo hi x (n * c) (d * c) k.
Proof.
  intros Hc. destruct x as [[]|[]| |[] m e]; cbn [at_most]; try done; [lia|]. intros (Hm & He & Hv).
  split; [done|]. split; [done|].
  transitivity (scaled_value (Zpos m) e * d * (2 ^ 52) ^ k * c); [apply Z.eq_le_incl; ring|].
  transitivity (n * 2 ^ K * (2 ^ 52 + 1) ^ k * c); [apply Z.mul_le_mono_nonneg_r; lia|apply Z.eq_le_incl; ring].
Qed.

(** Aligning to a smaller exponent keeps the value. *)
Lemma shl_align_value p e e' :
  -1000 <= Z.min e e' ->
  let '(q, f) := shl_align p e e' in
  f = Z.min e e' /\ Zpos q = Zpos p * 2 ^ (e - f) /\ scaled_value (Zpos q) f = scaled_value (Zpos p) e.
Proof.
  intros He. unfold shl_align. destruct (e' - e) as [|d|d] eqn:Hd.
  - split_and!; [lia| |done]. by rewrite Z.sub_diag, Z.mul_1_r.
  - split_and!; [lia| |done]. by rewrite Z.sub_diag, Z.mul_1_r.
  - split_and!; [lia| |].
    + rewrite iter_xO. do 2 f_equal. lia.
    + unfold scaled_value. rewrite iter_xO, <- Z.mul_assoc, <- Z.pow_add_r by lia. do 2 f_equal. lia.
Qed.

Lemma normalize_at_most p e lo hi n d k :
  Zpos p < 2 ^ 500 -> -800 <= e <= 200 -> lo <= Z.min e (Z.log2 (Zpos p) + e - 52) ->
  e + Z.max 0 (Z.log2 (Zpos p) - 52) + 1 <= hi -> 0 <= k -> 0 < d ->
  scaled_value (Zpos p) e * d * (2 ^ 52) ^ k <= n * 2 ^ K * (2 ^ 52 + 1) ^ k ->
  at_most lo hi (binary_normalize 53 1024 (Zpos p) e false) n d (k + 1).
Proof.
  intros Hp He Hlo Hhi Hk Hd Hv. cbn [binary_normalize]. unfold binary_round.
  pose proof (Z.log2_nonneg (Zpos p)). assert (Hl : Z.log2 (Zpos p) < 500) by (apply Z.log2_lt_pow2; lia).
  rewrite digits2_pos_log2.
  replace (fexp 53 1024 (Z.log2 (Zpos p) + 1 + e)) with (Z.log2 (Zpos p) + e - 52) by (unfold fexp, emin; lia).
  pose proof (shl_align_value p e (Z.log2 (Zpos p) + e - 52) ltac:(lia)) as Ha.
  destruct (shl_align p e (Z.log2 (Zpos p) + e - 52)) as [q f]. destruct Ha as (-> & Hq & Hqv).
  assert (Hlq : Z.log2 (Zpos q) = Z.log2 (Zpos p) + (e - Z.min e (Z.log2 (Zpos p) + e - 52)))
    by (rewrite Hq, Z.log2_mul_pow2; lia).
  apply round_at_most; try lia; [|by left].
  split; [lia|]. apply Z.log2_lt_cancel. rewrite Hlq, Z.log2_pow2 by lia.
  destruct (Z.le_gt_cases 52 (Z.log2 (Zpos p))); lia.
Qed.

Lemma add_at_most lo hi x y n1 n2 d k :
  -400 <= lo <= hi -> hi <= 90 -> hi - lo <= 300 -> 0 <= n1 -> 0 <= n2 -> 0 < d -> 0 <= k ->
  at_most lo hi x n1 d k -> at_most lo hi y n2 d k ->
  at_most (lo - 60) (hi + 3) (f64_add x y) (n1 + n2) d (k + 1).
Proof.
  intros Hlo Hhi Hrange Hn1 Hn2 Hd Hk Hx Hy. unfold f64_add.
  destruct x as [[]|[]| |[] m1 e1]; try done; destruct y as [[]|[]| |[] m2 e2]; try done; cbn [SFadd].
  - cbn. lia.
  - apply at_most_weaken; [lia..|]. by apply (at_most_mono lo hi _ _ _ n2); [lia..|].
  - apply at_most_weaken; [lia..|]. by apply (at_most_mono lo hi _ _ _ n1); [lia..|].
  - destruct Hx as (Hm1 & He1 & Hv1), Hy as (Hm2 & He2 & Hv2). cbn [cond_Zopp].
    set (ez := Z.min e1 e2).
    pose proof (shl_align_value m1 e1 ez ltac:(lia)) as H1. pose proof (shl_align_value m2 e2 ez ltac:(lia)) as H2.
    destruct (shl_align m1 e1 ez) as [q1 f1], (shl_align m2 e2 ez) as [q2 f2]. cbn [fst].
    destruct H1 as (-> & Hq1 & Hv1'), H2 as (-> & Hq2 & Hv2').
    replace (Z.min e1 ez) with ez in * by lia. replace (Z.min e2 ez) with ez in * by lia.
    change (Zpos q1 + Zpos q2) with (Zpos (q1 + q2)).
    set (top := Z.max e1 e2).
    assert (Hq : Zpos (q1 + q2) < 2 ^ (54 + (top - ez))).
    { rewrite Z.pow_add_r by lia. change (2 ^ 54) with (2 ^ 53 + 2 ^ 53).
      assert (2 ^ (e1 - ez) <= 2 ^ (top - ez)) by (apply Z.pow_le_mono_r; lia).
      assert (2 ^ (e2 - ez) <= 2 ^ (top - ez)) by (apply Z.pow_le_mono_r; lia).
      assert (0 < 2 ^ (e1 - ez)) by (apply Z.pow_pos_nonneg; lia).
      assert (0 < 2 ^ (e2 - ez)) by (apply Z.pow_pos_nonneg; lia). rewrite Pos2Z.inj_add. nia. }
    assert (Hl : Z.log2 (Zpos (q1 + q2)) < 54 + (top - ez)) by (apply Z.log2_lt_pow2; lia).
    pose proof (Z.log2_nonneg (Zpos (q1 + q2))).
    apply normalize_at_most; try lia.
    + eapply Z.lt_le_trans; [exact Hq|]. apply Z.pow_le_mono_r; lia.
    + rewrite <- Hv1' in Hv1. rewrite <- Hv2' in Hv2. unfold scaled_value in *. rewrite Pos2Z.inj_add. lia.
Qed.

(** A quotient of integers. *)
Lemma div_at_most a b :
  0 <= a < 2 ^ 53 -> 0 < b < 2 ^ 53 -> at_most (-200) 60 (f64_div (f64_of_Z a) (f64_of_Z b)) a b 1.
Proof.
  intros Ha Hb. rewrite (f64_of_Z_nat b) by lia. destruct (decide (a = 0)) as [->|Hne]; [by cbn|].
  rewrite (f64_of_Z_nat a) by lia. unfold f64_div, f64_nat. cbn [SFdiv xorb].
  destruct (log2_scaled a) as [Hla Hsa]; [lia|]. destruct (log2_scaled b) as [Hlb Hsb]; [lia|].
  pose proof (Z.log2_nonneg a). pose proof (Z.log2_nonneg b).
  assert (Hpa : 0 < 2 ^ (52 - Z.log2 a)) by (apply Z.pow_pos_nonneg; lia).
  assert (Hpb : 0 < 2 ^ (52 - Z.log2 b)) by (apply Z.pow_pos_nonneg; lia).
  rewrite !Z2Pos.id by (apply Z.mul_pos_pos; lia).
  set (ma := a * 2 ^ (52 - Z.log2 a)) in *. set (mb := b * 2 ^ (52 - Z.log2 b)) in *.
  assert (Hma : 2 ^ 52 <= ma < 2 ^ 53).
  { pose proof (Z.log2_spec ma ltac:(unfold ma; lia)) as Hs. rewrite Hsa in Hs. exact Hs. }
  assert (Hmb : 2 ^ 52 <= mb < 2 ^ 53).
  { pose proof (Z.log2_spec mb ltac:(unfold mb; lia)) as Hs. rewrite Hsb in Hs. exact Hs. }
  unfold SFdiv_core_binary. rewrite !Zdigits2_log2, Hsa, Hsb by lia.
  set (e := Z.log2 a - 52 - (Z.log2 b - 52)).
  replace (Z.min (fexp 53 1024 (52 + 1 + (Z.log2 a - 52) - (52 + 1 + (Z.log2 b - 52)))) e) with (e - 53)
    by (unfold fexp, emin, e; lia).
  replace (e - (e - 53)) with 53 by lia. cbv iota beta. rewrite Z.shiftl_mul_pow2 by lia.
  pose proof (Z.div_eucl_eq (ma * 2 ^ 53) mb ltac:(lia)) as Hdiv.
  pose proof (Z.mod_pos_bound (ma * 2 ^ 53) mb ltac:(lia)) as Hmod.
  unfold Z.modulo in Hmod. destruct (Z.div_eucl (ma * 2 ^ 53) mb) as [q r].
  assert (Hq : 2 ^ 52 <= q < 2 ^ 54) by nia.
  assert (Hlq : Z.log2 q < 54) by (apply Z.log2_lt_pow2; lia). pose proof (Z.log2_nonneg q).
  assert (Hq500 : 0 < q < 2 ^ 500)
    by (split; [lia|]; eapply Z.lt_le_trans; [exact (proj2 Hq)|]; apply Z.pow_le_mono_r; lia).
  assert (He : -105 <= e - 53 <= -1) by (unfold e; lia).
  enough (Hv : scaled_value q (e - 53) * b * (2 ^ 52) ^ 0 <= a * 2 ^ K * (2 ^ 52 + 1) ^ 0)
    by (apply (round_at_most q (e - 53) (new_location mb r) (-200) 60 a b 0); first [exact Hv|lia]).
  rewrite !Z.pow_0_r, !Z.mul_1_r. unfold scaled_value.
  assert (Hp : 0 < 2 ^ (e - 53 + K)) by (apply Z.pow_pos_nonneg; unfold e; lia).
  apply (Z.mul_le_mono_pos_r _ _ (2 ^ (52 - Z.log2 b))); [done|].
  transitivity (q * mb * 2 ^ (e - 53 + K)); [unfold mb; apply Z.eq_le_incl; ring|].
  transitivity (ma * 2 ^ 53 * 2 ^ (e - 53 + K)); [apply Z.mul_le_mono_nonneg_r; lia|].
  unfold ma. rewrite <- !Z.mul_assoc, <- !Z.pow_add_r by (unfold e; lia).
  apply Z.eq_le_incl. do 2 f_equal. unfold e. lia.
Qed.

(** The integer part of such a value, for the one use of this file. *)
Lemma trunc_at_most lo hi x n d k :
  0 <= n -> 0 < d -> 0 <= k -> -900 <= lo -> at_most lo hi x n d k ->
  exists t, f64_trunc x = Some t /\ 0 <= t /\ t * d * (2 ^ 52) ^ k <= n * (2 ^ 52 + 1) ^ k.
Proof.
  intros Hn Hd Hk Hlo. destruct x as [[]|[]| |[] m e]; cbn [at_most]; try done.
  { intros _. exists 0. split_and!; [done|done|]. apply Z.mul_nonneg_nonneg; [done|apply Z.pow_nonneg; lia]. }
  intros (Hm & He & Hv). unfold f64_trunc. eexists. split; [reflexivity|].
  set (t := if 0 <=? e then Zpos m * 2 ^ e else Zpos m / 2 ^ (- e)).
  assert (HP : 0 < 2 ^ K) by (apply Z.pow_pos_nonneg; lia).
  assert (Ht : 0 <= t /\ t * 2 ^ K <= scaled_value (Zpos m) e).
  { unfold t, scaled_value. destruct (Z.leb_spec 0 e).
    - split; [apply Z.mul_nonneg_nonneg; [lia|apply Z.pow_nonneg; lia]|].
      rewrite <- Z.mul_assoc, <- Z.pow_add_r by lia. lia.
    - assert (Hp : 0 < 2 ^ (- e)) by (apply Z.pow_pos_nonneg; lia). split; [apply Z.div_pos; lia|].
      replace K with (- e + (e + K)) at 1 by lia. rewrite Z.pow_add_r, Z.mul_assoc by lia.
      apply Z.mul_le_mono_nonneg_r; [apply Z.pow_nonneg; lia|]. rewrite Z.mul_comm. apply Z.mul_div_le. lia. }
  destruct Ht as [Ht0 Ht]. split; [done|]. apply (Z.mul_le_mono_pos_r _ _ (2 ^ K)); [done|].
  etrans; [|etrans; [exact Hv|apply Z.eq_le_incl; ring]].
  replace (t * d * (2 ^ 52) ^ k * 2 ^ K) with (t * 2 ^ K * (d * (2 ^ 52) ^ k)) by ring.
  transitivity (scaled_value (Zpos m) e * (d * (2 ^ 52) ^ k)); [|apply Z.eq_le_incl; ring].
  apply Z.mul_le_mono_nonneg_r; [|done]. apply Z.mul_nonneg_nonneg; [lia|apply Z.pow_nonneg; lia].
Qed.
End Bound.

(** ** Seconds times a rate *)

(** [d.Seconds() * float64(rate)], cut to an integer: not negative, and above the exact
    product by less than one part in 2^50. *)
Lemma seconds_times_rate d rate :
  0 <= d <= int64_max -> 0 <= rate < 2 ^ 53 ->
  exists t, f64_trunc (f64_mul (Duration_Seconds d) (f64_of_Z rate)) = Some t /\ 0 <= t /\
    t * Second * 2 ^ 50 <= d * rate * (2 ^ 50 + 1).
Proof.
  intros Hd Hr. unfold Duration_Seconds.
  pose proof (Z.quot_rem' d Second) as Hqr. pose proof (Z.rem_bound_pos d Second ltac:(lia) ltac:(done)) as Hrem.
  assert (Hsec : 0 <= Z.quot d Second < 2 ^ 53) by (unfold Second, int64_max in *; lia).
  set (sec := Z.quot d Second) in *. set (nsec := Z.rem d Second) in *.
  assert (HK : 1000 <= 1000) by lia.
  assert (Hs1 : at_most 1000 (-200) 60 (f64_of_Z sec) (sec * Second) Second 1).
  { apply (at_most_weaken 1000 HK _ _ _ _ _ 0); [done|unfold Second; lia|done|].
    pose proof (at_most_exact 1000 HK sec Hsec) as H. apply (at_most_scale 1000 _ _ _ _ _ _ Second) in H; [|done].
    rewrite Z.mul_1_l in H. by apply (at_most_mono 1000 HK _ _ (-200) 60 _ _ (sec * Second)) in H. }
  assert (Hs2 : at_most 1000 (-200) 60 (f64_div (f64_of_Z nsec) (f64_of_Z 1000000000)) nsec Second 1)
    by (apply (div_at_most 1000 HK); unfold Second in *; lia).
  assert (Hs : at_most 1000 (-260) 63 (f64_add (f64_of_Z sec) (f64_div (f64_of_Z nsec) (f64_of_Z 1000000000)))
    (sec * Second + nsec) Second 2)
    by (apply (add_at_most 1000 HK (-200) 60 _ _ _ _ Second 1); first [assumption|unfold Second in *; lia]).
  replace (sec * Second + nsec) with d in Hs by (unfold Second in *; lia).
  pose proof (mul_at_most 1000 HK (-260) 63 _ d Second 2 (-52) 0 _ rate 1 0 ltac:(lia) ltac:(lia) ltac:(lia)
    ltac:(lia) (proj1 Hd) ltac:(done) ltac:(lia) (proj1 Hr) ltac:(lia) ltac:(lia) Hs (at_most_exact 1000 HK rate Hr)) as Hm.
  apply trunc_at_most in Hm; [|first [lia|nia|unfold Second; lia]..]. destruct Hm as (t & Ht & Ht0 & Hle). exists t. split_and!; [done..|].
  rewrite Z.mul_1_r in Hle. change ((2 ^ 52) ^ (2 + 0 + 1)) with (2 ^ 52 * (2 ^ 52 * 2 ^ 52)) in Hle.
  change ((2 ^ 52 + 1) ^ (2 + 0 + 1)) with ((2 ^ 52 + 1) * ((2 ^ 52 + 1) * (2 ^ 52 + 1))) in Hle.
  assert (0 <= d * rate) by nia. lia.
Qed.
