(* ===== verification/GateConfig.v ===== *)
(** * The configuration of the connection gate (gate.go, [GateConfig])

    Read by the three parts of the gate: the circuit breaker, the rate limiter
    and the connection limiter.  A nil [*GateConfig] is [None]. *)
From S2P Require Import Prelude.

Record GateConfig : Type := mkGateConfig {
  MaxFailures : Z;
  ResetTimeout : Z;
  HalfOpenTimeout : Z;
  MaxRequestsPerSecond : Z;
  MaxConcurrentConnections : Z;
  BackpressureMode : string;
  BackpressureTimeout : Z;
}.

(** Every field within the range of its Go type. *)
Definition GateConfig_ok (c : GateConfig) : Prop :=
  in_int64 (MaxFailures c) /\ in_int64 (ResetTimeout c) /\ in_int64 (HalfOpenTimeout c) /\
  in_int64 (MaxRequestsPerSecond c) /\ in_int64 (MaxConcurrentConnections c) /\
  in_int64 (BackpressureTimeout c).

(** [&GateConfig{}]: the zero value. *)
Definition GateConfig_zero : GateConfig := mkGateConfig 0 0 0 0 0 "" 0.

(** The settings [main] in dbruntime.go runs with, used by the worked examples. *)
Definition GateConfig_example : GateConfig :=
  mkGateConfig 5 (60 * Second) (10 * Second) 1000 100 "drop" 0.

Lemma GateConfig_example_ok : GateConfig_ok GateConfig_example.
Proof. repeat split; vm_compute; discriminate. Qed.
