(* ===== verification/CircuitBreaker.v ===== *)
(** * The circuit breaker (gate.go, [CircuitBreaker])

    State, constructor and operations as the code has them, the state diagram of
    ARCHITECTURE.md and its amendments, the invariant, and the refinement of the
    amended diagram by the code.  The interleavings of concurrent
    calls are in BreakerConcurrency. *)
From S2P Require Import Prelude.
From S2P Require Import Errors.
From S2P Require Import GateConfig.
Local Open Scope Z_scope.

Definition circuitClosed : Z := 0.
Definition circuitOpen : Z := 1.
Definition circuitHalfOpen : Z := 2.

Definition CircuitStateClosed : string := "closed".
Definition CircuitStateOpen : string := "open".
Definition CircuitStateHalfOpen : string := "half-open".

(** [cb_onStateChange] is the callback: [None] when the field is nil, else the
    calls made to it so far, in order. *)
Record CircuitBreaker : Type := mkCircuitBreaker {
  cb_maxFailures : Z;
  cb_resetTimeout : Z;
  cb_halfOpenTimeout : Z;
  cb_failureCount : Z;
  cb_lastFailureTime : Z;
  cb_state : Z;
  cb_onStateChange : option (list (string * string));
}.

(** The call [cb.onStateChange(from, to)] behind its nil check. *)
Definition CircuitBreaker_notify (from to : string) (cb : CircuitBreaker) : CircuitBreaker :=
  match cb_onStateChange cb with
  | Some calls => cb{{cb_onStateChange := Some (calls ++ [(from, to)])}}
  | None => cb
  end.

Definition NewCircuitBreaker (config : option GateConfig) : CircuitBreaker :=
  let cb := mkCircuitBreaker 5 (60 * Second) (10 * Second) 0 0 circuitClosed None in
  match config with
  | None => cb
  | Some config =>
      let cb := if 0 <? MaxFailures config then cb{{cb_maxFailures := MaxFailures config}} else cb in
      let cb := if 0 <? ResetTimeout config then cb{{cb_resetTimeout := ResetTimeout config}} else cb in
      if 0 <? HalfOpenTimeout config
      then cb{{cb_halfOpenTimeout := HalfOpenTimeout config}} else cb
  end.

(** [now] is the reading of the clock inside [time.Since]. *)
Definition CircuitBreaker_Allow (now : Z) (cb : CircuitBreaker) : CircuitBreaker * option error :=
  if cb_state cb =? circuitOpen then
    if cb_resetTimeout cb <? Time_Sub now (cb_lastFailureTime cb) then
      let cb := cb{{cb_state := circuitHalfOpen; cb_failureCount := 0}} in
      (CircuitBreaker_notify CircuitStateOpen CircuitStateHalfOpen cb, None)
    else (cb, Some ErrCircuitOpen)
  else if cb_state cb =? circuitHalfOpen then (cb, None)
  else if cb_state cb =? circuitClosed then (cb, None)
  else (cb, None).

Definition CircuitBreaker_RecordSuccess (cb : CircuitBreaker) : CircuitBreaker :=
  if cb_state cb =? circuitHalfOpen then
    let cb := cb{{cb_state := circuitClosed; cb_failureCount := 0}} in
    CircuitBreaker_notify CircuitStateHalfOpen CircuitStateClosed cb
  else if cb_state cb =? circuitClosed then cb{{cb_failureCount := 0}}
  else cb.

Definition CircuitBreaker_RecordFailure (now : Z) (cb : CircuitBreaker) : CircuitBreaker :=
  let state := cb_state cb in
  let failures := wrap64 (cb_failureCount cb + 1) in
  let cb := cb{{cb_failureCount := failures; cb_lastFailureTime := now}} in
  if state =? circuitHalfOpen then
    CircuitBreaker_notify CircuitStateHalfOpen CircuitStateOpen (cb{{cb_state := circuitOpen}})
  else if (state =? circuitClosed) && (cb_maxFailures cb <=? failures) then
    CircuitBreaker_notify CircuitStateClosed CircuitStateOpen (cb{{cb_state := circuitOpen}})
  else cb.

Definition circuit_state_name (state : Z) : string :=
  if state =? circuitClosed then CircuitStateClosed
  else if state =? circuitOpen then CircuitStateOpen
  else if state =? circuitHalfOpen then CircuitStateHalfOpen
  else "unknown".

Definition CircuitBreaker_State (cb : CircuitBreaker) : string :=
  circuit_state_name (cb_state cb).

(** ** Schedules of calls

    The calls another part of the program makes, with the clock reading of the
    ones that read it; [cb_step] also gives what an [Allow] returned. *)
Inductive cb_call : Type :=
  | CallAllow (now : Z)
  | CallSuccess
  | CallFailure (now : Z).

Definition cb_step (c : cb_call) (cb : CircuitBreaker) : CircuitBreaker * option error :=
  match c with
  | CallAllow now => CircuitBreaker_Allow now cb
  | CallSuccess => (CircuitBreaker_RecordSuccess cb, None)
  | CallFailure now => (CircuitBreaker_RecordFailure now cb, None)
  end.

Definition cb_run : list cb_call -> CircuitBreaker -> CircuitBreaker :=
  run (fun c cb => (cb_step c cb).1).

(** The answers of a schedule's calls, in order. *)
Fixpoint cb_answers (cs : list cb_call) (cb : CircuitBreaker) : list (option error) :=
  match cs with
  | [] => []
  | c :: cs => let '(cb', e) := cb_step c cb in e :: cb_answers cs cb'
  end.

(** ** The specification: a state diagram

    ARCHITECTURE.md (3.1) draws the breaker as a diagram of three states: CLOSED goes to
    OPEN when there are more failures than the threshold, OPEN to HALF-OPEN after the
    reset timeout, HALF-OPEN to CLOSED on a success, and HALF-OPEN lets a limited number
    of requests through.  The diagrams here have what differs between that one and the
    code as fields.  Where the document is silent (which failures count, from when the
    timeout runs) they count consecutive failures and time since the last one. *)
Record diagram : Type := mkDiagram {
  dg_trips : Z -> bool;        (* the failures that take CLOSED to OPEN *)
  dg_probes : option Z;        (* requests let through HALF-OPEN after the first; None: all *)
  dg_reopens : bool;           (* a failure takes HALF-OPEN to OPEN *)
  dg_reset : Z;                (* the reset timeout *)
}.

Inductive diagram_state : Type :=
  | DiagramClosed (failures : Z)
  | DiagramOpen (since : Z)
  | DiagramHalfOpen (more : option Z).

Section Diagram.
Context (d : diagram).

Definition diagram_step (c : cb_call) (s : diagram_state) : diagram_state * option error :=
  match c, s with
  | CallAllow _, DiagramClosed _ => (s, None)
  | CallAllow now, DiagramOpen since =>
      if dg_reset d <? Time_Sub now since
      then (DiagramHalfOpen (dg_probes d), None) else (s, Some ErrCircuitOpen)
  | CallAllow _, DiagramHalfOpen None => (s, None)
  | CallAllow _, DiagramHalfOpen (Some more) =>
      if 0 <? more then (DiagramHalfOpen (Some (more - 1)), None) else (s, Some ErrCircuitOpen)
  | CallSuccess, DiagramOpen _ => (s, None)
  | CallSuccess, _ => (DiagramClosed 0, None)
  | CallFailure now, DiagramClosed n =>
      (if dg_trips d (n + 1) then DiagramOpen now else DiagramClosed (n + 1), None)
  | CallFailure now, DiagramOpen _ => (DiagramOpen now, None)
  | CallFailure now, DiagramHalfOpen _ => (if dg_reopens d then DiagramOpen now else s, None)
  end.

Fixpoint diagram_answers (cs : list cb_call) (s : diagram_state) : list (option error) :=
  match cs with
  | [] => []
  | c :: cs => let '(s', e) := diagram_step c s in e :: diagram_answers cs s'
  end.

Definition diagram_run : list cb_call -> diagram_state -> diagram_state :=
  run (fun c s => (diagram_step c s).1).
End Diagram.

(** The diagram of ARCHITECTURE.md, for a threshold, a limit and a timeout, and its
    three amendments. *)
Definition documented_diagram (max probes reset : Z) : diagram :=
  mkDiagram (fun failures => max <? failures) (Some probes) false reset.

(** The circuit opens at the threshold, not above it. *)
Definition opens_at (max : Z) (d : diagram) : diagram := d{{dg_trips := fun failures => max <=? failures}}.

(** HALF-OPEN lets every request through. *)
Definition unlimited (d : diagram) : diagram := d{{dg_probes := None}}.

(** A failure takes HALF-OPEN back to OPEN (the comment in RecordFailure says so). *)
Definition reopening (d : diagram) : diagram := d{{dg_reopens := true}}.

Definition cb_abs (cb : CircuitBreaker) : diagram_state :=
  if cb_state cb =? circuitClosed then DiagramClosed (cb_failureCount cb)
  else if cb_state cb =? circuitOpen then DiagramOpen (cb_lastFailureTime cb)
  else DiagramHalfOpen None.

(** The diagram the code follows. *)
Definition cb_diagram (cb : CircuitBreaker) : diagram :=
  mkDiagram (fun failures => cb_maxFailures cb <=? failures) None true (cb_resetTimeout cb).

(** The longest run of failures with no success among them, [n] having gone before. *)
Fixpoint longest_streak (n : Z) (cs : list cb_call) : Z :=
  match cs with
  | [] => n
  | CallAllow _ :: cs => longest_streak n cs
  | CallSuccess :: cs => Z.max n (longest_streak 0 cs)
  | CallFailure _ :: cs => longest_streak (n + 1) cs
  end.

(** ** The invariant *)
Record cb_wf (cb : CircuitBreaker) : Prop := mk_cb_wf {
  wf_state : cb_state cb ∈ [circuitClosed; circuitOpen; circuitHalfOpen];
  wf_max : 0 < cb_maxFailures cb <= int64_max;
  wf_reset : 0 < cb_resetTimeout cb <= int64_max;
  wf_count : in_int64 (cb_failureCount cb);
  wf_closed : cb_state cb = circuitClosed -> 0 <= cb_failureCount cb < cb_maxFailures cb;
  wf_half_open : cb_state cb = circuitHalfOpen -> cb_failureCount cb = 0;
}.

(** The state changes, by the names the callback gets: the three edges of the diagram in
    ARCHITECTURE.md, and the return from half-open to open, which that diagram does not
    have and a comment in RecordFailure (gate.go) announces. *)
Inductive cb_edge : string -> string -> Prop :=
  | edge_trip : cb_edge CircuitStateClosed CircuitStateOpen
  | edge_probe : cb_edge CircuitStateOpen CircuitStateHalfOpen
  | edge_close : cb_edge CircuitStateHalfOpen CircuitStateClosed
  | edge_reopen : cb_edge CircuitStateHalfOpen CircuitStateOpen.

(** [calls] is a walk along the edges from one state to another. *)
Fixpoint cb_walk (from : string) (calls : list (string * string)) (to : string) : Prop :=
  match calls with
  | [] => from = to
  | (a, b) :: calls => a = from /\ cb_edge a b /\ cb_walk b calls to
  end.

(** Splits a valid state number into its three cases. *)
Ltac cb_cases H :=
  rewrite !elem_of_cons, elem_of_nil in H; destruct H as [H|[H|[H|[]]]].

(** Destructs a breaker and computes with its operations. *)
Ltac cb_unfold :=
  unfold cb_step, CircuitBreaker_Allow, CircuitBreaker_RecordSuccess,
    CircuitBreaker_RecordFailure, CircuitBreaker_notify, CircuitBreaker_State,
    circuit_state_name, cb_abs in *;
  cbn in *.

Section Invariant.
Lemma NewCircuitBreaker_wf config :
  (forall c, config = Some c -> GateConfig_ok c) -> cb_wf (NewCircuitBreaker config).
Proof.
  intros Hok. unfold NewCircuitBreaker.
  destruct config as [c|]; [destruct (Hok c eq_refl) as (H1 & H2 & H3 & _)|];
    split_matches; bool_to_prop; constructor; cbn; unfold Second, circuitClosed;
    try solve_int64; try discriminate; rewrite !elem_of_cons; tauto.
Qed.

Lemma cb_wf_callback f cb : cb_wf cb -> cb_wf (cb{{cb_onStateChange := f}}).
Proof. destruct cb. intros []. by constructor. Qed.

Lemma cb_step_wf c cb : cb_wf cb -> cb_wf (cb_step c cb).1.
Proof.
  destruct cb as [mf rt ht fc lf st cb]. intros [Hst Hm Hr Hc Hcl Hh]. cbn in *.
  pose proof (wrap64_in (fc + 1)) as Hw.
  cb_cases Hst; subst st; destruct c as [now| |now]; destruct cb; cb_unfold;
    split_matches; bool_to_prop; constructor; cbn; auto;
    try (rewrite !elem_of_cons; tauto); try discriminate; try solve_int64;
    intros _; specialize (Hcl eq_refl); rewrite wrap64_id in *; solve_int64.
Qed.

Lemma cb_run_wf cs cb : cb_wf cb -> cb_wf (cb_run cs cb).
Proof. apply run_invariant. intros. by apply cb_step_wf. Qed.
End Invariant.

#[export] Hint Resolve NewCircuitBreaker_wf cb_step_wf cb_run_wf : fluxor.

Section Refinement.
Lemma cb_step_config c cb :
  cb_maxFailures (cb_step c cb).1 = cb_maxFailures cb /\
  cb_resetTimeout (cb_step c cb).1 = cb_resetTimeout cb.
Proof. destruct cb as [? ? ? ? ? ? []], c; cb_unfold; split_matches; done. Qed.

(** One call of the code is one step of its diagram, with the same answer. *)
Lemma cb_step_refines c cb :
  cb_wf cb ->
  diagram_step (cb_diagram cb) c (cb_abs cb) = (cb_abs (cb_step c cb).1, (cb_step c cb).2).
Proof.
  destruct cb as [mf rt ht fc lf st cb]. intros [Hst Hm _ _ Hcl _]. cbn in *.
  cb_cases Hst; subst st; destruct c as [now| |now]; destruct cb; cb_unfold;
    rewrite ?wrap64_id by (specialize (Hcl eq_refl); solve_int64);
    split_matches; done.
Qed.

Lemma cb_diagram_step c cb : cb_diagram (cb_step c cb).1 = cb_diagram cb.
Proof. unfold cb_diagram. by destruct (cb_step_config c cb) as [-> ->]. Qed.

Lemma cb_run_refines cs : forall cb,
  cb_wf cb ->
  cb_abs (cb_run cs cb) = diagram_run (cb_diagram cb) cs (cb_abs cb) /\
  cb_answers cs cb = diagram_answers (cb_diagram cb) cs (cb_abs cb).
Proof.
  induction cs as [|c cs IH]; intros cb Hwf; [done|].
  unfold cb_run, diagram_run in *. cbn [cb_answers diagram_answers]. rewrite !run_cons.
  rewrite cb_step_refines by done.
  destruct (IH (cb_step c cb).1) as [IH1 IH2]; [auto with fluxor|].
  rewrite cb_diagram_step in IH1, IH2.
  destruct (cb_step c cb) as [cb' e]; cbn in *. by rewrite IH1, IH2.
Qed.

(** The last answer of a schedule. *)
Lemma diagram_answers_last d cs c : forall s,
  last (diagram_answers d (cs ++ [c]) s) = Some (diagram_step d c (diagram_run d cs s)).2.
Proof.
  unfold diagram_run. induction cs as [|c' cs IH]; intros s; cbn [app diagram_answers].
  - rewrite run_nil. by destruct (diagram_step d c s).
  - rewrite run_cons. pose proof (IH (diagram_step d c' s).1) as H.
    destruct (diagram_step d c' s) as [s' e]. cbn [fst] in *. by rewrite last_cons, H.
Qed.

Lemma diagram_run_app d cs cs' s : diagram_run d (cs ++ cs') s = diagram_run d cs' (diagram_run d cs s).
Proof. apply run_app. Qed.

(** Failures at one time: short of the threshold, and one more. *)
Lemma diagram_run_failures d t k : forall n,
  (forall i, n < i <= n + Z.of_nat k -> dg_trips d i = false) ->
  diagram_run d (replicate k (CallFailure t)) (DiagramClosed n) = DiagramClosed (n + Z.of_nat k).
Proof.
  unfold diagram_run. induction k as [|k IH]; intros n Hn; cbn [replicate].
  - cbn. f_equal. lia.
  - rewrite run_cons. cbn. rewrite Hn by lia. rewrite IH by (intros i ?; apply Hn; lia). f_equal. lia.
Qed.

Lemma diagram_run_trip d t k n :
  (forall i, n < i <= n + Z.of_nat k -> dg_trips d i = false) ->
  dg_trips d (n + Z.of_nat k + 1) = true ->
  diagram_run d (replicate (S k) (CallFailure t)) (DiagramClosed n) = DiagramOpen t.
Proof.
  intros Hk Htrip. rewrite <- (Nat.add_1_r k), replicate_add, diagram_run_app, diagram_run_failures by done.
  unfold diagram_run. cbn. by rewrite Htrip.
Qed.

(** Calls in HALF-OPEN use up its limit. *)
Lemma diagram_run_probes d t k : forall more,
  Z.of_nat k <= more ->
  diagram_run d (replicate k (CallAllow t)) (DiagramHalfOpen (Some more)) =
    DiagramHalfOpen (Some (more - Z.of_nat k)).
Proof.
  unfold diagram_run. induction k as [|k IH]; intros more Hk; cbn [replicate].
  - cbn. do 2 f_equal. lia.
  - rewrite run_cons. cbn. destruct (Z.ltb_spec 0 more); [|lia]. cbn [fst]. rewrite IH by lia. do 2 f_equal. lia.
Qed.

Lemma Time_Sub_self t : Time_Sub t t = 0.
Proof. unfold Time_Sub. solve_int64. Qed.

(** The threshold many failures at instant 0, for a diagram that opens at the threshold. *)
Lemma diagram_run_threshold d max :
  0 < max -> dg_trips d = (fun failures => max <=? failures) ->
  diagram_run d (replicate (Z.to_nat max) (CallFailure 0)) (DiagramClosed 0) = DiagramOpen 0.
Proof.
  intros Hmax Hd. replace (Z.to_nat max) with (S (Z.to_nat (max - 1))) by lia.
  apply diagram_run_trip; rewrite Hd; [intros i Hi; apply Z.leb_gt; lia|apply Z.leb_le; lia].
Qed.

(** The first call after the reset timeout. *)
Lemma diagram_step_probe d :
  0 < dg_reset d < int64_max ->
  diagram_step d (CallAllow (dg_reset d + 1)) (DiagramOpen 0) = (DiagramHalfOpen (dg_probes d), None).
Proof. intros Hr. cbn. destruct (Z.ltb_spec (dg_reset d) (Time_Sub (dg_reset d + 1) 0)) as [H|H]; [done|].
  unfold Time_Sub in H. solve_int64.
Qed.

(** The schedules on which the diagrams differ: failures up to the threshold and a call;
    those, a call after the reset timeout and as many more; those, a call after the reset
    timeout, its failure and another call. *)
Lemma diagram_at_threshold d max :
  0 < max -> 0 < dg_reset d ->
  let cs := replicate (Z.to_nat max) (CallFailure 0) ++ [CallAllow 0] in
  (dg_trips d = (fun failures => max <=? failures) ->
   last (diagram_answers d cs (DiagramClosed 0)) = Some (Some ErrCircuitOpen)) /\
  (dg_trips d = (fun failures => max <? failures) ->
   last (diagram_answers d cs (DiagramClosed 0)) = Some None).
Proof.
  intros Hmax Hreset cs. unfold cs. rewrite diagram_answers_last. split; intros Hd.
  - rewrite (diagram_run_threshold d max) by done. cbn. rewrite Time_Sub_self.
    destruct (Z.ltb_spec (dg_reset d) 0); [lia|done].
  - rewrite diagram_run_failures; [done|]. intros i Hi. rewrite Hd. apply Z.ltb_ge. lia.
Qed.

Lemma diagram_after_probes d max probes :
  0 < max -> 0 < dg_reset d < int64_max -> dg_trips d = (fun failures => max <=? failures) -> 0 <= probes ->
  let probe := CallAllow (dg_reset d + 1) in
  let cs := (replicate (Z.to_nat max) (CallFailure 0) ++ probe :: replicate (Z.to_nat probes) probe) ++ [probe] in
  (dg_probes d = None -> last (diagram_answers d cs (DiagramClosed 0)) = Some None) /\
  (dg_probes d = Some probes -> last (diagram_answers d cs (DiagramClosed 0)) = Some (Some ErrCircuitOpen)).
Proof.
  intros Hmax Hreset Hd Hprobes probe cs. unfold cs.
  rewrite diagram_answers_last, diagram_run_app, (diagram_run_threshold d max) by done.
  assert (Hcons : forall cs s, diagram_run d (probe :: cs) s = diagram_run d cs (diagram_step d probe s).1) by done.
  assert (Hfirst : (diagram_step d probe (DiagramOpen 0)).1 = DiagramHalfOpen (dg_probes d))
    by (unfold probe; by rewrite diagram_step_probe).
  rewrite Hcons, Hfirst. split; intros ->.
  - assert (Hall : forall k, diagram_run d (replicate k probe) (DiagramHalfOpen None) = DiagramHalfOpen None).
    { induction k as [|k IH]; [done|]. cbn [replicate]. by rewrite Hcons. }
    by rewrite Hall.
  - unfold probe. rewrite diagram_run_probes by lia. cbn. destruct (Z.ltb_spec 0 (probes - Z.of_nat (Z.to_nat probes))); [lia|done].
Qed.

Lemma diagram_after_failed_probe d max :
  0 < max -> 0 < dg_reset d < int64_max -> dg_trips d = (fun failures => max <=? failures) -> dg_probes d = None ->
  let probe := CallAllow (dg_reset d + 1) in
  let cs := (replicate (Z.to_nat max) (CallFailure 0) ++ [probe; CallFailure (dg_reset d + 1)]) ++ [probe] in
  last (diagram_answers d cs (DiagramClosed 0)) = Some (if dg_reopens d then Some ErrCircuitOpen else None).
Proof.
  intros Hmax Hreset Hd Hnone probe cs. unfold cs.
  rewrite diagram_answers_last, diagram_run_app, (diagram_run_threshold d max) by done.
  unfold diagram_run. rewrite !run_cons, run_nil. unfold probe at 2. rewrite diagram_step_probe, Hnone by done.
  cbn. destruct (dg_reopens d); [|done]. rewrite Time_Sub_self.
  destruct (Z.ltb_spec (dg_reset d) 0); [lia|done].
Qed.

(** A failure recorded by a closed breaker, short of the threshold or at it. *)
Lemma closed_failure now cb :
  cb_wf cb -> cb_state cb = circuitClosed ->
  cb_maxFailures (CircuitBreaker_RecordFailure now cb) = cb_maxFailures cb /\
  cb_failureCount (CircuitBreaker_RecordFailure now cb) = cb_failureCount cb + 1 /\
  cb_state (CircuitBreaker_RecordFailure now cb) =
    if decide (cb_failureCount cb + 1 < cb_maxFailures cb) then circuitClosed else circuitOpen.
Proof.
  destruct cb as [mf rt ht fc lf st cb]. intros [_ Hm _ _ Hcl _] Hst. cbn in *.
  specialize (Hcl Hst). subst st. destruct cb; cb_unfold; rewrite wrap64_id by solve_int64;
    destruct (Z.leb_spec mf (fc + 1)), (decide (fc + 1 < mf)); cbn; lia || done.
Qed.

End Refinement.

(** ** Properties *)
Section Properties.
Lemma NewCircuitBreaker_abs config : cb_abs (NewCircuitBreaker config) = DiagramClosed 0.
Proof. unfold NewCircuitBreaker. destruct config; split_matches; done. Qed.

(** C4: The breaker follows the state diagram of ARCHITECTURE.md with three amendments:
    the circuit opens at maxFailures failures in a row (the document: at more), half-open
    lets every call through (a limited number), and a failure there opens the circuit
    again (no such edge). On every schedule of calls, whatever the clock says, a new
    breaker gives the answers of that amended diagram and ends in its state; and without
    any one of the amendments the diagram answers some schedule differently: the
    maxFailures-th failure is followed by a call let in, a call after the trial ones is
    refused, a call after a failed trial is let in. (The last two for a reset timeout
    below the largest duration.) *)
Theorem CircuitBreaker_refines_diagram config cs probes :
  (forall c, config = Some c -> GateConfig_ok c) ->
  let cb := NewCircuitBreaker config in
  let max := cb_maxFailures cb in
  let reset := cb_resetTimeout cb in
  let documented := documented_diagram max probes reset in
  let amended := opens_at max (unlimited (reopening documented)) in
  let trip := replicate (Z.to_nat max) (CallFailure 0) in
  let probe := CallAllow (reset + 1) in
  cb_answers cs cb = diagram_answers amended cs (DiagramClosed 0) /\
  cb_abs (cb_run cs cb) = diagram_run amended cs (DiagramClosed 0) /\
  last (cb_answers (trip ++ [CallAllow 0]) cb) = Some (Some ErrCircuitOpen) /\
  last (diagram_answers (unlimited (reopening documented)) (trip ++ [CallAllow 0]) (DiagramClosed 0)) = Some None /\
  (0 <= probes -> reset < int64_max ->
   last (cb_answers ((trip ++ probe :: replicate (Z.to_nat probes) probe) ++ [probe]) cb) = Some None /\
   last (diagram_answers (opens_at max (reopening documented))
     ((trip ++ probe :: replicate (Z.to_nat probes) probe) ++ [probe]) (DiagramClosed 0)) =
     Some (Some ErrCircuitOpen) /\
   last (cb_answers ((trip ++ [probe; CallFailure (reset + 1)]) ++ [probe]) cb) = Some (Some ErrCircuitOpen) /\
   last (diagram_answers (opens_at max (unlimited documented))
     ((trip ++ [probe; CallFailure (reset + 1)]) ++ [probe]) (DiagramClosed 0)) = Some None).
Proof.
  intros Hok cb max reset documented amended trip probe.
  pose proof (NewCircuitBreaker_wf _ Hok) as Hwf. fold cb in Hwf.
  assert (Hrun : forall cs, cb_abs (cb_run cs cb) = diagram_run amended cs (DiagramClosed 0) /\
    cb_answers cs cb = diagram_answers amended cs (DiagramClosed 0)).
  { intros cs'. pose proof (cb_run_refines cs' cb Hwf) as H'. unfold cb in H'.
    rewrite NewCircuitBreaker_abs in H'. exact H'. }
  destruct Hwf as [_ Hmax Hreset _ _ _]. fold max in Hmax. fold reset in Hreset.
  split; [apply Hrun|]. split; [apply Hrun|].
  split; [rewrite (proj2 (Hrun _)); by apply (diagram_at_threshold amended max); [lia|cbn; lia|]|].
  split; [by apply (diagram_at_threshold (unlimited (reopening documented)) max); [lia|cbn; lia|]|].
  intros Hprobes Hlong. rewrite !(proj2 (Hrun _)). split_and!.
  - by apply (diagram_after_probes amended max probes); cbn; [lia..| |lia|].
  - by apply (diagram_after_probes (opens_at max (reopening documented)) max probes); cbn; [lia..| |lia|].
  - by apply (diagram_after_failed_probe amended max); cbn; [lia..| |].
  - by apply (diagram_after_failed_probe (opens_at max (unlimited documented)) max); cbn; [lia..| |].
Qed.

Lemma CircuitBreaker_State_abs cb :
  cb_wf cb ->
  CircuitBreaker_State cb =
    match cb_abs cb with
    | DiagramClosed _ => CircuitStateClosed
    | DiagramOpen _ => CircuitStateOpen
    | DiagramHalfOpen _ => CircuitStateHalfOpen
    end.
Proof.
  intros [Hst _ _ _ _ _]. unfold CircuitBreaker_State, cb_abs.
  cb_cases Hst; rewrite Hst; done.
Qed.

Lemma longest_streak_ge cs : forall n, n <= longest_streak n cs.
Proof.
  induction cs as [|c cs IH]; intros n; cbn; [lia|]. destruct c; [apply IH|lia|].
  specialize (IH (n + 1)). lia.
Qed.

(** A closed breaker stays closed as long as no streak reaches the threshold. *)
Lemma closed_throughout cs : forall cb,
  cb_wf cb -> cb_state cb = circuitClosed ->
  ((forall cs', cs' `prefix_of` cs -> cb_state (cb_run cs' cb) = circuitClosed) <->
     longest_streak (cb_failureCount cb) cs < cb_maxFailures cb).
Proof.
  induction cs as [|c cs IH]; intros cb Hwf Hst; cbn [longest_streak].
  { split; [intros _; by apply wf_closed|]. intros _ cs' Hcs'. apply prefix_nil_inv in Hcs'. by subst. }
  pose proof (cb_step_wf c cb Hwf) as Hwf'. pose proof (proj1 (cb_step_config c cb)) as Hmax.
  assert (Hcons : (forall cs', cs' `prefix_of` c :: cs -> cb_state (cb_run cs' cb) = circuitClosed) <->
    cb_state (cb_step c cb).1 = circuitClosed /\
    forall cs', cs' `prefix_of` cs -> cb_state (cb_run cs' (cb_step c cb).1) = circuitClosed).
  { split.
    - intros H. split; [apply (H [c])|intros cs' Hcs'; apply (H (c :: cs'))]; by apply prefix_cons, prefix_nil || by apply prefix_cons.
    - intros [_ H] [|c' cs'] Hcs'; [done|]. apply prefix_cons_inv_1 in Hcs' as Hc. subst c'.
      apply H. by apply prefix_cons_inv_2 in Hcs'. }
  rewrite Hcons. clear Hcons. specialize (IH (cb_step c cb).1 Hwf'). rewrite Hmax in IH.
  destruct c as [now| |now]; cbn [cb_step fst] in *.
  - assert (CircuitBreaker_Allow now cb = (cb, None)) as Heq by (unfold CircuitBreaker_Allow; by rewrite Hst).
    rewrite Heq in *. cbn [fst] in *. rewrite IH by done. tauto.
  - assert (Heq : cb_state (CircuitBreaker_RecordSuccess cb) = circuitClosed /\ cb_failureCount (CircuitBreaker_RecordSuccess cb) = 0).
    { unfold CircuitBreaker_RecordSuccess. rewrite Hst. by destruct cb. }
    destruct Heq as [Hst' Hn]. rewrite Hn in IH. rewrite IH by done.
    pose proof (wf_closed _ Hwf Hst). split; [intros [_ Hlt]; lia|intros Hlt; split; [done|lia]].
  - destruct (closed_failure now cb Hwf Hst) as (_ & Hn & Hst'). rewrite Hn in IH. rewrite Hst' in *.
    destruct (decide (cb_failureCount cb + 1 < cb_maxFailures cb)) as [H|H].
    + rewrite IH by done. tauto.
    + pose proof (longest_streak_ge cs (cb_failureCount cb + 1)). split; [intros [Hc _]; discriminate|lia].
Qed.

(** Failures alone. *)
Lemma failures_leave_open nows : forall cb,
  cb_state cb = circuitOpen -> cb_state (cb_run (CallFailure <$> nows) cb) = circuitOpen.
Proof.
  unfold cb_run. induction nows as [|t nows IH]; intros cb Hst; [done|]. cbn [fmap list_fmap]. rewrite run_cons.
  apply IH. cbn. unfold CircuitBreaker_RecordFailure. by rewrite Hst.
Qed.

Lemma failures_trip nows : forall cb,
  cb_wf cb -> cb_state cb = circuitClosed ->
  cb_state (cb_run (CallFailure <$> nows) cb) =
    if decide (cb_failureCount cb + Z.of_nat (length nows) < cb_maxFailures cb) then circuitClosed else circuitOpen.
Proof.
  induction nows as [|t nows IH]; intros cb Hwf Hst.
  { pose proof (wf_closed _ Hwf Hst). cbn. rewrite decide_True by lia. exact Hst. }
  destruct (closed_failure t cb Hwf Hst) as (Hmax & Hn & Hst').
  change (cb_run (CallFailure <$> t :: nows) cb)
    with (cb_run (CallFailure <$> nows) (CircuitBreaker_RecordFailure t cb)).
  cbn [length]. destruct (decide (cb_failureCount cb + 1 < cb_maxFailures cb)) as [H|H].
  - rewrite IH, Hmax, Hn by (done || by apply (cb_step_wf (CallFailure t) cb)).
    by do 2 destruct (decide _); try lia.
  - rewrite failures_leave_open, decide_False by (done || lia). done.
Qed.

Lemma cb_state_closed cb : cb_wf cb -> (CircuitBreaker_State cb = CircuitStateClosed <-> cb_state cb = circuitClosed).
Proof.
  intros Hwf. unfold CircuitBreaker_State. pose proof (wf_state _ Hwf) as Hst.
  cb_cases Hst; rewrite Hst; by cbn.
Qed.

(** C32: The circuit of a new breaker opens at the maxFailures-th failure in a row and
    not before: on any schedule of calls it stays closed throughout exactly when no run
    of failures without a success in it is as long as maxFailures; and after failures
    alone it is closed when they are fewer than maxFailures and open otherwise. (README
    and ARCHITECTURE.md say it opens when the failures exceed the threshold: that would
    be one later.) *)
Theorem CircuitBreaker_trips_exactly config cs nows :
  (forall c, config = Some c -> GateConfig_ok c) ->
  let cb := NewCircuitBreaker config in
  ((forall cs', cs' `prefix_of` cs -> CircuitBreaker_State (cb_run cs' cb) = CircuitStateClosed) <->
     longest_streak 0 cs < cb_maxFailures cb) /\
  CircuitBreaker_State (cb_run (CallFailure <$> nows) cb) =
    if decide (Z.of_nat (length nows) < cb_maxFailures cb)
    then CircuitStateClosed else CircuitStateOpen.
Proof.
  intros Hok cb.
  assert (Hwf : cb_wf cb) by (subst cb; auto with fluxor).
  assert (Hnew : cb_state cb = circuitClosed /\ cb_failureCount cb = 0)
    by (subst cb; unfold NewCircuitBreaker; destruct config; split_matches; done).
  destruct Hnew as [Hst Hn]. split.
  - rewrite <- Hn, <- closed_throughout by done.
    split; intros H cs' Hcs'; apply cb_state_closed; auto with fluxor.
  - unfold CircuitBreaker_State. rewrite failures_trip, Hn, Z.add_0_l by done. by destruct (decide _).
Qed.

(** An open breaker rejects every call with ErrCircuitOpen, unchanged, until
    strictly more than resetTimeout has passed since the last recorded failure;
    the first call after that is admitted and makes it half-open with a cleared
    failure count. *)
Theorem CircuitBreaker_open_window cb nows now :
  cb_state cb = circuitOpen ->
  Forall (fun t => Time_Sub t (cb_lastFailureTime cb) <= cb_resetTimeout cb) nows ->
  cb_resetTimeout cb < Time_Sub now (cb_lastFailureTime cb) ->
  cb_answers (CallAllow <$> nows) cb = replicate (length nows) (Some ErrCircuitOpen) /\
  cb_run (CallAllow <$> nows) cb = cb /\
  (CircuitBreaker_Allow now cb).2 = None /\
  cb_state (CircuitBreaker_Allow now cb).1 = circuitHalfOpen /\
  cb_failureCount (CircuitBreaker_Allow now cb).1 = 0.
Proof.
  intros Hst Hbefore Hafter.
  assert (forall t, t ∈ nows -> cb_step (CallAllow t) cb = (cb, Some ErrCircuitOpen)) as Hrej.
  { intros t Ht. rewrite Forall_forall in Hbefore. specialize (Hbefore t Ht).
    cbn. unfold CircuitBreaker_Allow. rewrite Hst, Z.eqb_refl.
    destruct (Z.ltb_spec (cb_resetTimeout cb) (Time_Sub t (cb_lastFailureTime cb))); [lia|done]. }
  split; [|split].
  - clear Hbefore. induction nows as [|t nows IH]; [done|].
    cbn [fmap list_fmap cb_answers]. rewrite Hrej by set_solver. cbn. rewrite IH by set_solver. done.
  - clear Hbefore. unfold cb_run. induction nows as [|t nows IH]; [done|].
    cbn [fmap list_fmap]. rewrite run_cons, Hrej by set_solver. apply IH. set_solver.
  - unfold CircuitBreaker_Allow, CircuitBreaker_notify. rewrite Hst, Z.eqb_refl.
    apply Z.ltb_lt in Hafter. rewrite Hafter. cbn. destruct cb as [? ? ? ? ? ? []]; done.
Qed.

Lemma cb_walk_app a calls b calls' c :
  cb_walk a calls b -> cb_walk b calls' c -> cb_walk a (calls ++ calls') c.
Proof.
  revert a. induction calls as [|[x y] calls IH]; intros a; cbn; [by intros ->|].
  intros (-> & He & Hw) Hw'. eauto.
Qed.

Lemma cb_step_walk c cb calls :
  cb_wf cb -> cb_onStateChange cb = Some calls ->
  exists new, cb_onStateChange (cb_step c cb).1 = Some (calls ++ new) /\
    cb_walk (CircuitBreaker_State cb) new (CircuitBreaker_State (cb_step c cb).1).
Proof.
  destruct cb as [mf rt ht fc lf st cb]. intros [Hst _ _ _ _ _] Hcb. cbn in *. subst cb.
  cb_cases Hst; subst st; destruct c as [now| |now]; cb_unfold; split_matches;
    (exists []; rewrite app_nil_r; by split) || (eexists [(_, _)]; cbn; eauto using cb_edge).
Qed.

(** The state-change callback is told every state change and nothing else: the
    calls made to it during any schedule are a walk along [cb_edge],
    each starting where the previous ended, from the state before the
    schedule to the state after it. *)
Theorem CircuitBreaker_callbacks_walk cs cb calls :
  cb_wf cb ->
  cb_onStateChange cb = Some calls ->
  exists new, cb_onStateChange (cb_run cs cb) = Some (calls ++ new) /\
    cb_walk (CircuitBreaker_State cb) new (CircuitBreaker_State (cb_run cs cb)).
Proof.
  revert cb calls. induction cs as [|c cs IH]; intros cb calls Hwf Hcb.
  { exists []. by rewrite app_nil_r. }
  destruct (cb_step_walk c cb calls Hwf Hcb) as (new & Hnew & Hw).
  destruct (IH (cb_step c cb).1 (calls ++ new)) as (new' & Hnew' & Hw'); [auto with fluxor..|].
  exists (new ++ new'). unfold cb_run. rewrite run_cons, app_assoc.
  eauto using cb_walk_app.
Qed.

(** The half-open state admits any number of calls, at any times, without
    changing; and halfOpenTimeout has no effect at all: two breakers that differ
    only in it give the same answers on every schedule. *)
Theorem CircuitBreaker_half_open_unlimited cb nows cs timeout :
  cb_state cb = circuitHalfOpen ->
  cb_answers (CallAllow <$> nows) cb = replicate (length nows) None /\
  cb_run (CallAllow <$> nows) cb = cb /\
  cb_answers cs (cb{{cb_halfOpenTimeout := timeout}}) = cb_answers cs cb.
Proof.
  intros Hst.
  assert (forall t, cb_step (CallAllow t) cb = (cb, None)) as Hadm.
  { intros t. cbn. unfold CircuitBreaker_Allow. by rewrite Hst. }
  split; [|split].
  - induction nows as [|t nows IH]; [done|].
    cbn [fmap list_fmap cb_answers]. rewrite Hadm. cbn. by rewrite IH.
  - unfold cb_run. induction nows as [|t nows IH]; [done|].
    cbn [fmap list_fmap]. by rewrite run_cons, Hadm.
  - clear. revert cb. induction cs as [|c cs IH]; intros cb; [done|].
    cbn [cb_answers].
    assert (cb_step c (cb{{cb_halfOpenTimeout := timeout}}) =
      ((cb_step c cb).1{{cb_halfOpenTimeout := timeout}}, (cb_step c cb).2)) as ->.
    { clear. destruct cb as [? ? ? ? ? ? []], c; cb_unfold; split_ifs; done. }
    destruct (cb_step c cb) as [cb' e]. cbn [fst snd]. by rewrite IH.
Qed.
End Properties.

(** ** Worked examples *)
Section Witnesses.
Definition cb_example_config : option GateConfig := Some GateConfig_example.

Lemma cb_example_config_ok c : cb_example_config = Some c -> GateConfig_ok c.
Proof. intros [= <-]. apply GateConfig_example_ok. Qed.

(** Five failures, a call inside the reset window, one after it, a success. *)
Definition cb_example_schedule : list cb_call :=
  [CallFailure 1; CallFailure 2; CallFailure 3; CallFailure 4; CallFailure 5;
   CallAllow 6; CallAllow (6 + 60 * Second); CallSuccess].

Lemma CircuitBreaker_refines_diagram_witness :
  cb_answers cb_example_schedule (NewCircuitBreaker cb_example_config) =
    [None; None; None; None; None; Some ErrCircuitOpen; None; None] /\
  cb_abs (cb_run cb_example_schedule (NewCircuitBreaker cb_example_config)) = DiagramClosed 0 /\
  last (diagram_answers (opens_at 5 (unlimited (documented_diagram 5 2 (60 * Second))))
    (replicate 5 (CallFailure 0) ++
     [CallAllow (60 * Second + 1); CallFailure (60 * Second + 1); CallAllow (60 * Second + 1)])
    (DiagramClosed 0)) = Some None.
Proof.
  destruct (CircuitBreaker_refines_diagram cb_example_config cb_example_schedule 2 cb_example_config_ok)
    as (-> & -> & _ & _ & H).
  destruct H as (_ & _ & _ & H); [lia|vm_compute; reflexivity|].
  split; [reflexivity|]. split; [reflexivity|]. exact H.
Defined.

Lemma CircuitBreaker_trips_exactly_witness :
  let cb := NewCircuitBreaker cb_example_config in
  (forall cs', cs' `prefix_of` [CallFailure 1; CallFailure 2; CallSuccess; CallFailure 3; CallFailure 4; CallFailure 5] ->
     CircuitBreaker_State (cb_run cs' cb) = CircuitStateClosed) /\
  CircuitBreaker_State (cb_run (CallFailure <$> [1; 2; 3; 4; 5]) cb) = CircuitStateOpen.
Proof.
  destruct (CircuitBreaker_trips_exactly cb_example_config
    [CallFailure 1; CallFailure 2; CallSuccess; CallFailure 3; CallFailure 4; CallFailure 5] [1; 2; 3; 4; 5]
    cb_example_config_ok) as [H1 H2].
  split; [apply H1; vm_compute; reflexivity|rewrite H2; reflexivity].
Defined.

Lemma CircuitBreaker_open_window_witness :
  let cb := mkCircuitBreaker 5 (60 * Second) (10 * Second) 5 100 circuitOpen None in
  cb_run (CallAllow <$> [101; 100 + 60 * Second]) cb = cb /\
  (CircuitBreaker_Allow (101 + 60 * Second) cb).2 = None.
Proof.
  intros cb.
  destruct (CircuitBreaker_open_window cb [101; 100 + 60 * Second] (101 + 60 * Second))
    as (_ & H1 & H2 & _).
  - reflexivity.
  - repeat constructor; vm_compute; discriminate.
  - reflexivity.
  - split; assumption.
Defined.

Lemma CircuitBreaker_callbacks_walk_witness :
  let cb := (NewCircuitBreaker cb_example_config){{cb_onStateChange := Some nil}} in
  exists new, cb_onStateChange (cb_run cb_example_schedule cb) = Some new /\
    cb_walk CircuitStateClosed new CircuitStateClosed /\ length new = 3%nat.
Proof.
  intros cb. destruct (CircuitBreaker_callbacks_walk cb_example_schedule cb []) as (new & H1 & H2).
  - apply cb_wf_callback, NewCircuitBreaker_wf, cb_example_config_ok.
  - reflexivity.
  - exists new. split; [exact H1|]. split; [exact H2|].
    vm_compute in H1. injection H1 as <-. reflexivity.
Defined.

Lemma CircuitBreaker_half_open_unlimited_witness :
  let cb := mkCircuitBreaker 5 (60 * Second) (10 * Second) 0 100 circuitHalfOpen None in
  cb_answers (CallAllow <$> [1; 2; 3]) cb = [None; None; None] /\
  cb_answers cb_example_schedule (cb{{cb_halfOpenTimeout := 1}}) = cb_answers cb_example_schedule cb.
Proof.
  intros cb.
  destruct (CircuitBreaker_half_open_unlimited cb [1; 2; 3] cb_example_schedule 1) as (H1 & _ & H2).
  - reflexivity.
  - split; assumption.
Defined.
End Witnesses.
