(* ===== verification/BreakerConcurrency.v ===== *)
(** * The circuit breaker under concurrency (gate.go, [CircuitBreaker])

    [Allow] and [RecordSuccess] load the state, decide, and act later on what they
    loaded: [Allow] under the lock but without looking at the state again,
    [RecordSuccess] likewise or with a bare atomic store. [RecordFailure] holds the lock
    throughout. The interleavings of any number of goroutines are a step relation on
    the breaker and the number of calls between their load and their action. *)
From S2P Require Import Prelude.
From S2P Require Import Errors.
From S2P Require Import GateConfig.
From S2P Require Import CircuitBreaker.
Local Open Scope Z_scope.

(** [bc_allow]: Allows that loaded [open]; [bc_half], [bc_closed]: RecordSuccesses that
    loaded [half-open] or [closed]. *)
Record bc_sys : Type := mkBcSys {
  bc_cb : CircuitBreaker;
  bc_allow : nat;
  bc_half : nat;
  bc_closed : nat;
}.

(** One atomic action of one goroutine. *)
Inductive bc_step : bc_sys -> bc_sys -> Prop :=
  (** Allow loads the state: it answers at once unless the circuit is open. *)
  | bc_allow_returns s : cb_state (bc_cb s) <> circuitOpen -> bc_step s s
  | bc_allow_load s :
      cb_state (bc_cb s) = circuitOpen ->
      bc_step s (s{{bc_allow := S (bc_allow s)}})
  (** and, under the lock, decides on the time of the last failure alone. *)
  | bc_allow_decide s n now :
      bc_allow s = S n ->
      bc_step s (mkBcSys
        (if cb_resetTimeout (bc_cb s) <? Time_Sub now (cb_lastFailureTime (bc_cb s))
         then CircuitBreaker_notify CircuitStateOpen CircuitStateHalfOpen
                ((bc_cb s){{cb_state := circuitHalfOpen; cb_failureCount := 0}})
         else bc_cb s) n (bc_half s) (bc_closed s))
  (** RecordSuccess loads the state: it does nothing when the circuit is open. *)
  | bc_success_open s : cb_state (bc_cb s) = circuitOpen -> bc_step s s
  | bc_success_load_half s :
      cb_state (bc_cb s) = circuitHalfOpen -> bc_step s (s{{bc_half := S (bc_half s)}})
  | bc_success_load_closed s :
      cb_state (bc_cb s) = circuitClosed -> bc_step s (s{{bc_closed := S (bc_closed s)}})
  (** and acts on the state it loaded. *)
  | bc_success_half s n :
      bc_half s = S n ->
      bc_step s (mkBcSys
        (CircuitBreaker_notify CircuitStateHalfOpen CircuitStateClosed
           ((bc_cb s){{cb_state := circuitClosed; cb_failureCount := 0}}))
        (bc_allow s) n (bc_closed s))
  | bc_success_closed s n :
      bc_closed s = S n ->
      bc_step s (mkBcSys ((bc_cb s){{cb_failureCount := 0}}) (bc_allow s) (bc_half s) n)
  (** RecordFailure is atomic. *)
  | bc_failure s now :
      bc_step s (s{{bc_cb := CircuitBreaker_RecordFailure now (bc_cb s)}}).

(** No call in flight. *)
Definition bc_quiet (cb : CircuitBreaker) : bc_sys := mkBcSys cb 0 0 0.

Definition state_of (s : bc_sys) : string := CircuitBreaker_State (bc_cb s).

(** ** Lemmas *)
Lemma bc_step_wf s s' : bc_step s s' -> cb_wf (bc_cb s) -> cb_wf (bc_cb s').
Proof.
  intros Hs Hwf. destruct Hs as [s _|s _|s n now _|s _|s _|s _|s n _|s n _|s now]; try (destruct s; exact Hwf).
  - cbn. destruct (_ <? _); [|done]. unfold CircuitBreaker_notify. destruct (bc_cb s) as [mf rt ht fc lf st f].
    destruct Hwf as [? ? ? ? ? ?]. cbn in *.
    destruct f; split; cbn; first [done|solve_int64|rewrite !elem_of_cons; tauto].
  - cbn. unfold CircuitBreaker_notify. destruct (bc_cb s) as [mf rt ht fc lf st f].
    destruct Hwf as [? ? ? ? ? ?]. cbn in *.
    destruct f; split; cbn; first [done|solve_int64|intros _; lia|rewrite !elem_of_cons; tauto].
  - cbn. destruct (bc_cb s) as [mf rt ht fc lf st f]. destruct Hwf as [Hst ? ? ? ? ?]. cbn in *.
    split; cbn; first [done|solve_int64|intros _; lia].
  - destruct s as [cb a h c]. exact (cb_step_wf (CallFailure now) cb Hwf).
Qed.

(** The name of a valid state determines it. *)
Lemma state_name_inj cb cb' :
  cb_wf cb -> cb_wf cb' -> CircuitBreaker_State cb = CircuitBreaker_State cb' -> cb_state cb = cb_state cb'.
Proof.
  intros [H1 _ _ _ _ _] [H2 _ _ _ _ _]. rewrite !elem_of_cons, elem_of_nil in H1, H2.
  unfold CircuitBreaker_State, circuit_state_name.
  destruct H1 as [->|[->|[->|[]]]], H2 as [->|[->|[->|[]]]]; by cbn.
Qed.

(** What a step can do to the state: nothing, an edge of the diagram, or a stale
    action. *)
Lemma bc_step_edge s s' :
  bc_step s s' -> cb_wf (bc_cb s) ->
  state_of s' = state_of s \/ cb_edge (state_of s) (state_of s') \/
  ((0 < bc_half s)%nat /\ state_of s' = CircuitStateClosed) \/
  ((0 < bc_allow s)%nat /\ state_of s' = CircuitStateHalfOpen).
Proof.
  intros Hs Hwf. destruct Hs as [s _|s _|s n now Ha|s _|s _|s _|s n Hh|s n _|s now];
    try (by left; destruct s as [[]]).
  - cbn. destruct (_ <? _); [|by left]. right; right; right. split; [lia|].
    unfold state_of, CircuitBreaker_notify. cbn. by destruct (bc_cb s) as [mf rt ht fc lf st [f|]].
  - right; right; left. split; [lia|].
    unfold state_of, CircuitBreaker_notify. cbn. by destruct (bc_cb s) as [mf rt ht fc lf st [f|]].
  - unfold state_of. destruct s as [[mf rt ht fc lf st f] a h c]. destruct Hwf as [Hst _ _ _ _ _]. cbn in *.
    rewrite !elem_of_cons, elem_of_nil in Hst.
    destruct Hst as [->|[->|[->|[]]]]; cb_unfold; [|by left|].
    + destruct (mf <=? _); [|by left]. right; left. destruct f; constructor.
    + right; left. destruct f; constructor.
Qed.

Lemma bc_reachable_wf s0 s1 : rtc bc_step s0 s1 -> cb_wf (bc_cb s0) -> cb_wf (bc_cb s1).
Proof.
  induction 1 as [|x y z Hxy _ IH]; [done|]. intros Hx. by eapply IH, bc_step_wf.
Qed.

(** ** Properties *)

(** C28: Under any interleaving the breaker's state stays valid (a closed circuit is
    below its failure limit), and its state changes along the edges of the diagram of
    ARCHITECTURE.md and the one from half-open back to open that a comment of
    RecordFailure announces, except where a call acts on a state it loaded earlier: only a
    stale success can close it from elsewhere, only a stale probe can half-open it from
    elsewhere. *)
Theorem CircuitBreaker_interleavings config s s' :
  (forall c, config = Some c -> GateConfig_ok c) ->
  rtc bc_step (bc_quiet (NewCircuitBreaker config)) s -> bc_step s s' ->
  cb_wf (bc_cb s') /\
  (state_of s' = state_of s \/ cb_edge (state_of s) (state_of s') \/
   ((0 < bc_half s)%nat /\ state_of s' = CircuitStateClosed) \/
   ((0 < bc_allow s)%nat /\ state_of s' = CircuitStateHalfOpen)).
Proof.
  intros Hok Hr Hs.
  assert (Hwf : cb_wf (bc_cb s)) by (eapply bc_reachable_wf; [exact Hr|by apply NewCircuitBreaker_wf]).
  split; [by eapply bc_step_wf|by apply bc_step_edge].
Qed.

(** The open window is not respected under concurrency: from any half-open circuit,
    a success that loaded its state just before a failure opens the circuit closes it
    again just after, with the failure count at zero, so that the next call is admitted
    at the very instant of the failure. *)
Theorem CircuitBreaker_stale_success cb now :
  cb_state cb = circuitHalfOpen ->
  exists s1 s2,
    rtc bc_step (bc_quiet cb) s1 /\ bc_step s1 s2 /\
    state_of s1 = CircuitStateOpen /\ cb_lastFailureTime (bc_cb s1) = now /\
    state_of s2 = CircuitStateClosed /\ cb_failureCount (bc_cb s2) = 0 /\
    (CircuitBreaker_Allow now (bc_cb s2)).2 = None.
Proof.
  intros Hst. destruct cb as [mf rt ht fc lf st f]. cbn in Hst. subst st.
  eexists _, _. split; [|split].
  - eapply rtc_l; [by apply bc_success_load_half|].
    eapply rtc_l; [apply (bc_failure _ now)|]. apply rtc_refl.
  - by eapply (bc_success_half _ 0).
  - unfold state_of. cbn. by destruct f.
Qed.

(** A closed circuit can fall back to half-open: two calls that loaded [open] both
    act on it, and when a success closes the circuit between them, the second one
    half-opens the closed circuit, so that one failure then opens it, whatever the
    failure limit. *)
Theorem CircuitBreaker_stale_probe cb now :
  cb_state cb = circuitOpen -> cb_resetTimeout cb < Time_Sub now (cb_lastFailureTime cb) ->
  exists s1 s2,
    rtc bc_step (bc_quiet cb) s1 /\ bc_step s1 s2 /\
    state_of s1 = CircuitStateClosed /\ state_of s2 = CircuitStateHalfOpen /\
    CircuitBreaker_State (CircuitBreaker_RecordFailure now (bc_cb s2)) = CircuitStateOpen.
Proof.
  intros Hst Ht%Z.ltb_lt. destruct cb as [mf rt ht fc lf st f]. cbn in Hst, Ht. subst st.
  eexists _, _. split; [|split].
  - eapply rtc_l; [by apply bc_allow_load|].
    eapply rtc_l; [by apply bc_allow_load|].
    eapply rtc_l; [by eapply (bc_allow_decide _ 1 now)|]. cbn. rewrite Ht.
    eapply rtc_l; [apply bc_success_load_half; by destruct f|].
    eapply rtc_l; [by eapply (bc_success_half _ 0)|]. apply rtc_refl.
  - by eapply (bc_allow_decide _ 0 now).
  - unfold state_of. cbn. destruct f; cbn; by rewrite Ht.
Qed.

(** ** The hypotheses can hold *)
Lemma CircuitBreaker_interleavings_witness :
  cb_wf (bc_cb (mkBcSys (CircuitBreaker_RecordFailure 5 (NewCircuitBreaker cb_example_config)) 0 0 1)).
Proof.
  apply (CircuitBreaker_interleavings cb_example_config
    (mkBcSys (NewCircuitBreaker cb_example_config) 0 0 1) _ cb_example_config_ok).
  - eapply rtc_l; [apply bc_success_load_closed; reflexivity|apply rtc_refl].
  - exact (bc_failure (mkBcSys (NewCircuitBreaker cb_example_config) 0 0 1) 5).
Defined.

Lemma CircuitBreaker_stale_success_witness :
  let cb := mkCircuitBreaker 5 (60 * Second) (10 * Second) 0 100 circuitHalfOpen None in
  exists s1 s2, bc_step s1 s2 /\ state_of s1 = CircuitStateOpen /\ state_of s2 = CircuitStateClosed.
Proof.
  intros cb. destruct (CircuitBreaker_stale_success cb 200 eq_refl)
    as (s1 & s2 & _ & H1 & H2 & _ & H3 & _).
  exists s1, s2. split; [exact H1|split; assumption].
Defined.

Lemma CircuitBreaker_stale_probe_witness :
  let cb := mkCircuitBreaker 5 (60 * Second) (10 * Second) 5 100 circuitOpen None in
  exists s1 s2, bc_step s1 s2 /\ state_of s1 = CircuitStateClosed /\
    state_of s2 = CircuitStateHalfOpen.
Proof.
  intros cb. destruct (CircuitBreaker_stale_probe cb (101 + 60 * Second) eq_refl eq_refl)
    as (s1 & s2 & _ & H1 & H2 & H3 & _).
  exists s1, s2. split; [exact H1|split; assumption].
Defined.
