(* ===== verification/RateLimiter.v ===== *)
(** * The token bucket (gate.go, [RateLimiter])

    [now] is the clock reading of the call; the refill is computed in float64 as
    in the code (GoFloat).  The operations run under the limiter's mutex, so each
    is one step. *)
From Stdlib Require Import Sorted.
From S2P Require Import Prelude.
From S2P Require Import Errors.
From S2P Require Import GateConfig.
From S2P Require Import GoFloat.
From S2P Require Import FloatBound.
Local Open Scope Z_scope.

Record RateLimiter : Type := mkRateLimiter {
  rl_tokens : Z;
  rl_maxTokens : Z;
  rl_refillRate : Z;
  rl_lastRefill : Z;
}.

Definition min_int64 (a b : Z) : Z := if a <? b then a else b.

Definition NewRateLimiter (now : Z) (config : option GateConfig) : RateLimiter :=
  let rl := mkRateLimiter 0 1000 100 now in
  let rl :=
    match config with
    | Some config =>
        if 0 <? MaxRequestsPerSecond config
        then rl{{rl_maxTokens := wrap64 (MaxRequestsPerSecond config * 10);
                 rl_refillRate := MaxRequestsPerSecond config}}
        else rl
    | None => rl
    end in
  rl{{rl_tokens := rl_maxTokens rl}}.

Section RateLimiter.
Context (oor : float64 -> Z).

(** [int64(elapsed.Seconds() * float64(rl.refillRate))] *)
Definition RateLimiter_tokensToAdd (now : Z) (rl : RateLimiter) : Z :=
  let elapsed := Time_Sub now (rl_lastRefill rl) in
  Int64_of_float oor (f64_mul (Duration_Seconds elapsed) (f64_of_Z (rl_refillRate rl))).

(** The refill half of [Allow]. *)
Definition RateLimiter_refill (now : Z) (rl : RateLimiter) : RateLimiter :=
  let tokensToAdd := RateLimiter_tokensToAdd now rl in
  if 0 <? tokensToAdd
  then rl{{rl_tokens := min_int64 (wrap64 (rl_tokens rl + tokensToAdd)) (rl_maxTokens rl);
           rl_lastRefill := now}}
  else rl.

Definition RateLimiter_Allow (now : Z) (rl : RateLimiter) : RateLimiter * option error :=
  let rl := RateLimiter_refill now rl in
  if 0 <? rl_tokens rl
  then (rl{{rl_tokens := rl_tokens rl - 1}}, None)
  else (rl, Some ErrRateLimitExceeded).

(** The limiter after the calls read at [nows], and how many were admitted. *)
Fixpoint RateLimiter_calls (nows : list Z) (rl : RateLimiter) : RateLimiter * Z :=
  match nows with
  | [] => (rl, 0)
  | now :: nows =>
      let '(rl', e) := RateLimiter_Allow now rl in
      let '(rl'', n) := RateLimiter_calls nows rl' in
      (rl'', match e with None => n + 1 | Some _ => n end)
  end.

(** The bucket is within its capacity. *)
Definition rl_wf (rl : RateLimiter) : Prop :=
  0 <= rl_tokens rl <= rl_maxTokens rl /\ 0 < rl_maxTokens rl <= int64_max.

(** No refill on the way overflows int64. *)
Definition rl_no_overflow (now : Z) (rl : RateLimiter) : Prop :=
  rl_maxTokens rl + RateLimiter_tokensToAdd now rl <= int64_max.

Lemma RateLimiter_refill_tokens now rl :
  rl_wf rl -> rl_no_overflow now rl ->
  rl_tokens (RateLimiter_refill now rl) =
    Z.min (rl_tokens rl + Z.max 0 (RateLimiter_tokensToAdd now rl)) (rl_maxTokens rl).
Proof.
  intros [Ht Hm] Ho. unfold rl_no_overflow, RateLimiter_refill in *.
  destruct (Z.ltb_spec 0 (RateLimiter_tokensToAdd now rl)); cbn.
  - rewrite wrap64_id by solve_int64. unfold min_int64.
    destruct (Z.ltb_spec (rl_tokens rl + RateLimiter_tokensToAdd now rl) (rl_maxTokens rl)); lia.
  - lia.
Qed.

Lemma RateLimiter_refill_max now rl :
  rl_maxTokens (RateLimiter_refill now rl) = rl_maxTokens rl.
Proof. unfold RateLimiter_refill. destruct (0 <? _); done. Qed.

Lemma RateLimiter_Allow_max now rl :
  rl_maxTokens (RateLimiter_Allow now rl).1 = rl_maxTokens rl.
Proof. unfold RateLimiter_Allow. destruct (0 <? _); apply RateLimiter_refill_max. Qed.

Lemma RateLimiter_Allow_wf now rl :
  rl_wf rl -> rl_no_overflow now rl -> rl_wf (RateLimiter_Allow now rl).1.
Proof.
  intros Hwf Ho. pose proof (RateLimiter_refill_tokens now rl Hwf Ho) as Ht.
  pose proof (RateLimiter_refill_max now rl) as Hm. destruct Hwf as [Hw1 Hw2].
  unfold rl_wf, RateLimiter_Allow.
  destruct (RateLimiter_refill now rl) as [t m r l]; cbn in *.
  destruct (Z.ltb_spec 0 t); cbn; lia.
Qed.

Lemma NewRateLimiter_wf now config :
  (forall c, config = Some c -> MaxRequestsPerSecond c <= int64_max / 10) ->
  rl_wf (NewRateLimiter now config).
Proof.
  intros Hc. unfold NewRateLimiter, rl_wf. destruct config as [c|]; cbn.
  - specialize (Hc c eq_refl). change (int64_max / 10) with 922337203685477580 in Hc.
    destruct (Z.ltb_spec 0 (MaxRequestsPerSecond c)); cbn; [|solve_int64].
    rewrite wrap64_id by solve_int64. solve_int64.
  - solve_int64.
Qed.

(** ** Properties *)

(** A call is admitted exactly when the refilled bucket holds a token, and then
    takes exactly one; a rejected call takes none and reports ErrRateLimitExceeded.
    The bucket stays between empty and its capacity. *)
Theorem RateLimiter_Allow_spec now rl :
  rl_wf rl -> rl_no_overflow now rl ->
  let available :=
    Z.min (rl_tokens rl + Z.max 0 (RateLimiter_tokensToAdd now rl)) (rl_maxTokens rl) in
  (RateLimiter_Allow now rl).2 =
    (if decide (0 < available) then None else Some ErrRateLimitExceeded) /\
  rl_tokens (RateLimiter_Allow now rl).1 =
    (if decide (0 < available) then available - 1 else available) /\
  rl_wf (RateLimiter_Allow now rl).1.
Proof.
  intros Hwf Ho available.
  pose proof (RateLimiter_Allow_wf now rl Hwf Ho) as Hwf'.
  pose proof (RateLimiter_refill_tokens now rl Hwf Ho) as Ht. fold available in Ht.
  unfold RateLimiter_Allow in *.
  destruct (RateLimiter_refill now rl) as [t m r l]; cbn in *.
  destruct (Z.ltb_spec 0 t); cbn in *; case_decide; auto with lia.
Qed.

(** When a whole number of seconds has passed since the last refill, the refill
    is exact: seconds times refillRate tokens, with no floating-point loss, as long
    as the product is below 2^53. *)
Theorem RateLimiter_whole_seconds s rl :
  0 <= s -> s * Second <= int64_max ->
  0 <= rl_refillRate rl < 2 ^ 53 -> s * rl_refillRate rl < 2 ^ 53 ->
  RateLimiter_tokensToAdd (rl_lastRefill rl + s * Second) rl = s * rl_refillRate rl.
Proof.
  intros Hs Hmax Hr Hsr. unfold RateLimiter_tokensToAdd.
  replace (Time_Sub (rl_lastRefill rl + s * Second) (rl_lastRefill rl)) with (s * Second)
    by (unfold Time_Sub, Second in *; solve_int64).
  assert (s < 2 ^ 53) by (unfold Second, int64_max in *; lia).
  rewrite Duration_Seconds_whole by lia.
  apply Int64_of_float_trunc; [|solve_int64].
  apply f64_mul_exact; lia.
Qed.

(** ** The bound *)

(** What the refill adds is the time since the last one at the rate, to within one part
    in 2^50, and not more than is due after that. *)
Lemma RateLimiter_tokensToAdd_bound now rl :
  rl_lastRefill rl <= now -> 0 <= rl_refillRate rl < 2 ^ 53 ->
  rl_refillRate rl * (now - rl_lastRefill rl) <= 2 ^ 62 * Second ->
  0 <= RateLimiter_tokensToAdd now rl /\
  RateLimiter_tokensToAdd now rl * Second * 2 ^ 50 <=
    rl_refillRate rl * (now - rl_lastRefill rl) * (2 ^ 50 + 1).
Proof.
  intros Hnow Hrate Hrange. unfold RateLimiter_tokensToAdd.
  assert (Hd : 0 <= Time_Sub now (rl_lastRefill rl) <= int64_max /\
    Time_Sub now (rl_lastRefill rl) <= now - rl_lastRefill rl) by (unfold Time_Sub; solve_int64).
  destruct (seconds_times_rate (Time_Sub now (rl_lastRefill rl)) (rl_refillRate rl)) as (t & Ht & Ht0 & Hle);
    [lia|done|].
  assert (Hle' : t * Second * 2 ^ 50 <= rl_refillRate rl * (now - rl_lastRefill rl) * (2 ^ 50 + 1)) by nia.
  rewrite (Int64_of_float_trunc oor _ t); [done|done|]. unfold Second in *. solve_int64.
Qed.

Lemma wrap64_le z : int64_min <= z -> wrap64 z <= z.
Proof. intros Hz. unfold wrap64. pose proof (Z.mod_le (z + 2 ^ 63) (2 ^ 64)). solve_int64. Qed.

Lemma RateLimiter_refill_le now rl :
  in_int64 (rl_tokens rl) -> rl_tokens rl <= rl_maxTokens rl <= int64_max ->
  let rl' := RateLimiter_refill now rl in
  in_int64 (rl_tokens rl') /\ rl_tokens rl' <= rl_maxTokens rl' <= int64_max /\
  rl_tokens rl' <= rl_tokens rl + Z.max 0 (RateLimiter_tokensToAdd now rl) /\
  rl_refillRate rl' = rl_refillRate rl /\
  (if decide (0 < RateLimiter_tokensToAdd now rl) then rl_lastRefill rl' = now else rl' = rl).
Proof.
  intros Ht Hm. unfold RateLimiter_refill.
  destruct (Z.ltb_spec 0 (RateLimiter_tokensToAdd now rl)) as [H0|H0],
    (decide (0 < RateLimiter_tokensToAdd now rl)) as [H1|H1]; try lia.
  2: { split_and!; done || lia. }
  pose proof (wrap64_in (rl_tokens rl + RateLimiter_tokensToAdd now rl)) as Hin.
  pose proof (wrap64_le (rl_tokens rl + RateLimiter_tokensToAdd now rl)) as Hle.
  destruct rl as [t m r l]. cbn in *. unfold min_int64.
  destruct (Z.ltb_spec (wrap64 (t + RateLimiter_tokensToAdd now (mkRateLimiter t m r l))) m) as [H2|H2];
    split_and!; try solve_int64; done.
Qed.

Definition rl_ready (rl : RateLimiter) : Prop :=
  in_int64 (rl_tokens rl) /\ rl_tokens rl <= rl_maxTokens rl <= int64_max /\ 0 <= rl_refillRate rl < 2 ^ 53.

Lemma RateLimiter_calls_bound nows until : forall rl,
  rl_ready rl -> StronglySorted Z.le (rl_lastRefill rl :: nows ++ [until]) ->
  rl_refillRate rl * (until - rl_lastRefill rl) <= 2 ^ 62 * Second ->
  let '(rl', admitted) := RateLimiter_calls nows rl in
  0 <= admitted /\
  (admitted + rl_tokens rl' - rl_tokens rl) * Second * 2 ^ 50 <=
    rl_refillRate rl * (until - rl_lastRefill rl) * (2 ^ 50 + 1) /\
  (0 <= rl_tokens rl -> rl_refillRate rl * (until - rl_lastRefill rl) * (2 ^ 50 + 1) < Second * 2 ^ 50 ->
     admitted = Z.min (rl_tokens rl) (Z.of_nat (length nows))).
Proof.
  induction nows as [|now nows IH]; intros rl (Hin & Hmax & Hrate) Hsorted Hrange; cbn [RateLimiter_calls length].
  { apply StronglySorted_inv in Hsorted as [_ Hle]. apply Forall_cons in Hle as [Hle _]. split_and!; nia. }
  cbn [app] in Hsorted. apply StronglySorted_inv in Hsorted as [Hsorted Hle].
  pose proof Hle as [Hnow Hlater]%Forall_cons.
  assert (Huntil : now <= until).
  { apply StronglySorted_inv in Hsorted as [_ H]. rewrite Forall_app, Forall_cons in H. lia. }
  destruct (RateLimiter_tokensToAdd_bound now rl) as [Ha0 Ha]; [lia|done|nia|].
  pose proof (RateLimiter_refill_le now rl Hin Hmax) as Hrefill. cbv zeta in Hrefill.
  unfold RateLimiter_Allow. destruct Hrefill as (Hin1 & Hmax1 & Hle1 & Hrate1 & Hlast1).
  set (rl1 := RateLimiter_refill now rl) in *.
  set (added := RateLimiter_tokensToAdd now rl) in *.
  (* the time of the last refill, and what was added for the time before it *)
  assert (Hstep : rl_lastRefill rl <= rl_lastRefill rl1 <= now /\
    StronglySorted Z.le (rl_lastRefill rl1 :: nows ++ [until]) /\
    (rl_tokens rl1 - rl_tokens rl) * Second * 2 ^ 50 <=
      rl_refillRate rl * (rl_lastRefill rl1 - rl_lastRefill rl) * (2 ^ 50 + 1) /\
    (added = 0 -> rl1 = rl)).
  { destruct (decide (0 < added)) as [Hpos|Hzero].
    - rewrite Hlast1. split_and!; [lia|lia|done| |lia]. unfold Second in *. nia.
    - rewrite Hlast1. split_and!; [lia|lia| | |done].
      + apply StronglySorted_inv in Hsorted as [Hsorted _]. by constructor.
      + unfold Second. nia. }
  destruct Hstep as (Hlast & Hsorted1 & Hadd & Hsame).
  assert (Hrange1 : rl_refillRate rl1 * (until - rl_lastRefill rl1) <= 2 ^ 62 * Second) by (rewrite Hrate1; nia).
  destruct (Z.ltb_spec 0 (rl_tokens rl1)) as [Hsome|Hnone].
  - specialize (IH (rl1{{rl_tokens := rl_tokens rl1 - 1}})).
    destruct rl1 as [t1 m1 r1 l1] eqn:Hrl1. cbn [rl_tokens rl_maxTokens rl_refillRate rl_lastRefill] in *.
    cbn in IH. destruct (RateLimiter_calls nows _) as [rl2 n].
    destruct IH as (IH0 & IH1 & IH2); [unfold rl_ready; cbn; split_and!; solve_int64|done|done|]. subst r1.
    split_and!; [lia| |].
    + unfold Second in *. nia.
    + intros Ht Hlt. assert (added = 0) by (unfold Second in *; nia). specialize (Hsame ltac:(done)).
      rewrite <- Hsame in *. cbn in *. rewrite IH2; lia.
  - specialize (IH rl1). destruct (RateLimiter_calls nows rl1) as [rl2 n].
    destruct IH as (IH0 & IH1 & IH2); [by unfold rl_ready; rewrite Hrate1|done|done|]. rewrite Hrate1 in *.
    split_and!; [lia| |].
    + unfold Second in *. nia.
    + intros Ht Hlt. assert (added = 0) by (unfold Second in *; nia). specialize (Hsame ltac:(done)).
      rewrite Hsame in *. rewrite IH2; lia.
Qed.

(** Calls at one instant, once the bucket has been refilled for it. *)
Lemma RateLimiter_refilled_calls n now rl :
  rl_ready rl -> 0 <= rl_tokens rl -> rl_refillRate rl * (now - rl_lastRefill rl) = 0 -> rl_lastRefill rl <= now ->
  (RateLimiter_calls (replicate n now) rl).2 = Z.min (rl_tokens rl) (Z.of_nat n).
Proof.
  intros Hready Htok Hzero Hle.
  pose proof (RateLimiter_calls_bound (replicate n now) now rl Hready) as H.
  destruct (RateLimiter_calls (replicate n now) rl) as [rl' admitted]. cbn [snd].
  destruct H as (_ & _ & H); [|rewrite Hzero; unfold Second; lia|].
  - assert (Hall : forall k, StronglySorted Z.le (replicate k now ++ [now]) /\
      Forall (Z.le (rl_lastRefill rl)) (replicate k now ++ [now]) /\ Forall (Z.le now) (replicate k now ++ [now])).
    { induction k as [|k (IH1 & IH2 & IH3)]; cbn [replicate app]; [repeat constructor; lia|].
      split; [by constructor|]. split; constructor; first [done|lia]. }
    constructor; apply Hall.
  - rewrite length_replicate in H. apply H; [done|]. rewrite Hzero. unfold Second. lia.
Qed.

(** C10: The bucket keeps its rate. Over any calls at clock readings in order, up to a time
    [until], the calls admitted and the tokens left are at most the tokens there were and
    those for the time since the last refill at refillRate per second, to within one part
    in 2^50 for the float64 arithmetic; as long as less than one token is due, exactly
    the tokens there were are given out; and after a pause of [s] whole seconds exactly
    the tokens there were and [s] times refillRate more, up to maxTokens. (For a rate
    below 2^53 per second and a time in which less than 2^62 tokens are due.) *)
Theorem RateLimiter_admission_bound nows until rl :
  rl_wf rl -> 0 <= rl_refillRate rl < 2 ^ 53 ->
  StronglySorted Z.le (rl_lastRefill rl :: nows ++ [until]) ->
  let due := rl_refillRate rl * (until - rl_lastRefill rl) in
  due <= 2 ^ 62 * Second ->
  let '(rl', admitted) := RateLimiter_calls nows rl in
  (admitted + rl_tokens rl' - rl_tokens rl) * Second * 2 ^ 50 <= due * (2 ^ 50 + 1) /\
  (due * (2 ^ 50 + 1) < Second * 2 ^ 50 -> admitted = Z.min (rl_tokens rl) (Z.of_nat (length nows))) /\
  forall s n, 0 <= s -> s * Second <= int64_max -> s * rl_refillRate rl < 2 ^ 53 ->
    rl_maxTokens rl + s * rl_refillRate rl <= int64_max ->
    (RateLimiter_calls (replicate n (rl_lastRefill rl + s * Second)) rl).2 =
      Z.min (Z.min (rl_tokens rl + s * rl_refillRate rl) (rl_maxTokens rl)) (Z.of_nat n).
Proof.
  intros [Ht Hm] Hrate Hsorted due Hdue.
  assert (Hready : rl_ready rl) by (unfold rl_ready; split_and!; solve_int64).
  pose proof (RateLimiter_calls_bound nows until rl Hready Hsorted Hdue) as H.
  destruct (RateLimiter_calls nows rl) as [rl' admitted]. destruct H as (_ & H1 & H2).
  split; [exact H1|]. split; [intros Hlt; apply H2; [lia|exact Hlt]|]. clear H1 H2 Hsorted Hdue due. intros s n Hs Hsmax Hsrate Hover.
  set (now := rl_lastRefill rl + s * Second).
  pose proof (RateLimiter_whole_seconds s rl Hs Hsmax Hrate Hsrate) as Hadd. fold now in Hadd.
  assert (Htok : rl_tokens (RateLimiter_refill now rl) =
    Z.min (rl_tokens rl + s * rl_refillRate rl) (rl_maxTokens rl)).
  { rewrite RateLimiter_refill_tokens; [rewrite Hadd; nia|by split|]. unfold rl_no_overflow. lia. }
  destruct n as [|n]; [cbn; nia|].
  pose proof (RateLimiter_refill_le now rl (proj1 Hready) (proj1 (proj2 Hready))) as Hle. cbv zeta in Hle.
  destruct Hle as (Hin1 & Hmax1 & _ & Hrate1 & Hlast1). rewrite Hadd in Hlast1.
  set (rl1 := RateLimiter_refill now rl) in *.
  assert (Hlast : rl_lastRefill rl1 <= now /\ rl_refillRate rl * (now - rl_lastRefill rl1) = 0).
  { unfold now, Second in *. destruct (decide (0 < s * rl_refillRate rl)) as [Hp|Hp]; rewrite Hlast1; nia. }
  assert (Hagain : RateLimiter_refill now rl1 = rl1).
  { destruct (RateLimiter_tokensToAdd_bound now rl1) as [Ha0 Ha];
      [lia|by rewrite Hrate1|rewrite Hrate1; unfold Second; lia|].
    rewrite Hrate1, (proj2 Hlast) in Ha. unfold RateLimiter_refill at 1.
    destruct (Z.ltb_spec 0 (RateLimiter_tokensToAdd now rl1)); [unfold Second in Ha; lia|done]. }
  assert (Hcalls : RateLimiter_calls (replicate (S n) now) rl = RateLimiter_calls (replicate (S n) now) rl1).
  { cbn [replicate RateLimiter_calls]. unfold RateLimiter_Allow. fold rl1. by rewrite Hagain. }
  rewrite Hcalls, RateLimiter_refilled_calls, Htok.
  - done.
  - unfold rl_ready. rewrite Hrate1. exact (conj Hin1 (conj Hmax1 Hrate)).
  - rewrite Htok. nia.
  - rewrite Hrate1. apply Hlast.
  - apply Hlast.
Qed.

(** A bucket that serves calls at the given readings: they are in order, a token for each
    is there, and what falls due on the way stays far from overflowing. *)
Record bucket_serves (nows : list Z) (rl : RateLimiter) : Prop := mk_bucket_serves {
  bs_tokens : Z.of_nat (length nows) <= rl_tokens rl <= rl_maxTokens rl;
  bs_max : rl_maxTokens rl <= 2 ^ 62;
  bs_rate : 0 <= rl_refillRate rl < 2 ^ 53;
  bs_ordered : StronglySorted Z.le (rl_lastRefill rl :: nows);
  bs_due : Forall (fun now => rl_refillRate rl * (now - rl_lastRefill rl) <= 2 ^ 61 * Second) nows;
}.

Lemma bucket_serves_skip now nows rl : bucket_serves (now :: nows) rl -> bucket_serves nows rl.
Proof.
  intros [Htok Hmax Hrate Hord Hdue]. cbn [length] in Htok. apply Forall_cons in Hdue as [_ Hdue].
  apply StronglySorted_inv in Hord as [Hord Hle]. apply StronglySorted_inv in Hord as [Hord _].
  apply Forall_cons in Hle as [_ Hle]. split; [lia|done..|by constructor|done].
Qed.

Lemma bucket_serves_Allow now nows rl :
  bucket_serves (now :: nows) rl ->
  exists rl', RateLimiter_Allow now rl = (rl', None) /\ bucket_serves nows rl'.
Proof.
  intros [Htok Hmax Hrate Hord Hdue]. cbn [length] in Htok. apply Forall_cons in Hdue as [Hnowdue Hdue].
  apply StronglySorted_inv in Hord as [Hord Hle]. apply StronglySorted_inv in Hord as [Hsort Hlater].
  apply Forall_cons in Hle as [Hnow Hle].
  destruct (RateLimiter_tokensToAdd_bound now rl Hnow Hrate) as [Ha0 Ha]; [unfold Second in *; lia|].
  assert (Hadd : RateLimiter_tokensToAdd now rl <= 2 ^ 61 + 2 ^ 11) by (unfold Second in *; lia).
  unfold RateLimiter_Allow, RateLimiter_refill.
  set (added := RateLimiter_tokensToAdd now rl) in *. destruct rl as [t m r l]. cbn in *.
  destruct (Z.ltb_spec 0 added) as [Hp|Hz]; cbn.
  - rewrite wrap64_id by solve_int64. unfold min_int64.
    assert (Hdue' : Forall (fun later => r * (later - now) <= 2 ^ 61 * Second) nows).
    { eapply Forall_impl; [exact Hdue|]. cbn. intros later Hl. nia. }
    destruct (Z.ltb_spec (t + added) m) as [Hm|Hm]; cbn [rl_tokens].
    + destruct (Z.ltb_spec 0 (t + added)); [|lia]. eexists. split; [done|]. split; cbn; [lia|done..|by constructor|done].
    + destruct (Z.ltb_spec 0 m); [|lia]. eexists. split; [done|]. split; cbn; [lia|done..|by constructor|done].
  - destruct (Z.ltb_spec 0 t); [|lia]. eexists. split; [done|]. split; cbn; [lia|done..|by constructor|done].
Qed.

End RateLimiter.

(** ** Worked examples *)
Section Witnesses.

(** The bucket of [GateConfig_example], made at instant 1000. *)
Definition rl_example : RateLimiter := NewRateLimiter 1000 (Some GateConfig_example).

Lemma rl_example_wf : rl_wf rl_example.
Proof. apply NewRateLimiter_wf. intros c [= <-]. vm_compute. discriminate. Qed.

Lemma RateLimiter_Allow_spec_witness :
  (RateLimiter_Allow (fun _ => 0) 1000 rl_example).2 = None /\
  rl_tokens (RateLimiter_Allow (fun _ => 0) 1000 rl_example).1 = 9999.
Proof.
  assert (rl_no_overflow (fun _ => 0) 1000 rl_example) as Ho by (vm_compute; discriminate).
  destruct (RateLimiter_Allow_spec (fun _ => 0) 1000 rl_example rl_example_wf Ho) as (H1 & H2 & _).
  rewrite H1, H2. split; vm_compute; reflexivity.
Defined.

Lemma RateLimiter_admission_bound_witness :
  let rl := mkRateLimiter 2 10 1 1000 in
  (RateLimiter_calls (fun _ => 0) [1001; 1002; 1003] rl).2 = 2 /\
  (RateLimiter_calls (fun _ => 0) (replicate 12 (1000 + 3 * Second)) rl).2 = 5.
Proof.
  intros rl.
  pose proof (RateLimiter_admission_bound (fun _ => 0) [1001; 1002; 1003] 2000 rl) as H.
  destruct (RateLimiter_calls (fun _ => 0) [1001; 1002; 1003] rl) as [rl' admitted].
  destruct H as (_ & H1 & H2).
  - vm_compute. repeat split; discriminate.
  - cbn. lia.
  - repeat constructor; discriminate.
  - vm_compute. discriminate.
  - split; [apply H1; vm_compute; reflexivity|]. apply (H2 3 12%nat); vm_compute; discriminate || reflexivity.
Defined.

Lemma RateLimiter_whole_seconds_witness :
  RateLimiter_tokensToAdd (fun _ => 0) (1000 + 3 * Second) rl_example = 3000.
Proof.
  change 1000 with (rl_lastRefill rl_example). change 3000 with (3 * rl_refillRate rl_example).
  apply (RateLimiter_whole_seconds (fun _ => 0) 3 rl_example);
    change (rl_refillRate rl_example) with 1000; unfold Second, int64_max; lia.
Defined.

End Witnesses.
