(* ===== verification/ConnectionLimiter.v ===== *)
(** * The connection limiter (gate.go, [ConnectionLimiter])

    Two regimes, as in the code: without a semaphore ([drop], the default) a
    mutex-protected counter; with one ([block] and [timeout]) a buffered channel
    whose tokens stand for the slots.  A call that parks in a [select] is given in
    two halves, what it does on entry and what it does when a case fires, so that
    other goroutines' steps can come between.  The last sections give the
    interleavings of any number of goroutines as step relations. *)
From S2P Require Import Prelude.
From S2P Require Import Errors.
From S2P Require Import GateConfig.
Local Open Scope Z_scope.

(** A [chan struct{}]: how many tokens it holds and its capacity. *)
Record Chan : Type := mkChan { chan_len : Z; chan_cap : Z }.

Record ConnectionLimiter : Type := mkConnectionLimiter {
  cl_currentConnections : Z;
  cl_maxConnections : Z;
  cl_mode : string;
  cl_timeout : Z;
  cl_sem : option Chan;
}.

Definition NewConnectionLimiter (config : option GateConfig) : ConnectionLimiter :=
  let cl := mkConnectionLimiter 0 100 "" 0 None in
  match config with
  | None => cl
  | Some config =>
      let cl := if 0 <? MaxConcurrentConnections config
                then cl{{cl_maxConnections := MaxConcurrentConnections config}} else cl in
      let cl := cl{{cl_mode := BackpressureMode config;
                    cl_timeout := BackpressureTimeout config}} in
      if String.eqb (cl_mode cl) "block" || String.eqb (cl_mode cl) "timeout"
      then cl{{cl_sem := Some (mkChan 0 (cl_maxConnections cl))}} else cl
  end.

(** [atomic.AddInt64(&cl.currentConnections, d)] *)
Definition ConnectionLimiter_add (d : Z) (cl : ConnectionLimiter) : ConnectionLimiter :=
  cl{{cl_currentConnections := wrap64 (cl_currentConnections cl + d)}}.

Definition ConnectionLimiter_Acquire (cl : ConnectionLimiter) : ConnectionLimiter * option error :=
  if cl_maxConnections cl <=? cl_currentConnections cl
  then (cl, Some ErrConnectionLimit)
  else (ConnectionLimiter_add 1 cl, None).

(** [cl.sem <- struct{}{}] when it can proceed at once. *)
Definition ConnectionLimiter_send (cl : ConnectionLimiter) : option ConnectionLimiter :=
  match cl_sem cl with
  | Some ch =>
      if chan_len ch <? chan_cap ch
      then Some (cl{{cl_sem := Some (mkChan (chan_len ch + 1) (chan_cap ch))}})
      else None
  | None => None
  end.

(** [<-cl.sem] when it can proceed at once. *)
Definition ConnectionLimiter_recv (cl : ConnectionLimiter) : option ConnectionLimiter :=
  match cl_sem cl with
  | Some ch =>
      if 0 <? chan_len ch
      then Some (cl{{cl_sem := Some (mkChan (chan_len ch - 1) (chan_cap ch))}})
      else None
  | None => None
  end.

(** How a call to [AcquireWithContext] leaves its entry: it has returned, or it is
    parked in the [select] of its mode. *)
Inductive acquire_entry : Type :=
  | Returned (cl : ConnectionLimiter) (err : option error)
  | ParkedBlock
  | ParkedTimeout (timeout : Z).

Definition AcquireWithContext_enter (cl : ConnectionLimiter) : acquire_entry :=
  match cl_sem cl with
  | None => let '(cl', e) := ConnectionLimiter_Acquire cl in Returned cl' e
  | Some _ =>
      match ConnectionLimiter_send cl with
      | Some cl' => Returned (ConnectionLimiter_add 1 cl') None
      | None =>
          if String.eqb (cl_mode cl) "block" then ParkedBlock
          else if String.eqb (cl_mode cl) "timeout" then
            if cl_timeout cl <=? 0 then Returned cl (Some ErrConnectionLimit)
            else ParkedTimeout (cl_timeout cl)
          else Returned cl (Some ErrConnectionLimit)
      end
  end.

(** The case of the parked [select] that fires. *)
Inductive wake : Type :=
  | WakeSlot                 (* the send proceeds *)
  | WakeTimer                (* <-timer.C *)
  | WakeDone (ctxErr : error). (* <-ctx.Done() *)

(** The second half of a parked call, on the limiter as the other goroutines left
    it; [None] when that case cannot fire. *)
Definition AcquireWithContext_wake (parked : acquire_entry) (w : wake) (cl : ConnectionLimiter)
    : option (ConnectionLimiter * option error) :=
  match parked, w with
  | Returned _ _, _ => None
  | _, WakeSlot =>
      match ConnectionLimiter_send cl with
      | Some cl' => Some (ConnectionLimiter_add 1 cl', None)
      | None => None
      end
  | ParkedTimeout _, WakeTimer => Some (cl, Some ErrConnectionLimit)
  | ParkedBlock, WakeTimer => None
  | _, WakeDone e => Some (cl, Some e)
  end.

(** A whole call: [others] is what the rest of the program does to the limiter
    while the call is parked, and the case that then fires. [None]: it never
    returns. *)
Definition ConnectionLimiter_AcquireWithContext
    (others : ConnectionLimiter -> ConnectionLimiter * wake) (cl : ConnectionLimiter)
    : option (ConnectionLimiter * option error) :=
  match AcquireWithContext_enter cl with
  | Returned cl' e => Some (cl', e)
  | parked => let '(cl', w) := others cl in AcquireWithContext_wake parked w cl'
  end.

Definition ConnectionLimiter_Release (cl : ConnectionLimiter) : ConnectionLimiter :=
  let cl := match ConnectionLimiter_recv cl with Some cl' => cl' | None => cl end in
  ConnectionLimiter_add (-1) cl.

Definition ConnectionLimiter_CurrentConnections (cl : ConnectionLimiter) : Z :=
  cl_currentConnections cl.

(** ** Interleavings

    Goroutines between the atomic actions of the code, counted by where they are:
    [g_sent] have put their token in the channel and not yet counted themselves,
    [g_holding] own a slot, [g_released] have taken a token back out and not yet
    uncounted themselves, [g_parked] wait in the select. *)
Record lim_sys : Type := mkLimSys {
  g_cl : ConnectionLimiter;
  g_sent : Z;
  g_holding : Z;
  g_released : Z;
  g_parked : Z;
}.

(** One atomic action of one goroutine, semaphore regime. *)
Inductive lim_step : lim_sys -> lim_sys -> Prop :=
  | step_send s cl' :
      ConnectionLimiter_send (g_cl s) = Some cl' ->
      lim_step s (s{{g_cl := cl'; g_sent := g_sent s + 1}})
  | step_enter_fails s e :
      AcquireWithContext_enter (g_cl s) = Returned (g_cl s) (Some e) -> lim_step s s
  | step_park s :
      ConnectionLimiter_send (g_cl s) = None ->
      (AcquireWithContext_enter (g_cl s) = ParkedBlock \/
       AcquireWithContext_enter (g_cl s) = ParkedTimeout (cl_timeout (g_cl s))) ->
      lim_step s (s{{g_parked := g_parked s + 1}})
  | step_wake s cl' :
      0 < g_parked s -> ConnectionLimiter_send (g_cl s) = Some cl' ->
      lim_step s (s{{g_cl := cl'; g_parked := g_parked s - 1; g_sent := g_sent s + 1}})
  | step_give_up s :
      0 < g_parked s -> lim_step s (s{{g_parked := g_parked s - 1}})
  | step_count s :
      0 < g_sent s ->
      lim_step s (s{{g_cl := ConnectionLimiter_add 1 (g_cl s);
                     g_sent := g_sent s - 1; g_holding := g_holding s + 1}})
  | step_take_back s cl' :
      0 < g_holding s -> ConnectionLimiter_recv (g_cl s) = Some cl' ->
      lim_step s (s{{g_cl := cl'; g_holding := g_holding s - 1;
                     g_released := g_released s + 1}})
  | step_take_back_empty s :
      0 < g_holding s -> ConnectionLimiter_recv (g_cl s) = None ->
      lim_step s (s{{g_holding := g_holding s - 1; g_released := g_released s + 1}})
  | step_uncount s :
      0 < g_released s ->
      lim_step s (s{{g_cl := ConnectionLimiter_add (-1) (g_cl s);
                     g_released := g_released s - 1}}).

Definition lim_init (cl : ConnectionLimiter) : lim_sys := mkLimSys cl 0 0 0 0.

(** The semaphore regime's invariant: the tokens are the slots taken or being
    taken, the counter is the slots owned or being given back. *)
Definition lim_inv (cap : Z) (s : lim_sys) : Prop :=
  cl_sem (g_cl s) = Some (mkChan (g_sent s + g_holding s) cap) /\
  cl_currentConnections (g_cl s) = wrap64 (g_holding s + g_released s) /\
  0 <= g_sent s /\ 0 <= g_holding s /\ 0 <= g_released s /\ 0 <= g_parked s /\
  g_sent s + g_holding s <= cap.

(** The mutex regime ([sem == nil]): [m_admitted] is set while the goroutine that
    holds the mutex has read a counter below the limit and not yet added to it. *)
Record mutex_sys : Type := mkMutexSys {
  m_cl : ConnectionLimiter;
  m_admitted : bool;
  m_holding : Z;
}.

Inductive mutex_step : mutex_sys -> mutex_sys -> Prop :=
  | mutex_read s :
      m_admitted s = false ->
      cl_currentConnections (m_cl s) < cl_maxConnections (m_cl s) ->
      mutex_step s (s{{m_admitted := true}})
  | mutex_reject s :
      m_admitted s = false ->
      cl_maxConnections (m_cl s) <= cl_currentConnections (m_cl s) -> mutex_step s s
  | mutex_add s :
      m_admitted s = true ->
      mutex_step s (s{{m_cl := ConnectionLimiter_add 1 (m_cl s); m_admitted := false;
                       m_holding := m_holding s + 1}})
  | mutex_release s :
      0 < m_holding s ->
      mutex_step s (s{{m_cl := ConnectionLimiter_Release (m_cl s);
                       m_holding := m_holding s - 1}}).

Definition mutex_inv (max : Z) (s : mutex_sys) : Prop :=
  cl_sem (m_cl s) = None /\ cl_maxConnections (m_cl s) = max /\
  cl_currentConnections (m_cl s) = m_holding s /\ 0 <= m_holding s /\
  m_holding s + (if m_admitted s then 1 else 0) <= max.

(** ** Sequential lemmas *)
Section Sequential.

Lemma NewConnectionLimiter_max config :
  (forall c, config = Some c -> GateConfig_ok c) ->
  0 < cl_maxConnections (NewConnectionLimiter config) <= int64_max.
Proof.
  intros Hok. unfold NewConnectionLimiter. destruct config as [c|]; [|cbn; solve_int64].
  destruct (Hok c eq_refl) as (_ & _ & _ & _ & Hm & _).
  destruct (Z.ltb_spec 0 (MaxConcurrentConnections c)); cbn;
    destruct (_ || _); cbn; solve_int64.
Qed.

Lemma NewConnectionLimiter_sem config :
  cl_sem (NewConnectionLimiter config) =
    match config with
    | Some c =>
        if String.eqb (BackpressureMode c) "block" || String.eqb (BackpressureMode c) "timeout"
        then Some (mkChan 0 (cl_maxConnections (NewConnectionLimiter config))) else None
    | None => None
    end.
Proof.
  unfold NewConnectionLimiter. destruct config as [c|]; [|done].
  destruct (0 <? MaxConcurrentConnections c); cbn; destruct (_ || _); done.
Qed.

Lemma NewConnectionLimiter_zero config :
  cl_currentConnections (NewConnectionLimiter config) = 0.
Proof.
  unfold NewConnectionLimiter. destruct config as [c|]; [|done].
  destruct (0 <? MaxConcurrentConnections c); cbn; destruct (_ || _); done.
Qed.

(** The limiter with one slot more taken. *)
Lemma enter_taken cl cl' :
  AcquireWithContext_enter cl = Returned cl' None ->
  cl' = mkConnectionLimiter (wrap64 (cl_currentConnections cl + 1)) (cl_maxConnections cl)
    (cl_mode cl) (cl_timeout cl)
    ((fun ch => mkChan (chan_len ch + 1) (chan_cap ch)) <$> cl_sem cl).
Proof.
  destruct cl as [cur max mode tmo [[n cap]|]];
    unfold AcquireWithContext_enter, ConnectionLimiter_Acquire, ConnectionLimiter_send; cbn;
    split_ifs; cbn; intros He; by inversion He.
Qed.

Lemma enter_release cl cl' :
  in_int64 (cl_currentConnections cl) ->
  (forall ch, cl_sem cl = Some ch -> 0 <= chan_len ch) ->
  AcquireWithContext_enter cl = Returned cl' None -> ConnectionLimiter_Release cl' = cl.
Proof.
  intros Hc Hch ->%enter_taken. destruct cl as [cur max mode tmo [[n cap]|]];
    unfold ConnectionLimiter_Release, ConnectionLimiter_recv; cbn in *.
  - specialize (Hch _ eq_refl). cbn in Hch.
    destruct (Z.ltb_spec 0 (n + 1)); [cbn|lia].
    rewrite wrap64_undo by done. f_equal_lia.
  - by rewrite wrap64_undo.
Qed.

End Sequential.

(** ** Lemmas on the interleavings *)
Section Interleavings.

Lemma send_Some cl cl' :
  ConnectionLimiter_send cl = Some cl' ->
  exists n cap, cl_sem cl = Some (mkChan n cap) /\ n < cap /\
    cl' = cl{{cl_sem := Some (mkChan (n + 1) cap)}}.
Proof.
  unfold ConnectionLimiter_send. destruct (cl_sem cl) as [[n cap]|]; [|done]. cbn.
  destruct (Z.ltb_spec n cap); intros [= <-]. eauto.
Qed.

Lemma recv_Some cl cl' :
  ConnectionLimiter_recv cl = Some cl' ->
  exists n cap, cl_sem cl = Some (mkChan n cap) /\ 0 < n /\
    cl' = cl{{cl_sem := Some (mkChan (n - 1) cap)}}.
Proof.
  unfold ConnectionLimiter_recv. destruct (cl_sem cl) as [[n cap]|]; [|done]. cbn.
  destruct (Z.ltb_spec 0 n); intros [= <-]. eauto.
Qed.

(** A release always takes one off the counter, with or without a token to take. *)
Lemma Release_counter cl :
  cl_currentConnections (ConnectionLimiter_Release cl) = wrap64 (cl_currentConnections cl + -1).
Proof.
  destruct cl as [cur max mode tmo sem].
  unfold ConnectionLimiter_Release, ConnectionLimiter_recv, ConnectionLimiter_add. cbn.
  destruct sem as [ch|]; [|done]. by destruct (0 <? chan_len ch).
Qed.

Lemma recv_None_sem cl n cap :
  cl_sem cl = Some (mkChan n cap) -> ConnectionLimiter_recv cl = None -> n <= 0.
Proof.
  unfold ConnectionLimiter_recv. intros ->. cbn. destruct (Z.ltb_spec 0 n); [done|lia].
Qed.

Lemma lim_step_inv cap s s' : lim_step s s' -> lim_inv cap s -> lim_inv cap s'.
Proof.
  destruct s as [[cur max mode tmo sem] sent hold rel park].
  intros Hstep (Hsem & Hcur & ? & ? & ? & ? & Hle).
  inversion Hstep as [? ? Hsend| | |? ? ? Hsend| | |? ? ? Hrecv|? ? Hrecv|]; subst; cbn in *; subst sem.
  - apply send_Some in Hsend as (n & c & [= <- <-] & Hlt & ->). unfold lim_inv. cbn.
    repeat split; f_equal_lia.
  - unfold lim_inv; cbn. repeat split; f_equal_lia.
  - unfold lim_inv; cbn. repeat split; f_equal_lia.
  - apply send_Some in Hsend as (n & c & [= <- <-] & Hlt & ->). unfold lim_inv. cbn.
    repeat split; f_equal_lia.
  - unfold lim_inv; cbn. repeat split; f_equal_lia.
  - unfold lim_inv; cbn. rewrite Hcur, wrap64_wrap_l.
    repeat split; f_equal_lia.
  - apply recv_Some in Hrecv as (n & c & [= <- <-] & Hlt & ->). unfold lim_inv. cbn.
    rewrite Hcur. repeat split; f_equal_lia.
  - eapply recv_None_sem in Hrecv; [|done]. lia.
  - unfold lim_inv; cbn. rewrite Hcur, wrap64_wrap_l.
    repeat split; f_equal_lia.
Qed.

Lemma lim_reachable_inv cap s0 s : rtc lim_step s0 s -> lim_inv cap s0 -> lim_inv cap s.
Proof. induction 1; eauto using lim_step_inv. Qed.

Lemma mutex_step_inv max s s' :
  0 < max <= int64_max -> mutex_step s s' -> mutex_inv max s -> mutex_inv max s'.
Proof.
  intros Hmax Hstep.
  destruct s as [[cur mx mode tmo sem] adm hold].
  intros (Hsem & Hm & Hcur & Hh & Hle). cbn in *. subst.
  assert (hold <= max) by (destruct adm; lia).
  inversion Hstep; subst; cbn in *; subst; unfold mutex_inv, ConnectionLimiter_Release,
    ConnectionLimiter_recv; cbn; rewrite ?wrap64_id by solve_int64;
    repeat split; lia.
Qed.

Lemma mutex_reachable_inv max s0 s :
  0 < max <= int64_max -> rtc mutex_step s0 s -> mutex_inv max s0 -> mutex_inv max s.
Proof. intros Hmax. induction 1; eauto using mutex_step_inv. Qed.

End Interleavings.

(** ** Properties *)
Section Properties.

(** C5: With a semaphore (block and timeout modes) no interleaving of any number of
    goroutines that release only slots they hold lets more than maxConnections of
    them hold a slot; a release always finds its token in the channel; and a parked
    call can proceed as soon as fewer than maxConnections slots are taken. *)
Theorem ConnectionLimiter_semaphore_safe c s :
  GateConfig_ok c ->
  BackpressureMode c ∈ ["block"; "timeout"] ->
  let cl := NewConnectionLimiter (Some c) in
  rtc lim_step (lim_init cl) s ->
  g_sent s + g_holding s <= cl_maxConnections cl /\
  (0 < g_holding s -> is_Some (ConnectionLimiter_recv (g_cl s))) /\
  (0 < g_parked s -> g_sent s + g_holding s < cl_maxConnections cl ->
     exists s', lim_step s s' /\ g_parked s' = g_parked s - 1 /\ g_sent s' = g_sent s + 1).
Proof.
  intros Hok Hmode cl Hreach.
  assert (lim_inv (cl_maxConnections cl) (lim_init cl)) as Hinit.
  { assert (0 < cl_maxConnections cl) by (apply NewConnectionLimiter_max; congruence).
    assert (cl_sem cl = Some (mkChan 0 (cl_maxConnections cl))) as Hsem.
    { unfold cl at 1. rewrite NewConnectionLimiter_sem.
      rewrite !elem_of_cons, elem_of_nil in Hmode. by destruct Hmode as [->|[->|[]]]. }
    assert (cl_currentConnections cl = 0) as Hz by apply NewConnectionLimiter_zero.
    clearbody cl. unfold lim_inv, lim_init. cbn. rewrite Hsem, Hz. repeat split; lia. }
  destruct (lim_reachable_inv _ _ _ Hreach Hinit) as (Hsem & _ & ? & ? & ? & ? & Hle).
  clearbody cl. split; [done|split].
  - intros Hh. destruct (ConnectionLimiter_recv (g_cl s)) eqn:Hr; [eauto|].
    eapply recv_None_sem in Hr; [|done]. lia.
  - intros Hp Hlt. destruct (ConnectionLimiter_send (g_cl s)) as [cl'|] eqn:Hs.
    + eexists. split; [by apply (step_wake s cl')|]. by destruct s.
    + unfold ConnectionLimiter_send in Hs. rewrite Hsem in Hs. cbn in Hs.
      destruct (Z.ltb_spec (g_sent s + g_holding s) (cl_maxConnections cl)); [done|lia].
Qed.

(** Without a semaphore (drop mode) no interleaving lets more than maxConnections
    goroutines hold a slot, and the counter is exactly the number that do, although
    releases do not take the mutex. *)
Theorem ConnectionLimiter_mutex_safe config s :
  (forall c, config = Some c -> GateConfig_ok c) ->
  let cl := NewConnectionLimiter config in
  cl_sem cl = None ->
  rtc mutex_step (mkMutexSys cl false 0) s ->
  m_holding s <= cl_maxConnections cl /\
  ConnectionLimiter_CurrentConnections (m_cl s) = m_holding s.
Proof.
  intros Hok cl Hsem Hreach.
  pose proof (NewConnectionLimiter_max config Hok) as Hmax. fold cl in Hmax.
  destruct (mutex_reachable_inv (cl_maxConnections cl) _ _ Hmax Hreach) as (_ & _ & Hc & _ & Hle).
  - assert (cl_currentConnections cl = 0) as Hz by apply NewConnectionLimiter_zero.
    clearbody cl. unfold mutex_inv. cbn. rewrite Hsem, Hz. repeat split; lia.
  - split; [destruct (m_admitted s); lia|done].
Qed.

(** What AcquireWithContext does with no slot free, mode by mode: drop and an
    unset timeout reject with ErrConnectionLimit at once; block parks until a slot
    or the context; timeout parks and rejects with ErrConnectionLimit when the timer
    fires; a done context returns its own error; no rejection takes a slot. *)
Theorem ConnectionLimiter_full_modes cl ctxErr :
  cl_currentConnections cl = cl_maxConnections cl ->
  (forall ch, cl_sem cl = Some ch -> chan_len ch = chan_cap ch) ->
  let rejected := Returned cl (Some ErrConnectionLimit) in
  let timeout := ParkedTimeout (cl_timeout cl) in
  (cl_sem cl = None -> AcquireWithContext_enter cl = rejected) /\
  (is_Some (cl_sem cl) -> cl_mode cl ∉ ["block"; "timeout"] ->
     AcquireWithContext_enter cl = rejected) /\
  (is_Some (cl_sem cl) -> cl_mode cl = "block" ->
     AcquireWithContext_enter cl = ParkedBlock /\
     AcquireWithContext_wake ParkedBlock WakeSlot cl = None /\
     AcquireWithContext_wake ParkedBlock WakeTimer cl = None /\
     AcquireWithContext_wake ParkedBlock (WakeDone ctxErr) cl = Some (cl, Some ctxErr)) /\
  (is_Some (cl_sem cl) -> cl_mode cl = "timeout" -> cl_timeout cl <= 0 ->
     AcquireWithContext_enter cl = rejected) /\
  (is_Some (cl_sem cl) -> cl_mode cl = "timeout" -> 0 < cl_timeout cl ->
     AcquireWithContext_enter cl = timeout /\
     AcquireWithContext_wake timeout WakeSlot cl = None /\
     AcquireWithContext_wake timeout WakeTimer cl = Some (cl, Some ErrConnectionLimit) /\
     AcquireWithContext_wake timeout (WakeDone ctxErr) cl = Some (cl, Some ctxErr)).
Proof.
  intros Hfull Hch rejected timeout.
  assert (ConnectionLimiter_send cl = None) as Hsend.
  { unfold ConnectionLimiter_send. destruct (cl_sem cl) as [ch|]; [|done].
    rewrite (Hch ch eq_refl), Z.ltb_irrefl. done. }
  unfold AcquireWithContext_enter, AcquireWithContext_wake, timeout, rejected.
  rewrite Hsend. split; [|split; [|split; [|split]]].
  - intros ->. unfold ConnectionLimiter_Acquire. by rewrite Hfull, Z.leb_refl.
  - intros [ch ->] Hmode. rewrite !not_elem_of_cons in Hmode. destruct Hmode as (Hb & Ht & _).
    apply String.eqb_neq in Hb, Ht. by rewrite Hb, Ht.
  - by intros [ch ->] ->.
  - intros [ch ->] -> Ht. apply Z.leb_le in Ht. by rewrite Ht.
  - intros [ch ->] -> Ht. cbn. destruct (Z.leb_spec (cl_timeout cl) 0); [lia|done].
Qed.

(** A slot taken without waiting and then released leaves the limiter exactly as
    it was, in every mode; taking one adds one to the counter. *)
Theorem ConnectionLimiter_acquire_release cl cl' :
  in_int64 (cl_currentConnections cl) ->
  (forall ch, cl_sem cl = Some ch -> 0 <= chan_len ch) ->
  AcquireWithContext_enter cl = Returned cl' None ->
  cl_currentConnections cl' = wrap64 (cl_currentConnections cl + 1) /\
  ConnectionLimiter_Release cl' = cl.
Proof.
  intros Hc Hch He. split; [|by apply enter_release]. by apply enter_taken in He as ->.
Qed.

End Properties.

(** ** Worked examples *)
Section Witnesses.

Definition cl_example_config : GateConfig :=
  mkGateConfig 5 (60 * Second) (10 * Second) 1000 1 "block" 0.

Lemma cl_example_config_ok : GateConfig_ok cl_example_config.
Proof. repeat split; vm_compute; discriminate. Qed.

(** One slot, two goroutines: the first takes it, the second parks. *)
Definition lim_example : lim_sys :=
  mkLimSys (mkConnectionLimiter 1 1 "block" 0 (Some (mkChan 1 1))) 0 1 0 1.

Lemma lim_example_reachable :
  rtc lim_step (lim_init (NewConnectionLimiter (Some cl_example_config))) lim_example.
Proof.
  eapply rtc_l; [eapply step_send; reflexivity|].
  eapply rtc_l; [eapply step_count; reflexivity|].
  eapply rtc_l; [apply step_park; [reflexivity|left; reflexivity]|].
  apply rtc_refl.
Qed.

Lemma ConnectionLimiter_semaphore_safe_witness :
  g_sent lim_example + g_holding lim_example <= 1 /\
  is_Some (ConnectionLimiter_recv (g_cl lim_example)).
Proof.
  destruct (ConnectionLimiter_semaphore_safe cl_example_config lim_example cl_example_config_ok)
    as (H1 & H2 & _).
  - apply list_elem_of_In. simpl. auto.
  - apply lim_example_reachable.
  - split; [exact H1|apply H2; reflexivity].
Defined.

Lemma ConnectionLimiter_mutex_safe_witness :
  m_holding (mkMutexSys (mkConnectionLimiter 1 100 "drop" 0 None) false 1) <= 100.
Proof.
  destruct (ConnectionLimiter_mutex_safe (Some GateConfig_example)
    (mkMutexSys (mkConnectionLimiter 1 100 "drop" 0 None) false 1)) as [H _].
  - intros c [= <-]. apply GateConfig_example_ok.
  - reflexivity.
  - eapply rtc_l; [apply mutex_read; reflexivity|].
    eapply rtc_l; [apply mutex_add; reflexivity|]. apply rtc_refl.
  - exact H.
Defined.

Lemma ConnectionLimiter_full_modes_witness :
  let cl := mkConnectionLimiter 1 1 "timeout" 5 (Some (mkChan 1 1)) in
  AcquireWithContext_enter cl = ParkedTimeout 5 /\
  AcquireWithContext_wake (ParkedTimeout 5) WakeTimer cl = Some (cl, Some ErrConnectionLimit).
Proof.
  intros cl.
  destruct (ConnectionLimiter_full_modes cl Canceled) as (_ & _ & _ & _ & H).
  - reflexivity.
  - intros ch [= <-]. reflexivity.
  - destruct H as (H1 & _ & H2 & _); [eexists; reflexivity|reflexivity|reflexivity|].
    split; assumption.
Defined.

Lemma ConnectionLimiter_acquire_release_witness :
  let cl := mkConnectionLimiter 3 10 "drop" 0 None in
  ConnectionLimiter_Release (mkConnectionLimiter 4 10 "drop" 0 None) = cl.
Proof.
  intros cl.
  apply (ConnectionLimiter_acquire_release cl (mkConnectionLimiter 4 10 "drop" 0 None)).
  - split; vm_compute; discriminate.
  - intros ch H. discriminate H.
  - reflexivity.
Defined.

End Witnesses.
