(* ===== verification/Gate.v ===== *)
(** * The connection gate (gate.go, [ConnectionGate] and [ExecuteWithGate])

    The breaker, the rate limiter and the connection limiter composed as [Allow]
    composes them, and the wrapper that runs an operation behind the gate. The
    operation is a parameter: a step on the state [W] of the rest of the world that
    gives a value or an error. *)
From S2P Require Import Prelude.
From S2P Require Import Errors.
From S2P Require Import GateConfig.
From S2P Require Import GoFloat.
From S2P Require Import CircuitBreaker.
From S2P Require Import RateLimiter.
From S2P Require Import ConnectionLimiter.
Local Open Scope Z_scope.

Record ConnectionGate : Type := mkConnectionGate {
  cg_circuitBreaker : CircuitBreaker;
  cg_rateLimiter : RateLimiter;
  cg_connectionLimiter : ConnectionLimiter;
}.

(** What one call takes from its surroundings: the clock readings, in the order
    the code makes them (the breaker's [time.Since], the rate limiter's [Now], the
    [Now] of a failure recorded by [Allow], the [Now] of a failure recorded after
    the operation), and what happens while it waits for a slot. *)
Record gate_env : Type := mkGateEnv {
  at_breaker : Z;
  at_rate : Z;
  at_reject : Z;
  at_failure : Z;
  while_parked : ConnectionLimiter -> ConnectionLimiter * wake;
}.

Definition NewConnectionGate (now : Z) (config : option GateConfig) : ConnectionGate :=
  mkConnectionGate (NewCircuitBreaker config) (NewRateLimiter now config)
    (NewConnectionLimiter config).

Definition ConnectionGate_Release (cg : ConnectionGate) : ConnectionGate :=
  cg{{cg_connectionLimiter := ConnectionLimiter_Release (cg_connectionLimiter cg)}}.

Definition ConnectionGate_RecordSuccess (cg : ConnectionGate) : ConnectionGate :=
  cg{{cg_circuitBreaker := CircuitBreaker_RecordSuccess (cg_circuitBreaker cg)}}.

Definition ConnectionGate_RecordFailure (now : Z) (cg : ConnectionGate) : ConnectionGate :=
  cg{{cg_circuitBreaker := CircuitBreaker_RecordFailure now (cg_circuitBreaker cg);
      cg_connectionLimiter := ConnectionLimiter_Release (cg_connectionLimiter cg)}}.

Definition ConnectionGate_State (cg : ConnectionGate) : string :=
  CircuitBreaker_State (cg_circuitBreaker cg).

(** A recorded failure always takes one off the limiter's counter. *)
Lemma RecordFailure_counter now cg :
  cl_currentConnections (cg_connectionLimiter (ConnectionGate_RecordFailure now cg)) =
    wrap64 (cl_currentConnections (cg_connectionLimiter cg) + -1).
Proof. destruct cg. apply Release_counter. Qed.

Section Gate.
Context (oor : float64 -> Z).

(** [None]: the call waits for a slot forever. *)
Definition ConnectionGate_Allow (env : gate_env) (cg : ConnectionGate)
    : option (ConnectionGate * option error) :=
  let '(cb, err) := CircuitBreaker_Allow (at_breaker env) (cg_circuitBreaker cg) in
  let cg := cg{{cg_circuitBreaker := cb}} in
  match err with
  | Some e => Some (cg, Some e)
  | None =>
      let '(rl, err) := RateLimiter_Allow oor (at_rate env) (cg_rateLimiter cg) in
      let cg := cg{{cg_rateLimiter := rl}} in
      match err with
      | Some e =>
          Some (cg{{cg_circuitBreaker :=
                      CircuitBreaker_RecordFailure (at_reject env) (cg_circuitBreaker cg)}}, Some e)
      | None =>
          match ConnectionLimiter_AcquireWithContext (while_parked env) (cg_connectionLimiter cg) with
          | None => None
          | Some (cl, err) =>
              let cg := cg{{cg_connectionLimiter := cl}} in
              match err with
              | Some e =>
                  Some (cg{{cg_circuitBreaker :=
                    CircuitBreaker_RecordFailure (at_reject env) (cg_circuitBreaker cg)}}, Some e)
              | None => Some (cg, None)
              end
          end
      end
  end.

Definition ExecuteWithGate {W T : Type} (env : gate_env)
    (operation : W -> W * result error T) (cg : ConnectionGate) (w : W)
    : option (ConnectionGate * W * result error T) :=
  match ConnectionGate_Allow env cg with
  | None => None
  | Some (cg, Some err) => Some (cg, w, Err err)
  | Some (cg, None) =>
      let '(w, r) := operation w in
      match r with
      | Err err => Some (ConnectionGate_RecordFailure (at_failure env) cg, w, Err err)
      | Ok v => Some (ConnectionGate_RecordSuccess cg, w, Ok v)
      end
  end.

(** A sequence of operations behind the gate, and how many returned a value; it
    stops if one of them never returns. *)
Fixpoint gate_session {W T : Type} (calls : list (gate_env * (W -> W * result error T)))
    (cg : ConnectionGate) (w : W) : ConnectionGate * W * Z :=
  match calls with
  | [] => (cg, w, 0)
  | (env, op) :: calls =>
      match ExecuteWithGate env op cg w with
      | None => (cg, w, 0)
      | Some (cg, w, r) =>
          let '(cg, w, n) := gate_session calls cg w in
          (cg, w, if is_Ok r then n + 1 else n)
      end
  end.

(** The limiter's counter, and its channel when it has one, count the same slots
    and are within the limit. *)
Definition gate_balanced (cg : ConnectionGate) : Prop :=
  let cl := cg_connectionLimiter cg in
  0 <= cl_currentConnections cl <= cl_maxConnections cl /\
  cl_maxConnections cl <= int64_max /\
  forall ch, cl_sem cl = Some ch -> ch = mkChan (cl_currentConnections cl) (cl_maxConnections cl).

(** Nobody touches the limiter while the call waits. *)
Definition env_quiet (env : gate_env) : Prop := forall cl, (while_parked env cl).1 = cl.

(** The slots in use, and their limit. *)
Definition gate_slots (cg : ConnectionGate) : Z :=
  cl_currentConnections (cg_connectionLimiter cg).
Definition gate_limit (cg : ConnectionGate) : Z :=
  cl_maxConnections (cg_connectionLimiter cg).

Lemma NewConnectionGate_balanced now config :
  (forall c, config = Some c -> GateConfig_ok c) ->
  gate_balanced (NewConnectionGate now config) /\
  gate_slots (NewConnectionGate now config) = 0 /\
  0 < gate_limit (NewConnectionGate now config).
Proof.
  intros Hok. pose proof (NewConnectionLimiter_max config Hok) as Hm.
  unfold gate_balanced, gate_slots, gate_limit. cbn [NewConnectionGate cg_connectionLimiter].
  rewrite NewConnectionLimiter_zero, NewConnectionLimiter_sem.
  repeat split; try lia. intros ch. destruct config as [c|]; [|done].
  destruct (_ || _); [by intros [= <-]|done].
Qed.

(** A call that returns nil took a free slot, which a release gives back; one that
    returns an error left the limiter alone. *)
Lemma AcquireWithContext_slots others cl cl' e :
  (others cl).1 = cl -> 0 <= cl_currentConnections cl <= int64_max ->
  (forall ch, cl_sem cl = Some ch -> ch = mkChan (cl_currentConnections cl) (cl_maxConnections cl)) ->
  ConnectionLimiter_AcquireWithContext others cl = Some (cl', e) ->
  match e with
  | Some _ => cl' = cl
  | None => cl_currentConnections cl < cl_maxConnections cl /\
            AcquireWithContext_enter cl = Returned cl' None
  end.
Proof.
  destruct cl as [cur max mode tmo sem]. intros Ho Hcur Hch.
  unfold ConnectionLimiter_AcquireWithContext, AcquireWithContext_enter,
    AcquireWithContext_wake, ConnectionLimiter_Acquire, ConnectionLimiter_send in *. cbn in *.
  destruct sem as [[n cap]|]; cbn in *.
  - specialize (Hch _ eq_refl) as [= -> ->].
    destruct (Z.ltb_spec cur max); [by intros [= <- <-]|].
    destruct (String.eqb mode "block"); [|destruct (String.eqb mode "timeout");
      [destruct (tmo <=? 0)|]]; try (by intros [= <- <-]);
      destruct (others _) as [cl1 []]; cbn in Ho; subst cl1; cbn;
      rewrite ?(proj2 (Z.ltb_ge cur max)) by lia; cbn; intros He; by inversion He.
  - destruct (Z.leb_spec max cur); by intros [= <- <-].
Qed.

(** The shape of [Allow], from the limiter's side. *)
Lemma ConnectionGate_Allow_slots env cg cg' e :
  env_quiet env -> gate_balanced cg -> ConnectionGate_Allow env cg = Some (cg', e) ->
  match e with
  | Some _ => cg_connectionLimiter cg' = cg_connectionLimiter cg
  | None => gate_slots cg < gate_limit cg /\
      AcquireWithContext_enter (cg_connectionLimiter cg) = Returned (cg_connectionLimiter cg') None
  end.
Proof.
  intros Hq (Hcur & Hmax & Hch). destruct cg as [cb rl cl]. cbn in *.
  unfold ConnectionGate_Allow. cbn.
  destruct (CircuitBreaker_Allow _ _) as [cb' [e1|]]; [by intros [= <- <-]|].
  destruct (RateLimiter_Allow _ _ _) as [rl' [e1|]]; [by intros [= <- <-]|]. cbn.
  destruct (ConnectionLimiter_AcquireWithContext _ _) as [[cl' e1]|] eqn:Ha; [|done].
  apply AcquireWithContext_slots in Ha; [|apply Hq|lia|done].
  destruct e1 as [e1|]; intros [= <- <-]; cbn; [done|]. exact Ha.
Qed.

Lemma enter_balanced cg cl' :
  gate_balanced cg -> gate_slots cg < gate_limit cg ->
  AcquireWithContext_enter (cg_connectionLimiter cg) = Returned cl' None ->
  ConnectionLimiter_Release cl' = cg_connectionLimiter cg /\
  forall cg', cg_connectionLimiter cg' = cl' ->
    gate_balanced cg' /\ gate_slots cg' = gate_slots cg + 1 /\ gate_limit cg' = gate_limit cg.
Proof.
  unfold gate_balanced, gate_slots, gate_limit. intros (Hcur & Hmax & Hch) Hlt He. split.
  - apply enter_release; [solve_int64| |done]. intros ch Hs. rewrite (Hch ch Hs). cbn. lia.
  - intros cg' Hcg'. apply enter_taken in He. rewrite Hcg', He. cbn.
    rewrite wrap64_id by solve_int64. repeat split; try lia.
    intros ch. destruct (cl_sem _) as [ch0|]; [|done]. intros [= <-].
    by rewrite (Hch ch0 eq_refl).
Qed.

(** One call behind the gate: it takes a slot exactly when it returns a value, and
    does not run the operation when every slot is taken. *)
Lemma ExecuteWithGate_slots {W T} env (op : W -> W * result error T) cg w cg' w' r :
  env_quiet env -> gate_balanced cg -> ExecuteWithGate env op cg w = Some (cg', w', r) ->
  gate_balanced cg' /\ gate_limit cg' = gate_limit cg /\
  gate_slots cg' = gate_slots cg + (if is_Ok r then 1 else 0) /\
  (gate_slots cg = gate_limit cg -> w' = w /\ is_Ok r = false).
Proof.
  intros Hq Hb. unfold ExecuteWithGate.
  destruct (ConnectionGate_Allow env cg) as [[cg1 e]|] eqn:Ha; [|done].
  pose proof (ConnectionGate_Allow_slots _ _ _ _ Hq Hb Ha) as Hs.
  destruct e as [e|].
  { intros [= <- <- <-]. unfold gate_balanced, gate_slots, gate_limit in *. rewrite Hs.
    repeat split; try apply Hb; cbn; lia || done. }
  destruct Hs as [Hlt He]. destruct (enter_balanced _ _ Hb Hlt He) as [Hrel Htaken].
  destruct (op w) as [w1 [v|e]]; intros [= <- <- <-]; cbn [is_Ok].
  - destruct (Htaken (ConnectionGate_RecordSuccess cg1)) as (? & ? & ?); [by destruct cg1|].
    repeat split; try apply H; lia || done.
  - assert (cg_connectionLimiter (ConnectionGate_RecordFailure (at_failure env) cg1) =
      cg_connectionLimiter cg) as Heq by (destruct cg1; exact Hrel).
    unfold gate_balanced, gate_slots, gate_limit in *. rewrite Heq.
    repeat split; try apply Hb; lia || done.
Qed.

(** A gate in the "drop" mode, which has no channel to wait on. *)
Definition gate_drops (cg : ConnectionGate) : Prop := cl_sem (cg_connectionLimiter cg) = None.

Lemma AcquireWithContext_drop others cl :
  cl_sem cl = None -> ConnectionLimiter_AcquireWithContext others cl = Some (ConnectionLimiter_Acquire cl).
Proof.
  intros Hs. unfold ConnectionLimiter_AcquireWithContext, AcquireWithContext_enter. rewrite Hs.
  by destruct (ConnectionLimiter_Acquire cl).
Qed.

Lemma Acquire_sem cl : cl_sem (ConnectionLimiter_Acquire cl).1 = cl_sem cl.
Proof. unfold ConnectionLimiter_Acquire. destruct cl as [cur max mode tmo sem]. by destruct (_ <=? _). Qed.

Lemma Release_drop cl : cl_sem cl = None -> cl_sem (ConnectionLimiter_Release cl) = None.
Proof. destruct cl as [cur max mode tmo sem]. cbn. by intros ->. Qed.

Lemma ConnectionGate_Allow_drop (env : gate_env) cg :
  gate_drops cg -> exists cg' e, gate_drops cg' /\
    forall others, ConnectionGate_Allow (env{{while_parked := others}}) cg = Some (cg', e).
Proof.
  destruct cg as [cb rl cl], env as [t1 t2 t3 t4 parked]. unfold gate_drops. cbn. intros Hs.
  unfold ConnectionGate_Allow. cbn.
  assert (Hnow : forall cg1 (e : option error), cl_sem (cg_connectionLimiter cg1) = None ->
    exists cg' e', cl_sem (cg_connectionLimiter cg') = None /\
      forall (others : ConnectionLimiter -> ConnectionLimiter * wake), Some (cg1, e) = Some (cg', e'))
    by (intros cg1 e H; by exists cg1, e).
  destruct (CircuitBreaker_Allow t1 cb) as [cb1 [e1|]]; [by apply Hnow|].
  destruct (RateLimiter_Allow oor t2 rl) as [rl1 [e1|]]; cbn; [by apply Hnow|].
  pose proof (Acquire_sem cl) as Hs1. rewrite Hs in Hs1.
  destruct (ConnectionLimiter_Acquire cl) as [cl1 e1] eqn:Ha. cbn in Hs1.
  eexists (match e1 with Some _ => _ | None => _ end), e1. destruct e1 as [e1|];
    (split; [|intros others; rewrite AcquireWithContext_drop, Ha by done; reflexivity]); exact Hs1.
Qed.

(** A call on such a gate returns. It has run its operation, for which there was a slot,
    or has turned it away. *)
Lemma ExecuteWithGate_drop {W T} env (op : W -> W * result error T) cg w :
  gate_drops cg -> gate_balanced cg ->
  exists cg' w' r, ExecuteWithGate env op cg w = Some (cg', w', r) /\
    gate_drops cg' /\ gate_balanced cg' /\ gate_limit cg' = gate_limit cg /\
    gate_slots cg' = gate_slots cg + (if is_Ok r then 1 else 0) /\
    ((w', r) = op w /\ gate_slots cg < gate_limit cg \/ w' = w /\ is_Ok r = false).
Proof.
  intros Hd Hb. destruct (ConnectionGate_Allow_drop env cg Hd) as (cg1 & e & Hd1 & Ha).
  pose (quiet := env{{while_parked := fun cl => (cl, WakeSlot)}}).
  assert (Hq : forall others, ExecuteWithGate (env{{while_parked := others}}) op cg w = ExecuteWithGate quiet op cg w)
    by (intros others; unfold ExecuteWithGate; unfold quiet; rewrite !Ha; by destruct env).
  replace env with (env{{while_parked := while_parked env}}) by (by destruct env). rewrite Hq.
  assert (He : exists cg' w' r, ExecuteWithGate quiet op cg w = Some (cg', w', r) /\ gate_drops cg' /\
    ((w', r) = op w \/ w' = w /\ is_Ok r = false)).
  { unfold ExecuteWithGate. unfold quiet at 1. rewrite Ha. destruct e as [e|]; [eexists _, _, _; split_and!; [done..|by right]|].
    destruct (op w) as [w1 [v|e]]; eexists _, _, _; (split_and!; [done| |by left]); [by destruct cg1|].
    destruct cg1. by apply Release_drop. }
  destruct He as (cg' & w' & r & He & Hd' & Hop). exists cg', w', r.
  destruct (ExecuteWithGate_slots quiet op cg w cg' w' r) as (Hb' & Hl' & Hs' & Hfull); [by destruct env|done..|].
  split_and!; try done. destruct (decide (gate_slots cg = gate_limit cg)) as [Hf|Hf]; [by right; apply Hfull|].
  destruct Hop as [Hop|Hop]; [|by right]. left. split; [done|]. destruct Hb as (Hcur & _). unfold gate_slots, gate_limit in *. lia.
Qed.

(** A gate that turns nobody away for anything but its slots: the circuit is closed and
    the bucket serves the calls to come. *)
Definition gate_serves (nows : list Z) (cg : ConnectionGate) : Prop :=
  cb_state (cg_circuitBreaker cg) = circuitClosed /\ bucket_serves nows (cg_rateLimiter cg).

(** With a slot left, an operation that succeeds is run and its value returned. *)
Lemma ExecuteWithGate_serves {W T} env (op : W -> W * result error T) cg w nows cg' w' r :
  gate_drops cg -> gate_slots cg < gate_limit cg -> gate_serves (at_rate env :: nows) cg ->
  is_Ok (op w).2 = true -> ExecuteWithGate env op cg w = Some (cg', w', r) ->
  is_Ok r = true /\ gate_serves nows cg'.
Proof.
  unfold gate_drops, gate_slots, gate_limit. destruct cg as [cb rl cl]. intros Hd Hlt [Hst Hserve] Hop.
  destruct (bucket_serves_Allow oor _ _ _ Hserve) as (rl' & Hallow & Hserve').
  unfold ExecuteWithGate, ConnectionGate_Allow. cbn in *.
  assert (Hcb : CircuitBreaker_Allow (at_breaker env) cb = (cb, None)) by (unfold CircuitBreaker_Allow; by rewrite Hst).
  rewrite Hcb. cbn. rewrite Hallow. cbn. rewrite AcquireWithContext_drop by done.
  unfold ConnectionLimiter_Acquire.
  destruct (Z.leb_spec (cl_maxConnections cl) (cl_currentConnections cl)); [lia|]. cbn.
  destruct (op w) as [w1 [v|e]]; [|done]. intros [= <- _ <-]. split; [done|]. split; [|done]. cbn.
  unfold CircuitBreaker_RecordSuccess. destruct cb. cbn in *. by rewrite Hst.
Qed.

Lemma gate_session_slots {W T} (calls : list (gate_env * (W -> W * result error T))) cg w :
  Forall (fun c => env_quiet c.1) calls -> gate_balanced cg ->
  let '(cg', w', n) := gate_session calls cg w in
  gate_slots cg' = gate_slots cg + n /\ gate_slots cg' <= gate_limit cg /\ 0 <= n /\
  (gate_slots cg = gate_limit cg -> w' = w).
Proof.
  intros Hq. revert cg w. induction Hq as [|[env op] calls Henv Hq IH]; intros cg w Hb; cbn.
  { destruct Hb as (? & ? & _). unfold gate_slots, gate_limit. repeat split; lia || done. }
  destruct (ExecuteWithGate env op cg w) as [[[cg1 w1] r]|] eqn:He; cycle 1.
  { destruct Hb as (? & ? & _). unfold gate_slots, gate_limit. repeat split; lia || done. }
  destruct (ExecuteWithGate_slots _ _ _ _ _ _ _ Henv Hb He) as (Hb1 & Hm1 & Hs1 & Hx).
  specialize (IH cg1 w1 Hb1). destruct (gate_session calls cg1 w1) as [[cg' w'] n].
  destruct IH as (IH1 & IH2 & IH3 & IH4).
  destruct (is_Ok r); (split; [lia|split; [lia|split; [lia|]]]);
    intros Hfull; destruct (Hx Hfull) as [-> Hr]; [done|apply IH4; lia].
Qed.

(** ** Properties *)

(** C1: At most maxConnections operations ever succeed through a gate, in every
    backpressure mode: over any sequence of ExecuteWithGate calls, whatever the
    operations, the clock and the breaker do, the successes so far are exactly the
    slots in use, because a success never gives its slot back. *)
Theorem ExecuteWithGate_lifetime_successes {W T} now config
    (calls : list (gate_env * (W -> W * result error T))) w :
  (forall c, config = Some c -> GateConfig_ok c) ->
  Forall (fun c => env_quiet c.1) calls ->
  let cg := NewConnectionGate now config in
  let '(cg', _, successes) := gate_session calls cg w in
  successes = gate_slots cg' /\ successes <= gate_limit cg.
Proof.
  intros Hok Hq cg. destruct (NewConnectionGate_balanced now config Hok) as (Hb & Hz & _).
  pose proof (gate_session_slots calls cg w Hq Hb) as Hs.
  destruct (gate_session calls cg w) as [[cg' w'] n]. fold cg in Hz. lia.
Qed.

(** Once every slot of a gate is in use it is shut for good: no later
    ExecuteWithGate call runs its operation, in any mode and whatever the clock
    reads, and none returns a value. *)
Theorem ExecuteWithGate_exhausted_forever {W T} cg
    (calls : list (gate_env * (W -> W * result error T))) w :
  gate_balanced cg -> gate_slots cg = gate_limit cg ->
  Forall (fun c => env_quiet c.1) calls ->
  let '(cg', w', successes) := gate_session calls cg w in
  w' = w /\ successes = 0 /\ gate_slots cg' = gate_limit cg.
Proof.
  intros Hb Hfull Hq. pose proof (gate_session_slots calls cg w Hq Hb) as Hs.
  destruct (gate_session calls cg w) as [[cg' w'] n].
  destruct Hs as (? & ? & ? & Hw). rewrite (Hw Hfull). repeat split; lia.
Qed.

(** A call on an exhausted drop-mode gate with a closed breaker is recorded by the
    breaker as a failure. *)
Lemma ExecuteWithGate_exhausted_step {W T} env (op : W -> W * result error T) cg w :
  cl_sem (cg_connectionLimiter cg) = None -> gate_slots cg = gate_limit cg ->
  cb_state (cg_circuitBreaker cg) = circuitClosed ->
  exists cg' e, ExecuteWithGate env op cg w = Some (cg', w, Err e) /\
    cg_connectionLimiter cg' = cg_connectionLimiter cg /\
    cg_circuitBreaker cg' = CircuitBreaker_RecordFailure (at_reject env) (cg_circuitBreaker cg).
Proof.
  unfold gate_slots, gate_limit. intros Hsem Hfull Hcl.
  destruct cg as [cb rl cl]. cbn in *.
  unfold ExecuteWithGate, ConnectionGate_Allow, CircuitBreaker_Allow. cbn. rewrite Hcl. cbn.
  destruct (RateLimiter_Allow _ _ _) as [rl' [e|]]; [by do 2 eexists|]. cbn.
  unfold ConnectionLimiter_AcquireWithContext, AcquireWithContext_enter,
    ConnectionLimiter_Acquire. rewrite Hsem, Hfull, Z.leb_refl. cbn. by do 2 eexists.
Qed.

(** The calls an exhausted drop-mode gate turns away count as failures of the
    database: with n failures already counted the breaker opens at the
    (maxFailures - n)-th rejection and not before, although no operation was run. *)
Theorem ExecuteWithGate_exhausted_trips {W T} cg
    (calls : list (gate_env * (W -> W * result error T))) w :
  cl_sem (cg_connectionLimiter cg) = None -> gate_slots cg = gate_limit cg ->
  cb_wf (cg_circuitBreaker cg) -> cb_state (cg_circuitBreaker cg) = circuitClosed ->
  let remaining :=
    cb_maxFailures (cg_circuitBreaker cg) - cb_failureCount (cg_circuitBreaker cg) in
  Z.of_nat (length calls) <= remaining ->
  let '(cg', w', _) := gate_session calls cg w in
  w' = w /\
  ConnectionGate_State cg' =
    if decide (Z.of_nat (length calls) < remaining) then CircuitStateClosed else CircuitStateOpen.
Proof.
  revert cg. induction calls as [|[env op] calls IH]; intros cg Hsem Hfull Hwf Hcl remaining;
    cbn [length gate_session].
  { intros _. split; [done|]. destruct Hwf as [_ _ _ _ Hc _]. specialize (Hc Hcl).
    unfold remaining. rewrite decide_True by lia.
    unfold ConnectionGate_State, CircuitBreaker_State. by rewrite Hcl. }
  intros Hlen.
  destruct (ExecuteWithGate_exhausted_step env op cg w Hsem Hfull Hcl)
    as (cg1 & e & -> & Hl1 & Hb1).
  assert (Hwf1 := cb_step_wf (CallFailure (at_reject env)) _ Hwf). cbn in Hwf1. rewrite <- Hb1 in Hwf1.
  destruct (closed_failure (at_reject env) _ Hwf Hcl) as (Hm1 & Hc1 & Hs1). rewrite <- Hb1 in Hm1, Hc1, Hs1.
  destruct (decide (cb_failureCount (cg_circuitBreaker cg) + 1 < cb_maxFailures (cg_circuitBreaker cg))).
  - specialize (IH cg1). unfold gate_slots, gate_limit in *. rewrite Hl1, Hm1, Hc1 in IH.
    specialize (IH Hsem Hfull Hwf1 Hs1).
    destruct (gate_session calls cg1 w) as [[cg' w'] n].
    destruct IH as [-> ->]; [lia|]. split; [done|].
    destruct (decide _), (decide _); lia || done.
  - destruct calls; [|cbn in Hlen; lia]. cbn. split; [done|].
    rewrite decide_False by lia. unfold ConnectionGate_State, CircuitBreaker_State.
    by rewrite Hs1.
Qed.

End Gate.

(** ** Worked examples *)
Section Witnesses.

(** Two slots, a circuit that opens at the second failure. *)
Definition gate_example_config : GateConfig :=
  mkGateConfig 2 (60 * Second) (10 * Second) 1000 2 "drop" 0.

Definition gate_example_env : gate_env := mkGateEnv 1 1 1 1 (fun cl => (cl, WakeSlot)).

(** An operation that succeeds and counts its runs. *)
Definition gate_example_op : Z -> Z * result error Z := fun w => (w + 1, Ok w).

Definition gate_example_calls (n : nat) : list (gate_env * (Z -> Z * result error Z)) :=
  replicate n (gate_example_env, gate_example_op).

Lemma gate_example_config_ok c : Some gate_example_config = Some c -> GateConfig_ok c.
Proof. intros [= <-]. repeat split; vm_compute; discriminate. Qed.

Lemma gate_example_quiet n : Forall (fun c => env_quiet c.1) (gate_example_calls n).
Proof. apply Forall_replicate. intros cl. reflexivity. Qed.

Lemma ExecuteWithGate_lifetime_successes_witness :
  let cg := NewConnectionGate 0 (Some gate_example_config) in
  let '(cg', w', successes) := gate_session (fun _ => 0) (gate_example_calls 5) cg 0 in
  successes <= 2 /\ w' = 2.
Proof.
  pose proof (ExecuteWithGate_lifetime_successes (fun _ => 0) 0 (Some gate_example_config)
    (gate_example_calls 5) 0 gate_example_config_ok (gate_example_quiet 5)) as H.
  vm_compute in H. vm_compute. split; [apply H|reflexivity].
Defined.

(** Both slots taken. *)
Definition gate_example_full : ConnectionGate :=
  (gate_session (fun _ => 0) (gate_example_calls 2)
     (NewConnectionGate 0 (Some gate_example_config)) 0).1.1.

Lemma gate_example_full_balanced : gate_balanced gate_example_full.
Proof. repeat split; vm_compute; discriminate. Qed.

Lemma ExecuteWithGate_exhausted_forever_witness :
  (gate_session (fun _ => 0) (gate_example_calls 4) gate_example_full 7).1.2 = 7.
Proof.
  pose proof (ExecuteWithGate_exhausted_forever (fun _ => 0) gate_example_full
    (gate_example_calls 4) 7 gate_example_full_balanced eq_refl (gate_example_quiet 4)) as H.
  destruct (gate_session _ _ _ _) as [[cg' w'] n]. apply H.
Defined.

Lemma ExecuteWithGate_exhausted_trips_witness :
  ConnectionGate_State (gate_session (fun _ => 0) (gate_example_calls 2) gate_example_full 7).1.1 =
    CircuitStateOpen.
Proof.
  pose proof (ExecuteWithGate_exhausted_trips (fun _ => 0) gate_example_full
    (gate_example_calls 2) 7 eq_refl eq_refl) as H.
  destruct (gate_session _ _ _ _) as [[cg' w'] n]. apply H.
  - constructor; [apply list_elem_of_In; left; reflexivity|..];
      vm_compute; try (intros H'; discriminate H'); try (split; discriminate || reflexivity).
  - reflexivity.
  - vm_compute. discriminate.
Defined.

End Witnesses.
