(* ===== verification/GateConcurrency.v ===== *)
(** * The gate under concurrency (gate.go, [ExecuteWithGate])

    Any number of goroutines, each in one call of [ExecuteWithGate] on one shared gate.
    A goroutine is at one of the places between the atomic actions of the code, and a
    step moves one goroutine by one of them: a load, a store, a channel operation, an
    addition, or a section under a mutex that nothing else can enter or observe.  The
    operation is the code's argument: it may return anything.

    The breaker's and the limiter's own interleavings ([bc_step], [lim_step],
    [mutex_step]) are what these steps look like from the breaker and from the limiter,
    so their invariants carry over. *)
From S2P Require Import Prelude.
From S2P Require Import Pool.
From S2P Require Import Errors.
From S2P Require Import GateConfig.
From S2P Require Import GoFloat.
From S2P Require Import CircuitBreaker.
From S2P Require Import BreakerConcurrency.
From S2P Require Import RateLimiter.
From S2P Require Import ConnectionLimiter.
From S2P Require Import Gate.
Local Open Scope Z_scope.

(** Where a call is: what its goroutine does next. *)
Inductive gate_pc (T : Type) : Type :=
  | AtBreaker                        (* Allow: load the state *)
  | AtBreakerLock                    (* Allow, which loaded [open]: the locked section *)
  | AtRateLimiter                    (* RateLimiter.Allow *)
  | AtAcquire                        (* AcquireWithContext: the lock, or the first select *)
  | AtAdmitted                       (* Acquire, below the limit: add and unlock *)
  | AtParked (timer : option Z)      (* in the select of the mode, with its timer if any *)
  | AtSent                           (* the token is in the channel: count it *)
  | AtRejected (err : error)         (* ConnectionGate.Allow: the failure it records *)
  | AtOperation                      (* running the operation *)
  | AtRecordSuccess (v : T)          (* RecordSuccess: load the state *)
  | AtSuccessHalfOpen (v : T)
  | AtSuccessClosed (v : T)
  | AtRecordFailure (err : error)    (* RecordFailure, on the breaker *)
  | AtRelease (err : error)          (* Release: take a token back *)
  | AtUncount (err : error)          (* Release: the counter *)
  | Done (r : result error T).
Arguments AtBreaker {T}.
Arguments AtBreakerLock {T}.
Arguments AtRateLimiter {T}.
Arguments AtAcquire {T}.
Arguments AtAdmitted {T}.
Arguments AtParked {T} timer.
Arguments AtSent {T}.
Arguments AtRejected {T} err.
Arguments AtOperation {T}.
Arguments AtRecordSuccess {T} v.
Arguments AtSuccessHalfOpen {T} v.
Arguments AtSuccessClosed {T} v.
Arguments AtRecordFailure {T} err.
Arguments AtRelease {T} err.
Arguments AtUncount {T} err.
Arguments Done {T} r.

(** One call: the error its context is done with, if it ever is, and its place. *)
Record gate_call (T : Type) : Type := mkGateCall {
  gc_ctx : option error;
  gc_pc : gate_pc T;
}.
Arguments mkGateCall {T} gc_ctx gc_pc.
Arguments gc_ctx {T} g.
Arguments gc_pc {T} g.

(** The gate, whether the limiter's mutex is held, and the calls. *)
Record gate_sys (T : Type) : Type := mkGateSys {
  gx_gate : ConnectionGate;
  gx_locked : bool;
  gx_calls : list (gate_call T);
}.
Arguments mkGateSys {T} gx_gate gx_locked gx_calls.
Arguments gx_gate {T} g.
Arguments gx_locked {T} g.
Arguments gx_calls {T} g.

(** The section of the breaker's Allow under [cb.mu.Lock()]. *)
Definition CircuitBreaker_Allow_locked (now : Z) (cb : CircuitBreaker)
    : CircuitBreaker * option error :=
  if cb_resetTimeout cb <? Time_Sub now (cb_lastFailureTime cb)
  then (CircuitBreaker_notify CircuitStateOpen CircuitStateHalfOpen
          (cb{{cb_state := circuitHalfOpen; cb_failureCount := 0}}), None)
  else (cb, Some ErrCircuitOpen).

(** The first half of Release: the select that takes a token back if there is one. *)
Definition ConnectionLimiter_take_back (cl : ConnectionLimiter) : ConnectionLimiter :=
  match cl_sem cl with
  | Some _ => match ConnectionLimiter_recv cl with Some cl' => cl' | None => cl end
  | None => cl
  end.

Section GateConcurrency.
Context (oor : float64 -> Z) {T : Type}.
Implicit Types (cg : ConnectionGate) (mu : bool) (p : gate_pc T).

(** One atomic action of one goroutine, on the gate and the limiter's mutex. *)
Inductive call_step (ctx : option error) :
    ConnectionGate -> bool -> gate_pc T -> ConnectionGate -> bool -> gate_pc T -> Prop :=
  | call_breaker cg mu :
      cb_state (cg_circuitBreaker cg) <> circuitOpen ->
      call_step ctx cg mu AtBreaker cg mu AtRateLimiter
  | call_breaker_open cg mu :
      cb_state (cg_circuitBreaker cg) = circuitOpen ->
      call_step ctx cg mu AtBreaker cg mu AtBreakerLock
  | call_breaker_locked cg mu now cb e :
      CircuitBreaker_Allow_locked now (cg_circuitBreaker cg) = (cb, e) ->
      call_step ctx cg mu AtBreakerLock
        (cg{{cg_circuitBreaker := cb}}) mu
        (match e with None => AtRateLimiter | Some e => Done (Err e) end)
  | call_rate cg mu now rl e :
      RateLimiter_Allow oor now (cg_rateLimiter cg) = (rl, e) ->
      call_step ctx cg mu AtRateLimiter
        (cg{{cg_rateLimiter := rl}}) mu
        (match e with None => AtAcquire | Some e => AtRejected e end)
  (** Acquire, when there is no semaphore. *)
  | call_lock_admit cg :
      cl_sem (cg_connectionLimiter cg) = None ->
      cl_currentConnections (cg_connectionLimiter cg) < cl_maxConnections (cg_connectionLimiter cg) ->
      call_step ctx cg false AtAcquire cg true AtAdmitted
  | call_lock_reject cg :
      cl_sem (cg_connectionLimiter cg) = None ->
      cl_maxConnections (cg_connectionLimiter cg) <= cl_currentConnections (cg_connectionLimiter cg) ->
      call_step ctx cg false AtAcquire cg false (AtRejected ErrConnectionLimit)
  | call_add_unlock cg mu :
      call_step ctx cg mu AtAdmitted
        (cg{{cg_connectionLimiter := ConnectionLimiter_add 1 (cg_connectionLimiter cg)}}) false
        AtOperation
  (** The selects. *)
  | call_send cg mu cl :
      ConnectionLimiter_send (cg_connectionLimiter cg) = Some cl ->
      call_step ctx cg mu AtAcquire (cg{{cg_connectionLimiter := cl}}) mu AtSent
  | call_full cg mu e :
      is_Some (cl_sem (cg_connectionLimiter cg)) ->
      AcquireWithContext_enter (cg_connectionLimiter cg) =
        Returned (cg_connectionLimiter cg) (Some e) ->
      call_step ctx cg mu AtAcquire cg mu (AtRejected e)
  | call_park_block cg mu :
      AcquireWithContext_enter (cg_connectionLimiter cg) = ParkedBlock ->
      call_step ctx cg mu AtAcquire cg mu (AtParked None)
  | call_park_timeout cg mu timeout :
      AcquireWithContext_enter (cg_connectionLimiter cg) = ParkedTimeout timeout ->
      call_step ctx cg mu AtAcquire cg mu (AtParked (Some timeout))
  | call_wake cg mu timer cl :
      ConnectionLimiter_send (cg_connectionLimiter cg) = Some cl ->
      call_step ctx cg mu (AtParked timer) (cg{{cg_connectionLimiter := cl}}) mu AtSent
  | call_timer cg mu timeout :
      call_step ctx cg mu (AtParked (Some timeout)) cg mu (AtRejected ErrConnectionLimit)
  | call_done cg mu timer e :
      ctx = Some e ->
      call_step ctx cg mu (AtParked timer) cg mu (AtRejected e)
  | call_count cg mu :
      call_step ctx cg mu AtSent
        (cg{{cg_connectionLimiter := ConnectionLimiter_add 1 (cg_connectionLimiter cg)}}) mu
        AtOperation
  (** A rejection by the limiters is recorded by the breaker. *)
  | call_rejected cg mu now e :
      call_step ctx cg mu (AtRejected e)
        (cg{{cg_circuitBreaker := CircuitBreaker_RecordFailure now (cg_circuitBreaker cg)}}) mu
        (Done (Err e))
  | call_operation cg mu (r : result error T) :
      call_step ctx cg mu AtOperation cg mu
        (match r with Ok v => AtRecordSuccess v | Err e => AtRecordFailure e end)
  (** RecordSuccess. *)
  | call_success_other cg mu v :
      cb_state (cg_circuitBreaker cg) <> circuitHalfOpen ->
      cb_state (cg_circuitBreaker cg) <> circuitClosed ->
      call_step ctx cg mu (AtRecordSuccess v) cg mu (Done (Ok v))
  | call_success_load_half cg mu v :
      cb_state (cg_circuitBreaker cg) = circuitHalfOpen ->
      call_step ctx cg mu (AtRecordSuccess v) cg mu (AtSuccessHalfOpen v)
  | call_success_load_closed cg mu v :
      cb_state (cg_circuitBreaker cg) = circuitClosed ->
      call_step ctx cg mu (AtRecordSuccess v) cg mu (AtSuccessClosed v)
  | call_success_half cg mu v :
      call_step ctx cg mu (AtSuccessHalfOpen v)
        (cg{{cg_circuitBreaker :=
               CircuitBreaker_notify CircuitStateHalfOpen CircuitStateClosed
                 ((cg_circuitBreaker cg){{cb_state := circuitClosed; cb_failureCount := 0}})}}) mu
        (Done (Ok v))
  | call_success_closed cg mu v :
      call_step ctx cg mu (AtSuccessClosed v)
        (cg{{cg_circuitBreaker := (cg_circuitBreaker cg){{cb_failureCount := 0}} }}) mu
        (Done (Ok v))
  (** RecordFailure: the breaker, then the limiter's Release in its two halves. *)
  | call_failure cg mu now e :
      call_step ctx cg mu (AtRecordFailure e)
        (cg{{cg_circuitBreaker := CircuitBreaker_RecordFailure now (cg_circuitBreaker cg)}}) mu
        (AtRelease e)
  | call_take_back cg mu e :
      call_step ctx cg mu (AtRelease e)
        (cg{{cg_connectionLimiter := ConnectionLimiter_take_back (cg_connectionLimiter cg)}}) mu
        (AtUncount e)
  | call_uncount cg mu e :
      call_step ctx cg mu (AtUncount e)
        (cg{{cg_connectionLimiter := ConnectionLimiter_add (-1) (cg_connectionLimiter cg)}}) mu
        (Done (Err e)).

(** One goroutine moves. *)
Inductive gate_step : gate_sys T -> gate_sys T -> Prop :=
  | gate_step_call cg mu calls i ctx p cg' mu' p' :
      calls !! i = Some (mkGateCall ctx p) ->
      call_step ctx cg mu p cg' mu' p' ->
      gate_step (mkGateSys cg mu calls)
        (mkGateSys cg' mu' (<[i := mkGateCall ctx p']> calls)).

(** The start: one goroutine per context, all about to call ExecuteWithGate. *)
Definition gate_start (cg : ConnectionGate) (ctxs : list (option error)) : gate_sys T :=
  mkGateSys cg false (map (fun ctx => mkGateCall ctx AtBreaker) ctxs).

(** ** Places *)
Definition is_admitted p : bool := match p with AtAdmitted => true | _ => false end.
Definition is_parked p : bool := match p with AtParked _ => true | _ => false end.
Definition is_sent p : bool := match p with AtSent => true | _ => false end.
Definition is_uncounting p : bool := match p with AtUncount _ => true | _ => false end.
Definition is_running p : bool := match p with AtOperation => true | _ => false end.
Definition is_success p : bool := match p with Done (Ok _) => true | _ => false end.
Definition is_done p : bool := match p with Done _ => true | _ => false end.

(** The calls that own a slot: from the operation on, for good if it succeeds. *)
Definition holds_slot p : bool :=
  match p with
  | AtOperation | AtRecordSuccess _ | AtSuccessHalfOpen _ | AtSuccessClosed _
  | AtRecordFailure _ | AtRelease _ | Done (Ok _) => true
  | _ => false
  end.

(** How many calls are at such a place. *)
Definition at_place (P : gate_pc T -> bool) (s : gate_sys T) : nat :=
  count (fun c => P (gc_pc c)) (gx_calls s).

Definition running (s : gate_sys T) : Z := Z.of_nat (at_place is_running s).
Definition successes (s : gate_sys T) : Z := Z.of_nat (at_place is_success s).

(** ** The system as the breaker and as the limiter see it *)
Definition is_breaker_lock p : bool := match p with AtBreakerLock => true | _ => false end.
Definition is_success_half p : bool := match p with AtSuccessHalfOpen _ => true | _ => false end.
Definition is_success_closed p : bool := match p with AtSuccessClosed _ => true | _ => false end.

Definition breaker_view (s : gate_sys T) : bc_sys :=
  mkBcSys (cg_circuitBreaker (gx_gate s)) (at_place is_breaker_lock s)
    (at_place is_success_half s) (at_place is_success_closed s).

Definition semaphore_view (s : gate_sys T) : lim_sys :=
  mkLimSys (cg_connectionLimiter (gx_gate s))
    (Z.of_nat (at_place is_sent s)) (Z.of_nat (at_place holds_slot s))
    (Z.of_nat (at_place is_uncounting s)) (Z.of_nat (at_place is_parked s)).

Definition mutex_view (s : gate_sys T) : mutex_sys :=
  mkMutexSys (cg_connectionLimiter (gx_gate s)) (gx_locked s)
    (Z.of_nat (at_place (fun p => holds_slot p || is_uncounting p) s)).

(** The mutex is held by the one call that is between its test and its addition, and
    each regime's places are its own. *)
Definition gate_regime (s : gate_sys T) : Prop :=
  at_place is_admitted s = (if gx_locked s then 1 else 0)%nat /\
  match cl_sem (cg_connectionLimiter (gx_gate s)) with
  | Some _ => gx_locked s = false
  | None => at_place is_sent s = 0%nat /\ at_place is_parked s = 0%nat
  end.

(** What is left to do, at most, in atomic actions. *)
Definition actions_left p : nat :=
  match p with
  | AtBreaker => 10
  | AtBreakerLock => 9
  | AtRateLimiter => 8
  | AtAcquire => 7
  | AtParked _ => 6
  | AtAdmitted | AtSent => 5
  | AtOperation => 4
  | AtRecordFailure _ => 3
  | AtRecordSuccess _ | AtRelease _ => 2
  | AtRejected _ | AtSuccessHalfOpen _ | AtSuccessClosed _ | AtUncount _ => 1
  | Done _ => 0
  end.

Definition gate_actions_left (s : gate_sys T) : nat :=
  total (fun c => actions_left (gc_pc c)) (gx_calls s).

(** ** Lemmas *)

(** What a move does to the number of calls at a place. *)
Lemma at_place_move (P : gate_pc T -> bool) cg mu cg' mu' calls i ctx p p' :
  calls !! i = Some (mkGateCall ctx p) ->
  (at_place P (mkGateSys cg' mu' (<[i := mkGateCall ctx p']> calls)) + b2n (P p) =
   at_place P (mkGateSys cg mu calls) + b2n (P p') /\
   b2n (P p) <= at_place P (mkGateSys cg mu calls))%nat.
Proof.
  intros Hi. unfold at_place. cbn.
  pose proof (count_insert (fun c => P (gc_pc c)) calls i _ (mkGateCall ctx p') Hi).
  pose proof (count_lookup (fun c => P (gc_pc c)) calls i _ Hi). done.
Qed.

Lemma call_step_decreases ctx cg mu p cg' mu' p' :
  call_step ctx cg mu p cg' mu' p' -> (actions_left p' < actions_left p)%nat.
Proof.
  destruct 1; cbn; try lia; repeat case_match; cbn; lia.
Qed.

Lemma gate_step_decreases s s' :
  gate_step s s' -> (gate_actions_left s' < gate_actions_left s)%nat.
Proof.
  destruct 1 as [cg mu calls i ctx p cg' mu' p' Hi Hs%call_step_decreases].
  unfold gate_actions_left. cbn.
  pose proof (total_insert (fun c : gate_call T => actions_left (gc_pc c)) calls i _ (mkGateCall ctx p') Hi).
  cbn in *. lia.
Qed.

(** Opens a step of the system: the action, the gate in its parts, and the counts of
    the places named before and after it. *)
Ltac open_gate_step Hstep s s' Hmove :=
  destruct Hstep as [[cb rl cl] mu calls i ctx p cg' mu' p' Hi Hs];
  set (s := mkGateSys (mkConnectionGate cb rl cl) mu calls);
  set (s' := mkGateSys cg' mu' (<[i := mkGateCall ctx p']> calls));
  assert (Hmove := fun P => at_place_move P (mkConnectionGate cb rl cl) mu cg' mu' calls i ctx p p' Hi);
  fold s s' in Hmove;
  change (gx_gate s') with cg' in *; change (gx_gate s) with (mkConnectionGate cb rl cl) in *;
  change (gx_locked s') with mu' in *; change (gx_locked s) with mu in *.

(** From the breaker, a move is one of its own steps or nothing. *)
Lemma gate_step_breaker s s' :
  gate_step s s' -> bc_step (breaker_view s) (breaker_view s') \/ breaker_view s' = breaker_view s.
Proof.
  intros Hstep. unfold breaker_view. open_gate_step Hstep s s' Hmove.
  destruct (Hmove is_breaker_lock) as [H1 G1], (Hmove is_success_half) as [H2 G2],
    (Hmove is_success_closed) as [H3 G3]. clearbody s s'. clear Hmove.
  inversion Hs; subst; cbn in H1, H2, H3, G1, G2, G3 |- *;
    try (right; f_equal; repeat case_match; cbn in *; lia); left.
  - eapply step_to; [by apply bc_allow_load|]. cbn. f_equal; lia.
  - match goal with H : CircuitBreaker_Allow_locked ?now _ = _ |- _ => rename H into Hl; rename now into t end.
    eapply step_to; [eapply (bc_allow_decide _ _ t); symmetry; apply Nat.succ_pred; cbn; lia|].
    unfold CircuitBreaker_Allow_locked in Hl. cbn in Hl |- *.
    destruct (_ <? _); injection Hl as <- <-; cbn in *; f_equal; lia.
  - eapply step_to; [eapply bc_failure|]. cbn. f_equal; lia.
  - eapply step_to; [by apply bc_success_load_half|]. cbn. f_equal; lia.
  - eapply step_to; [by apply bc_success_load_closed|]. cbn. f_equal; lia.
  - eapply step_to; [eapply bc_success_half; symmetry; apply Nat.succ_pred; cbn; lia|].
    cbn. f_equal; lia.
  - eapply step_to; [eapply bc_success_closed; symmetry; apply Nat.succ_pred; cbn; lia|].
    cbn. f_equal; lia.
  - eapply step_to; [eapply bc_failure|]. cbn. f_equal; lia.
Qed.

Lemma send_sem cl cl' :
  ConnectionLimiter_send cl = Some cl' -> is_Some (cl_sem cl) /\ is_Some (cl_sem cl').
Proof. intros (n & cap & -> & _ & ->)%send_Some. destruct cl. split; by eexists. Qed.

Lemma take_back_recv cl :
  ConnectionLimiter_take_back cl =
    match ConnectionLimiter_recv cl with Some cl' => cl' | None => cl end.
Proof.
  unfold ConnectionLimiter_take_back, ConnectionLimiter_recv. by destruct (cl_sem cl).
Qed.

Lemma take_back_sem cl :
  cl_sem (ConnectionLimiter_take_back cl) = None <-> cl_sem cl = None.
Proof.
  rewrite take_back_recv. destruct (ConnectionLimiter_recv cl) eqn:Hr; [|done].
  apply recv_Some in Hr as (n & cap & -> & _ & ->). by destruct cl.
Qed.

(** The two halves of a release. *)
Lemma Release_halves cl :
  ConnectionLimiter_Release cl = ConnectionLimiter_add (-1) (ConnectionLimiter_take_back cl).
Proof. by rewrite take_back_recv. Qed.

Lemma park_sem cl parked :
  AcquireWithContext_enter cl = parked -> (forall cl' e, parked <> Returned cl' e) ->
  is_Some (cl_sem cl) /\ ConnectionLimiter_send cl = None /\
  (parked = ParkedBlock \/ parked = ParkedTimeout (cl_timeout cl)).
Proof.
  intros <-. destruct cl as [cur max mode tmo [[n cap]|]]; unfold AcquireWithContext_enter,
    ConnectionLimiter_send, ConnectionLimiter_Acquire; cbn;
    split_ifs; cbn; intros Hr; try (by destruct (Hr _ _ eq_refl)); eauto 6.
Qed.

Lemma gate_step_regime s s' : gate_step s s' -> gate_regime s -> gate_regime s'.
Proof.
  intros Hstep. unfold gate_regime. open_gate_step Hstep s s' Hmove.
  destruct (Hmove is_admitted) as [H1 G1], (Hmove is_sent) as [H2 G2],
    (Hmove is_parked) as [H3 G3]. clearbody s s'. clear Hmove.
  intros [Ha Hsem].
  inversion Hs; subst; cbn in H1, H2, H3, G1, G2, G3, Ha, Hsem |- *;
    repeat match goal with
    | H : ConnectionLimiter_send _ = Some _ |- _ => apply send_sem in H as [[? ?] [? ?]]; cbn in *
    | H : AcquireWithContext_enter _ = ParkedBlock |- _ => apply park_sem in H as [[? ?] _]; [|done]
    | H : AcquireWithContext_enter _ = ParkedTimeout _ |- _ => apply park_sem in H as [[? ?] _]; [|done]
    | H : cl_sem _ = _ |- _ => progress rewrite H in *
    | |- context [ConnectionLimiter_take_back cl] =>
        pose proof (take_back_sem cl); set (cl1 := ConnectionLimiter_take_back cl) in *; clearbody cl1
    end.
  all: try (destruct cl as [cur max mode tmo sem]; cbn in *).
  all: repeat case_match; cbn in *; simplify_eq; repeat split; try (done || lia || naive_solver lia).
Qed.

(** From a limiter with a semaphore, a move is one of its own steps or nothing. *)
Lemma gate_step_semaphore s s' :
  gate_step s s' -> gate_regime s -> is_Some (cl_sem (cg_connectionLimiter (gx_gate s))) ->
  lim_step (semaphore_view s) (semaphore_view s') \/ semaphore_view s' = semaphore_view s.
Proof.
  intros Hstep. unfold semaphore_view, gate_regime. open_gate_step Hstep s s' Hmove.
  destruct (Hmove is_admitted) as [H1 G1], (Hmove is_sent) as [H2 G2],
    (Hmove is_parked) as [H3 G3], (Hmove holds_slot) as [H4 G4],
    (Hmove is_uncounting) as [H5 G5]. clearbody s s'. clear Hmove.
  cbn [cg_connectionLimiter]. intros [Ha Hsem] [ch Hch]. rewrite Hch in Hsem.
  inversion Hs; subst; cbn in H1, H2, H3, H4, H5, G1, G2, G3, G4, G5, Ha |- *; try lia; try congruence;
    try (right; f_equal; repeat case_match; cbn in *; lia); left.
  - eapply step_to; [eapply step_send; eassumption|]. cbn. f_equal; lia.
  - match goal with H : AcquireWithContext_enter _ = _ |- _ =>
      destruct (park_sem _ _ H) as (_ & ? & _); [done|] end.
    eapply step_to; [by apply step_park; [|left]|]. cbn. f_equal; lia.
  - match goal with H : AcquireWithContext_enter _ = _ |- _ =>
      destruct (park_sem _ _ H) as (_ & ? & [?|?]); [done|done|] end.
    eapply step_to; [apply step_park; [done|right; cbn in *; congruence]|]. cbn. f_equal; lia.
  - eapply step_to; [eapply step_wake; [cbn; lia|eassumption]|]. cbn. f_equal; lia.
  - eapply step_to; [apply step_give_up; cbn; lia|]. cbn. f_equal; lia.
  - eapply step_to; [apply step_give_up; cbn; lia|]. cbn. f_equal; lia.
  - eapply step_to; [apply step_count; cbn; lia|]. cbn. f_equal; lia.
  - rewrite take_back_recv. destruct (ConnectionLimiter_recv cl) as [cl1|] eqn:Hr.
    + eapply step_to; [eapply step_take_back; [cbn; lia|eassumption]|]. cbn. f_equal; lia.
    + eapply step_to; [eapply step_take_back_empty; [cbn; lia|eassumption]|]. cbn. f_equal; lia.
  - eapply step_to; [apply step_uncount; cbn; lia|]. cbn. f_equal; lia.
Qed.

(** From a limiter without one, likewise. *)
Lemma gate_step_mutex s s' :
  gate_step s s' -> gate_regime s -> cl_sem (cg_connectionLimiter (gx_gate s)) = None ->
  mutex_step (mutex_view s) (mutex_view s') \/ mutex_view s' = mutex_view s.
Proof.
  intros Hstep. unfold mutex_view, gate_regime. open_gate_step Hstep s s' Hmove.
  destruct (Hmove is_admitted) as [H1 G1], (Hmove is_sent) as [H2 G2],
    (Hmove is_parked) as [H3 G3], (Hmove (fun p => holds_slot p || is_uncounting p)) as [H4 G4].
  clearbody s s'. clear Hmove.
  cbn [cg_connectionLimiter]. intros [Ha Hsem] Hnone. rewrite Hnone in Hsem.
  inversion Hs; subst; cbn in H1, H2, H3, H4, G1, G2, G3, G4, Ha |- *; try lia;
    try (right; f_equal; repeat case_match; cbn in *; lia).
  - left. eapply step_to; [by apply mutex_read|]. cbn. f_equal; lia.
  - left. eapply step_to; [apply mutex_add; cbn; destruct mu; [done|lia]|]. cbn. f_equal; lia.
  - match goal with H : ConnectionLimiter_send _ = _ |- _ => apply send_sem in H as [[? ?] _]; cbn in *; congruence end.
  - right. unfold ConnectionLimiter_take_back. rewrite Hnone. f_equal; lia.
  - left. eapply step_to; [apply mutex_release; cbn; lia|]. cbn.
    unfold ConnectionLimiter_Release, ConnectionLimiter_recv. rewrite Hnone. cbn. f_equal; lia.
Qed.

Lemma gate_step_sem s s' :
  gate_step s s' ->
  cl_sem (cg_connectionLimiter (gx_gate s')) = None <-> cl_sem (cg_connectionLimiter (gx_gate s)) = None.
Proof.
  destruct 1 as [cg mu calls i ctx p cg' mu' p' _ Hs]. cbn [gx_gate].
  destruct Hs; destruct cg as [cb0 rl0 [cur max mode tmo sem]]; cbn in *; try done;
    try (match goal with H : _ = Some _ |- _ => apply send_sem in H as [[? Hb] [? Ha]]; cbn in Hb; by rewrite Ha, Hb end).
  apply (take_back_sem (mkConnectionLimiter cur max mode tmo sem)).
Qed.

Lemma gate_breaker_runs s s' : rtc gate_step s s' -> rtc bc_step (breaker_view s) (breaker_view s').
Proof.
  induction 1 as [|x y z Hs _ IH]; [done|].
  destruct (gate_step_breaker x y Hs) as [Hb|Hb]; [by eapply rtc_l|by rewrite <- Hb].
Qed.

Lemma gate_semaphore_runs s s' :
  rtc gate_step s s' -> gate_regime s -> is_Some (cl_sem (cg_connectionLimiter (gx_gate s))) ->
  rtc lim_step (semaphore_view s) (semaphore_view s').
Proof.
  induction 1 as [|x y z Hs _ IH]; [done|]. intros Hr Hsem.
  assert (Hz : rtc lim_step (semaphore_view y) (semaphore_view z)).
  { apply IH; [by eapply gate_step_regime|].
    rewrite <- not_eq_None_Some in *. by rewrite (gate_step_sem x y Hs). }
  destruct (gate_step_semaphore x y Hs Hr Hsem) as [Hb|Hb]; [by eapply rtc_l|by rewrite <- Hb].
Qed.

Lemma gate_mutex_runs s s' :
  rtc gate_step s s' -> gate_regime s -> cl_sem (cg_connectionLimiter (gx_gate s)) = None ->
  rtc mutex_step (mutex_view s) (mutex_view s').
Proof.
  induction 1 as [|x y z Hs _ IH]; [done|]. intros Hr Hsem.
  assert (Hz : rtc mutex_step (mutex_view y) (mutex_view z)).
  { apply IH; [by eapply gate_step_regime|by apply (gate_step_sem x y Hs)]. }
  destruct (gate_step_mutex x y Hs Hr Hsem) as [Hb|Hb]; [by eapply rtc_l|by rewrite <- Hb].
Qed.

(** ** Reachable systems *)

Lemma gate_start_place (P : gate_pc T -> bool) cg ctxs :
  P AtBreaker = false -> at_place P (gate_start cg ctxs) = 0%nat.
Proof.
  intros HP. apply count_zero. intros i c Hi. cbn in Hi.
  apply list_lookup_fmap_Some in Hi as (ctx & -> & _). exact HP.
Qed.

Lemma gate_start_regime cg ctxs : gate_regime (gate_start cg ctxs).
Proof.
  unfold gate_regime. rewrite !gate_start_place by done. cbn. by destruct (cl_sem _).
Qed.

(** The limiter's own invariant, of the regime it is in, with [max] slots. *)
Definition gate_inv (max : Z) (s : gate_sys T) : Prop :=
  gate_regime s /\ 0 < max <= int64_max /\
  (lim_inv max (semaphore_view s) \/ mutex_inv max (mutex_view s)).

Lemma gate_start_inv now config ctxs :
  (forall c, config = Some c -> GateConfig_ok c) ->
  gate_inv (gate_limit (NewConnectionGate now config)) (gate_start (NewConnectionGate now config) ctxs).
Proof.
  intros Hok. split; [apply gate_start_regime|]. split; [by apply NewConnectionLimiter_max|].
  pose proof (NewConnectionLimiter_max config Hok) as Hmax.
  pose proof (NewConnectionLimiter_zero config) as Hz.
  pose proof (NewConnectionLimiter_sem config) as Hsem.
  unfold lim_inv, mutex_inv, semaphore_view, mutex_view, gate_limit. cbn -[at_place NewConnectionLimiter].
  rewrite !gate_start_place by done.
  destruct (cl_sem (NewConnectionLimiter config)) as [ch|].
  - left. destruct config as [c|]; [|done]. destruct (_ || _); [|done]. injection Hsem as ->.
    rewrite Hz. repeat split; lia.
  - right. repeat split; lia.
Qed.

Lemma gate_step_inv max s s' : gate_step s s' -> gate_inv max s -> gate_inv max s'.
Proof.
  intros Hs (Hr & Hmax & Hinv). split; [by eapply gate_step_regime|]. split; [done|].
  destruct Hinv as [Hinv|Hinv]; [left|right].
  - destruct (gate_step_semaphore s s' Hs Hr) as [Hl| ->]; [|by eapply lim_step_inv|done].
    destruct Hinv as [Hsem _]. by eexists.
  - destruct (gate_step_mutex s s' Hs Hr) as [Hl| ->]; [|by eapply mutex_step_inv|done].
    by destruct Hinv as [Hsem _].
Qed.

Lemma gate_reachable_inv max s s' : rtc gate_step s s' -> gate_inv max s -> gate_inv max s'.
Proof. induction 1; eauto using gate_step_inv. Qed.

(** What the invariant says about the slots. *)
Lemma gate_inv_slots max s :
  gate_inv max s -> Z.of_nat (at_place holds_slot s) <= max /\
  (at_place is_sent s = 0%nat -> at_place is_uncounting s = 0%nat ->
   gate_slots (gx_gate s) = Z.of_nat (at_place holds_slot s)).
Proof.
  intros (_ & Hmax & Hinv). unfold gate_slots.
  assert (Hadd : at_place (fun p => holds_slot p || is_uncounting p) s =
    (at_place holds_slot s + at_place is_uncounting s)%nat).
  { apply (count_add (fun c => holds_slot (gc_pc c)) (fun c => is_uncounting (gc_pc c))).
    intros [ctx p]. by destruct p. }
  destruct Hinv as [(_ & Hc & ? & ? & ? & _ & ?)|(_ & _ & Hc & _ & Hle)]; cbn in *.
  - split; [lia|]. intros Hs Hu. rewrite Hc, Hu, wrap64_id; solve_int64.
  - rewrite Hadd in Hc, Hle. destruct (gx_locked s); (split; [lia|]); intros _ Hu; lia.
Qed.

Lemma places_in_slots s :
  running s + successes s <= Z.of_nat (at_place holds_slot s).
Proof.
  unfold running, successes.
  pose proof (count_add (fun c : gate_call T => is_running (gc_pc c)) (fun c => is_success (gc_pc c))
    (gx_calls s)) as Hadd.
  pose proof (count_le (fun c : gate_call T => is_running (gc_pc c) || is_success (gc_pc c))
    (fun c => holds_slot (gc_pc c)) (gx_calls s)) as Hle.
  unfold at_place. rewrite Hadd in Hle by (intros [ctx p]; by destruct p).
  enough (forall x : gate_call T, is_running (gc_pc x) || is_success (gc_pc x) = true ->
    holds_slot (gc_pc x) = true) by (specialize (Hle H); unfold at_place; lia).
  intros [ctx p]. by destruct p.
Qed.

(** A call that has succeeded stays so. *)
Lemma gate_step_successes s s' : gate_step s s' -> successes s <= successes s'.
Proof.
  intros Hstep. unfold successes. open_gate_step Hstep s s' Hmove.
  destruct (Hmove is_success) as [H _]. clearbody s s'.
  destruct (is_success p) eqn:Hp; [|unfold b2n in H at 1; lia].
  destruct p; try done. inversion Hs.
Qed.

Lemma gate_reachable_successes s s' : rtc gate_step s s' -> successes s <= successes s'.
Proof. induction 1 as [|? ? ? H%gate_step_successes]; lia. Qed.

(** ** Progress *)

(** A call that has not returned and is not parked can move, unless it waits for the
    mutex. *)
Lemma call_progress ctx cg mu p :
  is_done p = false -> is_parked p = false ->
  (p = AtAcquire -> cl_sem (cg_connectionLimiter cg) = None -> mu = false) ->
  exists cg' mu' p', call_step ctx cg mu p cg' mu' p'.
Proof.
  intros Hd Hp Hmu. destruct p; try done.
  - destruct (decide (cb_state (cg_circuitBreaker cg) = circuitOpen));
      do 3 eexists; [by apply call_breaker_open|by apply call_breaker].
  - destruct (CircuitBreaker_Allow_locked 0 (cg_circuitBreaker cg)) eqn:He.
    do 3 eexists. by eapply call_breaker_locked.
  - destruct (RateLimiter_Allow oor 0 (cg_rateLimiter cg)) eqn:He. do 3 eexists. by eapply call_rate.
  - destruct (cl_sem (cg_connectionLimiter cg)) as [ch|] eqn:Hsem.
    + destruct (ConnectionLimiter_send (cg_connectionLimiter cg)) eqn:Hs.
      { do 3 eexists. by eapply call_send. }
      destruct (AcquireWithContext_enter (cg_connectionLimiter cg)) as [cl e| |t] eqn:He.
      * assert (cl = cg_connectionLimiter cg /\ exists e', e = Some e') as [-> [e' ->]].
        { revert He. unfold AcquireWithContext_enter. rewrite Hsem, Hs.
          split_ifs; intros [= <- <-]; eauto. }
        do 3 eexists. eapply call_full; [by eexists|done].
      * do 3 eexists. by eapply call_park_block.
      * do 3 eexists. by eapply call_park_timeout.
    + rewrite (Hmu eq_refl eq_refl).
      destruct (Z.lt_ge_cases (cl_currentConnections (cg_connectionLimiter cg))
        (cl_maxConnections (cg_connectionLimiter cg)));
        do 3 eexists; [by apply call_lock_admit|by apply call_lock_reject].
  - do 3 eexists. apply call_add_unlock.
  - do 3 eexists. apply call_count.
  - do 3 eexists. apply (call_rejected _ _ _ 0).
  - do 3 eexists. apply (call_operation _ _ _ (Err ErrConnectionLimit)).
  - destruct (decide (cb_state (cg_circuitBreaker cg) = circuitHalfOpen));
      [|destruct (decide (cb_state (cg_circuitBreaker cg) = circuitClosed))]; do 3 eexists;
      [by apply call_success_load_half|by apply call_success_load_closed|by apply call_success_other].
  - do 3 eexists. apply call_success_half.
  - do 3 eexists. apply call_success_closed.
  - do 3 eexists. apply (call_failure _ _ _ 0).
  - do 3 eexists. apply call_take_back.
  - do 3 eexists. apply call_uncount.
Qed.

Definition gate_stuck (s : gate_sys T) : Prop := ~ exists s', gate_step s s'.

Lemma stuck_call s i c cg' mu' p' :
  gate_stuck s -> gx_calls s !! i = Some c ->
  ~ call_step (gc_ctx c) (gx_gate s) (gx_locked s) (gc_pc c) cg' mu' p'.
Proof.
  intros Hst Hi Hs. apply Hst. destruct s as [cg mu calls], c as [ctx p]. eexists. by econstructor.
Qed.

(** When nothing can move, every call has returned or is parked. *)
Lemma stuck_places s i c :
  gate_regime s -> gate_stuck s -> gx_calls s !! i = Some c ->
  is_done (gc_pc c) = true \/ is_parked (gc_pc c) = true.
Proof.
  intros [Ha Hsem] Hst Hi. destruct (is_done _) eqn:Hd; [by left|].
  destruct (is_parked _) eqn:Hp; [by right|]. exfalso.
  destruct (call_progress (gc_ctx c) (gx_gate s) (gx_locked s) (gc_pc c) Hd Hp)
    as (cg' & mu' & p' & Hs); [|by eapply stuck_call].
  intros _ Hnone. destruct (gx_locked s) eqn:Hl; [|done]. exfalso.
  destruct (count_exists (fun c : gate_call T => is_admitted (gc_pc c)) (gx_calls s)) as (j & d & Hj & Hadm).
  { unfold at_place in Ha. rewrite Ha. lia. }
  destruct (call_progress (gc_ctx d) (gx_gate s) (gx_locked s) (gc_pc d)) as (cg' & mu' & p' & Hs);
    try (by destruct (gc_pc d)); by eapply stuck_call.
Qed.

(** ** One goroutine alone *)

Definition lone (ctx : option error) (x y : ConnectionGate * bool * gate_pc T) : Prop :=
  let '(cg, mu, p) := x in let '(cg', mu', p') := y in call_step ctx cg mu p cg' mu' p'.

Lemma lone_l ctx cg mu p cg1 mu1 p1 y :
  call_step ctx cg mu p cg1 mu1 p1 -> rtc (lone ctx) (cg1, mu1, p1) y ->
  rtc (lone ctx) (cg, mu, p) y.
Proof. intros H. by apply rtc_l. Qed.

Lemma lone_once ctx cg mu p cg1 mu1 p1 :
  call_step ctx cg mu p cg1 mu1 p1 -> rtc (lone ctx) (cg, mu, p) (cg1, mu1, p1).
Proof. intros H. by apply rtc_once. Qed.

(** Its steps are steps of any system it is in. *)
Lemma lone_in_pool ctx i calls x y :
  (i < length calls)%nat -> rtc (lone ctx) x y ->
  let sys x := let '(cg, mu, p) := x in mkGateSys cg mu (<[i := mkGateCall ctx p]> calls) in
  rtc gate_step (sys x) (sys y).
Proof.
  intros Hi Hxy sys. induction Hxy as [|[[cg mu] p] [[cg1 mu1] p1] y Hs _ IH]; [done|].
  eapply rtc_l; [|exact IH]. unfold sys. cbn in Hs.
  rewrite <- (list_insert_insert_eq calls i (mkGateCall ctx p1) (mkGateCall ctx p)).
  econstructor; [|exact Hs]. by apply list_lookup_insert_eq.
Qed.

(** The context is done with no other error than its own. *)
Definition env_ctx (ctx : option error) (env : gate_env) : Prop :=
  forall cl e, (while_parked env cl).2 = WakeDone e -> ctx = Some e.

Lemma lone_breaker ctx now cg mu :
  let '(cb, err) := CircuitBreaker_Allow now (cg_circuitBreaker cg) in
  rtc (lone ctx) (cg, mu, AtBreaker)
    (cg{{cg_circuitBreaker := cb}}, mu,
     match err with None => AtRateLimiter | Some e => Done (Err e) end).
Proof.
  destruct cg as [cb rl cl]. cbn -[CircuitBreaker_Allow]. unfold CircuitBreaker_Allow.
  destruct (Z.eqb_spec (cb_state cb) circuitOpen) as [Ho|Ho].
  - pose proof (call_breaker_locked ctx (mkConnectionGate cb rl cl) mu now) as Hl.
    unfold CircuitBreaker_Allow_locked in Hl. cbn in Hl.
    destruct (_ <? _); specialize (Hl _ _ eq_refl);
      (eapply lone_l; [by apply call_breaker_open|]); by apply lone_once.
  - destruct (_ =? _); [|destruct (_ =? _)]; apply lone_once; by apply call_breaker.
Qed.

Lemma lone_acquire ctx env cg cl err :
  env_quiet env -> env_ctx ctx env ->
  ConnectionLimiter_AcquireWithContext (while_parked env) (cg_connectionLimiter cg) = Some (cl, err) ->
  rtc (lone ctx) (cg, false, AtAcquire)
    (cg{{cg_connectionLimiter := cl}}, false,
     match err with None => AtOperation | Some e => AtRejected e end).
Proof.
  destruct cg as [cb rl l]. cbn. intros Hq Hc.
  specialize (Hq l). specialize (Hc l). unfold ConnectionLimiter_AcquireWithContext.
  destruct (AcquireWithContext_enter l) as [cl0 e0| |t] eqn:He.
  - intros [= <- <-]. destruct (cl_sem l) as [ch|] eqn:Hsem.
    + destruct (ConnectionLimiter_send l) as [l1|] eqn:Hs.
      { pose proof He as He'. unfold AcquireWithContext_enter in He'. rewrite Hsem, Hs in He'.
        injection He' as <- <-. eapply lone_l; [by eapply call_send|]. apply lone_once, call_count. }
      assert (cl0 = l /\ is_Some e0) as [-> [e ->]].
      { revert He. unfold AcquireWithContext_enter. rewrite Hsem, Hs. split_ifs; intros [= <- <-]; eauto. }
      apply lone_once. eapply call_full; [by eexists|done].
    + unfold AcquireWithContext_enter in He. rewrite Hsem in He.
      unfold ConnectionLimiter_Acquire in He.
      destruct (Z.leb_spec (cl_maxConnections l) (cl_currentConnections l)); injection He as <- <-.
      * apply lone_once. by apply (call_lock_reject ctx (mkConnectionGate cb rl l)).
      * eapply lone_l; [by apply (call_lock_admit ctx (mkConnectionGate cb rl l))|].
        apply lone_once. apply (call_add_unlock ctx (mkConnectionGate cb rl l)).
  - destruct (park_sem _ _ He) as (_ & Hs & _); [done|].
    destruct (while_parked env l) as [l1 []]; cbn in *; subst l1; rewrite ?Hs; try done.
    intros [= <- <-]. eapply lone_l; [by apply call_park_block|]. apply lone_once, call_done. by apply Hc.
  - destruct (park_sem _ _ He) as (_ & Hs & _); [done|].
    destruct (while_parked env l) as [l1 []]; cbn in *; subst l1; rewrite ?Hs; try done; intros [= <- <-];
      (eapply lone_l; [by apply call_park_timeout|]); apply lone_once; [apply call_timer|apply call_done].
    by apply Hc.
Qed.

(** A call of the sequential model is a run of a goroutine that nobody interrupts. *)
Lemma ExecuteWithGate_lone {W} ctx env (op : W -> W * result error T) cg w cg' w' r :
  env_quiet env -> env_ctx ctx env ->
  ExecuteWithGate oor env op cg w = Some (cg', w', r) ->
  rtc (lone ctx) (cg, false, AtBreaker) (cg', false, Done r).
Proof.
  intros Hq Hc. unfold ExecuteWithGate, ConnectionGate_Allow.
  pose proof (lone_breaker ctx (at_breaker env) cg false) as Hb. destruct cg as [cb rl cl].
  cbn [cg_circuitBreaker] in *. destruct (CircuitBreaker_Allow _ _) as [cb1 [e|]];
    cbn -[RateLimiter_Allow] in *; [by intros [= <- <- <-]|].
  destruct (RateLimiter_Allow oor (at_rate env) rl) as [rl1 err] eqn:Hr.
  assert (Hrate : call_step ctx (mkConnectionGate cb1 rl cl) false AtRateLimiter
    (mkConnectionGate cb1 rl1 cl) false (match err with None => AtAcquire | Some e => AtRejected e end)).
  { by eapply (call_rate ctx (mkConnectionGate cb1 rl cl)). }
  assert (Hrej : forall cl e, call_step ctx (mkConnectionGate cb1 rl1 cl) false (AtRejected e)
    (mkConnectionGate (CircuitBreaker_RecordFailure (at_reject env) cb1) rl1 cl) false (Done (Err e))).
  { intros cl' e. apply (call_rejected ctx (mkConnectionGate cb1 rl1 cl')). }
  destruct err as [e|]; cbn.
  { intros [= <- <- <-]. etrans; [exact Hb|]. eapply lone_l; [exact Hrate|].
    apply lone_once, Hrej. }
  destruct (ConnectionLimiter_AcquireWithContext _ _) as [[cl1 err]|] eqn:Ha; [|done].
  apply (lone_acquire ctx env (mkConnectionGate cb1 rl1 cl)) in Ha; [|done..]. cbn in Ha.
  intros Hres. etrans; [exact Hb|]. eapply lone_l; [exact Hrate|].
  etrans; [exact Ha|]. clear Ha Hb Hrate.
  destruct err as [e|]; [injection Hres as <- <- <-; apply lone_once, Hrej|].
  destruct (op w) as [w1 r1]. eapply lone_l; [apply (call_operation _ _ _ r1)|].
  destruct r1 as [v|e]; injection Hres as <- <- <-.
  - unfold ConnectionGate_RecordSuccess, CircuitBreaker_RecordSuccess. cbn.
    destruct (Z.eqb_spec (cb_state cb1) circuitHalfOpen);
      [|destruct (Z.eqb_spec (cb_state cb1) circuitClosed)].
    + eapply lone_l; [by apply call_success_load_half|]. apply lone_once.
      apply (call_success_half ctx (mkConnectionGate cb1 rl1 cl1)).
    + eapply lone_l; [by apply call_success_load_closed|]. apply lone_once.
      apply (call_success_closed ctx (mkConnectionGate cb1 rl1 cl1)).
    + apply lone_once. by apply call_success_other.
  - eapply lone_l; [apply (call_failure _ _ _ (at_failure env))|].
    eapply lone_l; [apply call_take_back|].
    apply lone_once. rewrite take_back_recv. apply (call_uncount ctx (mkConnectionGate _ rl1 _)).
Qed.

(** Conversely, place by place, what such a run does. *)
Lemma lone_inv ctx cg mu p z :
  rtc (lone ctx) (cg, mu, p) z ->
  z = (cg, mu, p) \/
  exists cg1 mu1 p1, call_step ctx cg mu p cg1 mu1 p1 /\ rtc (lone ctx) (cg1, mu1, p1) z.
Proof. intros [<-|([[cg1 mu1] p1] & H1 & H2)]%rtc_inv; [by left|right; eauto 6]. Qed.

Ltac lone_next H :=
  let cg1 := fresh "cg" in let mu1 := fresh "mu" in let p1 := fresh "p" in
  let Hs := fresh "Hs" in
  apply lone_inv in H as [H|(cg1 & mu1 & p1 & Hs & H)];
  [discriminate H|inversion Hs; subst; clear Hs].

Lemma lone_done ctx cg mu r0 z : rtc (lone ctx) (cg, mu, Done r0) z -> z = (cg, mu, Done r0).
Proof. intros [H|(cg1 & mu1 & p1 & Hs & _)]%lone_inv; [done|inversion Hs]. Qed.

Lemma lone_success ctx cg mu v cg' mu' r :
  rtc (lone ctx) (cg, mu, AtRecordSuccess v) (cg', mu', Done r) ->
  cg' = ConnectionGate_RecordSuccess cg /\ r = Ok v.
Proof.
  intros H. destruct cg as [cb rl cl].
  unfold ConnectionGate_RecordSuccess, CircuitBreaker_RecordSuccess.
  lone_next H; cbn in *.
  - apply lone_done in H as [= -> _ ->].
    destruct (Z.eqb_spec (cb_state cb) circuitHalfOpen), (Z.eqb_spec (cb_state cb) circuitClosed); done.
  - lone_next H. apply lone_done in H as [= -> _ ->]. by rewrite (proj2 (Z.eqb_eq _ _)).
  - lone_next H. apply lone_done in H as [= -> _ ->].
    match goal with Hc : cb_state cb = _ |- _ => by rewrite Hc end.
Qed.

Lemma lone_failure ctx cg mu e cg' mu' r :
  rtc (lone ctx) (cg, mu, AtRecordFailure e) (cg', mu', Done r) ->
  exists now, cg' = ConnectionGate_RecordFailure now cg /\ r = Err e.
Proof.
  intros H. destruct cg as [cb rl cl]. lone_next H. exists now. do 2 lone_next H.
  apply lone_done in H as [= -> _ ->]. split; [|done].
  unfold ConnectionGate_RecordFailure. by rewrite Release_halves.
Qed.

Lemma lone_rejected ctx cg mu e cg' mu' r :
  rtc (lone ctx) (cg, mu, AtRejected e) (cg', mu', Done r) ->
  exists now, r = Err e /\
    cg' = cg{{cg_circuitBreaker := CircuitBreaker_RecordFailure now (cg_circuitBreaker cg)}}.
Proof. intros H. lone_next H. apply lone_done in H as [= -> _ ->]. eauto. Qed.

Lemma lone_operation ctx cg mu cg' mu' r :
  rtc (lone ctx) (cg, mu, AtOperation) (cg', mu', Done r) ->
  exists now, cg' = if is_Ok r then ConnectionGate_RecordSuccess cg
                    else ConnectionGate_RecordFailure now cg.
Proof.
  intros H. lone_next H. destruct r0 as [v|e].
  - apply lone_success in H as [-> ->]. by exists 0.
  - apply lone_failure in H as (now & -> & ->). by exists now.
Qed.

(** Waiting alone ends with the timer or with the context. *)
Lemma lone_acquire_inv ctx cg cg' mu' r :
  rtc (lone ctx) (cg, false, AtAcquire) (cg', mu', Done r) ->
  exists others cl err,
    (forall l, (others l).1 = l) /\ (forall l e, (others l).2 = WakeDone e -> ctx = Some e) /\
    ConnectionLimiter_AcquireWithContext others (cg_connectionLimiter cg) = Some (cl, err) /\
    rtc (lone ctx)
      (cg{{cg_connectionLimiter := cl}}, false,
       match err with None => AtOperation | Some e => AtRejected e end) (cg', mu', Done r).
Proof.
  intros H. destruct cg as [cb rl l].
  set (others (w : wake) := fun l : ConnectionLimiter => (l, w)).
  assert (Hquiet : forall w, w = WakeTimer \/ (exists e, ctx = Some e /\ w = WakeDone e) ->
    (forall l, (others w l).1 = l) /\ (forall l e, (others w l).2 = WakeDone e -> ctx = Some e)).
  { intros w Hw. split; [done|]. intros ? e He. cbn in He. destruct Hw as [?|(e' & ? & ?)]; congruence. }
  unfold ConnectionLimiter_AcquireWithContext. lone_next H; cbn [cg_connectionLimiter] in *.
  - lone_next H. exists (others WakeTimer), (ConnectionLimiter_add 1 l), None.
    destruct (Hquiet WakeTimer) as [? ?]; [by left|]. repeat split; try done.
    unfold AcquireWithContext_enter, ConnectionLimiter_Acquire.
    match goal with Hn : cl_sem l = None, Hc : _ < _ |- _ => rewrite Hn; apply Z.leb_gt in Hc; by rewrite Hc end.
  - exists (others WakeTimer), l, (Some ErrConnectionLimit).
    destruct (Hquiet WakeTimer) as [? ?]; [by left|]. repeat split; try done.
    unfold AcquireWithContext_enter, ConnectionLimiter_Acquire.
    match goal with Hn : cl_sem l = None, Hc : _ <= _ |- _ => rewrite Hn; apply Z.leb_le in Hc; by rewrite Hc end.
  - lone_next H. exists (others WakeTimer), (ConnectionLimiter_add 1 cl), None.
    destruct (Hquiet WakeTimer) as [? ?]; [by left|]. repeat split; try done.
    match goal with Hn : ConnectionLimiter_send l = _ |- _ =>
      unfold AcquireWithContext_enter; rewrite Hn; apply send_sem in Hn as [[ch ->] _] end. done.
  - exists (others WakeTimer), l, (Some e). destruct (Hquiet WakeTimer) as [? ?]; [by left|].
    match goal with Hn : AcquireWithContext_enter l = _ |- _ => rewrite Hn end. done.
  - match goal with Hn : AcquireWithContext_enter l = _ |- _ =>
      rewrite Hn; destruct (park_sem _ _ Hn) as (_ & Hs & _); [done|] end.
    lone_next H; cbn [cg_connectionLimiter] in *; [congruence|].
    exists (others (WakeDone e)), l, (Some e). destruct (Hquiet (WakeDone e)) as [? ?]; eauto 6.
  - match goal with Hn : AcquireWithContext_enter l = _ |- _ =>
      rewrite Hn; destruct (park_sem _ _ Hn) as (_ & Hs & _); [done|] end.
    lone_next H; cbn [cg_connectionLimiter] in *; [congruence| |].
    + exists (others WakeTimer), l, (Some ErrConnectionLimit). destruct (Hquiet WakeTimer) as [? ?]; eauto 6.
    + exists (others (WakeDone e)), l, (Some e). destruct (Hquiet (WakeDone e)) as [? ?]; eauto 6.
Qed.

Lemma lone_breaker_inv ctx cg mu cg' mu' r :
  rtc (lone ctx) (cg, mu, AtBreaker) (cg', mu', Done r) ->
  exists now cb err, CircuitBreaker_Allow now (cg_circuitBreaker cg) = (cb, err) /\
    rtc (lone ctx) (cg{{cg_circuitBreaker := cb}}, mu,
      match err with None => AtRateLimiter | Some e => Done (Err e) end) (cg', mu', Done r).
Proof.
  intros H. destruct cg as [cb rl cl]. unfold CircuitBreaker_Allow. lone_next H; cbn [cg_circuitBreaker] in *.
  - exists 0, cb, None. split; [|done]. rewrite (proj2 (Z.eqb_neq _ _)) by done. by repeat case_match.
  - lone_next H. exists now, cb0, e. split; [|done].
    rewrite (proj2 (Z.eqb_eq _ _)) by done. unfold CircuitBreaker_Allow_locked in *. cbn in *. done.
Qed.

(** A call parked for good: in block mode, on a gate whose slots are all kept. *)
Lemma stuck_parked max s i c :
  gate_inv max s -> gate_stuck s -> gx_calls s !! i = Some c -> is_parked (gc_pc c) = true ->
  gc_pc c = AtParked None /\ gc_ctx c = None /\ successes s = max.
Proof.
  intros (Hr & Hmax & Hinv) Hst Hi Hp.
  assert (Hcan := fun cg' mu' p' => stuck_call s i c cg' mu' p' Hst Hi).
  destruct (gc_pc c) as [| | | | |timer| | | | | | | | | |] eqn:Hpc; try done.
  assert (Hdone : forall j d, gx_calls s !! j = Some d ->
    is_done (gc_pc d) = true \/ is_parked (gc_pc d) = true) by (intros; by eapply stuck_places).
  assert (Hparked : (1 <= at_place is_parked s)%nat).
  { pose proof (count_lookup (fun c : gate_call T => is_parked (gc_pc c)) (gx_calls s) i c Hi) as H.
    cbn in H. by rewrite Hpc in H. }
  destruct timer as [t|]; [by destruct (Hcan _ _ _ (call_timer _ _ _ _))|].
  destruct (gc_ctx c) as [e|]; [by destruct (Hcan _ _ _ (call_done _ _ _ _ e eq_refl))|].
  split; [done|]. split; [done|].
  destruct Hinv as [(Hsem & _ & ? & ? & _ & _ & ?)|(Hsem & _)]; cbn in *; cycle 1.
  { destruct Hr as [_ Hr]. rewrite Hsem in Hr. lia. }
  assert (Hsent : at_place is_sent s = 0%nat).
  { apply count_zero. intros j d Hj. destruct (Hdone j d Hj); by destruct (gc_pc d). }
  assert (Hhold : at_place holds_slot s = at_place is_success s).
  { apply count_ext. intros j d Hj. destruct (Hdone j d Hj); by destruct (gc_pc d). }
  unfold successes. rewrite Hhold, Hsent in *.
  destruct (ConnectionLimiter_send (cg_connectionLimiter (gx_gate s))) as [cl|] eqn:Hs.
  { by destruct (Hcan _ _ _ (call_wake _ _ _ None cl Hs)). }
  unfold ConnectionLimiter_send in Hs. rewrite Hsem in Hs. cbn in Hs.
  destruct (Z.ltb_spec (Z.of_nat 0 + Z.of_nat (at_place is_success s)) max); [done|]. lia.
Qed.

Lemma lone_ExecuteWithGate ctx cg cg' mu' r :
  rtc (lone ctx) (cg, false, AtBreaker) (cg', mu', Done r) ->
  exists env (op : unit -> unit * result error T),
    env_quiet env /\ env_ctx ctx env /\ ExecuteWithGate oor env op cg tt = Some (cg', tt, r).
Proof.
  intros (t1 & cb & err & Hb & H)%lone_breaker_inv. destruct cg as [cb0 rl0 cl0]. cbn in Hb, H.
  set (env t2 t3 t4 others := mkGateEnv t1 t2 t3 t4 others).
  unfold ExecuteWithGate, ConnectionGate_Allow.
  destruct err as [e|].
  { apply lone_done in H as [= -> _ ->].
    exists (env 0 0 0 (fun cl => (cl, WakeTimer))), (fun _ => (tt, Err e)).
    split; [done|]. split; [done|]. cbn -[CircuitBreaker_Allow]. by rewrite Hb. }
  lone_next H. rename now into t2. cbn in H. rename e into err.
  match goal with Hr : RateLimiter_Allow _ _ _ = _ |- _ => rename Hr into Hr0; cbn [cg_rateLimiter] in Hr0 end.
  destruct err as [e|].
  { apply lone_rejected in H as (t3 & -> & ->).
    exists (env t2 t3 0 (fun cl => (cl, WakeTimer))), (fun _ => (tt, Err e)).
    split; [done|]. split; [done|]. cbn -[CircuitBreaker_Allow RateLimiter_Allow].
    rewrite Hb. cbn -[RateLimiter_Allow]. by rewrite Hr0. }
  apply lone_acquire_inv in H as (others & cl & err & Hq & Hc & Ha & H). cbn in Ha, H.
  destruct err as [e|].
  - apply lone_rejected in H as (t3 & -> & ->).
    exists (env t2 t3 0 others), (fun _ => (tt, Err e)).
    split; [exact Hq|]. split; [exact Hc|].
    cbn -[CircuitBreaker_Allow RateLimiter_Allow ConnectionLimiter_AcquireWithContext].
    rewrite Hb. cbn -[RateLimiter_Allow ConnectionLimiter_AcquireWithContext]. rewrite Hr0.
    cbn -[ConnectionLimiter_AcquireWithContext]. by rewrite Ha.
  - apply lone_operation in H as (t4 & ->).
    exists (env t2 0 t4 others), (fun _ => (tt, r)).
    split; [exact Hq|]. split; [exact Hc|].
    cbn -[CircuitBreaker_Allow RateLimiter_Allow ConnectionLimiter_AcquireWithContext].
    rewrite Hb. cbn -[RateLimiter_Allow ConnectionLimiter_AcquireWithContext]. rewrite Hr0.
    cbn -[ConnectionLimiter_AcquireWithContext]. rewrite Ha. by destruct r.
Qed.

(** ** Properties *)

(** C2: However many goroutines call ExecuteWithGate at once and however their atomic
    actions interleave, in every backpressure mode: the operations running and the calls
    that have succeeded are never more than maxConnections together; a success is for
    life, so once maxConnections calls have succeeded no operation runs again; and when
    all calls have returned, the slots in use are the successes. *)
Theorem ExecuteWithGate_concurrent_slots now config ctxs s :
  (forall c, config = Some c -> GateConfig_ok c) ->
  let cg := NewConnectionGate now config in
  rtc gate_step (gate_start cg ctxs) s ->
  running s + successes s <= gate_limit cg /\
  (forall s', rtc gate_step s s' ->
     successes s <= successes s' /\ (successes s = gate_limit cg -> running s' = 0)) /\
  (Forall (fun c => is_done (gc_pc c) = true) (gx_calls s) ->
     gate_slots (gx_gate s) = successes s).
Proof.
  intros Hok cg Hreach.
  assert (Hinv := gate_reachable_inv _ _ _ Hreach (gate_start_inv now config ctxs Hok)).
  fold cg in Hinv.
  assert (Hslots : forall s, gate_inv (gate_limit cg) s -> running s + successes s <= gate_limit cg).
  { intros s1 [H1 _]%gate_inv_slots. pose proof (places_in_slots s1). lia. }
  split; [by apply Hslots|]. split.
  - intros s' Hs'. pose proof (gate_reachable_successes _ _ Hs').
    assert (Hinv' := Hslots _ (gate_reachable_inv _ _ _ Hs' Hinv)).
    split; [done|]. intros Hfull. unfold running in *. lia.
  - intros Hdone. rewrite Forall_lookup in Hdone.
    assert (Hz : forall P : gate_pc T -> bool, (forall p, is_done p = true -> P p = false) -> at_place P s = 0%nat).
    { intros P HP. apply count_zero. intros i c Hi. by apply HP, (Hdone i). }
    rewrite (proj2 (gate_inv_slots _ _ Hinv)) by (apply Hz; by intros []).
    unfold successes. f_equal. apply count_ext. intros i c Hi.
    specialize (Hdone i c Hi). cbn in Hdone. by destruct (gc_pc c).
Qed.

(** C16: Calls of ExecuteWithGate never lock each other up: n of them make at most 10n
    atomic actions in all, in any interleaving, and when none can move each has returned,
    or waits in block mode, with a context that is never done, for a slot of a gate whose
    every slot is kept by a call that succeeded. *)
Theorem ExecuteWithGate_interleavings_end now config ctxs n s :
  (forall c, config = Some c -> GateConfig_ok c) ->
  let cg := NewConnectionGate now config in
  nsteps gate_step n (gate_start cg ctxs) s ->
  (n <= 10 * length ctxs)%nat /\
  (gate_stuck s -> forall i c, gx_calls s !! i = Some c ->
     (exists r, gc_pc c = Done r) \/
     (gc_pc c = AtParked None /\ gc_ctx c = None /\ successes s = gate_limit cg)).
Proof.
  intros Hok cg Hn. split.
  { apply (nsteps_measure _ _ gate_step_decreases) in Hn.
    assert (gate_actions_left (gate_start cg ctxs) <= 10 * length ctxs)%nat; [|lia].
    unfold gate_actions_left, gate_start. cbn [gx_calls].
    rewrite <- (length_map (fun ctx => mkGateCall ctx (@AtBreaker T)) ctxs).
    apply total_bound. intros [ctx p]. destruct p; cbn; lia. }
  intros Hst i c Hi.
  assert (Hinv : gate_inv (gate_limit cg) s).
  { eapply gate_reachable_inv; [by apply rtc_nsteps; eexists|by apply gate_start_inv]. }
  destruct (stuck_places s i c) as [Hd|Hp]; [apply Hinv|done..| |].
  { left. destruct (gc_pc c); try done. eauto. }
  right. by apply (stuck_parked (gate_limit cg) s i c).
Qed.

(** C17: The sequential model of ExecuteWithGate is the concurrent one when nobody else
    moves: a goroutine alone on the gate can return r and leave the gate as cg' exactly
    when some call of [ExecuteWithGate] on the gate, with some clock readings, an
    operation and waits that end with the timer or the call's own context, does. *)
Theorem ExecuteWithGate_alone ctx cg cg' r :
  (exists mu', rtc (lone ctx) (cg, false, AtBreaker) (cg', mu', Done r)) <->
  (exists env (op : unit -> unit * result error T),
     env_quiet env /\ env_ctx ctx env /\ ExecuteWithGate oor env op cg tt = Some (cg', tt, r)).
Proof.
  split.
  - intros [mu' H]. by eapply lone_ExecuteWithGate.
  - intros (env & op & Hq & Hc & H). exists false. by eapply ExecuteWithGate_lone.
Qed.

(** C29: Every interleaving of whole calls of ExecuteWithGate is, on the breaker, an
    interleaving of the breaker's calls, and on the limiter one of the limiter's, so that
    what holds of those under any interleaving holds of the gate. *)
Theorem ExecuteWithGate_refines_parts now config ctxs s :
  let cg := NewConnectionGate now config in
  rtc gate_step (gate_start cg ctxs) s ->
  rtc bc_step (bc_quiet (NewCircuitBreaker config)) (breaker_view s) /\
  match cl_sem (NewConnectionLimiter config) with
  | Some _ => rtc lim_step (lim_init (NewConnectionLimiter config)) (semaphore_view s)
  | None => rtc mutex_step (mkMutexSys (NewConnectionLimiter config) false 0) (mutex_view s)
  end.
Proof.
  intros cg Hreach. assert (Hr := gate_start_regime cg ctxs). split.
  - apply gate_breaker_runs in Hreach. unfold breaker_view at 1 in Hreach.
    by rewrite !gate_start_place in Hreach by done.
  - destruct (cl_sem (NewConnectionLimiter config)) as [ch|] eqn:Hsem.
    + apply gate_semaphore_runs in Hreach; [|done|by eexists]. unfold semaphore_view at 1 in Hreach.
      by rewrite !gate_start_place in Hreach by done.
    + apply gate_mutex_runs in Hreach; [|done|done]. unfold mutex_view at 1 in Hreach.
      by rewrite !gate_start_place in Hreach by done.
Qed.

End GateConcurrency.

(** ** Worked examples *)
Section Witnesses.

(** Three goroutines on the gate with two slots of [gate_example_config]. *)
Definition gate_example_start : gate_sys Z :=
  gate_start (NewConnectionGate 0 (Some gate_example_config)) [None; None; Some Canceled].

(** The first two are in their operations at the same time. *)
Definition gate_example_two : gate_sys Z :=
  mkGateSys
    (let cg := NewConnectionGate 0 (Some gate_example_config) in
     cg{{cg_rateLimiter := (cg_rateLimiter cg){{rl_tokens := 9998}};
         cg_connectionLimiter := (cg_connectionLimiter cg){{cl_currentConnections := 2}} }})
    false
    [mkGateCall None AtOperation; mkGateCall None AtOperation; mkGateCall (Some Canceled) AtBreaker].

Ltac call_moves i rule :=
  eapply nsteps_l;
  [eapply (gate_step_call _ _ _ _ i); [reflexivity|eapply rule; reflexivity || discriminate]
  |cbn [insert list_insert]].

Lemma gate_example_reach : nsteps (gate_step (fun _ => 0)) 8 gate_example_start gate_example_two.
Proof.
  call_moves 0%nat @call_breaker. call_moves 1%nat @call_breaker.
  call_moves 0%nat (fun cg => call_rate (T := Z) (fun _ => 0) None cg false 0).
  call_moves 1%nat (fun cg => call_rate (T := Z) (fun _ => 0) None cg false 0).
  call_moves 0%nat @call_lock_admit. call_moves 0%nat @call_add_unlock.
  call_moves 1%nat @call_lock_admit. call_moves 1%nat @call_add_unlock.
  apply nsteps_O.
Qed.

Lemma ExecuteWithGate_concurrent_slots_witness :
  running gate_example_two = 2 /\ running gate_example_two + successes gate_example_two <= 2.
Proof.
  split; [reflexivity|].
  apply (ExecuteWithGate_concurrent_slots (T := Z) (fun _ => 0) 0 (Some gate_example_config)
    [None; None; Some Canceled] gate_example_two gate_example_config_ok).
  apply rtc_nsteps. exists 8%nat. apply gate_example_reach.
Defined.

(** One slot in block mode: the first call keeps it, the second, whose context is never
    done, waits. *)
Definition gate_example_blocked : gate_sys Z :=
  mkGateSys
    (let cg := NewConnectionGate 0 (Some cl_example_config) in
     cg{{cg_rateLimiter := (cg_rateLimiter cg){{rl_tokens := 9998}};
         cg_connectionLimiter := mkConnectionLimiter 1 1 "block" 0 (Some (mkChan 1 1)) }})
    false [mkGateCall None (Done (Ok 7)); mkGateCall None (AtParked None)].

Lemma gate_example_blocks :
  nsteps (gate_step (fun _ => 0)) 10
    (gate_start (NewConnectionGate 0 (Some cl_example_config)) [None; None]) gate_example_blocked.
Proof.
  call_moves 0%nat @call_breaker. call_moves 1%nat @call_breaker.
  call_moves 0%nat (fun cg => call_rate (T := Z) (fun _ => 0) None cg false 0).
  call_moves 1%nat (fun cg => call_rate (T := Z) (fun _ => 0) None cg false 0).
  call_moves 0%nat @call_send. call_moves 1%nat @call_park_block.
  call_moves 0%nat @call_count.
  call_moves 0%nat (fun cg => call_operation (fun _ => 0) None cg false (Ok 7)).
  call_moves 0%nat @call_success_load_closed. call_moves 0%nat @call_success_closed.
  apply nsteps_O.
Qed.

Lemma gate_example_blocked_stuck : gate_stuck (fun _ => 0) gate_example_blocked.
Proof.
  intros [s' Hs]. inversion Hs as [cg mu calls i ctx p cg' mu' p' Hi Hc]; subst.
  destruct i as [|[|i]]; [| |done]; injection Hi as <- <-; inversion Hc; subst; done.
Qed.

Lemma ExecuteWithGate_interleavings_end_witness : successes gate_example_blocked = 1.
Proof.
  destruct (ExecuteWithGate_interleavings_end (T := Z) (fun _ => 0) 0 (Some cl_example_config)
    [None; None] 10 gate_example_blocked) as [_ H].
  - intros c [= <-]. apply cl_example_config_ok.
  - apply gate_example_blocks.
  - destruct (H gate_example_blocked_stuck 1%nat _ eq_refl) as [[r Hr]|(_ & _ & Hn)];
      [discriminate Hr|exact Hn].
Defined.

Lemma ExecuteWithGate_refines_parts_witness :
  rtc mutex_step
    (mkMutexSys (NewConnectionLimiter (Some gate_example_config)) false 0) (mutex_view gate_example_two).
Proof.
  apply (ExecuteWithGate_refines_parts (T := Z) (fun _ => 0) 0 (Some gate_example_config)
    [None; None; Some Canceled] gate_example_two).
  apply rtc_nsteps. exists 8%nat. apply gate_example_reach.
Defined.

End Witnesses.
