(* ===== verification/Cache.v ===== *)
(** * The in-memory cache (cache.go)

    [InMemoryCache] keeps a [container/list] of items, most recently used first,
    and a map from keys to list elements.  Elements are pointers: an element is
    modelled by the number it got when it was allocated, the list by the elements
    in order with the item each holds, and the map gives the element of a key, so
    that the agreement of the two structures is an invariant to prove and not
    built in.  All operations run under the mutex. *)
From S2P Require Import Prelude.
Local Open Scope Z_scope.

Record CacheStats : Type := mkCacheStats {
  st_Items : Z;
  st_Capacity : Z;
  st_Hits : Z;
  st_Misses : Z;
  st_Evictions : Z;
  st_ExpiredCount : Z;
}.

(** ** The interface [Cache]

    The operations, with the clock reading of those that make one. *)
Class Cache (C V : Type) : Type := {
  Cache_Get : Z -> string -> C -> C * option V;
  Cache_Set : Z -> string -> V -> Z -> C -> C * bool;
  Cache_Delete : string -> C -> C;
  Cache_PurgeExpired : Z -> C -> C;
  Cache_Stats : C -> CacheStats;
}.

Section Cache.
Context {V : Type}.

Record cacheItem : Type := mkCacheItem {
  ci_key : string;
  ci_value : V;
  ci_expireAt : Z;
}.

Record InMemoryCache : Type := mkInMemoryCache {
  c_items : gmap string nat;
  c_ll : list (nat * cacheItem);
  c_next : nat;
  c_capacity : Z;
  c_defaultTTL : Z;
  c_Hits : Z;
  c_Misses : Z;
  c_Evictions : Z;
  c_ExpiredCount : Z;
}.

(** ** container/list *)
Definition list_Value (e : nat) (ll : list (nat * cacheItem)) : option cacheItem :=
  snd <$> List.find (fun p => Nat.eqb p.1 e) ll.

Definition list_Remove (e : nat) (ll : list (nat * cacheItem)) : list (nat * cacheItem) :=
  List.filter (fun p => negb (Nat.eqb p.1 e)) ll.

Definition list_MoveToFront (e : nat) (ll : list (nat * cacheItem)) : list (nat * cacheItem) :=
  match list_Value e ll with
  | Some ci => (e, ci) :: list_Remove e ll
  | None => ll
  end.

(** [e.Value = ci] *)
Definition list_SetValue (e : nat) (ci : cacheItem) (ll : list (nat * cacheItem))
    : list (nat * cacheItem) :=
  map (fun p => if Nat.eqb p.1 e then (e, ci) else p) ll.

Definition list_Len (ll : list (nat * cacheItem)) : Z := Z.of_nat (length ll).

(** ** The operations *)
Definition NewInMemoryCache (capacity defaultTTL : Z) : InMemoryCache :=
  let capacity := if capacity <=? 0 then 1024 else capacity in
  mkInMemoryCache ∅ [] 0 capacity defaultTTL 0 0 0 0.

(** The deadline of an item set at [now]; the zero time when it never expires. *)
Definition InMemoryCache_effectiveExpire (now ttl : Z) (c : InMemoryCache) : Z :=
  let ttl := if ttl <=? 0 then c_defaultTTL c else ttl in
  if ttl <=? 0 then 0 else Time_Add now ttl.

Definition item_expired (now : Z) (ci : cacheItem) : bool :=
  negb (Time_IsZero (ci_expireAt ci)) && Time_After now (ci_expireAt ci).

(** Unlinks element [e], which holds [key], from the list and the map. *)
Definition cache_drop (e : nat) (key : string) (c : InMemoryCache) : InMemoryCache :=
  c{{c_ll := list_Remove e (c_ll c); c_items := delete key (c_items c)}}.

Definition InMemoryCache_Get (now : Z) (key : string) (c : InMemoryCache)
    : InMemoryCache * option V :=
  match c_items c !! key with
  | None => (c{{c_Misses := wrapu64 (c_Misses c + 1)}}, None)
  | Some e =>
      match list_Value e (c_ll c) with
      | None => (c, None) (* excluded by the invariant *)
      | Some ci =>
          if item_expired now ci then
            let c := cache_drop e key c in
            (c{{c_ExpiredCount := wrapu64 (c_ExpiredCount c + 1);
                c_Misses := wrapu64 (c_Misses c + 1)}}, None)
          else
            (c{{c_ll := list_MoveToFront e (c_ll c);
                c_Hits := wrapu64 (c_Hits c + 1)}}, Some (ci_value ci))
      end
  end.

(** The eviction half of [Set]. *)
Definition InMemoryCache_evict (c : InMemoryCache) : InMemoryCache :=
  if c_capacity c <=? list_Len (c_ll c) then
    match last (c_ll c) with
    | Some (tail, ci) =>
        let c := cache_drop tail (ci_key ci) c in
        c{{c_Evictions := wrapu64 (c_Evictions c + 1)}}
    | None => c
    end
  else c.

Definition InMemoryCache_Set (now : Z) (key : string) (value : V) (ttl : Z) (c : InMemoryCache)
    : InMemoryCache * bool :=
  match c_items c !! key with
  | Some e =>
      match list_Value e (c_ll c) with
      | None => (c, false) (* excluded by the invariant *)
      | Some ci =>
          let ci := ci{{ci_value := value;
                        ci_expireAt := InMemoryCache_effectiveExpire now ttl c}} in
          let ll := list_SetValue e ci (c_ll c) in
          (c{{c_ll := list_MoveToFront e ll}}, true)
      end
  | None =>
      let c := InMemoryCache_evict c in
      let e := c_next c in
      let expireAt := InMemoryCache_effectiveExpire now ttl c in
      (c{{c_ll := (e, mkCacheItem key value expireAt) :: c_ll c;
          c_items := <[key := e]> (c_items c);
          c_next := S e}}, true)
  end.

Definition InMemoryCache_Delete (key : string) (c : InMemoryCache) : InMemoryCache :=
  match c_items c !! key with
  | Some e => cache_drop e key c
  | None => c
  end.

(** The loop of [PurgeExpired]: the elements from the back to the front. *)
Fixpoint InMemoryCache_purge (now : Z) (es : list (nat * cacheItem)) (c : InMemoryCache)
    : InMemoryCache :=
  match es with
  | [] => c
  | (e, ci) :: es =>
      let c :=
        if item_expired now ci then
          let c := cache_drop e (ci_key ci) c in
          c{{c_ExpiredCount := wrapu64 (c_ExpiredCount c + 1)}}
        else c in
      InMemoryCache_purge now es c
  end.

Definition InMemoryCache_PurgeExpired (now : Z) (c : InMemoryCache) : InMemoryCache :=
  if list_Len (c_ll c) =? 0 then c
  else InMemoryCache_purge now (reverse (c_ll c)) c.

Definition InMemoryCache_Stats (c : InMemoryCache) : CacheStats :=
  mkCacheStats (list_Len (c_ll c)) (c_capacity c) (c_Hits c) (c_Misses c) (c_Evictions c)
    (c_ExpiredCount c).

#[export] Instance InMemoryCache_Cache : Cache InMemoryCache V := {
  Cache_Get := InMemoryCache_Get;
  Cache_Set := InMemoryCache_Set;
  Cache_Delete := InMemoryCache_Delete;
  Cache_PurgeExpired := InMemoryCache_PurgeExpired;
  Cache_Stats := InMemoryCache_Stats;
}.

(** ** The specification: an LRU list with deadlines

    Entries most recently used first, no pointers, no map. *)
Record lru_entry : Type := mkEntry { en_key : string; en_value : V; en_expireAt : Z }.

Definition en_expired (now : Z) (en : lru_entry) : bool :=
  negb (Time_IsZero (en_expireAt en)) && Time_After now (en_expireAt en).

Definition lru_find (key : string) (l : list lru_entry) : option lru_entry :=
  List.find (fun en => String.eqb (en_key en) key) l.

Definition lru_remove (key : string) (l : list lru_entry) : list lru_entry :=
  List.filter (fun en => negb (String.eqb (en_key en) key)) l.

Definition lru_get (now : Z) (key : string) (l : list lru_entry) : list lru_entry * option V :=
  match lru_find key l with
  | None => (l, None)
  | Some en =>
      if en_expired now en then (lru_remove key l, None)
      else (en :: lru_remove key l, Some (en_value en))
  end.

Definition lru_set (capacity deadline : Z) (key : string) (value : V) (l : list lru_entry)
    : list lru_entry :=
  let fresh := mkEntry key value deadline in
  match lru_find key l with
  | Some _ => fresh :: lru_remove key l
  | None =>
      fresh :: (if capacity <=? Z.of_nat (length l) then removelast l else l)
  end.

Definition lru_purge (now : Z) (l : list lru_entry) : list lru_entry :=
  List.filter (fun en => negb (en_expired now en)) l.

Definition entry_of (p : nat * cacheItem) : lru_entry :=
  mkEntry (ci_key p.2) (ci_value p.2) (ci_expireAt p.2).

Definition cache_abs (c : InMemoryCache) : list lru_entry := map entry_of (c_ll c).

(** ** The invariant: the map and the list agree, within the capacity *)
Record cache_wf (c : InMemoryCache) : Prop := mk_cache_wf {
  cwf_capacity : 0 < c_capacity c;
  cwf_len : list_Len (c_ll c) <= c_capacity c;
  cwf_ids : NoDup (map fst (c_ll c));
  cwf_keys : NoDup (map (fun p => ci_key p.2) (c_ll c));
  cwf_map : forall k e, c_items c !! k = Some e <-> exists ci, (e, ci) ∈ c_ll c /\ ci_key ci = k;
  cwf_next : forall e ci, (e, ci) ∈ c_ll c -> (e < c_next c)%nat;
}.

(** ** Calls and schedules *)
Inductive cache_call : Type :=
  | CallGet (now : Z) (key : string)
  | CallSet (now : Z) (key : string) (value : V) (ttl : Z)
  | CallDelete (key : string)
  | CallPurge (now : Z).

Definition cache_step (o : cache_call) (c : InMemoryCache) : InMemoryCache * option V :=
  match o with
  | CallGet now k => InMemoryCache_Get now k c
  | CallSet now k v ttl => ((InMemoryCache_Set now k v ttl c).1, None)
  | CallDelete k => (InMemoryCache_Delete k c, None)
  | CallPurge now => (InMemoryCache_PurgeExpired now c, None)
  end.

Definition cache_run : list cache_call -> InMemoryCache -> InMemoryCache :=
  run (fun o c => (cache_step o c).1).

Fixpoint cache_answers (os : list cache_call) (c : InMemoryCache) : list (option V) :=
  match os with
  | [] => []
  | o :: os => let '(c', v) := cache_step o c in v :: cache_answers os c'
  end.

Definition lru_step (capacity defaultTTL : Z) (o : cache_call) (l : list lru_entry)
    : list lru_entry * option V :=
  match o with
  | CallGet now k => lru_get now k l
  | CallSet now k v ttl =>
      let ttl := if 0 <? ttl then ttl else defaultTTL in
      (lru_set capacity (if 0 <? ttl then now + ttl else 0) k v l, None)
  | CallDelete k => (lru_remove k l, None)
  | CallPurge now => (lru_purge now l, None)
  end.

Fixpoint lru_answers (capacity defaultTTL : Z) (os : list cache_call) (l : list lru_entry)
    : list (option V) :=
  match os with
  | [] => []
  | o :: os =>
      let '(l', v) := lru_step capacity defaultTTL o l in
      v :: lru_answers capacity defaultTTL os l'
  end.

Definition lru_run (capacity defaultTTL : Z) : list cache_call -> list lru_entry -> list lru_entry :=
  run (fun o l => (lru_step capacity defaultTTL o l).1).

#[local] Arguments list_Remove : simpl never.
#[local] Arguments list_Value : simpl never.
#[local] Arguments lru_remove : simpl never.
#[local] Arguments lru_find : simpl never.

(** ** Elements and entries *)
Lemma list_Value_elem e ll ci :
  NoDup (map fst ll) -> list_Value e ll = Some ci <-> (e, ci) ∈ ll.
Proof.
  unfold list_Value. intros Hnd. split.
  - destruct (List.find _ _) as [[e' ci']|] eqn:Hf; cbn; [|done].
    apply List.find_some in Hf as [Hin He%Nat.eqb_eq]. cbn in He. subst e'. intros [= ->].
    by apply list_elem_of_In.
  - intros Hin. destruct (List.find _ _) as [[e' ci']|] eqn:Hf; cbn.
    + apply List.find_some in Hf as [Hin' He%Nat.eqb_eq]. cbn in He. subst e'.
      apply list_elem_of_In in Hin'.
      by pose proof (NoDup_map_inj fst ll _ _ Hnd Hin Hin' eq_refl) as [= ->].
    + exfalso. apply list_elem_of_In in Hin. pose proof (List.find_none _ _ Hf _ Hin) as Hn.
      cbn in Hn. by rewrite Nat.eqb_refl in Hn.
Qed.

Lemma lru_find_elem k l en :
  NoDup (map en_key l) -> lru_find k l = Some en <-> en ∈ l /\ en_key en = k.
Proof.
  unfold lru_find. intros Hnd. split.
  - intros [Hin ?%String.eqb_eq]%List.find_some. by rewrite list_elem_of_In.
  - intros [Hin <-]. destruct (List.find _ _) as [en'|] eqn:Hf.
    + apply List.find_some in Hf as [Hin' Hk%String.eqb_eq]. apply list_elem_of_In in Hin'.
      by rewrite (NoDup_map_inj en_key l _ _ Hnd Hin Hin' (eq_sym Hk)).
    + exfalso. apply list_elem_of_In in Hin. pose proof (List.find_none _ _ Hf _ Hin) as Hn.
      cbn in Hn. by rewrite String.eqb_refl in Hn.
Qed.

Lemma cache_abs_keys c : map en_key (cache_abs c) = map (fun p => ci_key p.2) (c_ll c).
Proof. unfold cache_abs. by rewrite List.map_map. Qed.

Lemma cache_abs_length c : length (cache_abs c) = length (c_ll c).
Proof. apply length_map. Qed.

(** Removing an element removes the entry of its key. *)
Lemma list_Remove_entries ll e ci :
  NoDup (map fst ll) -> NoDup (map (fun p => ci_key p.2) ll) -> (e, ci) ∈ ll ->
  map entry_of (list_Remove e ll) = lru_remove (ci_key ci) (map entry_of ll).
Proof.
  intros Hids Hkeys Hin. unfold lru_remove, list_Remove. rewrite filter_map_swap. f_equal.
  apply bfilter_ext. intros [e' ci'] Hin'. cbn. f_equal.
  destruct (Nat.eqb_spec e' e) as [->|Hne].
  - pose proof (NoDup_map_inj fst ll _ _ Hids Hin Hin' eq_refl) as [= ->].
    by rewrite String.eqb_refl.
  - symmetry. apply String.eqb_neq. intros Hk.
    pose proof (NoDup_map_inj (fun p => ci_key p.2) ll _ _ Hkeys Hin Hin' (eq_sym Hk)) as [= -> _].
    done.
Qed.

Lemma list_Remove_perm ll e ci :
  NoDup (map fst ll) -> (e, ci) ∈ ll -> (e, ci) :: list_Remove e ll ≡ₚ ll.
Proof.
  unfold list_Remove. induction ll as [|[e' ci'] ll IH]; [by intros _ ?%elem_of_nil|].
  cbn. intros [Hx Hnd]%NoDup_cons [Heq|Hin]%elem_of_cons.
  - injection Heq as <- <-. rewrite Nat.eqb_refl. cbn. constructor.
    rewrite bfilter_all; [done|]. intros [e2 ci2] Hin. cbn. apply negb_true_iff, Nat.eqb_neq.
    intros ->. apply Hx. rewrite list_elem_of_In, in_map_iff. eexists. split; [|by apply list_elem_of_In].
    done.
  - destruct (Nat.eqb_spec e' e) as [->|Hne]; cbn.
    + exfalso. apply Hx. rewrite list_elem_of_In, in_map_iff.
      exists (e, ci). split; [done|]. by apply list_elem_of_In.
    + rewrite Permutation_swap. constructor. by apply IH.
Qed.

Lemma list_Remove_length ll e ci :
  NoDup (map fst ll) -> (e, ci) ∈ ll -> S (length (list_Remove e ll)) = length ll.
Proof. intros Hnd Hin. by rewrite <- (list_Remove_perm ll e ci Hnd Hin) at 2. Qed.

(** ** The invariant is preserved *)
Lemma cache_wf_ll c ll' :
  cache_wf c -> ll' ≡ₚ c_ll c -> cache_wf (c{{c_ll := ll'}}).
Proof.
  intros [Hcap Hlen Hids Hkeys Hmap Hnext] Hp. split; cbn; unfold list_Len in *.
  - done.
  - by rewrite Hp.
  - by rewrite Hp.
  - by rewrite Hp.
  - intros k e. rewrite Hmap. by setoid_rewrite Hp.
  - intros e ci. rewrite Hp. apply Hnext.
Qed.

(** The counters are not part of the invariant. *)
Lemma cache_wf_counters c c' :
  cache_wf c ->
  c_items c' = c_items c -> c_ll c' = c_ll c -> c_next c' = c_next c ->
  c_capacity c' = c_capacity c -> cache_wf c'.
Proof. destruct c, c'; cbn. intros [] ????; simplify_eq. by split. Qed.

Lemma cache_wf_drop c e ci :
  cache_wf c -> (e, ci) ∈ c_ll c -> cache_wf (cache_drop e (ci_key ci) c).
Proof.
  intros [Hcap Hlen Hids Hkeys Hmap Hnext] Hin. unfold cache_drop. destruct c; cbn in *.
  split; cbn.
  - done.
  - unfold list_Len in *. pose proof (list_Remove_length _ _ _ Hids Hin). lia.
  - by apply NoDup_map_bfilter.
  - by apply NoDup_map_bfilter.
  - intros k e'. rewrite lookup_delete_Some, Hmap. unfold list_Remove.
    setoid_rewrite elem_of_bfilter. cbn. split.
    + intros [Hne (ci' & Hin' & <-)]. exists ci'. split_and!; [done| |done].
      apply negb_true_iff, Nat.eqb_neq. intros ->.
      pose proof (NoDup_map_inj fst _ _ _ Hids Hin Hin' eq_refl) as [= ->]. done.
    + intros (ci' & [Hin' Hne%negb_true_iff%Nat.eqb_neq] & <-). split; [|by exists ci'].
      intros Hk. pose proof (NoDup_map_inj (fun p => ci_key p.2) _ _ _ Hkeys Hin Hin' Hk) as [= -> _].
      done.
  - intros e' ci'. unfold list_Remove. rewrite elem_of_bfilter. intros [? _]. by eapply Hnext.
Qed.

Lemma cache_abs_drop c e ci :
  cache_wf c -> (e, ci) ∈ c_ll c ->
  cache_abs (cache_drop e (ci_key ci) c) = lru_remove (ci_key ci) (cache_abs c).
Proof.
  intros Hwf Hin. apply list_Remove_entries; [apply Hwf|apply Hwf|done].
Qed.

(** What the map says about a key, as the list and the specification see it. *)
Lemma cache_lookup_Some c k e :
  cache_wf c -> c_items c !! k = Some e ->
  exists ci, list_Value e (c_ll c) = Some ci /\ (e, ci) ∈ c_ll c /\ ci_key ci = k /\
    lru_find k (cache_abs c) = Some (entry_of (e, ci)).
Proof.
  intros Hwf (ci & Hin & Hk)%(cwf_map c Hwf). exists ci. split_and!; try done.
  - apply list_Value_elem; [apply Hwf|done].
  - apply lru_find_elem; [rewrite cache_abs_keys; apply Hwf|]. split; [|done].
    unfold cache_abs. rewrite list_elem_of_In. apply in_map_iff. exists (e, ci).
    split; [done|]. by apply list_elem_of_In.
Qed.

Lemma cache_lookup_None c k :
  cache_wf c -> c_items c !! k = None -> lru_find k (cache_abs c) = None.
Proof.
  intros Hwf Hn. destruct (lru_find k (cache_abs c)) as [en|] eqn:Hf; [|done]. exfalso.
  apply lru_find_elem in Hf as [Hin <-]; [|rewrite cache_abs_keys; apply Hwf].
  unfold cache_abs in Hin. rewrite list_elem_of_In in Hin. apply in_map_iff in Hin as ([e ci] & <- & Hin).
  cbn in Hn. assert (c_items c !! ci_key ci = Some e) as Hs; [|by rewrite Hn in Hs].
  apply Hwf. exists ci. by rewrite list_elem_of_In.
Qed.

Lemma lru_remove_notin k l : lru_find k l = None -> lru_remove k l = l.
Proof.
  intros Hn. apply bfilter_all. intros en Hin%list_elem_of_In.
  pose proof (List.find_none _ _ Hn _ Hin) as H. cbn in H. by rewrite H.
Qed.

(** ** Each operation implements its list counterpart *)
Lemma list_MoveToFront_perm ll e ci :
  NoDup (map fst ll) -> (e, ci) ∈ ll -> list_MoveToFront e ll ≡ₚ ll.
Proof.
  intros Hnd Hin. unfold list_MoveToFront.
  rewrite (proj2 (list_Value_elem e ll ci Hnd) Hin). by apply list_Remove_perm.
Qed.

Lemma InMemoryCache_Get_refines now k c :
  cache_wf c ->
  let (c', v) := InMemoryCache_Get now k c in
  cache_wf c' /\ (cache_abs c', v) = lru_get now k (cache_abs c).
Proof.
  intros Hwf. unfold InMemoryCache_Get, lru_get.
  destruct (c_items c !! k) as [e|] eqn:Hk.
  - destruct (cache_lookup_Some c k e Hwf Hk) as (ci & -> & Hin & Hkey & ->).
    change (en_expired now (entry_of (e, ci))) with (item_expired now ci).
    destruct (item_expired now ci) eqn:Hex; subst k.
    + pose proof (cache_wf_drop c e ci Hwf Hin) as Hwf'.
      pose proof (cache_abs_drop c e ci Hwf Hin) as Habs.
      split; [|by rewrite <- Habs].
      by apply (cache_wf_counters _ _ Hwf').
    + pose proof (list_MoveToFront_perm (c_ll c) e ci (cwf_ids c Hwf) Hin) as Hp.
      pose proof (cache_wf_ll c _ Hwf Hp) as Hwf'.
      split; [by apply (cache_wf_counters _ _ Hwf')|].
      unfold cache_abs. cbn. unfold list_MoveToFront.
      rewrite (proj2 (list_Value_elem e (c_ll c) ci (cwf_ids c Hwf)) Hin). cbn.
      by rewrite (list_Remove_entries _ _ _ (cwf_ids c Hwf) (cwf_keys c Hwf) Hin).
  - rewrite (cache_lookup_None c k Hwf Hk). split; [|done].
    by apply (cache_wf_counters _ _ Hwf).
Qed.

Lemma InMemoryCache_Delete_refines k c :
  cache_wf c ->
  cache_wf (InMemoryCache_Delete k c) /\
  cache_abs (InMemoryCache_Delete k c) = lru_remove k (cache_abs c).
Proof.
  intros Hwf. unfold InMemoryCache_Delete. destruct (c_items c !! k) as [e|] eqn:Hk.
  - destruct (cache_lookup_Some c k e Hwf Hk) as (ci & _ & Hin & <- & _).
    split; [by apply cache_wf_drop|by apply cache_abs_drop].
  - split; [done|]. by rewrite lru_remove_notin; [|apply cache_lookup_None].
Qed.

Lemma last_removelast {A} (l : list A) x : last l = Some x -> l = removelast l ++ [x].
Proof.
  intros [l' ->]%last_Some. by rewrite removelast_last.
Qed.

Lemma list_Remove_last ll e ci :
  NoDup (map fst ll) -> last ll = Some (e, ci) -> list_Remove e ll = removelast ll.
Proof.
  intros Hnd Hl%last_removelast. rewrite Hl in Hnd. rewrite Hl at 1.
  revert Hnd. generalize (removelast ll). clear. intros l Hnd.
  unfold list_Remove. rewrite List.filter_app. cbn. rewrite Nat.eqb_refl. cbn. rewrite app_nil_r.
  apply bfilter_all. intros [e' ci'] Hin. apply negb_true_iff, Nat.eqb_neq. cbn. intros ->.
  rewrite map_app in Hnd. apply NoDup_app in Hnd as (_ & Hnd & _). apply (Hnd e).
  - rewrite list_elem_of_In, in_map_iff. eexists. split; [|by apply list_elem_of_In]. done.
  - apply list_elem_of_In. by left.
Qed.

Lemma removelast_map {A B} (f : A -> B) l : removelast (map f l) = map f (removelast l).
Proof. induction l as [|x [|y l] IH]; cbn in *; [done..|]. by rewrite IH. Qed.

(** Eviction makes room and forgets the least recently used entry. *)
Lemma InMemoryCache_evict_refines c :
  cache_wf c ->
  let c' := InMemoryCache_evict c in
  cache_wf c' /\ list_Len (c_ll c') < c_capacity c /\
  c_capacity c' = c_capacity c /\ c_defaultTTL c' = c_defaultTTL c /\
  cache_abs c' = (if c_capacity c <=? Z.of_nat (length (cache_abs c)) then removelast (cache_abs c)
                  else cache_abs c) /\
  (forall k, c_items c !! k = None -> c_items c' !! k = None).
Proof.
  intros Hwf. cbn zeta. unfold InMemoryCache_evict. rewrite cache_abs_length.
  change (list_Len (c_ll c)) with (Z.of_nat (length (c_ll c))).
  destruct (Z.leb_spec (c_capacity c) (Z.of_nat (length (c_ll c)))) as [Hfull|Hroom]; [|done].
  pose proof (cwf_capacity c Hwf).
  destruct (last (c_ll c)) as [[e ci]|] eqn:Hl.
  - pose proof (last_removelast _ _ Hl) as Happ.
    assert (Hin : (e, ci) ∈ c_ll c).
    { rewrite Happ, list_elem_of_In. apply in_app_iff. right. by left. }
    pose proof (cache_wf_drop c e ci Hwf Hin) as Hwf'.
    pose proof (list_Remove_length _ _ _ (cwf_ids c Hwf) Hin) as Hlen.
    pose proof (cwf_len c Hwf) as Hb. unfold list_Len in *.
    split_and!; [|cbn; lia|done..| |].
    + by apply (cache_wf_counters _ _ Hwf').
    + unfold cache_abs. cbn. rewrite removelast_map. f_equal.
      apply (list_Remove_last _ _ ci); [apply Hwf|done].
    + intros k Hk. cbn. by apply lookup_delete_None; right.
  - apply last_None in Hl. rewrite Hl in Hfull. cbn in Hfull. lia.
Qed.

Lemma InMemoryCache_effectiveExpire_spec now ttl c :
  InMemoryCache_effectiveExpire now ttl c =
    (let ttl := if 0 <? ttl then ttl else c_defaultTTL c in if 0 <? ttl then now + ttl else 0).
Proof.
  unfold InMemoryCache_effectiveExpire, Time_Add. cbn zeta.
  destruct (Z.leb_spec ttl 0), (Z.ltb_spec 0 ttl); try lia.
  - by destruct (Z.leb_spec (c_defaultTTL c) 0), (Z.ltb_spec 0 (c_defaultTTL c)); try lia.
  - by destruct (Z.leb_spec ttl 0), (Z.ltb_spec 0 ttl); try lia.
Qed.

Lemma cache_wf_put c e ci n :
  cache_wf c -> c_items c !! ci_key ci = None -> e ∉ map fst (c_ll c) ->
  list_Len (c_ll c) < c_capacity c -> (e < n)%nat -> (c_next c <= n)%nat ->
  cache_wf (c{{c_ll := (e, ci) :: c_ll c; c_items := <[ci_key ci := e]> (c_items c);
               c_next := n}}).
Proof.
  intros Hwf Hk He Hlen Hn Hnext. split; cbn.
  - apply Hwf.
  - unfold list_Len in *. destruct c. cbn in *. lia.
  - apply NoDup_cons. split; [done|apply Hwf].
  - apply NoDup_cons. split; [|apply Hwf]. intros Hin.
    rewrite list_elem_of_In in Hin. apply in_map_iff in Hin as ([e' ci'] & Heq & Hin). cbn in Heq.
    assert (c_items c !! ci_key ci = Some e') as Hs; [|by rewrite Hk in Hs].
    apply Hwf. exists ci'. by rewrite list_elem_of_In.
  - intros k e'. setoid_rewrite elem_of_cons. rewrite lookup_insert_Some, (cwf_map c Hwf). split.
    + intros [[<- <-]|[Hne (ci' & Hin & <-)]]; [by exists ci; auto|]. exists ci'. auto.
    + intros (ci' & [[= -> ->]|Hin] & <-); [by left|]. right. split; [|by exists ci'].
      intros Heq. assert (c_items c !! ci_key ci = Some e') as Hs; [|by rewrite Hk in Hs].
      apply Hwf. by exists ci'.
  - intros e' ci' [[= -> ->]|Hin]%elem_of_cons; [done|].
    pose proof (cwf_next c Hwf _ _ Hin). lia.
Qed.

Lemma list_SetValue_front ll e ci ci' :
  NoDup (map fst ll) -> (e, ci) ∈ ll ->
  list_MoveToFront e (list_SetValue e ci' ll) = (e, ci') :: list_Remove e ll.
Proof.
  intros Hnd Hin. unfold list_MoveToFront.
  assert (Hids : map fst (list_SetValue e ci' ll) = map fst ll).
  { unfold list_SetValue. rewrite List.map_map. apply map_ext. intros [e' ?]. cbn.
    by destruct (Nat.eqb_spec e' e) as [->|]. }
  rewrite (proj2 (list_Value_elem e (list_SetValue e ci' ll) ci' ltac:(by rewrite Hids))).
  - f_equal. unfold list_Remove, list_SetValue. rewrite filter_map_swap.
    rewrite (bfilter_ext _ (fun p => negb (Nat.eqb p.1 e))).
    + rewrite <- (map_id (List.filter _ ll)) at 2. apply map_ext_in. intros [e' ?] [_ Hf]%filter_In.
      cbn in *. by destruct (Nat.eqb e' e).
    + intros [e' ?] _. cbn. destruct (Nat.eqb_spec e' e) as [->|Hne]; cbn.
      * by rewrite Nat.eqb_refl.
      * by apply Nat.eqb_neq in Hne as ->.
  - unfold list_SetValue. rewrite list_elem_of_In. apply in_map_iff. exists (e, ci). cbn.
    rewrite Nat.eqb_refl. split; [done|]. by apply list_elem_of_In.
Qed.

Lemma InMemoryCache_Set_refines now k v ttl c :
  cache_wf c ->
  let (c', ok) := InMemoryCache_Set now k v ttl c in
  cache_wf c' /\ ok = true /\
  cache_abs c' =
    lru_set (c_capacity c) (InMemoryCache_effectiveExpire now ttl c) k v (cache_abs c).
Proof.
  intros Hwf. unfold InMemoryCache_Set, lru_set. destruct (c_items c !! k) as [e|] eqn:Hk.
  - destruct (cache_lookup_Some c k e Hwf Hk) as (ci & -> & Hin & Hkey & ->).
    set (d := InMemoryCache_effectiveExpire now ttl c).
    set (ci' := ci{{ci_value := v; ci_expireAt := d}}).
    assert (Hkey' : ci_key ci' = k) by done.
    rewrite (list_SetValue_front _ _ ci) by (done || apply Hwf). subst k.
    split_and!; [|done|].
    + pose proof (cache_wf_drop c e ci Hwf Hin) as Hwf'.
      apply (cache_wf_counters (cache_drop e (ci_key ci) c){{
        c_ll := (e, ci') :: list_Remove e (c_ll c);
        c_items := <[ci_key ci' := e]> (delete (ci_key ci) (c_items c)); c_next := c_next c}});
        [|cbn; by rewrite ?insert_delete_id..].
      apply (cache_wf_put (cache_drop e (ci_key ci) c)); cbn.
      * done.
      * exact (lookup_delete_eq (c_items c) (ci_key ci)).
      * intros (p & Hp & [_ Hf]%elem_of_bfilter)%list_elem_of_fmap.
        subst e. by rewrite Nat.eqb_refl in Hf.
      * change (list_Len (list_Remove e (c_ll c)) < c_capacity c).
        pose proof (list_Remove_length _ _ _ (cwf_ids c Hwf) Hin). pose proof (cwf_len c Hwf).
        unfold list_Len in *. lia.
      * exact (cwf_next c Hwf _ _ Hin).
      * done.
    + unfold cache_abs. cbn.
      by rewrite (list_Remove_entries _ _ _ (cwf_ids c Hwf) (cwf_keys c Hwf) Hin).
  - rewrite (cache_lookup_None c k Hwf Hk).
    destruct (InMemoryCache_evict_refines c Hwf) as (Hwf' & Hlen & Hcap & Httl & Habs & Hnone).
    assert (Hd : InMemoryCache_effectiveExpire now ttl (InMemoryCache_evict c) =
                 InMemoryCache_effectiveExpire now ttl c).
    { unfold InMemoryCache_effectiveExpire. by rewrite Httl. }
    rewrite Hd, <- Habs. clear Habs Hd.
    set (c1 := InMemoryCache_evict c) in *. clearbody c1. split_and!; [|done|done].
    apply (cache_wf_put c1 (c_next c1)
             (mkCacheItem k v (InMemoryCache_effectiveExpire now ttl c))); cbn; [auto..| |by rewrite Hcap|lia|lia].
    intros ([e ci] & He & Hin)%list_elem_of_fmap.
    pose proof (cwf_next c1 Hwf' _ _ Hin). cbn in *. lia.
Qed.

(** The purge loop, at a moment where the elements [es] are still to be visited. *)
Lemma InMemoryCache_purge_spec now es c :
  cache_wf c -> NoDup (map fst es) -> (forall p, p ∈ es -> p ∈ c_ll c) ->
  cache_wf (InMemoryCache_purge now es c) /\
  cache_abs (InMemoryCache_purge now es c) =
    map entry_of (List.filter (fun p => negb (existsb (Nat.eqb p.1) (map fst es) &&
                                              item_expired now p.2)) (c_ll c)) /\
  c_capacity (InMemoryCache_purge now es c) = c_capacity c /\
  c_defaultTTL (InMemoryCache_purge now es c) = c_defaultTTL c.
Proof.
  revert c. induction es as [|[e ci] es IH]; intros c Hwf Hnd Hsub; cbn [InMemoryCache_purge].
  - split_and!; [done| |done..]. rewrite bfilter_all; done.
  - cbn [map] in Hnd. apply NoDup_cons in Hnd as [He Hnd].
    assert (Hin : (e, ci) ∈ c_ll c) by (apply Hsub, elem_of_cons; by left).
    cbn zeta. destruct (item_expired now ci) eqn:Hex.
    + set (c1 := _{{c_ExpiredCount := _}}).
      assert (Hwf1 : cache_wf c1).
      { apply (cache_wf_counters (cache_drop e (ci_key ci) c)); [by apply cache_wf_drop|done..]. }
      destruct (IH c1 Hwf1 Hnd) as (Hwf' & Habs & Hcap & Httl).
      * intros [e' ci'] Hp. cbn. apply elem_of_bfilter. split; [by apply Hsub, elem_of_cons; right|].
        cbn. apply negb_true_iff, Nat.eqb_neq. intros ->. apply He.
        apply list_elem_of_fmap. by exists (e, ci').
      * split_and!; [done| |done..]. rewrite Habs. f_equal. cbn [c1 c_ll]. cbn.
        unfold list_Remove. rewrite bfilter_bfilter. apply bfilter_ext. intros [e' ci'] Hin'. cbn.
        destruct (Nat.eqb_spec e' e) as [->|Hne]; cbn; [|done].
        pose proof (NoDup_map_inj fst _ _ _ (cwf_ids c Hwf) Hin Hin' eq_refl) as [= ->].
        by rewrite Hex.
    + destruct (IH c Hwf Hnd) as (Hwf' & Habs & Hcap & Httl).
      * intros p Hp. by apply Hsub, elem_of_cons; right.
      * split_and!; [done| |done..]. rewrite Habs. f_equal. apply bfilter_ext.
        intros [e' ci'] Hin'. cbn. destruct (Nat.eqb_spec e' e) as [->|Hne]; cbn; [|done].
        pose proof (NoDup_map_inj fst _ _ _ (cwf_ids c Hwf) Hin Hin' eq_refl) as [= ->].
        by rewrite Hex, andb_false_r.
Qed.

Lemma InMemoryCache_PurgeExpired_refines now c :
  cache_wf c ->
  cache_wf (InMemoryCache_PurgeExpired now c) /\
  cache_abs (InMemoryCache_PurgeExpired now c) = lru_purge now (cache_abs c) /\
  c_capacity (InMemoryCache_PurgeExpired now c) = c_capacity c /\
  c_defaultTTL (InMemoryCache_PurgeExpired now c) = c_defaultTTL c.
Proof.
  intros Hwf. unfold InMemoryCache_PurgeExpired.
  destruct (Z.eqb_spec (list_Len (c_ll c)) 0) as [Hz|Hnz].
  - split_and!; [done| |done..]. unfold cache_abs. unfold list_Len in Hz. by destruct (c_ll c).
  - destruct (InMemoryCache_purge_spec now (reverse (c_ll c)) c Hwf) as (Hwf' & Habs & ? & ?).
    + change (map fst (reverse (c_ll c))) with (fst <$> reverse (c_ll c)).
      rewrite reverse_Permutation. apply Hwf.
    + intros p. by rewrite elem_of_reverse.
    + split_and!; [done| |done..]. rewrite Habs. unfold lru_purge, cache_abs. rewrite filter_map_swap. f_equal.
      apply bfilter_ext. intros p Hp. f_equal.
      rewrite (proj2 (existsb_exists _ _)); [done|]. exists p.1. rewrite Nat.eqb_refl. split; [|done].
      apply in_map. by apply list_elem_of_In, elem_of_reverse.
Qed.

(** ** Schedules *)
Lemma cache_step_refines o c :
  cache_wf c ->
  let (c', v) := cache_step o c in
  cache_wf c' /\ (cache_abs c', v) = lru_step (c_capacity c) (c_defaultTTL c) o (cache_abs c) /\
  c_capacity c' = c_capacity c /\ c_defaultTTL c' = c_defaultTTL c.
Proof.
  intros Hwf. destruct o as [now k|now k v ttl|k|now]; cbn [cache_step lru_step].
  - pose proof (InMemoryCache_Get_refines now k c Hwf) as Hr.
    destruct (InMemoryCache_Get now k c) as [c' v] eqn:Hg. destruct Hr as [? ?].
    split_and!; [done..| |]; unfold InMemoryCache_Get in Hg; revert Hg; split_matches;
      by intros [= <- _].
  - pose proof (InMemoryCache_Set_refines now k v ttl c Hwf) as Hr.
    destruct (InMemoryCache_Set now k v ttl c) as [c' ok] eqn:Hs. destruct Hr as (? & _ & Habs). cbn.
    rewrite Habs, InMemoryCache_effectiveExpire_spec.
    destruct (InMemoryCache_evict_refines c Hwf) as (_ & _ & Hcap & Httl & _ & _).
    split_and!; [done..| |]; unfold InMemoryCache_Set in Hs;
      destruct (c_items c !! k) as [e|]; try destruct (list_Value e (c_ll c));
      by injection Hs as <- <-.
  - destruct (InMemoryCache_Delete_refines k c Hwf) as [? ->].
    split_and!; [done..| |]; unfold InMemoryCache_Delete; by split_matches.
  - destruct (InMemoryCache_PurgeExpired_refines now c Hwf) as (? & -> & ? & ?).
    done.
Qed.

Lemma cache_run_refines os c :
  cache_wf c ->
  cache_wf (cache_run os c) /\
  cache_answers os c = lru_answers (c_capacity c) (c_defaultTTL c) os (cache_abs c) /\
  cache_abs (cache_run os c) = lru_run (c_capacity c) (c_defaultTTL c) os (cache_abs c) /\
  c_capacity (cache_run os c) = c_capacity c /\ c_defaultTTL (cache_run os c) = c_defaultTTL c.
Proof.
  unfold cache_run, lru_run. revert c. induction os as [|o os IH]; intros c Hwf; [done|].
  rewrite !run_cons. cbn [cache_answers lru_answers].
  pose proof (cache_step_refines o c Hwf) as Hs.
  destruct (cache_step o c) as [c' v], (lru_step _ _ o (cache_abs c)) as [l' v'] eqn:Hl.
  destruct Hs as (Hwf' & [= <- <-] & Hcap & Httl). cbn.
  destruct (IH c' Hwf') as (? & Ha & Habs & Hcap' & Httl').
  rewrite Ha, Habs, Hcap', Httl', Hcap, Httl. done.
Qed.

Lemma NewInMemoryCache_wf capacity ttl : cache_wf (NewInMemoryCache capacity ttl).
Proof.
  unfold NewInMemoryCache. split; cbn; try constructor; try (unfold list_Len; cbn);
    try (destruct (Z.leb_spec capacity 0); lia); try done.
  - intros (ci & []%elem_of_nil & _).
  - by intros e ci ?%elem_of_nil.
Qed.

(** ** What a key maps to, ignoring capacity and time *)
Definition write_deadline (defaultTTL now ttl : Z) : Z :=
  let ttl := if 0 <? ttl then ttl else defaultTTL in if 0 <? ttl then now + ttl else 0.

Definition latest_step (defaultTTL : Z) (key : string) (o : cache_call) (w : option (V * Z))
    : option (V * Z) :=
  match o with
  | CallSet now k v ttl =>
      if String.eqb k key then Some (v, write_deadline defaultTTL now ttl) else w
  | CallDelete k => if String.eqb k key then None else w
  | CallGet _ _ | CallPurge _ => w
  end.

(** The value and the deadline of the last write to [key]. *)
Definition latest (defaultTTL : Z) (key : string) (os : list cache_call) : option (V * Z) :=
  run (latest_step defaultTTL key) os None.

(** A deadline that has not passed at [now]. *)
Definition live (now deadline : Z) : Prop := deadline = 0 \/ now <= deadline.

Lemma en_expired_live now en : en_expired now en = false <-> live now (en_expireAt en).
Proof.
  unfold en_expired, live, Time_IsZero, Time_After.
  destruct (Z.eqb_spec (en_expireAt en) 0), (Z.ltb_spec (en_expireAt en) now); cbn; lia || naive_solver lia.
Qed.

Lemma elem_of_lru_remove k l en : en ∈ lru_remove k l <-> en ∈ l /\ en_key en <> k.
Proof. unfold lru_remove. by rewrite elem_of_bfilter, negb_true_iff, String.eqb_neq. Qed.

Lemma elem_of_removelast {A} (x : A) l : x ∈ removelast l -> x ∈ l.
Proof.
  induction l as [|y [|z l] IH]; cbn; [done|by intros ?%elem_of_nil|].
  intros [->|H]%elem_of_cons; apply elem_of_cons; [by left|]. right. by apply IH.
Qed.

(** Every entry holds the last write of its key. *)
Lemma lru_step_latest cap ttl o l (w : string -> option (V * Z)) :
  (forall en, en ∈ l -> w (en_key en) = Some (en_value en, en_expireAt en)) ->
  forall en, en ∈ (lru_step cap ttl o l).1 ->
  latest_step ttl (en_key en) o (w (en_key en)) = Some (en_value en, en_expireAt en).
Proof.
  intros Hl en. destruct o as [now k|now k v ttl'|k|now]; cbn.
  - unfold lru_get. destruct (lru_find k l) as [en'|] eqn:Hf; [|apply Hl].
    apply List.find_some in Hf as [Hin' _]. apply list_elem_of_In in Hin'.
    destruct (en_expired now en'); cbn.
    + rewrite elem_of_lru_remove. intros [? _]. by apply Hl.
    + rewrite elem_of_cons, elem_of_lru_remove. intros [->|[? _]]; by apply Hl.
  - unfold lru_set. destruct (lru_find k l) as [en'|] eqn:Hf.
    + rewrite elem_of_cons, elem_of_lru_remove. intros [->|[Hin Hk]]; cbn.
      * by rewrite String.eqb_refl.
      * apply not_eq_sym, String.eqb_neq in Hk as ->. by apply Hl.
    + rewrite elem_of_cons. intros [->|Hin]; cbn; [by rewrite String.eqb_refl|].
      assert (Hin' : en ∈ l) by (revert Hin; split_ifs; [by apply elem_of_removelast|done]).
      destruct (String.eqb_spec k (en_key en)) as [->|]; [|by apply Hl].
      apply list_elem_of_In in Hin'. pose proof (List.find_none _ _ Hf _ Hin') as Hn. cbn in Hn.
      by rewrite String.eqb_refl in Hn.
  - rewrite elem_of_lru_remove. intros [Hin Hk]. apply not_eq_sym, String.eqb_neq in Hk as ->.
    by apply Hl.
  - unfold lru_purge. rewrite elem_of_bfilter. intros [? _]. by apply Hl.
Qed.

Lemma lru_run_latest cap ttl os en :
  en ∈ lru_run cap ttl os [] -> latest ttl (en_key en) os = Some (en_value en, en_expireAt en).
Proof.
  unfold lru_run, latest. revert en. induction os as [|o os IH] using rev_ind; intros en.
  - by intros ?%elem_of_nil.
  - rewrite !run_app. cbn. by apply (lru_step_latest cap ttl o _ (fun k => run (latest_step ttl k) os None)).
Qed.

(** A Get that hits returns an entry of the list that has not expired. *)
Lemma lru_get_hit now k l v :
  (lru_get now k l).2 = Some v ->
  exists en, lru_find k l = Some en /\ en_key en = k /\ en ∈ l /\ en_value en = v /\ live now (en_expireAt en).
Proof.
  unfold lru_get. destruct (lru_find k l) as [en|] eqn:Hf; [|done].
  destruct (en_expired now en) eqn:Hex; [done|]. intros [= <-]. exists en.
  apply List.find_some in Hf as [? ?%String.eqb_eq]. split_and!; try done.
  - by apply list_elem_of_In.
  - by apply en_expired_live.
Qed.

(** ** How long an entry survives

    [held key v d n l]: the entry of [key] holds [v] with deadline [d] and at most
    [n] entries were used more recently. *)
Definition held (key : string) (v : V) (d : Z) (n : nat) (l : list lru_entry) : Prop :=
  NoDup (map en_key l) /\
  exists pre post, l = pre ++ mkEntry key v d :: post /\ (length pre <= n)%nat.

(** The calls that push other entries back: Get and Set of another key. *)
Definition touches (key : string) (o : cache_call) : nat :=
  match o with
  | CallGet _ k | CallSet _ k _ _ => if String.eqb k key then 0 else 1
  | CallDelete _ | CallPurge _ => 0
  end.

(** A call that neither writes [key] nor sees it expired. *)
Definition spares (key : string) (d : Z) (o : cache_call) : Prop :=
  match o with
  | CallGet now k => k = key -> live now d
  | CallSet _ k _ _ | CallDelete k => k <> key
  | CallPurge now => live now d
  end.

Lemma bfilter_length_le {A} (P : A -> bool) l : (length (List.filter P l) <= length l)%nat.
Proof. induction l as [|x l IH]; cbn; [lia|]. destruct (P x); cbn; lia. Qed.

Lemma held_find key v d n l : held key v d n l -> lru_find key l = Some (mkEntry key v d).
Proof.
  intros (Hnd & pre & post & -> & _). apply lru_find_elem; [done|]. split; [|done].
  apply elem_of_app. right. apply elem_of_cons. by left.
Qed.

(** Filtering keeps an entry that passes, and moves it forward if anything. *)
Lemma held_filter key v d n l (P : lru_entry -> bool) :
  P (mkEntry key v d) = true -> held key v d n l -> held key v d n (List.filter P l).
Proof.
  intros HP (Hnd & pre & post & -> & Hle). split; [by apply NoDup_map_bfilter|].
  exists (List.filter P pre), (List.filter P post). rewrite List.filter_app. cbn. rewrite HP.
  split; [done|]. pose proof (bfilter_length_le P pre). lia.
Qed.

Lemma held_cons key v d n l en :
  en_key en ∉ map en_key l -> held key v d n l -> held key v d (S n) (en :: l).
Proof.
  intros Hk (Hnd & pre & post & -> & Hle). split; [by apply NoDup_cons|].
  exists (en :: pre), post. split; [done|]. cbn. lia.
Qed.

Lemma held_weaken key v d n m l : (n <= m)%nat -> held key v d n l -> held key v d m l.
Proof. intros Hnm (Hnd & pre & post & -> & Hle). split; [done|]. exists pre, post. split; [done|lia]. Qed.

Lemma lru_remove_key_notin k l : k ∉ map en_key (lru_remove k l).
Proof. intros (en & -> & [_ Hne]%elem_of_lru_remove)%list_elem_of_fmap. done. Qed.

(** Eviction spares an entry with room behind it. *)
Lemma held_evict cap key v d n l :
  Z.of_nat (S n) < cap -> Z.of_nat (length l) <= cap -> held key v d n l ->
  held key v d n (if cap <=? Z.of_nat (length l) then removelast l else l).
Proof.
  intros Hn Hlen Hh. destruct (Z.leb_spec cap (Z.of_nat (length l))); [|done].
  destruct Hh as (Hnd & pre & post & -> & Hle). rewrite length_app in *. cbn [length] in *.
  destruct (decide (post = [])) as [->|Hne]; [cbn in *; lia|].
  rewrite removelast_app by done.
  assert (Hr : removelast (mkEntry key v d :: post) = mkEntry key v d :: removelast post)
    by (by destruct post).
  rewrite Hr. split; [|by exists pre, (removelast post)].
  rewrite map_app in *. cbn in *. rewrite (app_removelast_last (mkEntry key v d) Hne) in Hnd.
  rewrite map_app, app_comm_cons, app_assoc in Hnd. by apply NoDup_app in Hnd as (? & _ & _).
Qed.

Lemma lru_step_held cap ttl o key v d n l :
  spares key d o -> Z.of_nat (touches key o + n) < cap -> Z.of_nat (length l) <= cap ->
  held key v d n l -> held key v d (touches key o + n) (lru_step cap ttl o l).1.
Proof.
  intros Hsp Hn Hlen Hh. destruct o as [now k|now k v' ttl'|k|now]; cbn in *.
  - unfold lru_get. destruct (String.eqb_spec k key) as [->|Hne].
    + rewrite (held_find _ _ _ _ _ Hh), (proj2 (en_expired_live now (mkEntry key v d))) by auto. cbn.
      split; [apply NoDup_cons; split; [apply lru_remove_key_notin|apply NoDup_map_bfilter, Hh]|].
      exists [], (lru_remove key l). split; [done|]. cbn. lia.
    + destruct (lru_find k l) as [en|] eqn:Hf; cbn; [|by eapply held_weaken; [|done]; lia].
      apply List.find_some in Hf as [Hin Hk%String.eqb_eq].
      assert (Hr : held key v d n (lru_remove k l)).
      { apply held_filter; [|done]. cbn. by apply negb_true_iff, String.eqb_neq. }
      destruct (en_expired now en); cbn; [by eapply held_weaken; [|done]; lia|].
      apply held_cons; [|done]. rewrite Hk. apply lru_remove_key_notin.
  - apply String.eqb_neq in Hsp as Hsp'. rewrite Hsp' in *. unfold lru_set.
    destruct (lru_find k l) as [en|] eqn:Hf.
    + apply held_cons; [apply lru_remove_key_notin|]. apply held_filter; [|done]. cbn.
      by apply negb_true_iff, String.eqb_neq.
    + apply held_cons; [|by apply held_evict].
      intros (en & Hk & Hin)%list_elem_of_fmap. cbn in Hk. subst k.
      assert (Hin' : en ∈ l) by (revert Hin; split_ifs; [by apply elem_of_removelast|done]).
      apply list_elem_of_In in Hin'. pose proof (List.find_none _ _ Hf _ Hin') as Hx. cbn in Hx.
      by rewrite String.eqb_refl in Hx.
  - apply held_filter; [|done]. cbn. by apply negb_true_iff, String.eqb_neq.
  - apply held_filter; [|done]. by apply negb_true_iff, en_expired_live.
Qed.

Lemma evict_prefix {A} cap (x : A) (l : list A) :
  exists l2, l = (if cap <=? Z.of_nat (length l) then removelast l else l) ++ l2.
Proof.
  split_ifs; [|by exists []; rewrite app_nil_r].
  destruct (decide (l = [])) as [->|Hne]; [by exists []|].
  eexists. apply (app_removelast_last x Hne).
Qed.

Lemma held_set cap key v d l :
  NoDup (map en_key l) -> held key v d 0 (lru_set cap d key v l).
Proof.
  intros Hnd. unfold lru_set. destruct (lru_find key l) as [en|] eqn:Hf.
  - split; [|by exists [], (lru_remove key l)].
    apply NoDup_cons. split; [apply lru_remove_key_notin|by apply NoDup_map_bfilter].
  - destruct (evict_prefix cap (mkEntry key v d) l) as [l2 Hl'].
    revert Hl'. generalize (if cap <=? Z.of_nat (length l) then removelast l else l) as l'.
    intros l' ->. split; [|by exists [], l']. rewrite map_app in Hnd.
    apply NoDup_app in Hnd as (Hnd & _ & _). apply NoDup_cons. split; [|done].
    intros (en & Hk & Hin%list_elem_of_In)%list_elem_of_fmap. cbn in Hk. subst key.
    pose proof (List.find_none _ _ Hf en ltac:(apply in_app_iff; by left)) as Hx. cbn in Hx.
    by rewrite String.eqb_refl in Hx.
Qed.

Definition total_touches (key : string) (os : list cache_call) : nat :=
  sum_list_with (touches key) os.

(** An entry survives a schedule that spares it and touches fewer than
    [capacity] other entries. *)
Lemma cache_run_held os key v d n c :
  cache_wf c -> Forall (spares key d) os -> Z.of_nat (total_touches key os + n) < c_capacity c ->
  held key v d n (cache_abs c) ->
  held key v d (total_touches key os + n) (cache_abs (cache_run os c)).
Proof.
  unfold total_touches. revert n c.
  induction os as [|o os IH]; intros n c Hwf Hsp Hcap Hh; [done|].
  apply Forall_cons in Hsp as [Ho Hos]. cbn [sum_list_with] in *.
  change (cache_run (o :: os) c) with (cache_run os (cache_step o c).1).
  pose proof (cache_step_refines o c Hwf) as Hs.
  destruct (cache_step o c) as [c' v']. destruct Hs as (Hwf' & Habs & Hcap' & _). cbn.
  replace (touches key o + sum_list_with (touches key) os + n)%nat
    with (sum_list_with (touches key) os + (touches key o + n))%nat by lia.
  apply IH; [done..|rewrite Hcap'; lia|].
  replace (cache_abs c') with (cache_abs c', v').1 by done. rewrite Habs.
  apply lru_step_held; [done|lia| |done].
  pose proof (cwf_len c Hwf). unfold list_Len in *. by rewrite cache_abs_length.
Qed.

(** ** The counters *)
Definition is_get (o : cache_call) : bool :=
  match o with CallGet _ _ => true | _ => false end.

Definition gets (os : list cache_call) : Z := Z.of_nat (length (List.filter is_get os)).

Definition hits (answers : list (option V)) : Z :=
  Z.of_nat (length (List.filter (fun v => match v with Some _ => true | None => false end) answers)).

Lemma InMemoryCache_purge_counters now es c :
  c_Hits (InMemoryCache_purge now es c) = c_Hits c /\
  c_Misses (InMemoryCache_purge now es c) = c_Misses c.
Proof.
  revert c. induction es as [|[e ci] es IH]; intros c; cbn [InMemoryCache_purge]; [done|].
  cbn zeta. destruct (item_expired now ci); [|apply IH].
  by destruct (IH ((cache_drop e (ci_key ci) c){{
    c_ExpiredCount := wrapu64 (c_ExpiredCount (cache_drop e (ci_key ci) c) + 1)}})) as [-> ->].
Qed.

Lemma cache_step_counters o c :
  cache_wf c ->
  let (c', v) := cache_step o c in
  (is_get o = false -> v = None /\ c_Hits c' = c_Hits c /\ c_Misses c' = c_Misses c) /\
  (is_get o = true ->
   match v with
   | Some _ => c_Hits c' = wrapu64 (c_Hits c + 1) /\ c_Misses c' = c_Misses c
   | None => c_Hits c' = c_Hits c /\ c_Misses c' = wrapu64 (c_Misses c + 1)
   end).
Proof.
  intros Hwf. destruct o as [now k|now k v ttl|k|now]; cbn.
  - unfold InMemoryCache_Get. destruct (c_items c !! k) as [e|] eqn:Hk; [|done].
    destruct (cache_lookup_Some c k e Hwf Hk) as (ci & -> & _). by destruct (item_expired now ci).
  - split; [intros _|done]. split; [done|].
    unfold InMemoryCache_Set, InMemoryCache_evict. destruct (c_items c !! k) as [e|]; cbn.
    + by destruct (list_Value e (c_ll c)).
    + destruct (_ <=? _); [|done]. by destruct (last (c_ll c)) as [[e ci]|].
  - split; [intros _|done]. split; [done|]. unfold InMemoryCache_Delete. by destruct (c_items c !! k).
  - split; [intros _|done]. split; [done|]. unfold InMemoryCache_PurgeExpired.
    destruct (_ =? _); [done|]. apply InMemoryCache_purge_counters.
Qed.

Lemma wrapu64_add_l a b : wrapu64 (wrapu64 a + b) = wrapu64 (a + b).
Proof. unfold wrapu64. by rewrite Zplus_mod_idemp_l. Qed.

Lemma cache_run_counters os c h m :
  cache_wf c -> c_Hits c = wrapu64 h -> c_Misses c = wrapu64 m ->
  c_Hits (cache_run os c) = wrapu64 (h + hits (cache_answers os c)) /\
  c_Misses (cache_run os c) = wrapu64 (m + (gets os - hits (cache_answers os c))).
Proof.
  unfold gets, hits. revert c h m.
  induction os as [|o os IH]; intros c h m Hwf Hh Hm; cbn [cache_answers].
  - cbn. by rewrite Z.add_0_r, Z.add_0_r, Hh, Hm.
  - change (cache_run (o :: os) c) with (cache_run os (cache_step o c).1).
    pose proof (cache_step_refines o c Hwf) as Hs. pose proof (cache_step_counters o c Hwf) as Hc.
    destruct (cache_step o c) as [c' v]. destruct Hs as (Hwf' & _). destruct Hc as [Hno Hyes].
    cbn [fst List.filter]. destruct (is_get o); [specialize (Hyes eq_refl); clear Hno|].
    + destruct v as [v|]; destruct Hyes as [Hh' Hm'].
      * destruct (IH c' (h + 1) m) as [-> ->]; [done|by rewrite Hh', Hh, wrapu64_add_l|by rewrite Hm'|].
        cbn [length]. split; f_equal; lia.
      * destruct (IH c' h (m + 1)) as [-> ->]; [done|by rewrite Hh'|by rewrite Hm', Hm, wrapu64_add_l|].
        cbn [length]. split; f_equal; lia.
    + destruct (Hno eq_refl) as (-> & Hh' & Hm').
      destruct (IH c' h m) as [-> ->]; [done|by rewrite Hh'|by rewrite Hm'|]. done.
Qed.

(** ** What the cache promises *)

(** C3: For every schedule of calls, and the clock readings they make, the pointer
    structure answers exactly as the list specification does (an LRU list of entries
    with deadlines, without map or pointers) and represents that list at the end; in
    particular the map and the list never disagree. *)
Theorem InMemoryCache_refines_lru capacity ttl os :
  let c := NewInMemoryCache capacity ttl in
  cache_answers os c = lru_answers (c_capacity c) ttl os [] /\
  cache_abs (cache_run os c) = lru_run (c_capacity c) ttl os [] /\
  cache_wf (cache_run os c).
Proof.
  cbn zeta. destruct (cache_run_refines os _ (NewInMemoryCache_wf capacity ttl))
    as (? & ? & ? & _). done.
Qed.

(** C24: A value that Get returns is the one of the last write to that key, no Delete
    of the key came after that write, and its deadline has not passed: the cache never
    serves a stale, deleted or expired value, whatever it evicted in between. *)
Theorem InMemoryCache_Get_sound capacity ttl os now key v :
  (InMemoryCache_Get now key (cache_run os (NewInMemoryCache capacity ttl))).2 = Some v ->
  exists deadline, latest ttl key os = Some (v, deadline) /\ live now deadline.
Proof.
  intros Hg. pose proof (NewInMemoryCache_wf capacity ttl) as Hwf.
  destruct (cache_run_refines os _ Hwf) as (Hwf' & _ & Habs & _).
  pose proof (InMemoryCache_Get_refines now key _ Hwf') as Hr.
  destruct (InMemoryCache_Get now key _) as [c' v']. destruct Hr as [_ Hr]. cbn in Hg. subst v'.
  apply (f_equal snd) in Hr. cbn [snd] in Hr. symmetry in Hr.
  apply lru_get_hit in Hr as (en & _ & <- & Hin & <- & Hlive).
  exists (en_expireAt en). split; [|done]. rewrite Habs in Hin. by apply lru_run_latest in Hin.
Qed.

(** C23: The retention guarantee: after a Set, the key is served with that value until
    its deadline as long as fewer than [capacity] Gets and Sets of other keys come in
    between (and no other write of the key). *)
Theorem InMemoryCache_retention capacity ttl before now key v ttl' os now' :
  let c := cache_run before (NewInMemoryCache capacity ttl) in
  let deadline := write_deadline ttl now ttl' in
  Forall (spares key deadline) os ->
  Z.of_nat (total_touches key os) < c_capacity (NewInMemoryCache capacity ttl) ->
  live now' deadline ->
  (InMemoryCache_Get now' key (cache_run os (InMemoryCache_Set now key v ttl' c).1)).2 = Some v.
Proof.
  intros c d Hsp Hcap Hlive.
  destruct (cache_run_refines before _ (NewInMemoryCache_wf capacity ttl))
    as (Hwf & _ & _ & Hc & Httl).
  fold c in Hwf, Hc, Httl. clearbody c.
  pose proof (cache_step_refines (CallSet now key v ttl') c Hwf) as Hs. cbn in Hs.
  destruct Hs as (Hwf1 & Habs1 & Hc1 & _). rewrite Httl in Habs1. cbn [c_defaultTTL] in Habs1.
  set (c1 := (InMemoryCache_Set now key v ttl' c).1) in *. clearbody c1.
  injection Habs1 as Habs1.
  assert (Hh : held key v d (total_touches key os + 0) (cache_abs (cache_run os c1))).
  { apply cache_run_held; [done|done|rewrite Hc1, Hc; lia|]. rewrite Habs1. apply held_set.
    rewrite cache_abs_keys. apply Hwf. }
  destruct (cache_run_refines os c1 Hwf1) as (Hwf2 & _).
  pose proof (InMemoryCache_Get_refines now' key _ Hwf2) as Hr.
  destruct (InMemoryCache_Get now' key _) as [c' v']. destruct Hr as [_ Hr].
  apply (f_equal snd) in Hr. cbn [snd] in *. subst v'. unfold lru_get.
  by rewrite (held_find _ _ _ _ _ Hh), (proj2 (en_expired_live now' (mkEntry key v d)) Hlive).
Qed.

(** The counters and the bound: whatever the calls, the cache holds at most its
    capacity, the hit counter is the number of Gets that returned a value, and hits and
    misses together count the Gets, all modulo 2^64. *)
Theorem InMemoryCache_Stats_exact capacity ttl os :
  let c := NewInMemoryCache capacity ttl in
  let st := InMemoryCache_Stats (cache_run os c) in
  st_Capacity st = (if capacity <=? 0 then 1024 else capacity) /\
  0 <= st_Items st <= st_Capacity st /\
  st_Hits st = wrapu64 (hits (cache_answers os c)) /\
  st_Misses st = wrapu64 (gets os - hits (cache_answers os c)).
Proof.
  cbn zeta. pose proof (NewInMemoryCache_wf capacity ttl) as Hwf.
  destruct (cache_run_counters os _ 0 0 Hwf) as [Hh Hm]; [done..|].
  destruct (cache_run_refines os _ Hwf) as (Hwf' & _ & _ & Hc & _).
  split_and!; [exact Hc|cbn; unfold list_Len; lia|apply Hwf'|exact Hh|exact Hm].
Qed.

(** ** The interface that clients rely on

    What a [Cache] promises to a client, without its representation: an invariant
    that the calls preserve, and what one call reveals about the calls before it. *)
Class LawfulCache (C W : Type) `{Cache C W} : Type := {
  cache_inv : C -> Prop;
  law_Get_inv now k c : cache_inv c -> cache_inv (Cache_Get now k c).1;
  law_Set_inv now k v ttl c : cache_inv c -> cache_inv (Cache_Set now k v ttl c).1;
  (** a value set with a positive ttl is served until then *)
  law_Set_Get now k v ttl c now' :
    cache_inv c -> 0 < ttl -> now' <= now + ttl ->
    (Cache_Get now' k (Cache_Set now k v ttl c).1).2 = Some v;
  (** serving a value does not make it disappear *)
  law_Get_Get now k c v :
    cache_inv c -> (Cache_Get now k c).2 = Some v ->
    (Cache_Get now k (Cache_Get now k c).1).2 = Some v;
  (** a call about another key reveals nothing new *)
  law_Get_other now k c now' k' v :
    cache_inv c -> k' <> k -> (Cache_Get now' k' (Cache_Get now k c).1).2 = Some v ->
    (Cache_Get now' k' c).2 = Some v;
  law_Set_other now k w ttl c now' k' v :
    cache_inv c -> k' <> k -> (Cache_Get now' k' (Cache_Set now k w ttl c).1).2 = Some v ->
    (Cache_Get now' k' c).2 = Some v;
}.

(** What Get answers is a function of the abstract list. *)
Lemma InMemoryCache_Get_answer now k c :
  cache_wf c -> (InMemoryCache_Get now k c).2 = (lru_get now k (cache_abs c)).2.
Proof.
  intros Hwf. pose proof (InMemoryCache_Get_refines now k c Hwf) as Hr.
  destruct (InMemoryCache_Get now k c). destruct Hr as [_ <-]. done.
Qed.

Lemma lru_get_answer now k l v :
  NoDup (map en_key l) ->
  (lru_get now k l).2 = Some v <->
  exists d, mkEntry k v d ∈ l /\ live now d.
Proof.
  intros Hnd. split.
  - intros (en & _ & <- & Hin & <- & Hlive)%lru_get_hit. exists (en_expireAt en). by destruct en.
  - intros (d & Hin & Hlive). unfold lru_get.
    rewrite (proj2 (lru_find_elem k l (mkEntry k v d) Hnd)) by done.
    by rewrite (proj2 (en_expired_live now (mkEntry k v d)) Hlive).
Qed.

Lemma cache_abs_NoDup c : cache_wf c -> NoDup (map en_key (cache_abs c)).
Proof. intros Hwf. rewrite cache_abs_keys. apply Hwf. Qed.

Lemma InMemoryCache_Get_live now k c v :
  cache_wf c ->
  (InMemoryCache_Get now k c).2 = Some v <-> exists d, mkEntry k v d ∈ cache_abs c /\ live now d.
Proof.
  intros Hwf. rewrite InMemoryCache_Get_answer by done. by apply lru_get_answer, cache_abs_NoDup.
Qed.

(** The entries after a Get or a Set, of other keys and of the key itself. *)
Lemma InMemoryCache_Get_entries now k c en :
  cache_wf c -> en ∈ cache_abs (InMemoryCache_Get now k c).1 -> en ∈ cache_abs c.
Proof.
  intros Hwf. pose proof (InMemoryCache_Get_refines now k c Hwf) as Hr.
  destruct (InMemoryCache_Get now k c) as [c' v]. destruct Hr as [_ Hr].
  apply (f_equal fst) in Hr. cbn in *. rewrite Hr. unfold lru_get.
  destruct (lru_find k (cache_abs c)) as [en'|] eqn:Hf; [|done].
  apply List.find_some in Hf as [Hin _]. apply list_elem_of_In in Hin.
  destruct (en_expired now en'); cbn; rewrite ?elem_of_cons, elem_of_lru_remove; intuition (subst; auto).
Qed.

Lemma InMemoryCache_Set_entries now k v ttl c en :
  cache_wf c -> en ∈ cache_abs (InMemoryCache_Set now k v ttl c).1 ->
  en_key en <> k -> en ∈ cache_abs c.
Proof.
  intros Hwf. pose proof (InMemoryCache_Set_refines now k v ttl c Hwf) as Hr.
  destruct (InMemoryCache_Set now k v ttl c) as [c' ok]. destruct Hr as (_ & _ & Hr).
  cbn. rewrite Hr. unfold lru_set.
  destruct (lru_find k (cache_abs c)); rewrite elem_of_cons, ?elem_of_lru_remove.
  - intros [->|[? _]] Hne; [done|done].
  - intros [->|Hin] Hne; [done|]. revert Hin. split_ifs; [apply elem_of_removelast|done].
Qed.

(** The in-memory cache keeps the promises. *)
#[export] Program Instance InMemoryCache_Lawful : LawfulCache InMemoryCache V := {
  cache_inv := cache_wf;
}.
Next Obligation.
  intros now k c Hwf. cbn. pose proof (InMemoryCache_Get_refines now k c Hwf) as Hr.
  destruct (InMemoryCache_Get now k c). by destruct Hr.
Qed.
Next Obligation.
  intros now k v ttl c Hwf. cbn. pose proof (InMemoryCache_Set_refines now k v ttl c Hwf) as Hr.
  destruct (InMemoryCache_Set now k v ttl c). by destruct Hr.
Qed.
Next Obligation.
  intros now k v ttl c now' Hwf Httl Hnow. cbn.
  pose proof (InMemoryCache_Set_refines now k v ttl c Hwf) as Hr.
  destruct (InMemoryCache_Set now k v ttl c) as [c' ok]. destruct Hr as (Hwf' & _ & Habs). cbn.
  rewrite InMemoryCache_effectiveExpire_spec in Habs.
  rewrite (proj2 (Z.ltb_lt 0 ttl) Httl) in Habs. cbn in Habs.
  rewrite (proj2 (Z.ltb_lt 0 ttl) Httl) in Habs.
  apply InMemoryCache_Get_live; [done|]. exists (now + ttl). split; [|by right].
  rewrite Habs. unfold lru_set. destruct (lru_find k (cache_abs c)); apply elem_of_cons; by left.
Qed.
Next Obligation.
  intros now k c v Hwf Hg. cbn in *. pose proof (InMemoryCache_Get_refines now k c Hwf) as Hr.
  pose proof Hg as (d & Hin & Hlive)%InMemoryCache_Get_live; [|done].
  destruct (InMemoryCache_Get now k c) as [c' v']. destruct Hr as [Hwf' Hr].
  apply (f_equal fst) in Hr. cbn in *.
  apply InMemoryCache_Get_live; [done|]. exists d. split; [|done]. rewrite Hr. unfold lru_get.
  rewrite (proj2 (lru_find_elem k _ (mkEntry k v d) (cache_abs_NoDup c Hwf))) by done.
  rewrite (proj2 (en_expired_live now (mkEntry k v d)) Hlive). apply elem_of_cons. by left.
Qed.
Next Obligation.
  intros now k c now' k' v Hwf Hne. cbn. pose proof (InMemoryCache_Get_refines now k c Hwf) as Hr.
  rewrite !InMemoryCache_Get_live by (try done; destruct (InMemoryCache_Get now k c); by destruct Hr).
  intros (d & Hin & Hlive). exists d. split; [|done]. by eapply InMemoryCache_Get_entries.
Qed.
Next Obligation.
  intros now k w ttl c now' k' v Hwf Hne. cbn.
  pose proof (InMemoryCache_Set_refines now k w ttl c Hwf) as Hr.
  rewrite !InMemoryCache_Get_live by (try done; destruct (InMemoryCache_Set now k w ttl c); by destruct Hr).
  intros (d & Hin & Hlive). exists d. split; [|done]. by eapply InMemoryCache_Set_entries.
Qed.

End Cache.

Arguments cacheItem V : clear implicits.
Arguments InMemoryCache V : clear implicits.
Arguments lru_entry V : clear implicits.
Arguments cache_call V : clear implicits.

(** ** The hypotheses can hold *)
Lemma InMemoryCache_Get_sound_witness :
  exists deadline,
    latest 0 "a" [CallSet 5 "a" 1 10; CallGet 6 "a"; CallSet 7 "b" 2 0] = Some (1, deadline) /\
    live 12 deadline.
Proof.
  apply (InMemoryCache_Get_sound 2 0 [CallSet 5 "a" 1 10; CallGet 6 "a"; CallSet 7 "b" 2 0] 12 "a" 1).
  reflexivity.
Defined.

Lemma InMemoryCache_retention_witness :
  (InMemoryCache_Get 14 "a"
     (cache_run [CallSet 7 "b" 2 0; CallGet 8 "a"; CallPurge 9]
        (InMemoryCache_Set 5 "a" 1 10
           (cache_run [CallSet 1 "c" 3 0] (NewInMemoryCache 2 0))).1)).2 = Some 1.
Proof.
  apply (InMemoryCache_retention 2 0 [CallSet 1 "c" 3 0] 5 "a" 1 10
           [CallSet 7 "b" 2 0; CallGet 8 "a"; CallPurge 9] 14).
  - rewrite !Forall_cons, Forall_nil. cbn. split_and!; [done|intros _; by right|by right|done].
  - reflexivity.
  - by right.
Defined.

(** Outside the guarantee: two other keys push "a" out of a cache of two. *)
Example retention_boundary :
  (InMemoryCache_Get 8 "a"
     (cache_run [CallSet 5 "a" 1 10; CallSet 6 "b" 2 10; CallSet 7 "c" 3 10]
        (NewInMemoryCache 2 0))).2 = None.
Proof. reflexivity. Qed.
