(* ===== verification/StmtCache.v ===== *)
(** * The prepared-statement cache (db.go, [PreparedStatementCache])

    A map from query text to statement.  A [*sql.Stmt] is a handle; closing one is
    reported by the operation that does it.  [range] over a Go map starts at a key
    the language leaves open: the first key is the parameter [first_key]. *)
From S2P Require Import Prelude.
Local Open Scope Z_scope.

(** [DBAdvancedConfig] (db.go), read by the three constructors below it. *)
Record DBAdvancedConfig : Type := mkDBAdvancedConfig {
  dc_StmtCacheSize : Z;
  dc_SlowQueryThreshold : Z;
  dc_QueryTimeout : Z;
  dc_MaxRetries : Z;
  dc_RetryBackoff : Z;
}.

Definition Stmt : Type := nat.

Record PreparedStatementCache : Type := mkPreparedStatementCache {
  psc_cache : gmap string Stmt;
  psc_maxSize : Z;
}.

Definition NewPreparedStatementCache (config : option DBAdvancedConfig) : PreparedStatementCache :=
  let maxSize :=
    match config with
    | Some config => if 0 <? dc_StmtCacheSize config then dc_StmtCacheSize config else 100
    | None => 100
    end in
  mkPreparedStatementCache ∅ maxSize.

(** [None]: the nil statement. *)
Definition PreparedStatementCache_Get (query : string) (psc : PreparedStatementCache)
    : option Stmt :=
  psc_cache psc !! query.

(** The new cache and the statements closed, in the order of [range]. *)
Definition PreparedStatementCache_Clear (psc : PreparedStatementCache)
    : PreparedStatementCache * list Stmt :=
  (psc{{psc_cache := ∅}}, (map_to_list (psc_cache psc)).*2).

Section StmtCache.
(** The key [range] meets first; none in an empty map. *)
Context (first_key : gmap string Stmt -> option string).

Definition PreparedStatementCache_Put (query : string) (stmt : Stmt)
    (psc : PreparedStatementCache) : PreparedStatementCache :=
  let psc :=
    if psc_maxSize psc <=? Z.of_nat (size (psc_cache psc)) then
      match first_key (psc_cache psc) with
      | Some k => psc{{psc_cache := delete k (psc_cache psc)}}
      | None => psc
      end
    else psc in
  psc{{psc_cache := <[query := stmt]> (psc_cache psc)}}.

(** A sequence of Puts. *)
Definition puts (ps : list (string * Stmt)) : PreparedStatementCache -> PreparedStatementCache :=
  run (fun p => PreparedStatementCache_Put p.1 p.2) ps.

Definition psc_wf (psc : PreparedStatementCache) : Prop :=
  0 < psc_maxSize psc /\ Z.of_nat (size (psc_cache psc)) <= psc_maxSize psc.

(** What the language promises about the first key. *)
Definition first_key_ok : Prop :=
  forall m, match first_key m with Some k => is_Some (m !! k) | None => m = ∅ end.

Lemma NewPreparedStatementCache_wf config : psc_wf (NewPreparedStatementCache config).
Proof.
  unfold psc_wf, NewPreparedStatementCache. cbn. rewrite map_size_empty. cbn.
  destruct config as [c|]; [|lia]. destruct (Z.ltb_spec 0 (dc_StmtCacheSize c)); lia.
Qed.

Context (Hfirst : first_key_ok).

(** The map just before the new pair goes in. *)
Lemma Put_room query stmt psc :
  psc_wf psc ->
  exists m, psc_cache (PreparedStatementCache_Put query stmt psc) = <[query := stmt]> m /\
    psc_maxSize (PreparedStatementCache_Put query stmt psc) = psc_maxSize psc /\
    m ⊆ psc_cache psc /\
    Z.of_nat (size m) = Z.min (Z.of_nat (size (psc_cache psc))) (psc_maxSize psc - 1).
Proof.
  destruct psc as [m max]. intros [Hpos Hsz]. unfold PreparedStatementCache_Put. cbn in *.
  destruct (Z.leb_spec max (Z.of_nat (size m))).
  - pose proof (Hfirst m) as Hk. destruct (first_key m) as [k|].
    + exists (delete k m). cbn. split_and!; [done|done|apply delete_subseteq|].
      rewrite map_size_delete_Some by done. lia.
    + subst m. rewrite map_size_empty in *. lia.
  - exists m. cbn. split_and!; [done..|lia].
Qed.

Lemma Put_wf query stmt psc : psc_wf psc -> psc_wf (PreparedStatementCache_Put query stmt psc).
Proof.
  intros Hwf. destruct (Put_room query stmt psc Hwf) as (m & Hm & Hmax & _ & Hsz).
  destruct Hwf. split; [lia|]. rewrite Hm, Hmax.
  destruct (m !! query) eqn:Hq.
  - rewrite map_size_insert_Some by eauto. lia.
  - rewrite map_size_insert_None by done. lia.
Qed.

Lemma Put_dom query stmt psc q :
  psc_wf psc -> is_Some (psc_cache (PreparedStatementCache_Put query stmt psc) !! q) ->
  q = query \/ is_Some (psc_cache psc !! q).
Proof.
  intros Hwf. destruct (Put_room query stmt psc Hwf) as (m & Hm & _ & Hsub & _).
  rewrite Hm. intros [s [[? _]|[_ Hs]]%lookup_insert_Some]; [by left|]. right.
  exists s. by eapply lookup_weaken.
Qed.

Lemma puts_size ps psc :
  psc_wf psc -> NoDup ps.*1 -> (forall q, q ∈ ps.*1 -> psc_cache psc !! q = None) ->
  psc_wf (puts ps psc) /\ psc_maxSize (puts ps psc) = psc_maxSize psc /\
  Z.of_nat (size (psc_cache (puts ps psc))) =
    Z.min (psc_maxSize psc) (Z.of_nat (size (psc_cache psc)) + Z.of_nat (length ps)).
Proof.
  unfold puts. revert psc. induction ps as [|[q s] ps IH]; intros psc Hwf Hnd Hfresh.
  { destruct Hwf. split_and!; [done..|]. cbn. lia. }
  rewrite run_cons. cbn [fst snd fmap list_fmap] in *. apply NoDup_cons in Hnd as [Hq Hnd].
  destruct (Put_room q s psc Hwf) as (m & Hm & Hmax & Hsub & Hsz).
  destruct (IH (PreparedStatementCache_Put q s psc)) as (Hwf' & Hmax' & Hsize); [by apply Put_wf|done| |].
  - intros q' Hin. apply eq_None_not_Some. intros [->|[s' Hs']]%Put_dom; [done| |done].
    by rewrite Hfresh in Hs' by (apply elem_of_cons; by right).
  - split_and!; [done|by rewrite Hmax'|]. rewrite Hsize, Hmax, Hm.
    rewrite map_size_insert_None; [cbn; destruct Hwf; lia|].
    destruct (m !! q) eqn:Hmq; [|done]. exfalso.
    apply (lookup_weaken _ _ _ _ Hmq) in Hsub. rewrite Hfresh in Hsub; [done|].
    apply elem_of_cons. by left.
Qed.

(** The cache is a bounded map: whatever was prepared before, and whichever key
    the eviction picks, it never holds more than maxSize statements, a statement is
    found again right after it was put, and a Put changes no other query's statement
    (it can only evict it). *)
Theorem PreparedStatementCache_bounded_map ps config query stmt :
  let psc := puts ps (NewPreparedStatementCache config) in
  let psc' := PreparedStatementCache_Put query stmt psc in
  Z.of_nat (size (psc_cache psc')) <= psc_maxSize (NewPreparedStatementCache config) /\
  PreparedStatementCache_Get query psc' = Some stmt /\
  (forall q s, PreparedStatementCache_Get q psc' = Some s -> q <> query ->
     PreparedStatementCache_Get q psc = Some s).
Proof.
  cbn zeta. pose proof (NewPreparedStatementCache_wf config) as Hwf0.
  set (psc0 := NewPreparedStatementCache config) in *. clearbody psc0.
  assert (Hi : psc_wf (puts ps psc0) /\ psc_maxSize (puts ps psc0) = psc_maxSize psc0).
  { apply (run_invariant _ (fun psc => psc_wf psc /\ psc_maxSize psc = psc_maxSize psc0)); [|done].
    intros [q s] psc [Hwf Hmax]. split; [by apply Put_wf|].
    cbn [fst snd]. destruct (Put_room q s psc Hwf) as (m & _ & -> & _). done. }
  destruct Hi as [Hwf Hmax]. set (psc := puts ps psc0) in *. clearbody psc.
  destruct (Put_room query stmt psc Hwf) as (m & Hm & Hmax' & Hsub & _).
  destruct (Put_wf query stmt psc Hwf) as [_ Hb]. split_and!.
  - lia.
  - unfold PreparedStatementCache_Get. rewrite Hm. apply lookup_insert_eq.
  - intros q s. unfold PreparedStatementCache_Get. rewrite Hm.
    intros [[? _]|[_ Hs]]%lookup_insert_Some Hne; [by subst|]. by eapply lookup_weaken.
Qed.

(** Statements leak: when n statements for distinct queries go through the cache,
    Clear (which is what Disconnect calls) closes only the min(n, maxSize) that are
    still cached; an evicted statement is closed by nobody. *)
Theorem PreparedStatementCache_Clear_closes ps config :
  NoDup ps.*1 ->
  let psc := puts ps (NewPreparedStatementCache config) in
  Z.of_nat (length (PreparedStatementCache_Clear psc).2) =
    Z.min (psc_maxSize psc) (Z.of_nat (length ps)) /\
  (PreparedStatementCache_Clear psc).1 = mkPreparedStatementCache ∅ (psc_maxSize psc).
Proof.
  intros Hnd. cbn zeta.
  destruct (puts_size ps (NewPreparedStatementCache config)) as (_ & Hmax & Hsz);
    [apply NewPreparedStatementCache_wf|done|done|].
  cbn [PreparedStatementCache_Clear fst snd].
  split; [|by destruct (puts ps (NewPreparedStatementCache config))].
  rewrite length_fmap, length_map_to_list, Hmax, Hsz.
  unfold NewPreparedStatementCache at 2. cbn. rewrite map_size_empty. lia.
Qed.

End StmtCache.

(** ** The hypotheses can hold *)
Definition first_key_example (m : gmap string Stmt) : option string :=
  match map_to_list m with (k, _) :: _ => Some k | [] => None end.

Lemma first_key_example_ok : first_key_ok first_key_example.
Proof.
  intros m. unfold first_key_example. destruct (map_to_list m) as [|[k s] l] eqn:He.
  - by apply map_to_list_empty_iff.
  - exists s. apply elem_of_map_to_list. rewrite He. apply elem_of_cons. by left.
Qed.

Definition stmt_example_config : DBAdvancedConfig := mkDBAdvancedConfig 2 0 0 0 0.

Definition stmt_example_puts : list (string * Stmt) :=
  [("SELECT 1", 0); ("SELECT 2", 1); ("SELECT 3", 2)]%nat.

Lemma PreparedStatementCache_bounded_map_witness :
  PreparedStatementCache_Get "SELECT 4"
    (PreparedStatementCache_Put first_key_example "SELECT 4" 3%nat
       (puts first_key_example stmt_example_puts
          (NewPreparedStatementCache (Some stmt_example_config)))) = Some 3%nat.
Proof.
  apply (PreparedStatementCache_bounded_map first_key_example first_key_example_ok
           stmt_example_puts (Some stmt_example_config) "SELECT 4" 3%nat).
Defined.

(** Three statements prepared, two closed. *)
Lemma PreparedStatementCache_Clear_closes_witness :
  Z.of_nat (length (PreparedStatementCache_Clear
    (puts first_key_example stmt_example_puts
       (NewPreparedStatementCache (Some stmt_example_config)))).2) = 2.
Proof.
  apply (PreparedStatementCache_Clear_closes first_key_example first_key_example_ok
           stmt_example_puts (Some stmt_example_config)).
  apply (bool_decide_unpack _). vm_compute. exact I.
Defined.

(** Putting a query that is already cached, in a full cache, can evict a
    different one: the cache gets smaller. *)
Example Put_present_evicts :
  size (psc_cache (PreparedStatementCache_Put (fun _ => Some "SELECT 1"%string) "SELECT 2" 7%nat
    (mkPreparedStatementCache {["SELECT 1" := 0; "SELECT 2" := 1]}%nat 2))) = 1%nat.
Proof. reflexivity. Qed.
