(* ===== verification/Metrics.v ===== *)
(** * Query metrics (db.go, [DBMetrics] and [MetricsStats])

    Counters updated with atomic adds, each an [int64] that wraps. *)
From S2P Require Import Prelude.
From S2P Require Import Errors.
From S2P Require Import GoFloat.
From S2P Require Import StmtCache.
Local Open Scope Z_scope.

Record DBMetrics : Type := mkDBMetrics {
  m_TotalQueries : Z;
  m_SuccessfulQueries : Z;
  m_FailedQueries : Z;
  m_TotalQueryTime : Z;
  m_SlowQueries : Z;
  m_SlowQueryThreshold : Z;
}.

Record MetricsStats : Type := mkMetricsStats {
  ms_TotalQueries : Z;
  ms_SuccessfulQueries : Z;
  ms_FailedQueries : Z;
  ms_AverageQueryTime : Z;
  ms_SlowQueries : Z;
  ms_SuccessRate : float64;
}.

Definition NewDBMetrics (config : option DBAdvancedConfig) : DBMetrics :=
  let threshold :=
    match config with
    | Some config => if 0 <? dc_SlowQueryThreshold config then dc_SlowQueryThreshold config else Second
    | None => Second
    end in
  mkDBMetrics 0 0 0 0 0 threshold.

Definition DBMetrics_RecordQuery (duration : Z) (err : option error) (m : DBMetrics) : DBMetrics :=
  let m := m{{m_TotalQueries := wrap64 (m_TotalQueries m + 1);
              m_TotalQueryTime := wrap64 (m_TotalQueryTime m + duration)}} in
  let m := match err with
           | Some _ => m{{m_FailedQueries := wrap64 (m_FailedQueries m + 1)}}
           | None => m{{m_SuccessfulQueries := wrap64 (m_SuccessfulQueries m + 1)}}
           end in
  if m_SlowQueryThreshold m <? duration
  then m{{m_SlowQueries := wrap64 (m_SlowQueries m + 1)}} else m.

Definition DBMetrics_GetStats (m : DBMetrics) : MetricsStats :=
  let total := m_TotalQueries m in
  let avgTime := if 0 <? total then Z.quot (m_TotalQueryTime m) total else 0 in
  mkMetricsStats total (m_SuccessfulQueries m) (m_FailedQueries m) avgTime (m_SlowQueries m)
    (f64_mul (f64_div (f64_of_Z (m_SuccessfulQueries m)) (f64_of_Z total)) (f64_of_Z 100)).

(** [MetricsStats{}]: the zero value. *)
Definition MetricsStats_zero : MetricsStats := mkMetricsStats 0 0 0 0 0 (SpecFloat.S754_zero false).

(** ** What was recorded *)
Definition records : list (Z * option error) -> DBMetrics -> DBMetrics :=
  run (fun q => DBMetrics_RecordQuery q.1 q.2).

Definition count (P : Z * option error -> bool) (qs : list (Z * option error)) : Z :=
  Z.of_nat (length (List.filter P qs)).

Definition failed (q : Z * option error) : bool := match q.2 with Some _ => true | None => false end.
Definition total_time (qs : list (Z * option error)) : Z := foldr (fun q t => q.1 + t) 0 qs.

Lemma count_cons P q qs : count P (q :: qs) = (if P q then 1 else 0) + count P qs.
Proof. unfold count. cbn. destruct (P q); cbn [length]; lia. Qed.

Lemma count_bound P qs : 0 <= count P qs <= Z.of_nat (length qs).
Proof. induction qs; [done|]. rewrite count_cons. cbn [length]. destruct (P _); lia. Qed.

Lemma count_split P qs :
  count P qs + count (fun q => negb (P q)) qs = Z.of_nat (length qs).
Proof. induction qs; [done|]. rewrite !count_cons. cbn [length]. destruct (P _); cbn; lia. Qed.

Lemma wrap64_congr a b c : wrap64 a = wrap64 b -> wrap64 (a + c) = wrap64 (b + c).
Proof. intros H. by rewrite <- (wrap64_wrap_l a), H, wrap64_wrap_l. Qed.

Lemma RecordQuery_threshold d e m :
  m_SlowQueryThreshold (DBMetrics_RecordQuery d e m) = m_SlowQueryThreshold m.
Proof. destruct m, e; unfold DBMetrics_RecordQuery; cbn; by destruct (_ <? d)%Z. Qed.

(** Every counter is the number of recorded queries of its kind, modulo 2^64. *)
Lemma records_counters qs m :
  (forall z, z ∈ [m_TotalQueries m; m_SuccessfulQueries m; m_FailedQueries m; m_TotalQueryTime m;
                  m_SlowQueries m] -> in_int64 z) ->
  records qs m = mkDBMetrics
    (wrap64 (m_TotalQueries m + Z.of_nat (length qs)))
    (wrap64 (m_SuccessfulQueries m + count (fun q => negb (failed q)) qs))
    (wrap64 (m_FailedQueries m + count failed qs))
    (wrap64 (m_TotalQueryTime m + total_time qs))
    (wrap64 (m_SlowQueries m + count (fun q => m_SlowQueryThreshold m <? q.1) qs))
    (m_SlowQueryThreshold m).
Proof.
  unfold records. revert m. induction qs as [|[d e] qs IH]; intros [t s f tt sl th] Hr.
  - cbn in *. rewrite !Z.add_0_r, !wrap64_id; [done|..];
      apply Hr; rewrite !elem_of_cons; auto 10.
  - rewrite run_cons, IH.
    + rewrite RecordQuery_threshold, !count_cons. unfold DBMetrics_RecordQuery, failed. cbn.
      destruct e as [e|]; cbn; destruct (th <? d); cbn; rewrite ?wrap64_wrap_l;
        fold (total_time qs); f_equal_lia.
    + intros z. unfold DBMetrics_RecordQuery. cbn.
      assert (Ht : in_int64 (wrap64 (t + 1))) by auto with fluxor.
      assert (in_int64 s /\ in_int64 f /\ in_int64 sl) as (? & ? & ?)
        by (split_and!; apply Hr; cbn; rewrite !elem_of_cons; auto 10).
      destruct e as [e|]; cbn; destruct (th <? d); cbn; rewrite !elem_of_cons, elem_of_nil;
        intros [->|[->|[->|[->|[->|[]]]]]]; auto with fluxor.
Qed.

(** The metrics are exact and independent of the order in which concurrent
    queries record themselves: as long as fewer than 2^63 were recorded, Total is
    their number, Successful and Failed partition it by the recorded error, Slow
    counts those strictly above the threshold. *)
Theorem DBMetrics_RecordQuery_exact config qs qs' :
  qs ≡ₚ qs' -> Z.of_nat (length qs) <= int64_max ->
  let m := records qs (NewDBMetrics config) in
  m_TotalQueries m = Z.of_nat (length qs) /\
  m_SuccessfulQueries m + m_FailedQueries m = m_TotalQueries m /\
  m_FailedQueries m = count failed qs /\
  m_SlowQueries m = count (fun q => m_SlowQueryThreshold (NewDBMetrics config) <? q.1) qs /\
  records qs' (NewDBMetrics config) = m.
Proof.
  intros Hp Hlen. cbn zeta.
  assert (H0 : forall z, z ∈ [m_TotalQueries (NewDBMetrics config);
    m_SuccessfulQueries (NewDBMetrics config); m_FailedQueries (NewDBMetrics config);
    m_TotalQueryTime (NewDBMetrics config); m_SlowQueries (NewDBMetrics config)] -> in_int64 z).
  { intros z. cbn. rewrite !elem_of_cons, elem_of_nil.
    intros [->|[->|[->|[->|[->|[]]]]]]; by vm_compute. }
  rewrite (records_counters qs _ H0), (records_counters qs' _ H0). cbn.
  pose proof (count_bound failed qs). pose proof (count_split failed qs).
  pose proof (count_bound (fun q => negb (failed q)) qs).
  pose proof (count_bound (fun q => m_SlowQueryThreshold (NewDBMetrics config) <? q.1) qs) as Hslow.
  cbn in Hslow.
  assert (Hc : forall P, count P qs' = count P qs).
  { intros P. unfold count. f_equal. symmetry. apply Permutation_length.
    clear -Hp. induction Hp; cbn; split_ifs; eauto using perm_swap, Permutation_trans. }
  assert (Ht : total_time qs' = total_time qs).
  { clear -Hp. unfold total_time. induction Hp; cbn [foldr]; lia. }
  rewrite !Hc, Ht, <- Hp.
  split_and!; [| | | |done]; rewrite ?wrap64_id by solve_int64; lia.
Qed.

(** The reported average: with durations between [lo] and [hi] and a total that
    fits an int64, the average is between them; it is 0 before the first query. *)
Theorem DBMetrics_average_bounds config qs lo hi :
  (forall q, q ∈ qs -> lo <= q.1 <= hi) -> 0 <= lo ->
  Z.of_nat (length qs) <= int64_max -> total_time qs <= int64_max ->
  let avg := ms_AverageQueryTime (DBMetrics_GetStats (records qs (NewDBMetrics config))) in
  (qs = [] -> avg = 0) /\ (qs <> [] -> lo <= avg <= hi).
Proof.
  intros Hd Hlo Hlen Htot. cbn zeta. rewrite records_counters; cycle 1.
  { intros z. cbn. rewrite !elem_of_cons, elem_of_nil.
    intros [->|[->|[->|[->|[->|[]]]]]]; by vm_compute. }
  assert (Hb : lo * Z.of_nat (length qs) <= total_time qs <= hi * Z.of_nat (length qs)).
  { clear -Hd. induction qs as [|q qs IH]; [cbn; lia|]. cbn [length total_time foldr].
    fold (total_time qs). destruct IH; [intros q' Hin; apply Hd, elem_of_cons; by right|].
    specialize (Hd q ltac:(apply elem_of_cons; by left)). lia. }
  unfold DBMetrics_GetStats. cbn. rewrite !Z.add_0_l, !wrap64_id by solve_int64. split.
  - by intros ->.
  - intros Hne. destruct (Z.ltb_spec 0 (Z.of_nat (length qs))); [|destruct qs; cbn in *; done || lia].
    rewrite Z.quot_div_nonneg by lia. split.
    + apply Z.div_le_lower_bound; lia.
    + apply Z.div_le_upper_bound; lia.
Qed.

(** Before any query the success rate is 0/0: not a number. *)
Example SuccessRate_nan config :
  ms_SuccessRate (DBMetrics_GetStats (NewDBMetrics config)) = SpecFloat.S754_nan.
Proof. reflexivity. Qed.

(** ** The hypotheses can hold *)
Definition metrics_example : list (Z * option error) :=
  [(5, None); (2 * Second, Some Canceled); (7, None)].

Lemma DBMetrics_RecordQuery_exact_witness :
  m_FailedQueries (records (rev metrics_example) (NewDBMetrics None)) = 1.
Proof.
  pose proof (DBMetrics_RecordQuery_exact None metrics_example (rev metrics_example)
    (Permutation_rev metrics_example)) as H.
  destruct H as (_ & _ & Hf & _ & He); [vm_compute; discriminate|].
  rewrite He, Hf. reflexivity.
Defined.

Lemma DBMetrics_average_bounds_witness :
  5 <= ms_AverageQueryTime (DBMetrics_GetStats (records metrics_example (NewDBMetrics None)))
    <= 2 * Second.
Proof.
  apply (DBMetrics_average_bounds None metrics_example 5 (2 * Second)).
  - intros q. unfold metrics_example. rewrite !elem_of_cons, elem_of_nil.
    intros [->|[->|[->|[]]]]; split; vm_compute; discriminate.
  - lia.
  - vm_compute. discriminate.
  - vm_compute. discriminate.
  - discriminate.
Defined.
