(* ===== verification/Retry.v ===== *)
(** * Retrying (db.go, [RetryPolicy], [retryExec], [retryQuery]; utils.go, [WithRetry])

    The loops run on the state [W] of the world: [op] is one attempt (the driver
    call, or the caller's function) and [wait d] the [select] between the context
    and a timer of [d], which answers the context's error when that case fires.
    The loop [for attempt := 0; attempt <= MaxRetries; attempt++] walks the list of
    its attempt numbers. *)
From S2P Require Import Prelude.
From S2P Require Import Errors.
From S2P Require Import GoFloat.
From S2P Require Import StmtCache.
Local Open Scope Z_scope.

Record RetryPolicy : Type := mkRetryPolicy {
  rp_MaxRetries : Z;
  rp_InitialBackoff : Z;
  rp_MaxBackoff : Z;
  rp_BackoffMultiplier : float64;
  rp_RetryableErrors : list error;
}.

Definition NewRetryPolicy (config : option DBAdvancedConfig) : RetryPolicy :=
  let rp := mkRetryPolicy 3 (100 * Millisecond) (5 * Second) (f64_of_Z 2) [] in
  match config with
  | None => rp
  | Some config =>
      let rp := if 0 <? dc_MaxRetries config
                then rp{{rp_MaxRetries := dc_MaxRetries config}} else rp in
      if 0 <? dc_RetryBackoff config
      then rp{{rp_InitialBackoff := dc_RetryBackoff config}} else rp
  end.

Definition RetryPolicy_ShouldRetry (err : option error) (rp : RetryPolicy) : bool :=
  match err with
  | None => false
  | Some e =>
      existsb (fun retryableErr => bool_decide (e = retryableErr)) (rp_RetryableErrors rp) ||
      bool_decide (e = DeadlineExceeded) || bool_decide (e = Canceled)
  end.

(** [fmt.Errorf(pre + "%w", err)], also for the nil error. *)
Definition Errorf_w (pre : string) (err : option error) : error :=
  match err with
  | Some e => Wrapf pre e ""
  | None => Errorf (pre +:+ "%!w(<nil>)")
  end.

(** The numbers [attempt] takes. *)
Definition attempts (maxRetries : Z) : list Z := seqZ 0 (maxRetries + 1).

Section Retry.
Context (oor : float64 -> Z).
Context {W T : Type}.
Context (op : W -> W * result error T).
Context (wait : Z -> W -> W * option error).

(** The backoff after one that was waited. *)
Definition RetryPolicy_next (backoff : Z) (rp : RetryPolicy) : Z :=
  let backoff := Int64_of_float oor (f64_mul (f64_of_Z backoff) (rp_BackoffMultiplier rp)) in
  if rp_MaxBackoff rp <? backoff then rp_MaxBackoff rp else backoff.

(** The message after the loop; [verb] is "exec" or "query". *)
Definition retry_failed (verb : string) (rp : RetryPolicy) (lastErr : option error) : error :=
  Errorf_w (verb +:+ " failed after " +:+ pretty (wrap64 (rp_MaxRetries rp + 1)) +:+ " attempts: ")
    lastErr.

(** The body shared by [retryExec] and [retryQuery], from the given attempts on. *)
Fixpoint retry_loop (verb : string) (rp : RetryPolicy) (attempts : list Z) (backoff : Z)
    (lastErr : option error) (w : W) : W * result error T :=
  match attempts with
  | [] => (w, Err (retry_failed verb rp lastErr))
  | attempt :: attempts =>
      let '(w, backoff, done) :=
        if 0 <? attempt then
          let '(w, done) := wait backoff w in (w, RetryPolicy_next backoff rp, done)
        else (w, backoff, None) in
      match done with
      | Some ctxErr => (w, Err ctxErr)
      | None =>
          let '(w, r) := op w in
          match r with
          | Ok v => (w, Ok v)
          | Err err =>
              let lastErr := Some err in
              if negb (RetryPolicy_ShouldRetry (Some err) rp)
              then (w, Err (retry_failed verb rp lastErr))
              else retry_loop verb rp attempts backoff lastErr w
          end
      end
  end.

(** What the attempts and the waits keep, the loop keeps; what an attempt that succeeds
    has brought about, a loop that succeeds has. *)
Lemma retry_loop_keeps (P : W -> Prop) (Q : W -> T -> Prop) verb rp attempts backoff lastErr w :
  (forall w, P w -> P (op w).1 /\ forall v, (op w).2 = Ok v -> Q (op w).1 v) ->
  (forall d w, P w -> P (wait d w).1) -> P w ->
  let '(w', r) := retry_loop verb rp attempts backoff lastErr w in
  P w' /\ forall v, r = Ok v -> Q w' v.
Proof.
  intros Hop Hwait. revert backoff lastErr w. induction attempts as [|attempt attempts IH];
    intros backoff lastErr w Hw; cbn [retry_loop]; [done|].
  assert (Hstep : let '(w1, _, _) := if 0 <? attempt then
      let '(w, done) := wait backoff w in (w, RetryPolicy_next backoff rp, done) else (w, backoff, None) in P w1).
  { destruct (0 <? attempt); [|done]. pose proof (Hwait backoff w Hw) as H. by destruct (wait backoff w). }
  destruct (if 0 <? attempt then _ else _) as [[w1 backoff1] [e|]]; [done|].
  destruct (Hop w1 Hstep) as [Hp Hq]. destruct (op w1) as [w2 [v|e]]; cbn in *; [by split; [|intros ? [= <-]; apply Hq]|].
  destruct (negb _); [done|]. by apply IH.
Qed.

Definition AdvancedDB_retryExec (rp : RetryPolicy) (w : W) : W * result error T :=
  retry_loop "exec" rp (attempts (rp_MaxRetries rp)) (rp_InitialBackoff rp) None w.

Definition AdvancedDB_retryQuery (rp : RetryPolicy) (w : W) : W * result error T :=
  retry_loop "query" rp (attempts (rp_MaxRetries rp)) (rp_InitialBackoff rp) None w.

(** [WithRetry]: the loop of utils.go, with no cap and no classification. *)
Fixpoint WithRetry_loop (maxRetries : Z) (attempts : list Z) (currentBackoff : Z)
    (lastErr : option error) (w : W) : W * result error T :=
  match attempts with
  | [] =>
      (w, Err (Errorf_w ("failed after " +:+ pretty (wrap64 (maxRetries + 1)) +:+ " attempts: ")
                 lastErr))
  | attempt :: attempts =>
      let '(w, currentBackoff, done) :=
        if 0 <? attempt then
          let '(w, done) := wait currentBackoff w in (w, wrap64 (currentBackoff * 2), done)
        else (w, currentBackoff, None) in
      match done with
      | Some ctxErr => (w, Err ctxErr)
      | None =>
          let '(w, r) := op w in
          match r with
          | Ok v => (w, Ok v)
          | Err err => WithRetry_loop maxRetries attempts currentBackoff (Some err) w
          end
      end
  end.

Definition WithRetry (maxRetries backoff : Z) (w : W) : W * result error T :=
  WithRetry_loop maxRetries (attempts maxRetries) backoff None w.

End Retry.

(** ** The specification

    A world that follows a script: what the n-th attempt answers, and whether the
    context is done at the n-th wait. It counts the attempts and notes the waits. *)
Record script_world (T : Type) : Type := mkScriptWorld {
  sw_script : nat -> result error T;
  sw_ctx : nat -> option error;
  sw_calls : nat;
  sw_waits : list Z;
}.
Arguments mkScriptWorld {T}.
Arguments sw_script {T}.
Arguments sw_ctx {T}.
Arguments sw_calls {T}.
Arguments sw_waits {T}.

Section Script.
Context {T : Type}.
Context (script : nat -> result error T) (ctx : nat -> option error).

Definition scripted_op (w : script_world T) : script_world T * result error T :=
  (mkScriptWorld (sw_script w) (sw_ctx w) (S (sw_calls w)) (sw_waits w), sw_script w (sw_calls w)).

Definition scripted_wait (d : Z) (w : script_world T) : script_world T * option error :=
  (mkScriptWorld (sw_script w) (sw_ctx w) (sw_calls w) (sw_waits w ++ [d]),
   sw_ctx w (length (sw_waits w))).

(** Attempt [i] with [budget] retries budget: the number of attempts made in the end, the
    number of waits, and the answer. *)
Fixpoint retry_spec (retryable : error -> bool) (stop_error : error -> error) (budget i : nat)
    : nat * nat * result error T :=
  match script i with
  | Ok v => (S i, i, Ok v)
  | Err e =>
      if retryable e then
        match budget with
        | O => (S i, i, Err (stop_error e))
        | S budget =>
            match ctx i with
            | Some ctxErr => (S i, S i, Err ctxErr)
            | None => retry_spec retryable stop_error budget (S i)
            end
        end
      else (S i, i, Err (stop_error e))
  end.

Lemma retry_spec_calls retryable stop_error budget i :
  let '(calls, waits, _) := retry_spec retryable stop_error budget i in
  (i < calls <= i + budget + 1)%nat /\ (waits <= calls <= waits + 1)%nat /\ (waits <= i + budget)%nat.
Proof.
  revert i. induction budget as [|budget IH]; intros i; cbn.
  - destruct (script i) as [v|e]; [lia|]. destruct (retryable e); lia.
  - destruct (script i) as [v|e]; [lia|]. destruct (retryable e); [|lia].
    destruct (ctx i); [lia|]. specialize (IH (S i)).
    destruct (retry_spec _ _ _ _) as [[calls waits] r]. lia.
Qed.

(** The world after [calls] attempts and [waits] waits of the given lengths. *)
Definition scripted (calls waits : nat) (backoff_at : nat -> Z) : script_world T :=
  mkScriptWorld script ctx calls (map backoff_at (seq 0 waits)).

Lemma scripted_wait_next calls waits backoff_at :
  scripted_wait (backoff_at waits) (scripted calls waits backoff_at) =
    (scripted calls (S waits) backoff_at, ctx waits).
Proof.
  unfold scripted_wait, scripted. cbn. rewrite length_map, length_seq. f_equal. f_equal.
  change (backoff_at 0%nat :: map backoff_at (seq 1 waits)) with (map backoff_at (seq 0 (S waits))).
  by rewrite seq_S, map_app.
Qed.

Lemma scripted_op_next calls waits backoff_at :
  scripted_op (scripted calls waits backoff_at) =
    (scripted (S calls) waits backoff_at, script calls).
Proof. done. Qed.

Lemma attempts_from n i : seqZ (Z.of_nat i) (Z.of_nat (S n)) =
  Z.of_nat i :: seqZ (Z.of_nat (S i)) (Z.of_nat n).
Proof.
  rewrite seqZ_cons by lia. f_equal. f_equal; lia.
Qed.

(** How a run ends, as the specification describes it. *)
Definition script_end (backoff_at : nat -> Z) (x : nat * nat * result error T)
    : script_world T * result error T :=
  (scripted x.1.1 x.1.2 backoff_at, x.2).

(** Both loops from a later attempt on. *)
Lemma retry_loop_spec oor verb rp (backoff_at : nat -> Z) :
  (forall i, RetryPolicy_next oor (backoff_at i) rp = backoff_at (S i)) ->
  forall budget i lastErr,
  retry_loop oor scripted_op scripted_wait verb rp
    (seqZ (Z.of_nat (S i)) (Z.of_nat (S budget))) (backoff_at i) lastErr
    (scripted (S i) i backoff_at) =
  match ctx i with
  | Some ctxErr => (scripted (S i) (S i) backoff_at, Err ctxErr)
  | None =>
      script_end backoff_at
        (retry_spec (fun e => RetryPolicy_ShouldRetry (Some e) rp)
           (fun e => retry_failed verb rp (Some e)) budget (S i))
  end.
Proof.
  intros Hnext. induction budget as [|budget IH]; intros i lastErr;
    rewrite attempts_from; cbn [retry_spec retry_loop];
    rewrite (proj2 (Z.ltb_lt 0 (Z.of_nat (S i)))) by lia;
    rewrite scripted_wait_next, Hnext; cbn beta iota zeta;
    rewrite scripted_op_next; destruct (ctx i) as [ctxErr|]; try done;
    destruct (script (S i)) as [v|e]; try done;
    destruct (RetryPolicy_ShouldRetry (Some e) rp); try done.
  cbn [negb]. rewrite IH. by destruct (ctx (S i)).
Qed.

Lemma WithRetry_loop_spec maxRetries (backoff_at : nat -> Z) :
  (forall i, wrap64 (backoff_at i * 2) = backoff_at (S i)) ->
  forall budget i lastErr,
  WithRetry_loop scripted_op scripted_wait maxRetries
    (seqZ (Z.of_nat (S i)) (Z.of_nat (S budget))) (backoff_at i) lastErr
    (scripted (S i) i backoff_at) =
  match ctx i with
  | Some ctxErr => (scripted (S i) (S i) backoff_at, Err ctxErr)
  | None =>
      script_end backoff_at
        (retry_spec (fun _ => true)
           (fun e => Errorf_w ("failed after " +:+ pretty (wrap64 (maxRetries + 1)) +:+ " attempts: ")
                       (Some e)) budget (S i))
  end.
Proof.
  intros Hnext. induction budget as [|budget IH]; intros i lastErr;
    rewrite attempts_from; cbn [retry_spec WithRetry_loop];
    rewrite (proj2 (Z.ltb_lt 0 (Z.of_nat (S i)))) by lia;
    rewrite scripted_wait_next, Hnext; cbn beta iota zeta;
    rewrite scripted_op_next; destruct (ctx i) as [ctxErr|]; try done;
    destruct (script (S i)) as [v|e]; try done.
  rewrite IH. by destruct (ctx (S i)).
Qed.

Lemma attempts_first n : attempts (Z.of_nat n) = 0 :: seqZ (Z.of_nat 1) (Z.of_nat n).
Proof.
  unfold attempts. rewrite seqZ_cons by lia. f_equal. f_equal; lia.
Qed.

Lemma retry_run_spec oor verb rp n (backoff_at : nat -> Z) :
  rp_MaxRetries rp = Z.of_nat n -> rp_InitialBackoff rp = backoff_at O ->
  (forall i, RetryPolicy_next oor (backoff_at i) rp = backoff_at (S i)) ->
  retry_loop oor scripted_op scripted_wait verb rp (attempts (rp_MaxRetries rp))
    (rp_InitialBackoff rp) None (scripted 0 0 backoff_at) =
  script_end backoff_at
    (retry_spec (fun e => RetryPolicy_ShouldRetry (Some e) rp)
       (fun e => retry_failed verb rp (Some e)) n 0).
Proof.
  intros Hn Hb Hnext. rewrite Hn, Hb, attempts_first. cbn [retry_loop Z.ltb Z.compare].
  rewrite scripted_op_next. destruct n as [|n]; cbn [retry_spec].
  - destruct (script 0) as [v|e]; [done|]. by destruct (RetryPolicy_ShouldRetry (Some e) rp).
  - destruct (script 0) as [v|e]; [done|].
    destruct (RetryPolicy_ShouldRetry (Some e) rp); cbn [negb]; [|done].
    rewrite (retry_loop_spec oor verb rp backoff_at Hnext n 0 (Some e)). by destruct (ctx 0).
Qed.

Lemma WithRetry_run_spec n (backoff_at : nat -> Z) :
  (forall i, wrap64 (backoff_at i * 2) = backoff_at (S i)) ->
  WithRetry scripted_op scripted_wait (Z.of_nat n) (backoff_at O) (scripted 0 0 backoff_at) =
  script_end backoff_at
    (retry_spec (fun _ => true)
       (fun e => Errorf_w ("failed after " +:+ pretty (wrap64 (Z.of_nat n + 1)) +:+ " attempts: ")
                   (Some e)) n 0).
Proof.
  intros Hnext. unfold WithRetry. rewrite attempts_first. cbn [WithRetry_loop Z.ltb Z.compare].
  rewrite scripted_op_next. destruct n as [|n]; cbn [retry_spec].
  - by destruct (script 0) as [v|e].
  - destruct (script 0) as [v|e]; [done|].
    rewrite (WithRetry_loop_spec (Z.of_nat (S n)) backoff_at Hnext n 0 (Some e)). by destruct (ctx 0).
Qed.

End Script.

(** ** The backoff sequences *)

(** Doubling through float64, capped, is exact. *)
Lemma RetryPolicy_next_doubles oor rp b :
  rp_BackoffMultiplier rp = f64_of_Z 2 -> rp_MaxBackoff rp = 5 * Second -> 0 <= b <= 2 ^ 51 ->
  RetryPolicy_next oor b rp = Z.min (5 * Second) (b * 2).
Proof.
  intros Hm Hmax Hb. unfold RetryPolicy_next. rewrite Hm, Hmax.
  rewrite (Int64_of_float_trunc oor _ (b * 2)); [|apply f64_mul_exact; lia|solve_int64].
  destruct (Z.ltb_spec (5 * Second) (b * 2)); lia.
Qed.

Definition capped_backoff (b : Z) (i : nat) : Z := Z.min (5 * Second) (b * 2 ^ Z.of_nat i).

Lemma capped_backoff_next oor rp b i :
  rp_BackoffMultiplier rp = f64_of_Z 2 -> rp_MaxBackoff rp = 5 * Second -> 0 <= b ->
  RetryPolicy_next oor (capped_backoff b i) rp = capped_backoff b (S i).
Proof.
  intros Hm Hmax Hb. unfold capped_backoff. set (x := b * 2 ^ Z.of_nat i).
  assert (Hx : b * 2 ^ Z.of_nat (S i) = x * 2)
    by (unfold x; rewrite Nat2Z.inj_succ, Z.pow_succ_r by lia; lia).
  assert (0 <= x) by (apply Z.mul_nonneg_nonneg; [done|by apply Z.pow_nonneg]).
  rewrite (RetryPolicy_next_doubles oor rp) by (done || unfold Second in *; lia).
  rewrite Hx. unfold Second. lia.
Qed.

Lemma wrap64_mul_l z k : wrap64 (wrap64 z * k) = wrap64 (z * k).
Proof.
  unfold wrap64. f_equal.
  rewrite (Z.add_mod (z * k)), (Z.add_mod (((z + 2 ^ 63) mod 2 ^ 64 - 2 ^ 63) * k)) by lia.
  f_equal. f_equal.
  rewrite <- (Zmult_mod_idemp_l (_ - 2 ^ 63)), Zminus_mod_idemp_l.
  replace (z + 2 ^ 63 - 2 ^ 63) with z by lia. by rewrite Zmult_mod_idemp_l.
Qed.

Definition doubled_backoff (b : Z) (i : nat) : Z := wrap64 (b * 2 ^ Z.of_nat i).

Lemma doubled_backoff_next b i : wrap64 (doubled_backoff b i * 2) = doubled_backoff b (S i).
Proof.
  unfold doubled_backoff. rewrite wrap64_mul_l, Nat2Z.inj_succ, Z.pow_succ_r by lia. f_equal. lia.
Qed.

Lemma NewRetryPolicy_fields config :
  rp_BackoffMultiplier (NewRetryPolicy config) = f64_of_Z 2 /\
  rp_MaxBackoff (NewRetryPolicy config) = 5 * Second /\
  0 < rp_MaxRetries (NewRetryPolicy config) /\ 0 < rp_InitialBackoff (NewRetryPolicy config) /\
  rp_RetryableErrors (NewRetryPolicy config) = [].
Proof.
  destruct config as [c|]; [|by vm_compute]. unfold NewRetryPolicy.
  destruct (Z.ltb_spec 0 (dc_MaxRetries c)), (Z.ltb_spec 0 (dc_RetryBackoff c)); cbn;
    unfold Millisecond, Second; split_and!; done || lia.
Qed.

(** ** Properties *)

(** C14: retryExec and retryQuery are the documented loop: against any script of
    attempts and of context states they make exactly the attempts and the waits of the
    specification (stop at the first success, at the first error that is not a context
    error, when the context is done, or after MaxRetries retries) and give its answer;
    the waits start at the configured backoff and double, capped at five seconds,
    float64 rounding included. Hypothesis: the first backoff is within the cap. *)
Theorem AdvancedDB_retry_follows_policy {T} oor config script (ctx : nat -> option error) :
  let rp := NewRetryPolicy config in
  let b := rp_InitialBackoff rp in
  b <= 5 * Second ->
  let spec verb := retry_spec (T := T) script ctx
    (fun e => bool_decide (e = DeadlineExceeded) || bool_decide (e = Canceled))
    (fun e => retry_failed verb rp (Some e)) (Z.to_nat (rp_MaxRetries rp)) 0 in
  let start := mkScriptWorld script ctx 0 [] in
  AdvancedDB_retryExec oor scripted_op scripted_wait rp start =
    script_end script ctx (capped_backoff b) (spec "exec"%string) /\
  AdvancedDB_retryQuery oor scripted_op scripted_wait rp start =
    script_end script ctx (capped_backoff b) (spec "query"%string).
Proof.
  cbn zeta. intros Hb. destruct (NewRetryPolicy_fields config) as (Hm & Hmax & Hn & Hpos & Hre).
  assert (Hgo : forall verb,
    retry_loop oor scripted_op scripted_wait verb (NewRetryPolicy config)
      (attempts (rp_MaxRetries (NewRetryPolicy config))) (rp_InitialBackoff (NewRetryPolicy config))
      None (mkScriptWorld script ctx 0 []) =
    script_end script ctx (capped_backoff (rp_InitialBackoff (NewRetryPolicy config)))
      (retry_spec script ctx
        (fun e => RetryPolicy_ShouldRetry (Some e) (NewRetryPolicy config))
        (fun e => retry_failed verb (NewRetryPolicy config) (Some e))
        (Z.to_nat (rp_MaxRetries (NewRetryPolicy config))) 0)).
  { intros verb. apply retry_run_spec; [by rewrite Z2Nat.id by lia| |].
    - unfold capped_backoff. cbn. lia.
    - intros i. apply capped_backoff_next; [done..|lia]. }
  unfold AdvancedDB_retryExec, AdvancedDB_retryQuery. rewrite !Hgo.
  unfold RetryPolicy_ShouldRetry. by rewrite Hre.
Qed.

(** No policy retries more than configured: between one and MaxRetries + 1 attempts
    are made whatever the driver answers, with one wait before each retry, and the
    loop always ends. *)
Theorem AdvancedDB_retry_bounded {T} oor config script (ctx : nat -> option error) :
  rp_InitialBackoff (NewRetryPolicy config) <= 5 * Second ->
  let rp := NewRetryPolicy config in
  let w := (AdvancedDB_retryExec (T := T) oor scripted_op scripted_wait rp
              (mkScriptWorld script ctx 0 [])).1 in
  1 <= Z.of_nat (sw_calls w) <= rp_MaxRetries rp + 1 /\
  Z.of_nat (sw_calls w) - 1 <= Z.of_nat (length (sw_waits w)) <= rp_MaxRetries rp /\
  (forall d, d ∈ sw_waits w -> 0 < d <= 5 * Second).
Proof.
  intros Hb. cbn zeta. destruct (NewRetryPolicy_fields config) as (Hm & Hmax & Hn & Hpos & Hre).
  assert (Hgo : forall rp n, rp = NewRetryPolicy config -> rp_MaxRetries rp = Z.of_nat n ->
    AdvancedDB_retryExec (T := T) oor scripted_op scripted_wait rp (mkScriptWorld script ctx 0 []) =
    script_end script ctx (capped_backoff (rp_InitialBackoff rp))
      (retry_spec script ctx (fun e => RetryPolicy_ShouldRetry (Some e) rp)
        (fun e => retry_failed "exec" rp (Some e)) n 0)).
  { intros rp n -> Hrp. apply retry_run_spec; [done| |].
    - unfold capped_backoff. cbn. lia.
    - intros i. apply capped_backoff_next; [done..|lia]. }
  rewrite (Hgo _ (Z.to_nat (rp_MaxRetries (NewRetryPolicy config))) eq_refl) by lia.
  pose proof (retry_spec_calls script ctx
    (fun e => RetryPolicy_ShouldRetry (Some e) (NewRetryPolicy config))
    (fun e => retry_failed "exec" (NewRetryPolicy config) (Some e))
    (Z.to_nat (rp_MaxRetries (NewRetryPolicy config))) 0) as Hc.
  destruct (retry_spec _ _ _ _ _ _) as [[calls waits] r]. cbn in *.
  rewrite length_map, length_seq. split_and!; [lia..|].
  intros d (i & -> & _)%list_elem_of_fmap. unfold capped_backoff.
  assert (0 < 2 ^ Z.of_nat i) by (apply Z.pow_pos_nonneg; lia).
  unfold Second. nia.
Qed.

(** WithRetry: against any script it makes the attempts of the specification with
    every error retried, doubling the wait in 64-bit arithmetic (so that a long run
    wraps to a negative or zero wait, which fires at once). *)
Theorem WithRetry_follows_script script (ctx : nat -> option error) maxRetries backoff :
  0 <= maxRetries -> in_int64 backoff ->
  WithRetry (T := unit) scripted_op scripted_wait maxRetries backoff (mkScriptWorld script ctx 0 []) =
    script_end script ctx (doubled_backoff backoff)
      (retry_spec script ctx (fun _ => true)
        (fun e => Errorf_w ("failed after " +:+ pretty (wrap64 (maxRetries + 1)) +:+ " attempts: ")
                    (Some e)) (Z.to_nat maxRetries) 0).
Proof.
  intros Hn Hb.
  assert (H0 : doubled_backoff backoff 0 = backoff).
  { unfold doubled_backoff. cbn. rewrite Z.mul_1_r. by apply wrap64_id. }
  rewrite <- H0 at 1.
  destruct (Z_of_nat_complete maxRetries Hn) as [n ->]. rewrite Nat2Z.id.
  apply (WithRetry_run_spec script ctx n). apply doubled_backoff_next.
Qed.

(** A negative maxRetries: the function is never called and the error wraps nil. *)
Lemma WithRetry_negative {W} (op : W -> W * result error unit) wait maxRetries backoff w :
  maxRetries < 0 ->
  WithRetry op wait maxRetries backoff w =
    (w, Err (Errorf_w ("failed after " +:+ pretty (wrap64 (maxRetries + 1)) +:+ " attempts: ") None)).
Proof. intros Hn. unfold WithRetry, attempts. by rewrite seqZ_nil by lia. Qed.

(** ** The hypotheses can hold *)

(** Two time-outs, then a row count. *)
Definition script_example (n : nat) : result error Z :=
  match n with 0%nat | 1%nat => Err DeadlineExceeded | _ => Ok 7 end.

Lemma AdvancedDB_retry_follows_policy_witness :
  (AdvancedDB_retryExec (fun _ => 0) scripted_op scripted_wait (NewRetryPolicy None)
     (mkScriptWorld script_example (fun _ => None) 0 [])).2 = Ok 7.
Proof.
  pose proof (AdvancedDB_retry_follows_policy (fun _ => 0) None script_example (fun _ => None)) as H.
  cbn zeta in H. destruct H as [H _]; [vm_compute; discriminate|].
  rewrite H. reflexivity.
Defined.

Lemma AdvancedDB_retry_bounded_witness :
  Z.of_nat (sw_calls (AdvancedDB_retryExec (fun _ => 0) scripted_op scripted_wait
    (NewRetryPolicy None) (mkScriptWorld script_example (fun _ => None) 0 [])).1) <= 4.
Proof.
  apply (AdvancedDB_retry_bounded (fun _ => 0) None script_example (fun _ => None)).
  vm_compute. discriminate.
Defined.

Lemma WithRetry_follows_script_witness :
  (WithRetry (T := unit) scripted_op scripted_wait 1 (100 * Millisecond)
     (mkScriptWorld (fun _ => Err Canceled) (fun _ => None) 0 [])).2 =
    Err (Wrapf "failed after 2 attempts: " Canceled "").
Proof.
  rewrite (WithRetry_follows_script (fun _ => Err Canceled) (fun _ => None)).
  - reflexivity.
  - lia.
  - vm_compute. split; discriminate.
Defined.

(** The message counts the configured attempts, also when the first error ends the
    loop. *)
Example retry_message_overcounts :
  AdvancedDB_retryExec (T := Z) (fun _ => 0) scripted_op scripted_wait (NewRetryPolicy None)
    (mkScriptWorld (fun _ => Err (External 1 "syntax error")) (fun _ => None) 0 []) =
  (mkScriptWorld (fun _ => Err (External 1 "syntax error")) (fun _ => None) 1 [],
   Err (Wrapf "exec failed after 4 attempts: " (External 1 "syntax error") "")).
Proof. vm_compute. reflexivity. Qed.
