(* ===== verification/Sql.v ===== *)
(** * What the code uses of database/sql and context

    The pool, the transactions and the contexts live in the state [W] of the world.
    [SqlDB] lists the operations the repository calls; [LawfulSqlDB] the documented
    behaviour it relies on or runs into. *)
From S2P Require Import Prelude.
From S2P Require Import Errors.
From S2P Require Import StmtCache.
Local Open Scope Z_scope.

(** [sql.DBStats] *)
Record DBStats : Type := mkDBStats {
  MaxOpenConnections : Z;
  OpenConnections : Z;
  InUse : Z;
  Idle : Z;
  WaitCount : Z;
  WaitDuration : Z;
  MaxIdleClosed : Z;
  MaxIdleTimeClosed : Z;
  MaxLifetimeClosed : Z;
}.

Definition DBStats_zero : DBStats := mkDBStats 0 0 0 0 0 0 0 0 0.

Class SqlDB (W Ctx Arg Res Rows Row Tx : Type) : Type := {
  (** context.WithTimeout and the cancel function it returns *)
  ctx_WithTimeout : Z -> Ctx -> W -> W * Ctx;
  ctx_cancel : Ctx -> W -> W;
  (** ctx.Err(): [None] while the context is live *)
  ctx_Err : Ctx -> W -> option error;
  (** select on ctx.Done() and time.After(d) *)
  ctx_wait : Ctx -> Z -> W -> W * option error;
  (** *sql.DB *)
  db_ExecContext : Ctx -> string -> list Arg -> W -> W * result error Res;
  db_QueryContext : Ctx -> string -> list Arg -> W -> W * result error Rows;
  db_QueryRowContext : Ctx -> string -> list Arg -> W -> W * Row;
  db_PrepareContext : Ctx -> string -> W -> W * result error Stmt;
  db_BeginTx : Ctx -> W -> W * result error Tx;
  db_PingContext : Ctx -> W -> W * option error;
  db_Stats : W -> DBStats;
  stmt_Close : Stmt -> W -> W;
  (** *sql.Tx, and the context it was begun with *)
  tx_ctx : Tx -> Ctx;
  tx_ExecContext : Tx -> Ctx -> string -> list Arg -> W -> W * result error Res;
  tx_QueryContext : Tx -> Ctx -> string -> list Arg -> W -> W * result error Rows;
  tx_Commit : Tx -> W -> W * option error;
  tx_Rollback : Tx -> W -> W * option error;
}.

(** Documented behaviour: a cancelled context has an error; the context given to
    BeginTx is used until the transaction ends, and once it is done Commit returns an
    error and commits nothing ([durable] is what the database has committed). *)
Class LawfulSqlDB {W Ctx Arg Res Rows Row Tx : Type} (D : Type)
    `{SqlDB W Ctx Arg Res Rows Row Tx} : Type := {
  durable : W -> D;
  law_cancel c w : is_Some (ctx_Err c (ctx_cancel c w));
  law_cancel_durable c w : durable (ctx_cancel c w) = durable w;
  law_BeginTx c w w' tx : db_BeginTx c w = (w', Ok tx) -> tx_ctx tx = c;
  law_Commit_done tx w :
    is_Some (ctx_Err (tx_ctx tx) w) ->
    is_Some (tx_Commit tx w).2 /\ durable (tx_Commit tx w).1 = durable w;
}.

(** The same database given arguments of another type. *)
Section Args.
Context `{Sql : SqlDB W Ctx Arg Res Rows Row Tx} {Arg' : Type} (f : list Arg' -> list Arg).

Definition sql_with_args : SqlDB W Ctx Arg' Res Rows Row Tx := {|
  ctx_WithTimeout := ctx_WithTimeout;
  ctx_cancel := ctx_cancel;
  ctx_Err := ctx_Err;
  ctx_wait := ctx_wait;
  db_ExecContext c q args := db_ExecContext c q (f args);
  db_QueryContext c q args := db_QueryContext c q (f args);
  db_QueryRowContext c q args := db_QueryRowContext c q (f args);
  db_PrepareContext := db_PrepareContext;
  db_BeginTx := db_BeginTx;
  db_PingContext := db_PingContext;
  db_Stats := db_Stats;
  stmt_Close := stmt_Close;
  tx_ctx := tx_ctx;
  tx_ExecContext t c q args := tx_ExecContext t c q (f args);
  tx_QueryContext t c q args := tx_QueryContext t c q (f args);
  tx_Commit := tx_Commit;
  tx_Rollback := tx_Rollback;
|}.

Definition lawful_with_args {D} `{Laws : !LawfulSqlDB D} : LawfulSqlDB (H := sql_with_args) D :=
  @Build_LawfulSqlDB _ _ _ _ _ _ _ D sql_with_args (durable (H := Sql))
    (law_cancel (H := Sql) (D := D)) (law_cancel_durable (H := Sql) (D := D))
    (law_BeginTx (H := Sql) (D := D)) (law_Commit_done (H := Sql) (D := D)).
End Args.

(** ** A database to run the examples on

    One integer cell. Contexts are numbered; the world keeps the cancelled ones, the
    open transactions with the value each would write, a log of closed statements, and
    how many rows of the open result were read. *)
Module OneCell.

Record world : Type := mkWorld {
  ow_value : Z;
  ow_next : nat;
  ow_cancelled : list nat;
  ow_pending : gmap nat Z;
  ow_closed : list Stmt;
  ow_read : nat;
}.

Definition start : world := mkWorld 0 1 [] ∅ [] 0.

Definition is_cancelled (c : nat) (w : world) : bool := bool_decide (c ∈ ow_cancelled w).

Definition err (c : nat) (w : world) : option error :=
  if is_cancelled c w then Some Canceled else None.

(** A transaction: its number and its context. *)
Definition tx : Type := nat * nat.

Definition exec (c : nat) (args : list Z) (w : world) : world * result error Z :=
  match err c w, args with
  | Some e, _ => (w, Err e)
  | None, [v] => (w{{ow_value := v}}, Ok 1)
  | None, _ => (w, Err (External 1 "wrong number of arguments"))
  end.

Definition tx_exec (t : tx) (args : list Z) (w : world) : world * result error Z :=
  match args with
  | [v] => (w{{ow_pending := <[t.1 := v]> (ow_pending w)}}, Ok 1)
  | _ => (w, Err (External 1 "wrong number of arguments"))
  end.

(** sql.ErrTxDone *)
Definition ErrTxDone : error :=
  External 2 "sql: transaction has already been committed or rolled back".

Definition commit (t : tx) (w : world) : world * option error :=
  match err t.2 w with
  | Some e => (w, Some e)
  | None =>
      (w{{ow_value := default (ow_value w) (ow_pending w !! t.1);
          ow_pending := delete t.1 (ow_pending w)}}, None)
  end.

#[export] Instance cell_db : SqlDB world nat Z Z (list Z) Z tx := {
  ctx_WithTimeout _ c w := (w{{ow_next := S (ow_next w)}}, ow_next w);
  ctx_cancel c w := w{{ow_cancelled := c :: ow_cancelled w}};
  ctx_Err := err;
  ctx_wait c _ w := (w, err c w);
  db_ExecContext c _ args w := exec c args w;
  db_QueryContext c _ _ w :=
    (w, match err c w with Some e => Err e | None => Ok [ow_value w] end);
  db_QueryRowContext _ _ _ w := (w, ow_value w);
  db_PrepareContext _ _ w := (w{{ow_next := S (ow_next w)}}, Ok (ow_next w));
  db_BeginTx c w :=
    match err c w with
    | Some e => (w, Err e)
    | None => (w{{ow_next := S (ow_next w)}}, Ok (ow_next w, c))
    end;
  db_PingContext c w := (w, err c w);
  db_Stats _ := mkDBStats 25 1 0 1 0 0 0 0 0;
  stmt_Close s w := w{{ow_closed := s :: ow_closed w}};
  tx_ctx t := t.2;
  tx_ExecContext t _ _ args w := tx_exec t args w;
  tx_QueryContext _ _ _ _ w := (w, Ok [ow_value w]);
  tx_Commit := commit;
  tx_Rollback t w :=
    (w{{ow_pending := delete t.1 (ow_pending w)}},
     match err t.2 w with Some _ => Some ErrTxDone | None => None end);
}.

#[refine, export] Instance cell_lawful : LawfulSqlDB Z := { durable := ow_value }.
Proof.
  - intros c w. cbn. unfold err, is_cancelled. cbn.
    rewrite bool_decide_true by (apply elem_of_cons; by left). by eexists.
  - done.
  - intros c w w' t. cbn. destruct (err c w); by intros [= <- <-].
  - intros t w [e He]. cbn in *. unfold commit. rewrite He. split; [by eexists|done].
Defined.

End OneCell.
