(* ===== verification/Db.v ===== *)
(** * The database wrapper (db.go, [AdvancedDB] and [AdvancedTx])

    Every operation runs on the wrapper and on the world of the [SqlDB] interface. The
    gate and the metrics are shared by pointer between an [AdvancedDB] and its
    transactions: a transaction is its [*sql.Tx], and its operations act on the
    wrapper it was begun from. *)
From S2P Require Import Prelude.
From S2P Require Import Errors.
From S2P Require Import GoFloat.
From S2P Require Import GateConfig.
From S2P Require Import CircuitBreaker.
From S2P Require Import ConnectionLimiter.
From S2P Require Import Gate.
From S2P Require Import StmtCache.
From S2P Require Import Metrics.
From S2P Require Import Retry.
From S2P Require Import Sql.
Local Open Scope Z_scope.

Record AdvancedDB : Type := mkAdvancedDB {
  adb_gate : ConnectionGate;
  adb_stmtCache : PreparedStatementCache;
  adb_metrics : DBMetrics;
  adb_retryPolicy : RetryPolicy;
  adb_queryTimeout : Z;
}.

Record AdvancedTx (Tx : Type) : Type := mkAdvancedTx { atx_tx : Tx }.
Arguments mkAdvancedTx {Tx}.
Arguments atx_tx {Tx}.

(** The clock readings of one call: those of the gate, [start], and the one in
    [time.Since(start)]. *)
Record db_env : Type := mkDbEnv {
  e_gate : gate_env;
  e_start : Z;
  e_end : Z;
}.

Definition NewAdvancedDB (gate : ConnectionGate) (config : option DBAdvancedConfig) : AdvancedDB :=
  let adb := mkAdvancedDB gate (NewPreparedStatementCache config) (NewDBMetrics config)
               (NewRetryPolicy config) (30 * Second) in
  match config with
  | None => adb
  | Some config =>
      if 0 <? dc_QueryTimeout config
      then adb{{adb_queryTimeout := dc_QueryTimeout config}} else adb
  end.

(** [metrics.RecordQuery(time.Since(start), err)] *)
Definition AdvancedDB_record (env : db_env) (err : option error) (adb : AdvancedDB) : AdvancedDB :=
  adb{{adb_metrics :=
         DBMetrics_RecordQuery (Time_Sub (e_end env) (e_start env)) err (adb_metrics adb)}}.

Section Db.
Context (oor : float64 -> Z).
Context (first_key : gmap string Stmt -> option string).
Context `{Sql : SqlDB W Ctx Arg Res Rows Row Tx}.

(** The part [Exec], [Query] and [Begin] share: the timeout context, the operation
    behind the gate, and [cancel] on the way out. *)
Definition AdvancedDB_gated {T} (env : db_env) (ctx : Ctx) (operation : Ctx -> W -> W * result error T)
    (adb : AdvancedDB) (w : W) : option (AdvancedDB * W * result error T) :=
  let '(w, ctx) := ctx_WithTimeout (adb_queryTimeout adb) ctx w in
  match ExecuteWithGate oor (e_gate env) (operation ctx) (adb_gate adb) w with
  | None => None
  | Some (cg, w, r) => Some (adb{{adb_gate := cg}}, ctx_cancel ctx w, r)
  end.

Definition AdvancedDB_Exec (env : db_env) (ctx : Ctx) (query : string) (args : list Arg)
    (adb : AdvancedDB) (w : W) : option (AdvancedDB * W * result error Res) :=
  let operation ctx :=
    AdvancedDB_retryExec oor (db_ExecContext ctx query args) (ctx_wait ctx) (adb_retryPolicy adb) in
  match AdvancedDB_gated env ctx operation adb w with
  | None => None
  | Some (adb, w, r) => Some (AdvancedDB_record env None adb, w, r)
  end.

Definition AdvancedDB_Query (env : db_env) (ctx : Ctx) (query : string) (args : list Arg)
    (adb : AdvancedDB) (w : W) : option (AdvancedDB * W * result error Rows) :=
  let operation ctx :=
    AdvancedDB_retryQuery oor (db_QueryContext ctx query args) (ctx_wait ctx) (adb_retryPolicy adb) in
  match AdvancedDB_gated env ctx operation adb w with
  | None => None
  | Some (adb, w, r) => Some (AdvancedDB_record env None adb, w, r)
  end.

Definition AdvancedDB_QueryRow (env : db_env) (ctx : Ctx) (query : string) (args : list Arg)
    (adb : AdvancedDB) (w : W) : AdvancedDB * W * Row :=
  let '(w, ctx) := ctx_WithTimeout (adb_queryTimeout adb) ctx w in
  let '(w, row) := db_QueryRowContext ctx query args w in
  (AdvancedDB_record env None adb, ctx_cancel ctx w, row).

Definition AdvancedDB_Prepare (ctx : Ctx) (query : string) (adb : AdvancedDB) (w : W)
    : AdvancedDB * W * result error Stmt :=
  match PreparedStatementCache_Get query (adb_stmtCache adb) with
  | Some stmt => (adb, w, Ok stmt)
  | None =>
      let '(w, r) := db_PrepareContext ctx query w in
      match r with
      | Err err => (adb, w, Err err)
      | Ok stmt =>
          (adb{{adb_stmtCache := PreparedStatementCache_Put first_key query stmt (adb_stmtCache adb)}},
           w, Ok stmt)
      end
  end.

Definition AdvancedDB_Begin (env : db_env) (ctx : Ctx) (adb : AdvancedDB) (w : W)
    : option (AdvancedDB * W * result error (AdvancedTx Tx)) :=
  match AdvancedDB_gated env ctx db_BeginTx adb w with
  | None => None
  | Some (adb, w, r) => Some (adb, w, result_map mkAdvancedTx r)
  end.

Definition AdvancedTx_Exec (env : db_env) (ctx : Ctx) (query : string) (args : list Arg)
    (atx : AdvancedTx Tx) (adb : AdvancedDB) (w : W) : AdvancedDB * W * result error Res :=
  let '(w, r) := tx_ExecContext (atx_tx atx) ctx query args w in
  (AdvancedDB_record env (result_error r) adb, w, r).

Definition AdvancedTx_Query (env : db_env) (ctx : Ctx) (query : string) (args : list Arg)
    (atx : AdvancedTx Tx) (adb : AdvancedDB) (w : W) : AdvancedDB * W * result error Rows :=
  let '(w, r) := tx_QueryContext (atx_tx atx) ctx query args w in
  (AdvancedDB_record env None adb, w, r).

(** [now]: the clock of a recorded failure. *)
Definition AdvancedTx_Commit (now : Z) (atx : AdvancedTx Tx) (adb : AdvancedDB) (w : W)
    : AdvancedDB * W * option error :=
  let '(w, err) := tx_Commit (atx_tx atx) w in
  match err with
  | Some _ => (adb{{adb_gate := ConnectionGate_RecordFailure now (adb_gate adb)}}, w, err)
  | None => (adb{{adb_gate := ConnectionGate_RecordSuccess (adb_gate adb)}}, w, err)
  end.

Definition AdvancedTx_Rollback (now : Z) (atx : AdvancedTx Tx) (adb : AdvancedDB) (w : W)
    : AdvancedDB * W * option error :=
  let '(w, err) := tx_Rollback (atx_tx atx) w in
  match err with
  | Some _ => (adb{{adb_gate := ConnectionGate_RecordFailure now (adb_gate adb)}}, w, err)
  | None => (adb, w, err)
  end.

Definition AdvancedDB_Stats (w : W) : DBStats := db_Stats w.
Definition AdvancedDB_Metrics (adb : AdvancedDB) : DBMetrics := adb_metrics adb.

Definition AdvancedDB_HealthCheck (ctx : Ctx) (w : W) : W * option error :=
  let '(w, ctx) := ctx_WithTimeout (5 * Second) ctx w in
  let '(w, err) := db_PingContext ctx w in
  (ctx_cancel ctx w, err).

(** ** Calls outside a transaction *)
Inductive db_call : Type :=
  | DoExec (env : db_env) (ctx : Ctx) (query : string) (args : list Arg)
  | DoQuery (env : db_env) (ctx : Ctx) (query : string) (args : list Arg)
  | DoQueryRow (env : db_env) (ctx : Ctx) (query : string) (args : list Arg).

(** The wrapper and the world after a call, and whether it returned an error. *)
Definition db_step (c : db_call) (adb : AdvancedDB) (w : W) : option (AdvancedDB * W * bool) :=
  match c with
  | DoExec env ctx q args =>
      match AdvancedDB_Exec env ctx q args adb w with
      | Some (adb, w, r) => Some (adb, w, negb (is_Ok r))
      | None => None
      end
  | DoQuery env ctx q args =>
      match AdvancedDB_Query env ctx q args adb w with
      | Some (adb, w, r) => Some (adb, w, negb (is_Ok r))
      | None => None
      end
  | DoQueryRow env ctx q args =>
      let '(adb, w, _) := AdvancedDB_QueryRow env ctx q args adb w in Some (adb, w, false)
  end.

Definition db_call_time (c : db_call) : Z :=
  match c with
  | DoExec env _ _ _ | DoQuery env _ _ _ | DoQueryRow env _ _ _ =>
      Time_Sub (e_end env) (e_start env)
  end.

(** A sequence of calls that all return, and how many returned an error. *)
Fixpoint db_run (cs : list db_call) (adb : AdvancedDB) (w : W) : option (AdvancedDB * W * Z) :=
  match cs with
  | [] => Some (adb, w, 0)
  | c :: cs =>
      match db_step c adb w with
      | None => None
      | Some (adb, w, failed) =>
          match db_run cs adb w with
          | None => None
          | Some (adb, w, errors) => Some (adb, w, if failed then errors + 1 else errors)
          end
      end
  end.

Lemma AdvancedDB_gated_metrics {T} env ctx (op : Ctx -> W -> W * result error T) adb w adb' w' r :
  AdvancedDB_gated env ctx op adb w = Some (adb', w', r) -> adb_metrics adb' = adb_metrics adb.
Proof.
  unfold AdvancedDB_gated. destruct (ctx_WithTimeout _ ctx w) as [w1 c].
  destruct (ExecuteWithGate _ _ _ _ _) as [[[cg w2] r2]|]; [|done]. by intros [= <- <- <-].
Qed.

Lemma db_step_metrics c adb w adb' w' failed :
  db_step c adb w = Some (adb', w', failed) ->
  adb_metrics adb' = DBMetrics_RecordQuery (db_call_time c) None (adb_metrics adb).
Proof.
  destruct c as [env ctx q args|env ctx q args|env ctx q args]; cbn [db_step db_call_time].
  - unfold AdvancedDB_Exec. destruct (AdvancedDB_gated _ _ _ _ _) as [[[adb1 w1] r]|] eqn:Hg; [|done].
    apply AdvancedDB_gated_metrics in Hg. intros [= <- _ _]. cbn. by rewrite Hg.
  - unfold AdvancedDB_Query. destruct (AdvancedDB_gated _ _ _ _ _) as [[[adb1 w1] r]|] eqn:Hg; [|done].
    apply AdvancedDB_gated_metrics in Hg. intros [= <- _ _]. cbn. by rewrite Hg.
  - unfold AdvancedDB_QueryRow. destruct (ctx_WithTimeout _ ctx w) as [w1 c].
    destruct (db_QueryRowContext c q args w1) as [w2 row]. by intros [= <- _ _].
Qed.

Lemma db_run_metrics cs adb w adb' w' errors :
  db_run cs adb w = Some (adb', w', errors) ->
  adb_metrics adb' = records (map (fun c => (db_call_time c, None)) cs) (adb_metrics adb) /\
  0 <= errors <= Z.of_nat (length cs).
Proof.
  revert adb w adb' w' errors. induction cs as [|c cs IH]; intros adb w adb' w' errors; cbn [db_run].
  - intros [= <- _ <-]. done.
  - destruct (db_step c adb w) as [[[adb1 w1] failed]|] eqn:Hs; [|done].
    destruct (db_run cs adb1 w1) as [[[adb2 w2] n]|] eqn:Hr; [|done]. intros [= <- _ <-].
    destruct (IH _ _ _ _ _ Hr) as [-> Hn]. rewrite (db_step_metrics _ _ _ _ _ _ Hs).
    split; [done|]. cbn [length]. destruct failed; lia.
Qed.

(** The wrapper never counts a failed query: over any sequence of Exec, Query and
    QueryRow calls that return, with whatever answers of the driver and the gate, the
    metrics count every call as successful and none as failed, however many of the
    calls returned an error. *)
Theorem AdvancedDB_failures_uncounted gate config cs w adb' w' errors :
  Z.of_nat (length cs) <= int64_max ->
  db_run cs (NewAdvancedDB gate config) w = Some (adb', w', errors) ->
  let stats := DBMetrics_GetStats (AdvancedDB_Metrics adb') in
  ms_FailedQueries stats = 0 /\ ms_SuccessfulQueries stats = Z.of_nat (length cs) /\
  ms_TotalQueries stats = Z.of_nat (length cs).
Proof.
  intros Hlen Hrun. apply db_run_metrics in Hrun as [Hm _]. cbn zeta.
  unfold AdvancedDB_Metrics, DBMetrics_GetStats. rewrite Hm.
  assert (H0 : adb_metrics (NewAdvancedDB gate config) = NewDBMetrics config).
  { unfold NewAdvancedDB. destruct config as [c|]; [|done]. by destruct (0 <? dc_QueryTimeout c). }
  rewrite H0, records_counters; cycle 1.
  { intros z. cbn. rewrite !elem_of_cons, elem_of_nil.
    intros [->|[->|[->|[->|[->|[]]]]]]; by vm_compute. }
  assert (Hc : count failed (map (fun c => (db_call_time c, None)) cs) = 0).
  { clear. unfold count. induction cs; [done|]. by cbn. }
  pose proof (count_split failed (map (fun c => (db_call_time c, None)) cs)) as Hs.
  rewrite Hc, length_map in Hs. cbn. rewrite Hc, Hs, length_map, !wrap64_id by solve_int64. done.
Qed.

(** ** Transactions *)
Context `{Laws : !LawfulSqlDB D}.

Lemma AdvancedDB_Begin_spec env ctx adb w adb' w' atx :
  AdvancedDB_Begin env ctx adb w = Some (adb', w', Ok atx) ->
  is_Some (ctx_Err (tx_ctx (atx_tx atx)) w').
Proof.
  unfold AdvancedDB_Begin, AdvancedDB_gated.
  destruct (ctx_WithTimeout _ ctx w) as [w1 c].
  unfold ExecuteWithGate. destruct (ConnectionGate_Allow _ _ _) as [[cg [e|]]|]; [done| |done].
  destruct (db_BeginTx c w1) as [w2 r] eqn:Hb. destruct r as [tx|e]; [|done].
  intros [= _ <- <-]. apply law_BeginTx in Hb. cbn. rewrite Hb. apply law_cancel.
Qed.

(** C26: Every transaction is dead when Begin returns: the deferred cancel has already
    ended the context database/sql keeps using for the transaction. However the caller
    goes on (an ended context stays ended), Commit returns an error, commits nothing,
    and is recorded by the gate as a failure that gives a slot back. *)
Theorem AdvancedDB_Begin_never_commits env ctx adb w adb' w' atx adb2 w2 now :
  AdvancedDB_Begin env ctx adb w = Some (adb', w', Ok atx) ->
  (forall c, is_Some (ctx_Err c w') -> is_Some (ctx_Err c w2)) ->
  let '(adb3, w3, err) := AdvancedTx_Commit now atx adb2 w2 in
  is_Some err /\ durable w3 = durable w2 /\
  adb_gate adb3 = ConnectionGate_RecordFailure now (adb_gate adb2).
Proof.
  intros Hb%AdvancedDB_Begin_spec Hmono. unfold AdvancedTx_Commit.
  destruct (law_Commit_done (atx_tx atx) w2 (Hmono _ Hb)) as [[e He] Hd].
  destruct (tx_Commit (atx_tx atx) w2) as [w3 err]. cbn in *. subst err. done.
Qed.

(** A transaction that Commit refuses and Rollback then refuses too (as
    database/sql does for a finished one) gives two slots back for the one Begin took:
    the counter ends one below where it started, and the limiter admits one caller too
    many. *)
Theorem AdvancedTx_double_release env ctx adb w adb1 w1 atx now now' e e' w2 w3 :
  env_quiet (e_gate env) -> gate_balanced (adb_gate adb) ->
  AdvancedDB_Begin env ctx adb w = Some (adb1, w1, Ok atx) ->
  tx_Commit (atx_tx atx) w1 = (w2, Some e) -> tx_Rollback (atx_tx atx) w2 = (w3, Some e') ->
  let '(adb2, w2, _) := AdvancedTx_Commit now atx adb1 w1 in
  let '(adb3, w3, _) := AdvancedTx_Rollback now' atx adb2 w2 in
  gate_slots (adb_gate adb3) = wrap64 (gate_slots (adb_gate adb) - 1).
Proof.
  intros Hq Hb Hbegin Hc Hr. unfold AdvancedTx_Commit, AdvancedTx_Rollback. rewrite Hc, Hr.
  assert (Hs : gate_balanced (adb_gate adb1) /\
               gate_slots (adb_gate adb1) = gate_slots (adb_gate adb) + 1).
  { unfold AdvancedDB_Begin, AdvancedDB_gated in Hbegin.
    destruct (ctx_WithTimeout _ ctx w) as [w0 c].
    destruct (ExecuteWithGate _ _ _ _ _) as [[[cg w4] r]|] eqn:He; [|done].
    destruct r as [tx|err]; [|done].
    apply ExecuteWithGate_slots in He as (? & _ & ? & _); [|done..].
    injection Hbegin as <- _ _. by destruct adb. }
  destruct Hs as [_ Hs].
  change (gate_slots (ConnectionGate_RecordFailure now' (ConnectionGate_RecordFailure now
    (adb_gate adb1))) = wrap64 (gate_slots (adb_gate adb) - 1)).
  unfold gate_slots in *. rewrite !RecordFailure_counter, wrap64_wrap_l, Hs. f_equal. lia.
Qed.

End Db.

(** ** The hypotheses can hold *)
Section Witnesses.
Import OneCell.

Definition db_example_env : db_env := mkDbEnv gate_example_env 10 15.

Definition db_example : AdvancedDB :=
  NewAdvancedDB (NewConnectionGate 0 (Some gate_example_config)) None.

(** A good statement, a refused one, and one turned away by the gate (two slots, and
    a success keeps its slot). *)
Definition db_example_calls : list (db_call (Ctx := nat) (Arg := Z)) :=
  [DoExec db_example_env 0%nat "UPDATE" [5]; DoExec db_example_env 0%nat "UPDATE" [];
   DoQuery db_example_env 0%nat "SELECT" []; DoExec db_example_env 0%nat "UPDATE" [6]].

Lemma AdvancedDB_failures_uncounted_witness :
  match db_run (fun _ => 0) db_example_calls db_example OneCell.start with
  | Some (adb', w', errors) =>
      errors = 2 /\ ow_value w' = 5 /\ m_FailedQueries (adb_metrics adb') = 0
  | None => False
  end.
Proof.
  destruct (db_run (fun _ => 0) db_example_calls db_example start) as [[[adb' w'] errors]|] eqn:Hr.
  - assert (Hlen : Z.of_nat (length db_example_calls) <= int64_max) by (vm_compute; discriminate).
    pose proof (AdvancedDB_failures_uncounted (fun _ => 0) _ _ _ _ _ _ _ Hlen Hr) as Hf.
    vm_compute in Hr. injection Hr as _ <- <-.
    split; [reflexivity|split; [reflexivity|apply Hf]].
  - vm_compute in Hr. discriminate Hr.
Defined.

Definition db_example_begin :=
  AdvancedDB_Begin (fun _ => 0) db_example_env 0%nat db_example OneCell.start.

Lemma AdvancedDB_Begin_never_commits_witness :
  exists adb1 w1 atx,
    db_example_begin = Some (adb1, w1, Ok atx) /\
    let '(_, w2, err) := AdvancedTx_Commit 20 atx adb1 w1 in
    is_Some err /\ ow_value w2 = 0.
Proof.
  destruct db_example_begin as [[[adb1 w1] [atx|e]]|] eqn:Hb; [|vm_compute in Hb; discriminate Hb..].
  exists adb1, w1, atx. split; [reflexivity|].
  pose proof (AdvancedDB_Begin_never_commits (fun _ => 0) _ _ _ _ _ _ _ adb1 w1 20 Hb
    (fun _ H => H)) as H.
  destruct (AdvancedTx_Commit 20 atx adb1 w1) as [[adb2 w2] err]. destruct H as (He & Hd & _).
  split; [exact He|]. refine (eq_trans Hd _). vm_compute in Hb. injection Hb as _ <- _. reflexivity.
Defined.

Lemma AdvancedTx_double_release_witness :
  exists adb1 w1 atx,
    db_example_begin = Some (adb1, w1, Ok atx) /\
    let '(adb2, w2, _) := AdvancedTx_Commit 20 atx adb1 w1 in
    let '(adb3, w3, _) := AdvancedTx_Rollback 21 atx adb2 w2 in
    gate_slots (adb_gate adb3) = -1.
Proof.
  destruct db_example_begin as [[[adb1 w1] [atx|e]]|] eqn:Hb; [|vm_compute in Hb; discriminate Hb..].
  exists adb1, w1, atx. split; [reflexivity|].
  assert (He : exists w2 w3, tx_Commit (atx_tx atx) w1 = (w2, Some Canceled) /\
                             tx_Rollback (atx_tx atx) w2 = (w3, Some ErrTxDone)).
  { vm_compute in Hb. injection Hb as _ <- <-. do 2 eexists. split; reflexivity. }
  destruct He as (w2 & w3 & Hc & Hr).
  assert (Hq : env_quiet (e_gate db_example_env)) by (intros cl; reflexivity).
  assert (Hbal : gate_balanced (adb_gate db_example))
    by (repeat split; vm_compute; discriminate).
  pose proof (AdvancedTx_double_release (fun _ => 0) _ _ _ _ _ _ _ 20 21 _ _ _ _ Hq Hbal Hb Hc Hr) as H.
  destruct (AdvancedTx_Commit 20 atx adb1 w1) as [[adb2 w2'] err2].
  destruct (AdvancedTx_Rollback 21 atx adb2 w2') as [[adb3 w3'] err3]. exact H.
Defined.

End Witnesses.
