(* ===== verification/Open.v ===== *)
(** * The connection manager (open.go)

    [ConnectionManager] with its leak detector and its validator. A nil [*sql.DB] or
    [*LeakDetector] is [None]. What [sql.Open] and the pool do is the interface
    [SqlPool]; a run-time panic is [Panic]. *)
From S2P Require Import Prelude.
From S2P Require Import Errors.
From S2P Require Import StmtCache.
From S2P Require Import Sql.
From S2P Require Import Retry.
Local Open Scope Z_scope.

Definition DatabaseTypeOracle : string := "oracle".
Definition DatabaseTypePostgreSQL : string := "postgres".
Definition DatabaseTypeMySQL : string := "mysql".
Definition DatabaseTypeSQLite : string := "sqlite".

Record TrackedConnection : Type := mkTrackedConnection {
  tc_ID : Z;
  tc_AcquiredAt : Z;
  tc_LastUsedAt : Z;
  tc_QueryCount : Z;
  tc_StackTrace : string;
}.

(** [ld_stopChan]: whether the channel is closed; [ld_monitors]: the goroutines
    started by [Start] that wait on it; [ld_leakCallback]: [None] when nil, else the
    calls made to it. *)
Record LeakDetector : Type := mkLeakDetector {
  ld_maxConnectionAge : Z;
  ld_checkInterval : Z;
  ld_stopChan : bool;
  ld_monitors : Z;
  ld_leakCallback : option (list (Z * Z));
}.

Record ConnectionValidator : Type := mkConnectionValidator {
  cv_validationQuery : string;
  cv_timeout : Z;
  cv_maxRetries : Z;
  cv_retryBackoff : Z;
}.

Record AdvancedConfig : Type := mkAdvancedConfig {
  ac_DatabaseType : string;
  ac_DSN : string;
  ac_MaxOpenConns : Z;
  ac_MaxIdleConns : Z;
  ac_ConnMaxLifetime : Z;
  ac_ConnMaxIdleTime : Z;
  ac_LeakDetectionThreshold : Z;
  ac_ValidationQuery : string;
  ac_ValidationTimeout : Z;
  ac_WarmupConnections : Z;
  ac_WarmupTimeout : Z;
  ac_ConnectionTimeout : Z;
  ac_EnableMetrics : bool;
  ac_EnableLeakDetection : bool;
}.

Record ConnectionManager (DB : Type) : Type := mkConnectionManager {
  cm_db : option DB;
  cm_config : AdvancedConfig;
  cm_activeConnections : gmap Z TrackedConnection;
  cm_connectionID : Z;
  cm_leakDetector : option LeakDetector;
  cm_validator : option ConnectionValidator;
  cm_warmupDone : bool;
}.
Arguments mkConnectionManager {DB}.
Arguments cm_db {DB}.
Arguments cm_config {DB}.
Arguments cm_activeConnections {DB}.
Arguments cm_connectionID {DB}.
Arguments cm_leakDetector {DB}.
Arguments cm_validator {DB}.
Arguments cm_warmupDone {DB}.

(** sql.Open, the pool's settings, single connections, and time.Sleep. *)
Class SqlPool (W Ctx DB Conn : Type) : Type := {
  sql_Open : string -> string -> W -> W * result error DB;
  (** SetMaxOpenConns, SetMaxIdleConns, SetConnMaxLifetime, SetConnMaxIdleTime *)
  pool_configure : DB -> Z -> Z -> Z -> Z -> W -> W;
  pool_PingContext : DB -> Ctx -> W -> W * option error;
  pool_Close : DB -> W -> W * option error;
  pool_Conn : DB -> Ctx -> W -> W * result error Conn;
  conn_Close : Conn -> W -> W;
  (** conn.QueryRowContext(ctx, query).Scan(&result) *)
  conn_ScanOne : Conn -> Ctx -> string -> W -> W * option error;
  ctx_Background : Ctx;
  pool_WithTimeout : Z -> Ctx -> W -> W * Ctx;
  pool_cancel : Ctx -> W -> W;
  time_Sleep : Z -> W -> W;
}.

Definition NewLeakDetector (config : AdvancedConfig) : option LeakDetector :=
  if negb (ac_EnableLeakDetection config) then None
  else Some (mkLeakDetector (ac_LeakDetectionThreshold config) (30 * Second) false 0 None).

(** The goroutine leaves at its first [select] when the channel is already closed. *)
Definition LeakDetector_Start (ld : option LeakDetector) : option LeakDetector :=
  match ld with
  | None => None
  | Some ld =>
      Some (if ld_stopChan ld then ld else ld{{ld_monitors := ld_monitors ld + 1}})
  end.

(** [close] of a closed channel panics; closing ends the goroutines. *)
Definition LeakDetector_Stop (ld : option LeakDetector) : outcome (option LeakDetector) :=
  match ld with
  | None => Ret None
  | Some ld =>
      if ld_stopChan ld then Panic "close of closed channel"
      else Ret (Some (ld{{ld_stopChan := true; ld_monitors := 0}}))
  end.

Definition NewConnectionValidator (config : AdvancedConfig) : ConnectionValidator :=
  mkConnectionValidator (ac_ValidationQuery config) (ac_ValidationTimeout config) 3
    (100 * Millisecond).

(** The defaults [NewConnectionManager] writes into the caller's configuration, field
    by field; the query is chosen before the type gets its own default. *)
Definition AdvancedConfig_defaults (config : AdvancedConfig) : AdvancedConfig := {|
  ac_DatabaseType :=
    if String.eqb (ac_DatabaseType config) "" then DatabaseTypeSQLite else ac_DatabaseType config;
  ac_DSN := ac_DSN config;
  ac_MaxOpenConns := if ac_MaxOpenConns config =? 0 then 25 else ac_MaxOpenConns config;
  ac_MaxIdleConns := if ac_MaxIdleConns config =? 0 then 5 else ac_MaxIdleConns config;
  ac_ConnMaxLifetime :=
    if ac_ConnMaxLifetime config =? 0 then 30 * Minute else ac_ConnMaxLifetime config;
  ac_ConnMaxIdleTime :=
    if ac_ConnMaxIdleTime config =? 0 then 10 * Minute else ac_ConnMaxIdleTime config;
  ac_LeakDetectionThreshold :=
    if ac_LeakDetectionThreshold config =? 0 then 10 * Minute else ac_LeakDetectionThreshold config;
  ac_ValidationQuery :=
    if String.eqb (ac_ValidationQuery config) "" then
      if String.eqb (ac_DatabaseType config) DatabaseTypePostgreSQL then "SELECT 1"
      else if String.eqb (ac_DatabaseType config) DatabaseTypeMySQL then "SELECT 1"
      else "SELECT 1 FROM DUAL"
    else ac_ValidationQuery config;
  ac_ValidationTimeout :=
    if ac_ValidationTimeout config =? 0 then 5 * Second else ac_ValidationTimeout config;
  ac_WarmupConnections := ac_WarmupConnections config;
  ac_WarmupTimeout := ac_WarmupTimeout config;
  ac_ConnectionTimeout :=
    if ac_ConnectionTimeout config =? 0 then 30 * Second else ac_ConnectionTimeout config;
  ac_EnableMetrics := ac_EnableMetrics config;
  ac_EnableLeakDetection := ac_EnableLeakDetection config;
|}.

Section Open.
Context `{Pool : SqlPool W Ctx DB Conn}.

Definition NewConnectionManager (config : AdvancedConfig) : ConnectionManager DB :=
  let cm := mkConnectionManager None config ∅ 0 (NewLeakDetector config)
              (Some (NewConnectionValidator config)) false in
  cm{{cm_config := AdvancedConfig_defaults config}}.

(** The driver of a database type. *)
Definition driverName (dbType : string) : string :=
  if String.eqb dbType DatabaseTypePostgreSQL then "postgres"
  else if String.eqb dbType DatabaseTypeMySQL then "mysql"
  else if String.eqb dbType DatabaseTypeOracle then "godror"
  else "sqlite3".

Definition known_type (dbType : string) : bool :=
  String.eqb dbType DatabaseTypePostgreSQL || String.eqb dbType DatabaseTypeMySQL ||
  String.eqb dbType DatabaseTypeOracle || String.eqb dbType DatabaseTypeSQLite.

(** [Open]: the manager, the world and the error; the warm-up runs in a goroutine of its
    own ([warmupConnections]). *)
Definition ConnectionManager_Open (cm : ConnectionManager DB) (w : W)
    : ConnectionManager DB * W * option error :=
  match cm_db cm with
  | Some _ => (cm, w, None)
  | None =>
      let config := cm_config cm in
      let driver := driverName (ac_DatabaseType config) in
      let config := if known_type (ac_DatabaseType config) then config
                    else config{{ac_DatabaseType := DatabaseTypeSQLite}} in
      let cm := cm{{cm_config := config}} in
      let '(w, r) := sql_Open driver (ac_DSN config) w in
      match r with
      | Err err =>
          (cm, w, Some (Wrapf ("failed to open " +:+ ac_DatabaseType config +:+ " database: ") err ""))
      | Ok db =>
          let w := pool_configure db (ac_MaxOpenConns config) (ac_MaxIdleConns config)
                     (ac_ConnMaxLifetime config) (ac_ConnMaxIdleTime config) w in
          let '(w, ctx) := pool_WithTimeout (ac_ConnectionTimeout config) ctx_Background w in
          let '(w, ping) := pool_PingContext db ctx w in
          match ping with
          | Some err =>
              let '(w, _) := pool_Close db w in
              (cm, pool_cancel ctx w, Some (Wrapf "failed to ping database: " err ""))
          | None =>
              let cm := cm{{cm_db := Some db}} in
              let cm := if ac_EnableLeakDetection config
                        then cm{{cm_leakDetector := LeakDetector_Start (cm_leakDetector cm)}}
                        else cm in
              (cm, pool_cancel ctx w, None)
          end
      end
  end.

(** An Open that fails leaves the manager without a database. *)
Lemma ConnectionManager_Open_failed cm w cm' w' e :
  cm_db cm = None -> ConnectionManager_Open cm w = (cm', w', Some e) -> cm_db cm' = None.
Proof.
  destruct cm as [db cfg ac id ld v wd]. cbn. intros ->. unfold ConnectionManager_Open. cbn.
  destruct (sql_Open _ _ _) as [w2 [db|e1]]; [|by intros [= <- _ _]].
  destruct (pool_WithTimeout _ _ _) as [w3 ctx]. destruct (pool_PingContext db ctx w3) as [w4 [p|]]; [|done].
  destruct (pool_Close db w4) as [w5 ?]. by intros [= <- _ _].
Qed.

(** The loop of the warm-up, [n] connections. *)
Fixpoint warmup_loop (n : nat) (db : DB) (ctx : Ctx) (w : W) : W :=
  match n with
  | O => w
  | S n =>
      let '(w, r) := pool_Conn db ctx w in
      match r with
      | Err _ => warmup_loop n db ctx w
      | Ok conn => warmup_loop n db ctx (conn_Close conn w)
      end
  end.

Definition ConnectionManager_warmupConnections (cm : ConnectionManager DB) (w : W)
    : ConnectionManager DB * W :=
  match cm_warmupDone cm, cm_db cm with
  | true, _ | _, None => (cm, w)
  | false, Some db =>
      let config := cm_config cm in
      let '(w, ctx1) := pool_WithTimeout (ac_WarmupTimeout config) ctx_Background w in
      let '(w, ctx, cancels) :=
        if ac_WarmupTimeout config =? 0 then
          let '(w, ctx2) := pool_WithTimeout (30 * Second) ctx_Background w in
          (w, ctx2, [ctx2; ctx1])
        else (w, ctx1, [ctx1]) in
      let n := Z.to_nat (Z.min (ac_WarmupConnections config) (ac_MaxIdleConns config)) in
      let w := warmup_loop n db ctx w in
      (cm{{cm_warmupDone := true}}, foldl (fun w c => pool_cancel c w) w cancels)
  end.

(** [now1], [now2]: the two clock readings. *)
Definition ConnectionManager_trackConnection (now1 now2 : Z) (cm : ConnectionManager DB)
    : ConnectionManager DB :=
  let id := wrapu64 (cm_connectionID cm + 1) in
  cm{{cm_connectionID := id;
      cm_activeConnections :=
        <[id := mkTrackedConnection id now1 now2 0 ""]> (cm_activeConnections cm)}}.

(** The loop of [Validate]: the tries numbered [is]. *)
Fixpoint validate_loop (cv : ConnectionValidator) (ctx : Ctx) (conn : Conn) (tries : list Z)
    (lastErr : option error) (w : W) : W * option error :=
  match tries with
  | [] =>
      (w, Some (Errorf_w ("validation failed after " +:+ pretty (cv_maxRetries cv) +:+ " retries: ")
                  lastErr))
  | i :: tries =>
      let '(w, err) := conn_ScanOne conn ctx (cv_validationQuery cv) w in
      match err with
      | None => (w, None)
      | Some e =>
          let w := time_Sleep (wrap64 (cv_retryBackoff cv * (i + 1))) w in
          validate_loop cv ctx conn tries (Some e) w
      end
  end.

Definition ConnectionValidator_Validate (ctx : Ctx) (conn : Conn) (cv : ConnectionValidator) (w : W)
    : W * option error :=
  let '(w, ctx) := pool_WithTimeout (cv_timeout cv) ctx w in
  let '(w, err) := validate_loop cv ctx conn (seqZ 0 (cv_maxRetries cv)) None w in
  (pool_cancel ctx w, err).

Definition ConnectionManager_AcquireConnection (now1 now2 : Z) (ctx : Ctx)
    (cm : ConnectionManager DB) (w : W) : ConnectionManager DB * W * result error Conn :=
  match cm_db cm with
  | None => (cm, w, Err (Errorf "database not opened"))
  | Some db =>
      let '(w, r) := pool_Conn db ctx w in
      match r with
      | Err err => (cm, w, Err (Wrapf "failed to acquire connection: " err ""))
      | Ok conn =>
          let '(w, err) :=
            match cm_validator cm with
            | Some cv => ConnectionValidator_Validate ctx conn cv w
            | None => (w, None)
            end in
          match err with
          | Some e => (cm, conn_Close conn w, Err (Wrapf "connection validation failed: " e ""))
          | None =>
              let cm := if ac_EnableLeakDetection (cm_config cm)
                        then ConnectionManager_trackConnection now1 now2 cm else cm in
              (cm, w, Ok conn)
          end
      end
  end.

Definition ConnectionManager_ReleaseConnection (conn : Conn) (cm : ConnectionManager DB) (w : W)
    : ConnectionManager DB * W :=
  (cm, conn_Close conn w).

Definition ConnectionManager_Close (cm : ConnectionManager DB) (w : W)
    : outcome (ConnectionManager DB * W * option error) :=
  ld <-! LeakDetector_Stop (cm_leakDetector cm);
  let cm := cm{{cm_leakDetector := ld}} in
  match cm_db cm with
  | Some db =>
      let '(w, err) := pool_Close db w in
      match err with
      | Some e => Ret (cm, w, Some (Wrapf "failed to close database: " e ""))
      | None => Ret (cm{{cm_db := None; cm_activeConnections := ∅}}, w, None)
      end
  | None => Ret (cm{{cm_activeConnections := ∅}}, w, None)
  end.

Definition ConnectionManager_DB (cm : ConnectionManager DB) : option DB := cm_db cm.

(** The ages reported: the connections [range] meets that are too old. *)
Definition LeakDetector_checkLeaks (now : Z) (cm : ConnectionManager DB) (ld : LeakDetector)
    : LeakDetector :=
  foldl (fun ld '(id, conn) =>
           let age := Time_Sub now (tc_AcquiredAt conn) in
           if ld_maxConnectionAge ld <? age then
             match ld_leakCallback ld with
             | Some calls => ld{{ld_leakCallback := Some (calls ++ [(id, age)])}}
             | None => ld
             end
           else ld)
    ld (map_to_list (cm_activeConnections cm)).

(** ** Schedules *)
Inductive cm_call : Type :=
  | CmOpen
  | CmAcquire (now1 now2 : Z) (ctx : Ctx)
  | CmRelease (conn : Conn)
  | CmClose.

(** One call on a manager that has not panicked. *)
Definition cm_step (o : cm_call) (cm : ConnectionManager DB) (w : W)
    : outcome (ConnectionManager DB * W) :=
  match o with
  | CmOpen => let '(cm, w, _) := ConnectionManager_Open cm w in Ret (cm, w)
  | CmAcquire now1 now2 ctx =>
      let '(cm, w, _) := ConnectionManager_AcquireConnection now1 now2 ctx cm w in Ret (cm, w)
  | CmRelease conn => Ret (ConnectionManager_ReleaseConnection conn cm w)
  | CmClose => r <-! ConnectionManager_Close cm w; let '(cm, w, _) := r in Ret (cm, w)
  end.

Fixpoint cm_run (os : list cm_call) (cm : ConnectionManager DB) (w : W)
    : outcome (ConnectionManager DB * W) :=
  match os with
  | [] => Ret (cm, w)
  | o :: os => r <-! cm_step o cm w; let '(cm, w) := r in cm_run os cm w
  end.

Definition is_Ret {T} (o : outcome T) : Prop := exists v, o = Ret v.

Definition is_close (o : cm_call) : bool := match o with CmClose => true | _ => false end.

(** ** Lemmas *)

(** What a call other than Close does to the detector and the tracked connections. *)
Lemma cm_step_open o cm w :
  is_close o = false ->
  exists cm' w', cm_step o cm w = Ret (cm', w') /\
    (forall ld, cm_leakDetector cm = Some ld -> exists ld', cm_leakDetector cm' = Some ld' /\
       ld_stopChan ld' = ld_stopChan ld /\ ld_leakCallback ld' = ld_leakCallback ld) /\
    (cm_leakDetector cm = None -> cm_leakDetector cm' = None) /\
    (forall id, is_Some (cm_activeConnections cm !! id) -> is_Some (cm_activeConnections cm' !! id)).
Proof.
  destruct o as [|now1 now2 ctx|conn|]; cbn [is_close cm_step]; intros Hc; [| | |done].
  - unfold ConnectionManager_Open. destruct (cm_db cm) as [db|]; [by do 2 eexists; eauto 10|].
    destruct (sql_Open _ _ w) as [w1 [db|e]]; [|by do 2 eexists; destruct cm; eauto 10].
    destruct (pool_WithTimeout _ _ _) as [w2 ctx], (pool_PingContext _ _ _) as [w3 [e|]].
    + destruct (pool_Close db w3) as [w4 ?]. by do 2 eexists; destruct cm; eauto 10.
    + do 2 eexists. split; [done|]. destruct cm as [? cfg ? ? ld ? ?]. cbn.
      destruct (ac_EnableLeakDetection _); cbn; [|by eauto 10].
      split_and!; [|by intros ->|by eauto].
      intros ld0 ->. cbn. destruct (ld_stopChan ld0) eqn:Hs; [by eauto|].
      eexists. split; [done|]. by destruct ld0.
  - unfold ConnectionManager_AcquireConnection. destruct (cm_db cm) as [db|]; [|by do 2 eexists; eauto 10].
    destruct (pool_Conn _ _ _) as [w1 [conn|e]]; [|by do 2 eexists; eauto 10].
    destruct (match cm_validator cm with Some cv => _ | None => _ end) as [w2 [e|]];
      [by do 2 eexists; eauto 10|].
    do 2 eexists. split; [done|]. destruct (ac_EnableLeakDetection _); [|by eauto 10].
    destruct cm. cbn. split_and!; [by eauto|done|].
    intros id Hid. apply lookup_insert_is_Some'. by right.
  - by do 2 eexists; eauto 10.
Qed.

(** Close, seen from the detector. *)
Lemma cm_step_close cm w :
  match cm_leakDetector cm with
  | Some ld =>
      if ld_stopChan ld then cm_step CmClose cm w = Panic "close of closed channel"
      else exists cm' w' ld', cm_step CmClose cm w = Ret (cm', w') /\
             cm_leakDetector cm' = Some ld' /\ ld_stopChan ld' = true /\
             ld_leakCallback ld' = ld_leakCallback ld
  | None => exists cm' w', cm_step CmClose cm w = Ret (cm', w') /\ cm_leakDetector cm' = None
  end.
Proof.
  cbn [cm_step]. unfold ConnectionManager_Close, LeakDetector_Stop.
  destruct cm as [db cfg act id [ld|] val wd]; cbn.
  - destruct (ld_stopChan ld); [done|]. cbn.
    destruct db as [db|]; [destruct (pool_Close db w) as [w1 [e|]]|]; cbn;
      do 3 eexists; (split; [reflexivity|]; split; [reflexivity|]; by destruct ld).
  - destruct db as [db|]; [destruct (pool_Close db w) as [w1 [e|]]|]; cbn; by do 2 eexists.
Qed.

Definition closes (os : list cm_call) : nat := length (List.filter is_close os).

(** How a schedule ends depends on its Closes only. *)
Lemma cm_run_closes os cm w :
  match cm_leakDetector cm with
  | Some ld =>
      (is_Ret (cm_run os cm w) <-> (closes os + (if ld_stopChan ld then 1 else 0) <= 1)%nat)
  | None => is_Ret (cm_run os cm w)
  end.
Proof.
  unfold closes. revert cm w. induction os as [|o os IH]; intros cm w.
  { cbn. destruct (cm_leakDetector cm) as [ld|]; [|by eexists].
    split; [by destruct (ld_stopChan ld); lia|by eexists]. }
  cbn [cm_run List.filter]. destruct (is_close o) eqn:Ho.
  - assert (o = CmClose) as -> by (by destruct o). pose proof (cm_step_close cm w) as Hs.
    destruct (cm_leakDetector cm) as [ld|].
    + destruct (ld_stopChan ld).
      * rewrite Hs. cbn. split; [by intros [? ?]|lia].
      * destruct Hs as (cm' & w' & ld' & -> & Hld & Hst & _). cbn [outcome_bind].
        specialize (IH cm' w'). rewrite Hld, Hst in IH. rewrite IH. cbn [length]. lia.
    + destruct Hs as (cm' & w' & -> & Hld). cbn [outcome_bind].
      specialize (IH cm' w'). by rewrite Hld in IH.
  - destruct (cm_step_open o cm w Ho) as (cm' & w' & -> & Hsome & Hnone & _). cbn [outcome_bind].
    specialize (IH cm' w'). destruct (cm_leakDetector cm) as [ld|].
    + destruct (Hsome ld eq_refl) as (ld' & Hld & Hst & _). rewrite Hld, Hst in IH. exact IH.
    + by rewrite (Hnone eq_refl) in IH.
Qed.

(** The callback of the detector stays what the constructor left: nil. *)
Lemma cm_run_silent os cm w cm' w' :
  (forall ld, cm_leakDetector cm = Some ld -> ld_leakCallback ld = None) ->
  cm_run os cm w = Ret (cm', w') ->
  forall ld, cm_leakDetector cm' = Some ld -> ld_leakCallback ld = None.
Proof.
  revert cm w. induction os as [|o os IH]; intros cm w Hcb; cbn [cm_run]; [by intros [= <- _]|].
  destruct (is_close o) eqn:Ho.
  - assert (o = CmClose) as -> by (by destruct o). pose proof (cm_step_close cm w) as Hs.
    destruct (cm_leakDetector cm) as [ld|].
    + destruct (ld_stopChan ld); [by rewrite Hs|].
      destruct Hs as (cm1 & w1 & ld' & -> & Hld & _ & Hcb'). cbn [outcome_bind]. apply IH.
      rewrite Hld. intros ? [= <-]. rewrite Hcb'. by apply Hcb.
    + destruct Hs as (cm1 & w1 & -> & Hld). cbn [outcome_bind]. apply IH. by rewrite Hld.
  - destruct (cm_step_open o cm w Ho) as (cm1 & w1 & -> & Hsome & Hnone & _). cbn [outcome_bind].
    apply IH. intros ld1 Hld1. destruct (cm_leakDetector cm) as [ld|]; [|by rewrite Hnone in Hld1].
    destruct (Hsome ld eq_refl) as (ld' & Hld & _ & Hcb'). rewrite Hld1 in Hld.
    injection Hld as ->. rewrite Hcb'. by apply Hcb.
Qed.

Lemma checkLeaks_silent now cm ld :
  ld_leakCallback ld = None -> LeakDetector_checkLeaks now cm ld = ld.
Proof.
  intros Hcb. unfold LeakDetector_checkLeaks.
  induction (map_to_list (cm_activeConnections cm)) as [|[id c] l IH]; [done|]. cbn.
  rewrite Hcb. by destruct (_ <? _).
Qed.

(** ** Properties *)

(** C34: A manager can be closed once: any schedule of calls on a fresh manager runs
    without panic exactly when leak detection is off or Close is called at most once.
    In particular open, close, open again, close (a reconnection) panics. *)
Theorem ConnectionManager_single_close config os w :
  is_Ret (cm_run os (NewConnectionManager config) w) <->
    (ac_EnableLeakDetection config = false \/ (closes os <= 1)%nat).
Proof.
  pose proof (cm_run_closes os (NewConnectionManager config) w) as Hr.
  assert (Hld : cm_leakDetector (NewConnectionManager config) = NewLeakDetector config) by done.
  rewrite Hld in Hr. unfold NewLeakDetector in Hr. destruct (ac_EnableLeakDetection config).
  - cbn in Hr. rewrite Hr, Nat.add_0_r. intuition discriminate.
  - split; [by left|done].
Qed.

(** Leak detection reports nothing, ever: no schedule gives the detector a
    callback, so a check at any time on any set of connections changes nothing. *)
Theorem LeakDetector_never_reports config os w cm w' ld now :
  cm_run os (NewConnectionManager config) w = Ret (cm, w') ->
  cm_leakDetector cm = Some ld ->
  LeakDetector_checkLeaks now cm ld = ld /\ ld_leakCallback ld = None.
Proof.
  intros Hrun Hld.
  assert (Hcb : ld_leakCallback ld = None).
  { eapply (cm_run_silent os _ w); [|done..]. intros ld0. unfold NewConnectionManager, NewLeakDetector.
    cbn. destruct (ac_EnableLeakDetection config); [|done]. by intros [= <-]. }
  split; [by apply checkLeaks_silent|done].
Qed.

(** The defaults come too late: the validator and the detector are built from the
    configuration before the defaults are written into it, so an unset validation
    timeout, query or leak threshold reaches them as zero, while the manager's own
    configuration has the default. *)
Theorem NewConnectionManager_defaults_late config :
  ac_ValidationTimeout config = 0 -> ac_ValidationQuery config = ""%string ->
  ac_LeakDetectionThreshold config = 0 -> ac_EnableLeakDetection config = true ->
  let cm := NewConnectionManager config in
  (exists cv, cm_validator cm = Some cv /\ cv_timeout cv = 0 /\ cv_validationQuery cv = ""%string) /\
  (exists ld, cm_leakDetector cm = Some ld /\ ld_maxConnectionAge ld = 0) /\
  ac_ValidationTimeout (cm_config cm) = 5 * Second /\
  ac_LeakDetectionThreshold (cm_config cm) = 10 * Minute /\
  ac_ValidationQuery (cm_config cm) =
    (if String.eqb (ac_DatabaseType config) DatabaseTypePostgreSQL ||
        String.eqb (ac_DatabaseType config) DatabaseTypeMySQL
     then "SELECT 1" else "SELECT 1 FROM DUAL")%string.
Proof.
  intros Ht Hq Hl He. cbn zeta. unfold NewConnectionManager, NewLeakDetector, NewConnectionValidator.
  rewrite He, Ht, Hq, Hl. cbn [negb].
  split_and!; [by eexists; split_and!|by eexists; split_and!|..]; cbn; rewrite ?Ht, ?Hq, ?Hl; try done.
  cbn. by destruct (String.eqb _ DatabaseTypePostgreSQL).
Qed.

End Open.

(** ** The hypotheses can hold *)
Section Witnesses.

(** A pool where everything succeeds; the world counts the connections handed out. *)
#[local] Instance easy_pool : SqlPool Z unit unit Z := {
  sql_Open _ _ w := (w, Ok tt);
  pool_configure _ _ _ _ _ w := w;
  pool_PingContext _ _ w := (w, None);
  pool_Close _ w := (w, None);
  pool_Conn _ _ w := (w + 1, Ok w);
  conn_Close _ w := w;
  conn_ScanOne _ _ _ w := (w, None);
  ctx_Background := tt;
  pool_WithTimeout _ c w := (w, c);
  pool_cancel _ w := w;
  time_Sleep _ w := w;
}.

Definition open_example_config : AdvancedConfig :=
  mkAdvancedConfig "" ":memory:" 0 0 0 0 0 "" 0 0 0 0 false true.

Definition open_example_calls : list (cm_call (Ctx := unit) (Conn := Z)) :=
  [CmOpen; CmAcquire 5 5 tt; CmRelease 0].

(** A connection acquired at 5 and released is still tracked an hour later, and its
    age is past the detector's limit of zero. *)
Lemma LeakDetector_never_reports_witness :
  exists cm w' ld,
    cm_run open_example_calls (NewConnectionManager open_example_config) 0 = Ret (cm, w') /\
    cm_leakDetector cm = Some ld /\
    size (cm_activeConnections cm) = 1%nat /\
    LeakDetector_checkLeaks (60 * Minute) cm ld = ld.
Proof.
  destruct (cm_run open_example_calls (NewConnectionManager open_example_config) 0)
    as [[cm w']|m] eqn:Hr; [|vm_compute in Hr; discriminate Hr].
  destruct (cm_leakDetector cm) as [ld|] eqn:Hld;
    [|vm_compute in Hr; injection Hr as <- _; discriminate Hld].
  exists cm, w', ld. split; [reflexivity|split; [exact Hld|split]].
  - vm_compute in Hr. injection Hr as <- _. reflexivity.
  - apply (LeakDetector_never_reports _ _ _ _ _ _ (60 * Minute) Hr Hld).
Defined.

Lemma NewConnectionManager_defaults_late_witness :
  exists cv, cm_validator (NewConnectionManager (DB := unit) open_example_config) = Some cv /\
    cv_timeout cv = 0 /\ cv_validationQuery cv = ""%string.
Proof.
  apply (NewConnectionManager_defaults_late open_example_config eq_refl eq_refl eq_refl eq_refl).
Defined.

(** Reconnecting: the second Close panics. *)
Example reconnect_panics :
  cm_run [CmOpen; CmClose; CmOpen; CmClose]
    (NewConnectionManager open_example_config) 0 = Panic "close of closed channel".
Proof. reflexivity. Qed.

End Witnesses.
