(* ===== verification/Strconv.v ===== *)
(** * Parsing of settings (strconv and time, as config.go uses them)

    [strconv.Atoi] and [ParseInt(_, 10, 64)], [ParseBool] and [time.ParseDuration], on
    strings of bytes; [None] is an error. *)
From Stdlib Require Import Ascii.
From S2P Require Import Prelude.
From S2P Require Import GoFloat.
Local Open Scope Z_scope.

Definition digit (c : ascii) : option Z :=
  let n := Z.of_nat (nat_of_ascii c) in
  if (48 <=? n) && (n <=? 57) then Some (n - 48) else None.

(** The digits of a decimal number, most significant first; all of [s]. *)
Fixpoint parse_digits (acc : Z) (s : string) : option Z :=
  match s with
  | EmptyString => Some acc
  | String c s => match digit c with Some d => parse_digits (acc * 10 + d) s | None => None end
  end.

(** [strconv.ParseInt(s, 10, 64)]; [strconv.Atoi] on a 64-bit platform. *)
Definition ParseInt (s : string) : option Z :=
  let '(neg, s) :=
    match s with
    | String "-" s => (true, s)
    | String "+" s => (false, s)
    | _ => (false, s)
    end in
  if String.eqb s "" then None
  else
    match parse_digits 0 s with
    | Some n =>
        let n := if neg then - n else n in
        if decide (in_int64 n) then Some n else None
    | None => None
    end.

Definition Atoi : string -> option Z := ParseInt.

Definition ParseBool (s : string) : option bool :=
  if existsb (String.eqb s) ["1"; "t"; "T"; "true"; "TRUE"; "True"]%string then Some true
  else if existsb (String.eqb s) ["0"; "f"; "F"; "false"; "FALSE"; "False"]%string then Some false
  else None.

(** ** time.ParseDuration *)

(** [leadingInt]: the leading digits and the rest; [None] on overflow of 2^63. *)
Fixpoint leadingInt (x : Z) (s : string) : option (Z * string) :=
  match s with
  | String c s' =>
      match digit c with
      | Some d =>
          if 2 ^ 63 / 10 <? x then None
          else
            let x := x * 10 + d in
            if 2 ^ 63 <? x then None else leadingInt x s'
      | None => Some (x, s)
      end
  | EmptyString => Some (x, s)
  end.

(** [leadingFraction]: digits past an overflow are skipped. *)
Fixpoint leadingFraction (x : Z) (scale : float64) (overflow : bool) (s : string)
    : Z * float64 * string :=
  match s with
  | String c s' =>
      match digit c with
      | Some d =>
          if overflow then leadingFraction x scale true s'
          else if int64_max / 10 <? x then leadingFraction x scale true s'
          else
            let y := x * 10 + d in
            if 2 ^ 63 <? y then leadingFraction x scale true s'
            else leadingFraction y (f64_mul scale (f64_of_Z 10)) false s'
      | None => (x, scale, s)
      end
  | EmptyString => (x, scale, s)
  end.

(** The unit: everything up to a dot or a digit. *)
Fixpoint leadingUnit (s : string) : string * string :=
  match s with
  | String c s' =>
      if Ascii.eqb c "." then (EmptyString, s)
      else match digit c with
           | Some _ => (EmptyString, s)
           | None => let '(u, r) := leadingUnit s' in (String c u, r)
           end
  | EmptyString => (EmptyString, s)
  end.

(** The two spellings of the micro sign, U+00B5 and U+03BC, in UTF-8. *)
Definition micro_sign : string := String (ascii_of_nat 194) (String (ascii_of_nat 181) "s").
Definition greek_mu : string := String (ascii_of_nat 206) (String (ascii_of_nat 188) "s").

Definition unitMap (u : string) : option Z :=
  if String.eqb u "ns" then Some Nanosecond
  else if String.eqb u "us" || String.eqb u micro_sign || String.eqb u greek_mu then Some 1000
  else if String.eqb u "ms" then Some Millisecond
  else if String.eqb u "s" then Some Second
  else if String.eqb u "m" then Some Minute
  else if String.eqb u "h" then Some (60 * Minute)
  else None.

Section ParseDuration.
(** Conversion of an out-of-range float64 to an integer. *)
Context (oor : float64 -> Z).

(** One number with its unit: its nanoseconds and the rest of the string. *)
Definition duration_term (s : string) : option (Z * string) :=
  match leadingInt 0 s with
  | None => None
  | Some (v, s1) =>
      let pre := negb (String.length s1 =? String.length s)%nat in
      let '(f, scale, s2, post) :=
        match s1 with
        | String "." s1' =>
            let '(f, scale, s2) := leadingFraction 0 (f64_of_Z 1) false s1' in
            (f, scale, s2, negb (String.length s2 =? String.length s1')%nat)
        | _ => (0, f64_of_Z 1, s1, false)
        end in
      if negb pre && negb post then None
      else
        let '(u, rest) := leadingUnit s2 in
        if String.eqb u "" then None
        else
          match unitMap u with
          | None => None
          | Some unit =>
              if 2 ^ 63 / unit <? v then None
              else
                let v := v * unit in
                let v :=
                  if 0 <? f then
                    v + Int64_of_float oor (f64_mul (f64_of_Z f) (f64_div (f64_of_Z unit) scale))
                  else v in
                if 2 ^ 63 <? v then None else Some (v, rest)
          end
  end.

(** The loop over the terms; every term consumes its unit, so the length of the
    string is enough fuel. *)
Fixpoint duration_terms (fuel : nat) (d : Z) (s : string) : option Z :=
  if String.eqb s "" then Some d
  else
    match fuel with
    | O => None
    | S fuel =>
        match duration_term s with
        | None => None
        | Some (v, rest) =>
            let d := d + v in
            if 2 ^ 63 <? d then None else duration_terms fuel d rest
        end
    end.

Definition ParseDuration (s : string) : option Z :=
  let '(neg, s) :=
    match s with
    | String "-" s => (true, s)
    | String "+" s => (false, s)
    | _ => (false, s)
    end in
  if String.eqb s "0" then Some 0
  else if String.eqb s "" then None
  else
    match duration_terms (String.length s) 0 s with
    | None => None
    | Some d =>
        if neg then Some (- d)
        else if int64_max <? d then None else Some d
    end.

End ParseDuration.

Example ParseDuration_example :
  map (ParseDuration (fun _ => 0)) ["1h30m"; "1.5s"; "-250ms"; "10"; "s"; "0"]%string =
    [Some (90 * Minute); Some (1500 * Millisecond); Some (-250 * Millisecond); None; None; Some 0].
Proof. vm_compute. reflexivity. Qed.

Lemma ParseInt_in s n : ParseInt s = Some n -> in_int64 n.
Proof.
  unfold ParseInt. destruct (match s with EmptyString => _ | _ => _ end) as [neg s'].
  destruct (String.eqb s' ""); [done|]. destruct (parse_digits 0 s') as [m|]; [|done].
  case_decide; [|done]. by intros [= <-].
Qed.

(** ** Printing and parsing numbers *)
Lemma digit_char n : (n < 10)%N -> digit (pretty_N_char n) = Some (Z.of_N n).
Proof.
  intros Hn. assert (n ∈ [0; 1; 2; 3; 4; 5; 6; 7; 8; 9]%N) as Hin.
  { rewrite !elem_of_cons. lia. }
  rewrite !elem_of_cons, elem_of_nil in Hin.
  by repeat match type of Hin with _ \/ _ => destruct Hin as [->|Hin] end.
Qed.

Lemma parse_pretty_go n s : parse_digits 0 (pretty_N_go n s) = parse_digits (Z.of_N n) s.
Proof.
  revert s. induction (N.lt_wf_0 n) as [n _ IH]. intros s.
  destruct (decide (n = 0%N)) as [->|Hn]; [done|].
  rewrite pretty_N_go_step by lia.
  rewrite IH by (apply N.div_lt; lia). cbn [parse_digits].
  rewrite digit_char by (apply N.mod_lt; lia). f_equal.
  pose proof (N.div_mod n 10 ltac:(lia)) as Hdm. lia.
Qed.

Lemma parse_pretty_N (n : N) : parse_digits 0 (pretty n) = Some (Z.of_N n).
Proof.
  unfold pretty, pretty_N. case_decide as Hn; [by subst|]. by rewrite parse_pretty_go.
Qed.

(** A string of digits does not start with a sign. *)
Lemma parse_digits_unsigned s n :
  s <> ""%string -> parse_digits 0 s = Some n ->
  match s with
  | String "-" s => (true, s)
  | String "+" s => (false, s)
  | _ => (false, s)
  end = (false, s).
Proof.
  destruct s as [|c s]; [done|]. intros _. cbn [parse_digits].
  destruct (digit c) as [d|] eqn:Hd; [|done]. intros _.
  by destruct c as [[] [] [] [] [] [] [] []].
Qed.

Lemma pretty_N_nonempty (n : N) : pretty n <> ""%string.
Proof.
  unfold pretty, pretty_N. case_decide as Hn; [done|].
  assert (Hl : forall m s, s <> ""%string -> pretty_N_go m s <> ""%string).
  { intros m. induction (N.lt_wf_0 m) as [m _ IH]. intros s Hs.
    destruct (decide (m = 0%N)) as [->|Hm]; [done|]. rewrite pretty_N_go_step by lia.
    apply IH; [apply N.div_lt; lia|done]. }
  rewrite pretty_N_go_step by lia. by apply Hl.
Qed.

(** ParseInt reads back what the decimal formatting verb writes. *)
Lemma ParseInt_pretty (n : Z) : in_int64 n -> ParseInt (pretty n) = Some n.
Proof.
  intros Hn.
  assert (Hpos : forall p, parse_digits 0 (pretty (N.pos p)) = Some (Z.pos p))
    by (intros p; apply parse_pretty_N).
  destruct n as [|p|p]; [done| |].
  - change (pretty (Z.pos p)) with (pretty (N.pos p)). unfold ParseInt.
    rewrite (parse_digits_unsigned _ _ (pretty_N_nonempty (N.pos p)) (Hpos p)).
    rewrite (proj2 (String.eqb_neq _ _) (pretty_N_nonempty (N.pos p))), Hpos.
    by rewrite decide_True.
  - change (pretty (Z.neg p)) with (String "-" (pretty (N.pos p))). unfold ParseInt.
    rewrite (proj2 (String.eqb_neq _ _) (pretty_N_nonempty (N.pos p))), Hpos.
    by rewrite decide_True.
Qed.
