(* ===== verification/JsonString.v ===== *)
(** * Strings in JSON text (encoding/json, as the protocol and the blob tool use it)

    UTF-8 as Go reads it (a byte that is part of no rune counts as U+FFFD), the string
    encoder with its escapes and the string decoder, and that the second undoes the
    first up to what is not UTF-8. *)
From Stdlib Require Import Ascii.
From S2P Require Import Prelude.
From S2P Require Import GoStrings.
Local Open Scope string_scope.
Local Open Scope list_scope.
Local Open Scope Z_scope.

Definition code (c : ascii) : Z := Z.of_N (N_of_ascii c).
Definition chr (z : Z) : ascii := ascii_of_N (Z.to_N z).

Definition between (lo x hi : Z) : bool := (lo <=? x) && (x <=? hi).

(** ** UTF-8 *)
Definition cont (c : ascii) : bool := between 128 (code c) 191.

(** The sequences of two, three and four bytes that are runes (utf8.DecodeRune). *)
Definition rune2 (a b : ascii) : bool := between 194 (code a) 223 && cont b.

Definition rune3 (a b c : ascii) : bool :=
  between 224 (code a) 239 &&
  between (if code a =? 224 then 160 else 128) (code b) (if code a =? 237 then 159 else 191) &&
  cont c.

Definition rune4 (a b c d : ascii) : bool :=
  between 240 (code a) 244 &&
  between (if code a =? 240 then 144 else 128) (code b) (if code a =? 244 then 143 else 191) &&
  cont c && cont d.

(** A string cut into its runes; a byte that starts none stands alone. *)
Inductive rune : Type :=
  | Byte (c : ascii)
  | Multi (s : string)
  | Bad (c : ascii).

Fixpoint runes (s : string) : list rune :=
  match s with
  | EmptyString => []
  | String a s1 =>
      if code a <? 128 then Byte a :: runes s1
      else
        match s1 with
        | String b s2 =>
            if rune2 a b then Multi (String a (String b "")) :: runes s2
            else
              match s2 with
              | String c s3 =>
                  if rune3 a b c then Multi (String a (String b (String c ""))) :: runes s3
                  else
                    match s3 with
                    | String d s4 =>
                        if rune4 a b c d
                        then Multi (String a (String b (String c (String d "")))) :: runes s4
                        else Bad a :: runes s1
                    | EmptyString => Bad a :: runes s1
                    end
              | EmptyString => Bad a :: runes s1
              end
        | EmptyString => Bad a :: runes s1
        end
  end.

Fixpoint flatten {A} (f : A -> string) (l : list A) : string :=
  match l with [] => "" | x :: l => f x +:+ flatten f l end.

(** U+FFFD in UTF-8 *)
Definition replacement : string := String "239" (String "191" (String "189" "")).

(** The string with every byte that is part of no rune replaced by U+FFFD. *)
Definition rune_text (r : rune) : string :=
  match r with Byte c => String c "" | Multi s => s | Bad _ => replacement end.

Definition to_valid (s : string) : string := flatten rune_text (runes s).

(** utf8.ValidString *)
Definition valid_utf8 (s : string) : bool :=
  forallb (fun r => match r with Bad _ => false | _ => true end) (runes s).

(** ** The encoder (appendString with escapeHTML) *)
Definition hex_digit (z : Z) : ascii := chr (if z <? 10 then 48 + z else 87 + z).

Definition backslash : ascii := "092".
Definition quotation : ascii := "034".

Definition escape (c : ascii) : string := String backslash (String c "").

Definition escape_u00 (c : ascii) : string :=
  escape "u" +:+ "00" +:+ String (hex_digit (code c / 16)) (String (hex_digit (code c mod 16)) "").

(** One character below U+0080. *)
Definition enc_byte (c : ascii) : string :=
  let x := code c in
  if (x =? 34) || (x =? 92) then escape c
  else if x =? 8 then escape "b"
  else if x =? 12 then escape "f"
  else if x =? 10 then escape "n"
  else if x =? 13 then escape "r"
  else if x =? 9 then escape "t"
  else if (x <? 32) || (x =? 60) || (x =? 62) || (x =? 38) then escape_u00 c
  else String c "".

Definition line_separator : string := String "226" (String "128" (String "168" "")).
Definition paragraph_separator : string := String "226" (String "128" (String "169" "")).

Definition enc_rune (r : rune) : string :=
  match r with
  | Byte c => enc_byte c
  | Multi s =>
      if String.eqb s line_separator then escape "u" +:+ "2028"
      else if String.eqb s paragraph_separator then escape "u" +:+ "2029"
      else s
  | Bad _ => escape "u" +:+ "fffd"
  end.

Definition enc_chars (s : string) : string := flatten enc_rune (runes s).

Definition enc_string (s : string) : string :=
  String quotation (enc_chars s +:+ String quotation "").

(** ** The decoder (the scanner's string states with unquote) *)
Definition hex_value (c : ascii) : option Z :=
  let x := code c in
  if between 48 x 57 then Some (x - 48)
  else if between 97 x 102 then Some (x - 87)
  else if between 65 x 70 then Some (x - 55)
  else None.

Definition hex4 (a b c d : ascii) : option Z :=
  match hex_value a, hex_value b, hex_value c, hex_value d with
  | Some a, Some b, Some c, Some d => Some (((a * 16 + b) * 16 + c) * 16 + d)
  | _, _, _, _ => None
  end.

Definition is_surrogate (r : Z) : bool := between 55296 r 57343.

(** utf8.EncodeRune *)
Definition encode_rune (r : Z) : string :=
  if r <? 128 then String (chr r) ""
  else if r <? 2048 then String (chr (192 + r / 64)) (String (chr (128 + r mod 64)) "")
  else if is_surrogate r then replacement
  else if r <? 65536 then
    String (chr (224 + r / 4096)) (String (chr (128 + r / 64 mod 64)) (String (chr (128 + r mod 64)) ""))
  else
    String (chr (240 + r / 262144)) (String (chr (128 + r / 4096 mod 64))
      (String (chr (128 + r / 64 mod 64)) (String (chr (128 + r mod 64)) ""))).

(** utf16.DecodeRune *)
Definition surrogate_pair (r1 r2 : Z) : option Z :=
  if between 55296 r1 56319 && between 56320 r2 57343
  then Some ((r1 - 55296) * 1024 + (r2 - 56320) + 65536) else None.

(** What the escapes of one letter stand for. *)
Definition unescape (c : ascii) : option ascii :=
  let x := code c in
  if (x =? 34) || (x =? 92) || (x =? 47) then Some c
  else if x =? 98 then Some (chr 8)
  else if x =? 102 then Some (chr 12)
  else if x =? 110 then Some (chr 10)
  else if x =? 114 then Some (chr 13)
  else if x =? 116 then Some (chr 9)
  else None.

Definition push (p : string) (o : option (string * string)) : option (string * string) :=
  match o with Some (x, rest) => Some (p +:+ x, rest) | None => None end.

(** The characters up to the closing quote, and what follows it. *)
Fixpoint unquote (s : string) : option (string * string) :=
  match s with
  | EmptyString => None
  | String a s1 =>
      let x := code a in
      if x =? 34 then Some ("", s1)
      else if x =? 92 then
        match s1 with
        | EmptyString => None
        | String e s2 =>
            if code e =? 117 then
              match s2 with
              | String h1 (String h2 (String h3 (String h4 s3))) =>
                  match hex4 h1 h2 h3 h4 with
                  | None => None
                  | Some r =>
                      if is_surrogate r then
                        match s3 with
                        | String b1 (String b2 (String g1 (String g2 (String g3 (String g4 s4))))) =>
                            if (code b1 =? 92) && (code b2 =? 117) then
                              match hex4 g1 g2 g3 g4 with
                              | None => None
                              | Some r2 =>
                                  match surrogate_pair r r2 with
                                  | Some r => push (encode_rune r) (unquote s4)
                                  | None => push replacement (unquote s3)
                                  end
                              end
                            else push replacement (unquote s3)
                        | _ => push replacement (unquote s3)
                        end
                      else push (encode_rune r) (unquote s3)
                  end
              | _ => None
              end
            else
              match unescape e with
              | Some c => push (String c "") (unquote s2)
              | None => None
              end
        end
      else if x <? 32 then None
      else if x <? 128 then push (String a "") (unquote s1)
      else
        match s1 with
        | String b s2 =>
            if rune2 a b then push (String a (String b "")) (unquote s2)
            else
              match s2 with
              | String c s3 =>
                  if rune3 a b c then push (String a (String b (String c ""))) (unquote s3)
                  else
                    match s3 with
                    | String d s4 =>
                        if rune4 a b c d
                        then push (String a (String b (String c (String d "")))) (unquote s4)
                        else push replacement (unquote s1)
                    | EmptyString => push replacement (unquote s1)
                    end
              | EmptyString => push replacement (unquote s1)
              end
        | EmptyString => push replacement (unquote s1)
        end
  end.

(** ** Induction along the runes *)

(** The byte sequences of a rune beyond ASCII. *)
Inductive multi : string -> Prop :=
  | multi2 a b : rune2 a b = true -> multi (String a (String b ""))
  | multi3 a b c : rune3 a b c = true -> multi (String a (String b (String c "")))
  | multi4 a b c d : rune4 a b c d = true -> multi (String a (String b (String c (String d "")))).

Lemma runes_ind (P : string -> list rune -> Prop) :
  P "" [] ->
  (forall c s rs, code c < 128 -> P s rs -> P (String c s) (Byte c :: rs)) ->
  (forall m s rs, multi m -> P s rs -> P (m +:+ s) (Multi m :: rs)) ->
  (forall c s rs, 128 <= code c -> P s rs -> P (String c s) (Bad c :: rs)) ->
  forall s, P s (runes s).
Proof.
  intros H0 Hb Hm Hbad s. assert (Hn : (String.length s <= String.length s)%nat) by lia.
  revert Hn. generalize (String.length s) at 2. intros n. revert s.
  induction n as [|n IH]; intros [|a s1] Hn; [exact H0|cbn in Hn; lia|exact H0|].
  cbn [String.length] in Hn. assert (IH1 : P s1 (runes s1)) by (apply IH; lia). cbn [runes].
  destruct (Z.ltb_spec (code a) 128) as [Ha|Ha]; [by apply Hb|].
  destruct s1 as [|b s2]; [by apply Hbad|]. cbn [String.length] in Hn.
  destruct (rune2 a b) eqn:H2; [apply (Hm (String a (String b "")) s2); [by constructor|apply IH; lia]|].
  destruct s2 as [|c s3]; [by apply Hbad|]. cbn [String.length] in Hn.
  destruct (rune3 a b c) eqn:H3;
    [apply (Hm (String a (String b (String c ""))) s3); [by constructor|apply IH; lia]|].
  destruct s3 as [|d s4]; [by apply Hbad|]. cbn [String.length] in Hn.
  destruct (rune4 a b c d) eqn:H4; [|by apply Hbad].
  apply (Hm (String a (String b (String c (String d "")))) s4); [by constructor|apply IH; lia].
Qed.

(** ** Valid strings *)
Lemma to_valid_valid s : valid_utf8 s = true -> to_valid s = s.
Proof.
  unfold valid_utf8, to_valid. revert s.
  refine (runes_ind (fun s rs => forallb _ rs = true -> flatten rune_text rs = s) _ _ _ _); cbn;
    [done|..|done].
  - intros c s rs _ IH Hv. by rewrite IH.
  - intros m s rs _ IH Hv. by rewrite IH.
Qed.

(** ** The decoder undoes the encoder *)
Lemma push_push p q o : push p (push q o) = push (p +:+ q) o.
Proof. destruct o as [[x rest]|]; [|done]. cbn. by rewrite String_app_assoc. Qed.

(** One escaped or plain character below U+0080. *)
Lemma unquote_byte c t : code c < 128 -> unquote (enc_byte c +:+ t) = push (String c "") (unquote t).
Proof.
  intros Hc. destruct c as [[] [] [] [] [] [] [] []]; first [exfalso; vm_compute in Hc; discriminate Hc | reflexivity].
Qed.

Lemma rune2_lead a b : rune2 a b = true -> 194 <= code a <= 223.
Proof. unfold rune2, between. intros H. bool_to_prop. lia. Qed.

Lemma rune3_lead a b c : rune3 a b c = true -> 224 <= code a <= 239.
Proof. unfold rune3, between. intros H. bool_to_prop. lia. Qed.

Lemma rune4_lead a b c d : rune4 a b c d = true -> 240 <= code a <= 244.
Proof. unfold rune4, between. intros H. bool_to_prop. lia. Qed.

(** A rune's class follows from its first byte. *)
Lemma rune2_out a b : ~ 194 <= code a <= 223 -> rune2 a b = false.
Proof. intros Ha. apply not_true_iff_false. by intros H%rune2_lead. Qed.

Lemma rune3_out a b c : ~ 224 <= code a <= 239 -> rune3 a b c = false.
Proof. intros Ha. apply not_true_iff_false. by intros H%rune3_lead. Qed.

Lemma unquote_high a s1 :
  128 <= code a ->
  unquote (String a s1) =
    match s1 with
    | String b s2 =>
        if rune2 a b then push (String a (String b "")) (unquote s2)
        else
          match s2 with
          | String c s3 =>
              if rune3 a b c then push (String a (String b (String c ""))) (unquote s3)
              else
                match s3 with
                | String d s4 =>
                    if rune4 a b c d
                    then push (String a (String b (String c (String d "")))) (unquote s4)
                    else push replacement (unquote s1)
                | EmptyString => push replacement (unquote s1)
                end
          | EmptyString => push replacement (unquote s1)
          end
    | EmptyString => push replacement (unquote s1)
    end.
Proof.
  intros Ha. cbn [unquote].
  destruct (Z.eqb_spec (code a) 34); [lia|]. destruct (Z.eqb_spec (code a) 92); [lia|].
  destruct (Z.ltb_spec (code a) 32); [lia|]. destruct (Z.ltb_spec (code a) 128); [lia|done].
Qed.

Lemma unquote_multi m t : multi m -> unquote (m +:+ t) = push m (unquote t).
Proof.
  intros Hm. destruct Hm as [a b H|a b c H|a b c d H].
  - pose proof (rune2_lead a b H) as Ha. etransitivity; [apply (unquote_high a (String b t)); lia|].
    by rewrite H.
  - pose proof (rune3_lead a b c H) as Ha.
    etransitivity; [apply (unquote_high a (String b (String c t))); lia|].
    by rewrite rune2_out, H by lia.
  - pose proof (rune4_lead a b c d H) as Ha.
    etransitivity; [apply (unquote_high a (String b (String c (String d t)))); lia|].
    by rewrite rune2_out, rune3_out, H by lia.
Qed.

Lemma unquote_rune r t :
  (match r with Byte c => code c < 128 | Multi m => multi m | Bad _ => True end) ->
  unquote (enc_rune r +:+ t) = push (rune_text r) (unquote t).
Proof.
  destruct r as [c|m|c]; cbn [enc_rune rune_text]; [apply unquote_byte| |done].
  intros Hm. destruct (String.eqb_spec m line_separator) as [->|_]; [done|].
  destruct (String.eqb_spec m paragraph_separator) as [->|_]; [done|]. by apply unquote_multi.
Qed.

(** What a string's text decodes to: the string, with U+FFFD for what is not UTF-8. *)
Lemma unquote_enc_chars s rest :
  unquote (enc_chars s +:+ String quotation rest) = Some (to_valid s, rest).
Proof.
  unfold enc_chars, to_valid. revert s.
  refine (runes_ind (fun s rs => unquote (flatten enc_rune rs +:+ String quotation rest) =
                                 Some (flatten rune_text rs, rest)) _ _ _ _); [done|..];
    intros x s rs Hx IH; cbn [flatten]; rewrite String_app_assoc, unquote_rune by done;
    by rewrite IH.
Qed.

(** ** What the encoder writes *)

(** No control character, and none of the characters HTML reads. *)
Definition plain (c : ascii) : bool :=
  let x := code c in
  (32 <=? x) && negb ((x =? 60) || (x =? 62) || (x =? 38)).

Definition plain_text (s : string) : bool := forallb plain (String.list_ascii_of_string s).

Lemma plain_text_app s t : plain_text (s +:+ t) = plain_text s && plain_text t.
Proof.
  unfold plain_text. induction s as [|c s IH]; [done|].
  change (plain c && forallb plain (String.list_ascii_of_string (s +:+ t)) =
    plain c && forallb plain (String.list_ascii_of_string s) &&
    forallb plain (String.list_ascii_of_string t)).
  by rewrite IH, andb_assoc.
Qed.

Lemma plain_high c : 128 <= code c -> plain c = true.
Proof.
  intros Hc. unfold plain. destruct (Z.leb_spec 32 (code c)); [|lia].
  destruct (Z.eqb_spec (code c) 60); [lia|]. destruct (Z.eqb_spec (code c) 62); [lia|].
  destruct (Z.eqb_spec (code c) 38); [lia|done].
Qed.

Lemma plain_multi m : multi m -> plain_text m = true.
Proof.
  intros Hm. assert (Hc : forall c, cont c = true -> plain c = true).
  { intros c. unfold cont, between. intros H. bool_to_prop. by apply plain_high. }
  assert (Hb : forall (lo hi : Z) c, 128 <= lo -> between lo (code c) hi = true -> plain c = true).
  { intros lo hi c Hlo. unfold between. intros H. bool_to_prop. apply plain_high. lia. }
  unfold plain_text. destruct Hm as [a b H|a b c H|a b c d H]; cbn [String.list_ascii_of_string forallb].
  - pose proof (rune2_lead _ _ H). unfold rune2 in H. apply andb_prop in H as [_ H].
    rewrite plain_high by lia. by rewrite Hc.
  - pose proof (rune3_lead _ _ _ H). unfold rune3 in H. apply andb_prop in H as [H H3].
    apply andb_prop in H as [_ H]. rewrite plain_high by lia. rewrite (Hc c) by done.
    eapply Hb in H; [by rewrite H|by destruct (code a =? 224)].
  - pose proof (rune4_lead _ _ _ _ H). unfold rune4 in H. apply andb_prop in H as [H H4].
    apply andb_prop in H as [H H3]. apply andb_prop in H as [_ H]. rewrite plain_high by lia.
    rewrite (Hc c), (Hc d) by done.
    eapply Hb in H; [by rewrite H|by destruct (code a =? 240)].
Qed.

Lemma plain_enc_byte c : code c < 128 -> plain_text (enc_byte c) = true.
Proof.
  intros Hc. destruct c as [[] [] [] [] [] [] [] []];
    first [exfalso; vm_compute in Hc; discriminate Hc | reflexivity].
Qed.

Lemma plain_enc_string s : plain_text (enc_string s) = true.
Proof.
  change (plain_text (String quotation "" +:+ (enc_chars s +:+ String quotation "")) = true).
  rewrite !plain_text_app. change (plain_text (String quotation "")) with true.
  rewrite andb_true_r, andb_true_l. unfold enc_chars. revert s.
  refine (runes_ind (fun s rs => plain_text (flatten enc_rune rs) = true) _ _ _ _); [done|..];
    intros x s rs Hx IH; cbn [flatten enc_rune]; rewrite plain_text_app, IH, andb_true_r.
  - by apply plain_enc_byte.
  - destruct (String.eqb_spec x line_separator); [done|].
    destruct (String.eqb_spec x paragraph_separator); [done|]. by apply plain_multi.
  - done.
Qed.

Example enc_string_example :
  enc_string ("<a" +:+ String "010" (String "255" "")) =
    String quotation ("\u003ca\n\ufffd" +:+ String quotation "").
Proof. reflexivity. Qed.

(** A surrogate pair, and half of one. *)
Example unquote_example :
  unquote ("\ud83d\ude00" +:+ String quotation "") =
    Some (String "240" (String "159" (String "152" (String "128" ""))), "") /\
  unquote ("\ud83dx" +:+ String quotation "") = Some (replacement +:+ "x", "").
Proof. split; reflexivity. Qed.
