(* ===== verification/Json.v ===== *)
(** * JSON text (encoding/json)

    The values of JSON, the parser (Go's scanner with its limit on nesting and the
    decoding of strings), the printers of [json.Marshal] and [json.MarshalIndent], and
    the round trip through text. The parser's loops run over the members of a container
    with a bound that the length of the text always covers. *)
From Stdlib Require Import Ascii.
From S2P Require Import Prelude.
From S2P Require Import GoStrings.
From S2P Require Import JsonString.
Local Open Scope string_scope.
Local Open Scope list_scope.
Local Open Scope nat_scope.

(** A number is the text of its literal, as the decoder keeps it. *)
Inductive json : Type :=
  | JNull
  | JBool (b : bool)
  | JNum (lit : string)
  | JStr (s : string)
  | JArr (l : list json)
  | JObj (m : list (string * json)).

Lemma json_ind' (P : json -> Prop) :
  P JNull -> (forall b, P (JBool b)) -> (forall lit, P (JNum lit)) -> (forall s, P (JStr s)) ->
  (forall l, Forall P l -> P (JArr l)) -> (forall m, Forall (fun kv => P kv.2) m -> P (JObj m)) ->
  forall v, P v.
Proof.
  intros H1 H2 H3 H4 H5 H6. fix IH 1. intros [|b|lit|s|l|m];
    [exact H1|apply H2|apply H3|apply H4|apply H5|apply H6].
  - induction l as [|v l IHl]; constructor; [apply IH|exact IHl].
  - induction m as [|[k v] m IHm]; constructor; [apply IH|exact IHm].
Qed.

(** ** Numbers *)
Definition is_digit (c : ascii) : bool := between 48 (code c) 57.

Definition num_char (c : ascii) : bool :=
  is_digit c || in_cutset "+-.eE" c.

(** The longest prefix of characters that satisfy [p], and the rest. *)
Fixpoint span (p : ascii -> bool) (s : string) : string * string :=
  match s with
  | String c s' => if p c then let '(x, r) := span p s' in (String c x, r) else ("", s)
  | EmptyString => ("", "")
  end.

(** The parts of a literal: sign, integer part, fraction, exponent. *)
Record number : Type := mkNumber {
  num_neg : bool;
  num_int : string;
  num_frac : option string;
  num_exp : option (bool * string);
}.

Definition number_sign (s : string) : bool * string :=
  match s with String "-" s => (true, s) | _ => (false, s) end.

Definition number_frac (s : string) : option (option string * string) :=
  match s with
  | String "." s =>
      let '(f, s) := span is_digit s in
      if String.eqb f "" then None else Some (Some f, s)
  | _ => Some (None, s)
  end.

Definition number_exp (s : string) : option (option (bool * string)) :=
  match s with
  | EmptyString => Some None
  | String c s =>
      if negb (in_cutset "eE" c) then None
      else
        let '(neg, s) :=
          match s with
          | String "+" s => (false, s)
          | String "-" s => (true, s)
          | _ => (false, s)
          end in
        let '(e, s) := span is_digit s in
        if String.eqb e "" || negb (String.eqb s "") then None else Some (Some (neg, e))
  end.

(** A literal: an integer part without leading zeros, digits after a point, and an
    exponent. *)
Definition parse_number (lit : string) : option number :=
  let '(neg, s) := number_sign lit in
  let '(i, s) := span is_digit s in
  if String.eqb i "" || (HasPrefix i "0" && negb (String.eqb i "0")) then None
  else
    match number_frac s with
    | None => None
    | Some (f, s) =>
        match number_exp s with
        | None => None
        | Some e => Some (mkNumber neg i f e)
        end
    end.

Definition is_number (lit : string) : bool :=
  match parse_number lit with Some _ => true | None => false end.

(** ** The parser *)
Definition is_space (c : ascii) : bool :=
  in_cutset (String "032" (String "009" (String "010" (String "013" "")))) c.

Fixpoint skip_ws (s : string) : string :=
  match s with
  | String c s' => if is_space c then skip_ws s' else s
  | EmptyString => ""
  end.

(** [s] without the prefix [pre]. *)
Fixpoint expect (pre s : string) : option string :=
  match pre, s with
  | EmptyString, _ => Some s
  | String c pre, String d s => if Ascii.eqb c d then expect pre s else None
  | _, _ => None
  end.

Section Containers.
Context {A : Type} (pv : string -> option (A * string)).

(** Values up to the closing bracket. *)
Fixpoint elems (n : nat) (s : string) : option (list A * string) :=
  match n with
  | O => None
  | S n =>
      match pv s with
      | None => None
      | Some (v, s) =>
          match skip_ws s with
          | String c s =>
              if Ascii.eqb c "," then
                match elems n s with Some (l, r) => Some (v :: l, r) | None => None end
              else if Ascii.eqb c "]" then Some ([v], s)
              else None
          | EmptyString => None
          end
      end
  end.

Definition key (s : string) : option (string * string) :=
  match skip_ws s with
  | String c s =>
      if Ascii.eqb c quotation then
        match unquote s with
        | Some (k, s) =>
            match skip_ws s with
            | String c s => if Ascii.eqb c ":" then Some (k, s) else None
            | EmptyString => None
            end
        | None => None
        end
      else None
  | EmptyString => None
  end.

(** Keys and values up to the closing brace. *)
Fixpoint members (n : nat) (s : string) : option (list (string * A) * string) :=
  match n with
  | O => None
  | S n =>
      match key s with
      | None => None
      | Some (k, s) =>
          match pv s with
          | None => None
          | Some (v, s) =>
              match skip_ws s with
              | String c s =>
                  if Ascii.eqb c "," then
                    match members n s with Some (m, r) => Some ((k, v) :: m, r) | None => None end
                  else if Ascii.eqb c "}" then Some ([(k, v)], s)
                  else None
              | EmptyString => None
              end
          end
      end
  end.

Definition array (n : nat) (s : string) : option (list A * string) :=
  match skip_ws s with
  | String c r => if Ascii.eqb c "]" then Some ([], r) else elems n s
  | EmptyString => None
  end.

Definition object (n : nat) (s : string) : option (list (string * A) * string) :=
  match skip_ws s with
  | String c r => if Ascii.eqb c "}" then Some ([], r) else members n s
  | EmptyString => None
  end.

End Containers.

Definition first {A B C} (f : A -> B) (o : option (A * C)) : option (B * C) :=
  match o with Some (x, r) => Some (f x, r) | None => None end.

Definition literal (v : json) (text s : string) : option (json * string) :=
  match expect text s with Some r => Some (v, r) | None => None end.

Definition number_value (s : string) : option (json * string) :=
  let '(lit, r) := span num_char s in
  if is_number lit then Some (JNum lit, r) else None.

(** A value that is no container. *)
Definition scalar (c : ascii) (s : string) : option (json * string) :=
  if Ascii.eqb c quotation then first JStr (unquote s)
  else if Ascii.eqb c "n" then literal JNull "ull" s
  else if Ascii.eqb c "t" then literal (JBool true) "rue" s
  else if Ascii.eqb c "f" then literal (JBool false) "alse" s
  else number_value (String c s).

(** One value and the text after it; containers nest at most [d] deep. *)
Fixpoint parse_value (n d : nat) (s : string) : option (json * string) :=
  match skip_ws s with
  | EmptyString => None
  | String c s =>
      if Ascii.eqb c "[" then
        match d with
        | O => None
        | S d => first JArr (array (parse_value n d) n s)
        end
      else if Ascii.eqb c "{" then
        match d with
        | O => None
        | S d => first JObj (object (parse_value n d) n s)
        end
      else scalar c s
  end.

(** maxNestingDepth of the scanner. *)
Definition max_depth : nat := Z.to_nat 10000.

(** A whole text with nothing but white space around the value. *)
Definition whole {A} (o : option (A * string)) : option A :=
  match o with
  | Some (v, r) => if String.eqb (skip_ws r) "" then Some v else None
  | None => None
  end.

Definition json_parse (s : string) : option json :=
  whole (parse_value (String.length s) max_depth s).

(** A value with the text it was read from, as a [json.RawMessage] keeps it. *)
Definition with_text {A} (pv : string -> option (A * string)) (s : string)
    : option (A * string * string) :=
  let s := skip_ws s in
  match pv s with
  | Some (v, r) => Some (v, String.substring 0 (String.length s - String.length r) s, r)
  | None => None
  end.

(** ** The printers

    Laid out as by [Marshal], or by [MarshalIndent]: what goes before a member at some
    depth, and between a key and its value. *)
Record layout : Type := mkLayout {
  lay_line : nat -> string;
  lay_colon : string;
}.

Definition compact : layout := mkLayout (fun _ => "") ":".

Fixpoint repeat_string (n : nat) (s : string) : string :=
  match n with O => "" | S n => s +:+ repeat_string n s end.

Definition indented (indent : string) : layout :=
  mkLayout (fun d => String "010" (repeat_string d indent)) ": ".

(** Members between brackets; nothing between the brackets when there are none. *)
Definition bracket (lay : layout) (d : nat) (op cl : string) (l : list string) : string :=
  match l with
  | [] => op +:+ cl
  | _ => op +:+ strings_Join "," (map (fun x => lay_line lay (S d) +:+ x) l) +:+ lay_line lay d +:+ cl
  end.

Definition member_text (lay : layout) (k text : string) : string :=
  enc_string k +:+ lay_colon lay +:+ text.

Fixpoint print (lay : layout) (d : nat) (v : json) : string :=
  match v with
  | JNull => "null"
  | JBool true => "true"
  | JBool false => "false"
  | JNum lit => lit
  | JStr s => enc_string s
  | JArr l => bracket lay d "[" "]" (map (print lay (S d)) l)
  | JObj m => bracket lay d "{" "}"
                (map (fun kv => member_text lay (fst kv) (print lay (S d) (snd kv))) m)
  end.

(** ** What comes back from a text *)
Fixpoint normal (v : json) : json :=
  match v with
  | JStr s => JStr (to_valid s)
  | JArr l => JArr (map normal l)
  | JObj m => JObj (map (fun kv => (to_valid (fst kv), normal (snd kv))) m)
  | v => v
  end.

(** The literals of a value are numbers. *)
Definition number_ok (lit : string) : bool :=
  forallb num_char (String.list_ascii_of_string lit) && is_number lit.

Fixpoint json_ok (v : json) : bool :=
  match v with
  | JNum lit => number_ok lit
  | JArr l => forallb json_ok l
  | JObj m => forallb (fun kv => json_ok (snd kv)) m
  | _ => true
  end.

Fixpoint depth (v : json) : nat :=
  match v with
  | JArr l => S (foldr (fun v n => Nat.max (depth v) n) 0 l)
  | JObj m => S (foldr (fun kv n => Nat.max (depth (snd kv)) n) 0 m)
  | _ => 0
  end.

(** The most members a container of the value has. *)
Fixpoint width (v : json) : nat :=
  match v with
  | JArr l => foldr (fun v n => Nat.max (width v) n) (length l) l
  | JObj m => foldr (fun kv n => Nat.max (width (snd kv)) n) (length m) m
  | _ => 0
  end.

(** ** Termination: the length of the text is enough for every loop *)
Section Bound.

Lemma skip_ws_length s : String.length (skip_ws s) <= String.length s.
Proof. induction s as [|c s IH]; cbn [skip_ws]; [done|]. destruct (is_space c); cbn [String.length]; lia. Qed.

Lemma unquote_length s x r : unquote s = Some (x, r) -> String.length r < String.length s.
Proof.
  assert (Hp : forall (P : nat -> Prop) p o x r,
    push p o = Some (x, r) -> (forall x r, o = Some (x, r) -> P (String.length r)) -> P (String.length r)).
  { intros P p [[y r0]|]; cbn; [|done]. intros x0 r1 [= _ <-] H. by eapply H. }
  remember (String.length s) as n eqn:Hn. revert s x r Hn.
  induction (lt_wf n) as [n _ IH]. intros s x r ->.
  assert (IH' : forall t, String.length t < String.length s ->
    forall x r, unquote t = Some (x, r) -> String.length r < String.length s).
  { intros t Ht x0 r0 Hu. pose proof (IH _ Ht t x0 r0 eq_refl Hu). lia. }
  clear IH. destruct s as [|a s1]; [done|]. cbn [unquote].
  intros Hu. revert Hu.
  repeat first
    [ discriminate
    | intros [= _ <-]; cbn; lia
    | match goal with
      | |- push _ (unquote ?t) = _ -> _ < ?bound =>
          intros Hu; eapply (Hp (fun k => k < bound)); [exact Hu|];
          intros x0 r0; apply IH'; cbn [String.length]; lia
      | |- (match ?t with _ => _ end) = _ -> _ => destruct t
      end ].
Qed.

Lemma span_length p s x r :
  span p s = (x, r) -> String.length x + String.length r = String.length s.
Proof.
  revert x r. induction s as [|c s IH]; intros x r; cbn [span]; [by intros [= <- <-]|].
  destruct (p c); [|by intros [= <- <-]]. destruct (span p s) as [x' r'].
  intros [= <- <-]. cbn [String.length]. by rewrite <- (IH x' r').
Qed.

Lemma expect_length pre s r : expect pre s = Some r -> String.length r <= String.length s.
Proof.
  revert s. induction pre as [|c pre IH]; intros [|d s]; cbn [expect]; try done.
  - by intros [= <-].
  - by intros [= <-].
  - destruct (Ascii.eqb c d); [|done]. intros H%IH. cbn [String.length]. lia.
Qed.

(** A parser that reads at least one character. *)
Definition shrinks {A} (pv : string -> option (A * string)) : Prop :=
  forall s v r, pv s = Some (v, r) -> String.length r < String.length s.

Lemma scalar_length c s v r : scalar c s = Some (v, r) -> String.length r < String.length (String c s).
Proof.
  unfold scalar, first, literal. destruct (Ascii.eqb c quotation).
  { destruct (unquote s) as [[x r']|] eqn:Hu; [|done]. intros [= _ <-].
    apply unquote_length in Hu. cbn [String.length]. lia. }
  assert (He : forall t v0, match expect t s with Some r => Some (v0, r) | None => None end = Some (v, r) ->
    String.length r < String.length (String c s)).
  { intros t v0. destruct (expect t s) as [r'|] eqn:He; [|done]. intros [= _ <-].
    apply expect_length in He. cbn [String.length]. lia. }
  do 3 (destruct (Ascii.eqb c _); [apply He|]).
  unfold number_value. destruct (span num_char (String c s)) as [lit r'] eqn:Hs.
  destruct (is_number lit) eqn:Hn; [|done]. intros [= _ <-]. apply span_length in Hs.
  destruct lit; [done|]. cbn [String.length] in *. lia.
Qed.

Section Loops.
Context {A : Type} (pv pv' : string -> option (A * string)).

Lemma elems_bound n m s :
  shrinks pv -> (forall t, String.length t <= String.length s -> pv t = pv' t) ->
  String.length s <= n -> String.length s <= m -> elems pv n s = elems pv' m s.
Proof.
  intros Hpv. revert m s. induction n as [|n IH]; intros m s Heq Hn Hm.
  { destruct s; [|cbn in Hn; lia]. destruct m; [done|]. cbn [elems]. rewrite <- Heq by done.
    destruct (pv "") as [[v r]|] eqn:Hp; [|done]. apply Hpv in Hp. cbn in Hp. lia. }
  destruct m as [|m].
  { destruct s; [|cbn in Hm; lia]. cbn [elems].
    destruct (pv "") as [[v r]|] eqn:Hp; [|done]. apply Hpv in Hp. cbn in Hp. lia. }
  cbn [elems]. rewrite <- Heq by done. destruct (pv s) as [[v r]|] eqn:Hp; [|done].
  apply Hpv in Hp. pose proof (skip_ws_length r) as Hw. destruct (skip_ws r) as [|c t]; [done|].
  cbn [String.length] in Hw. destruct (Ascii.eqb c ","); [|done].
  rewrite (IH m t); [done|..]; [intros u Hu; apply Heq|..]; lia.
Qed.

Lemma key_length s k r : key s = Some (k, r) -> String.length r < String.length s.
Proof.
  unfold key. pose proof (skip_ws_length s) as Hs. destruct (skip_ws s) as [|c t]; [done|].
  destruct (Ascii.eqb c quotation); [|done]. destruct (unquote t) as [[x u]|] eqn:Hu; [|done].
  apply unquote_length in Hu. pose proof (skip_ws_length u) as Hw.
  destruct (skip_ws u) as [|d w]; [done|]. destruct (Ascii.eqb d ":"); [|done].
  intros [= _ <-]. cbn [String.length] in *. lia.
Qed.

Lemma members_bound n m s :
  shrinks pv -> (forall t, String.length t <= String.length s -> pv t = pv' t) ->
  String.length s <= n -> String.length s <= m -> members pv n s = members pv' m s.
Proof.
  intros Hpv. revert m s. induction n as [|n IH]; intros m s Heq Hn Hm.
  { destruct s; [|cbn in Hn; lia]. by destruct m. }
  destruct m as [|m]; [by destruct s; [|cbn in Hm; lia]|].
  cbn [members]. destruct (key s) as [[k s1]|] eqn:Hk; [|done]. apply key_length in Hk.
  rewrite <- Heq by lia. destruct (pv s1) as [[v r]|] eqn:Hp; [|done].
  apply Hpv in Hp. pose proof (skip_ws_length r) as Hw. destruct (skip_ws r) as [|c t]; [done|].
  cbn [String.length] in Hw. destruct (Ascii.eqb c ","); [|done].
  rewrite (IH m t); [done|..]; [intros u Hu; apply Heq|..]; lia.
Qed.

Lemma elems_shrinks n : shrinks pv -> shrinks (elems pv n).
Proof.
  intros Hpv. induction n as [|n IH]; intros s v r; cbn [elems]; [done|].
  destruct (pv s) as [[x s1]|] eqn:Hp; [|done]. apply Hpv in Hp.
  pose proof (skip_ws_length s1) as Hw. destruct (skip_ws s1) as [|c t]; [done|].
  cbn [String.length] in Hw. destruct (Ascii.eqb c ",").
  - destruct (elems pv n t) as [[l r']|] eqn:He; [|done]. apply IH in He. intros [= _ <-]. lia.
  - destruct (Ascii.eqb c "]"); [|done]. intros [= _ <-]. lia.
Qed.

Lemma members_shrinks n : shrinks pv -> shrinks (members pv n).
Proof.
  intros Hpv. induction n as [|n IH]; intros s v r; cbn [members]; [done|].
  destruct (key s) as [[k s0]|] eqn:Hk; [|done]. apply key_length in Hk.
  destruct (pv s0) as [[x s1]|] eqn:Hp; [|done]. apply Hpv in Hp.
  pose proof (skip_ws_length s1) as Hw. destruct (skip_ws s1) as [|c t]; [done|].
  cbn [String.length] in Hw. destruct (Ascii.eqb c ",").
  - destruct (members pv n t) as [[l r']|] eqn:He; [|done]. apply IH in He. intros [= _ <-]. lia.
  - destruct (Ascii.eqb c "}"); [|done]. intros [= _ <-]. lia.
Qed.

Lemma array_shrinks n : shrinks pv -> shrinks (array pv n).
Proof.
  intros Hpv s v r. unfold array. pose proof (skip_ws_length s) as Hw.
  destruct (skip_ws s) as [|c t]; [done|]. cbn [String.length] in Hw.
  destruct (Ascii.eqb c "]"); [intros [= _ <-]; lia|]. by apply elems_shrinks.
Qed.

Lemma object_shrinks n : shrinks pv -> shrinks (object pv n).
Proof.
  intros Hpv s v r. unfold object. pose proof (skip_ws_length s) as Hw.
  destruct (skip_ws s) as [|c t]; [done|]. cbn [String.length] in Hw.
  destruct (Ascii.eqb c "}"); [intros [= _ <-]; lia|]. by apply members_shrinks.
Qed.

Lemma array_bound n m s :
  shrinks pv -> (forall t, String.length t <= String.length s -> pv t = pv' t) ->
  String.length s <= n -> String.length s <= m -> array pv n s = array pv' m s.
Proof. intros. unfold array. by rewrite (elems_bound n m s). Qed.

Lemma object_bound n m s :
  shrinks pv -> (forall t, String.length t <= String.length s -> pv t = pv' t) ->
  String.length s <= n -> String.length s <= m -> object pv n s = object pv' m s.
Proof. intros. unfold object. by rewrite (members_bound n m s). Qed.

End Loops.

Lemma first_Some {B C D} (f : B -> C) (o : option (B * D)) y r :
  first f o = Some (y, r) -> exists x, o = Some (x, r).
Proof. destruct o as [[x r']|]; cbn; [|done]. intros [= _ <-]. by eexists. Qed.

Lemma parse_value_shrinks n d : shrinks (parse_value n d).
Proof.
  induction d as [|d IH]; intros s v r; cbn [parse_value];
    pose proof (skip_ws_length s) as Hw; (destruct (skip_ws s) as [|c t]; [done|]);
    cbn [String.length] in Hw;
    (destruct (Ascii.eqb c "["); [|destruct (Ascii.eqb c "{")]); try done;
    try (intros H%scalar_length; cbn [String.length] in H; lia).
  - intros [x H]%first_Some. apply array_shrinks in H; [lia|done].
  - intros [x H]%first_Some. apply object_shrinks in H; [lia|done].
Qed.

Lemma parse_value_bound d n m s :
  String.length s <= n -> String.length s <= m -> parse_value n d s = parse_value m d s.
Proof.
  revert s. induction d as [|d IH]; intros s Hn Hm; cbn [parse_value]; [done|].
  pose proof (skip_ws_length s) as Hw. destruct (skip_ws s) as [|c t]; [done|].
  cbn [String.length] in Hw.
  rewrite (array_bound _ (parse_value m d) n m t); [|apply parse_value_shrinks|intros; apply IH|..]; try lia.
  rewrite (object_bound _ (parse_value m d) n m t); [done|apply parse_value_shrinks|intros; apply IH|..]; lia.
Qed.

End Bound.
