(* ===== verification/JsonText.v ===== *)
(** * JSON text and back

    The parser of [Json] reads back what its printers write, in every layout: the round
    trip, and that the texts of [Marshal] are one line. *)
From Stdlib Require Import Ascii.
From S2P Require Import Prelude.
From S2P Require Import GoStrings.
From S2P Require Import JsonString.
From S2P Require Import Json.
Local Open Scope string_scope.
Local Open Scope list_scope.
Local Open Scope nat_scope.

Section Print.

Definition blank (s : string) : Prop := forallb is_space (String.list_ascii_of_string s) = true.

(** What follows a value in a text: nothing that could go on a number. *)
Definition ends (s : string) : Prop :=
  match s with String c _ => num_char c = false | EmptyString => True end.

Lemma skip_ws_blank s t : blank s -> skip_ws (s +:+ t) = skip_ws t.
Proof.
  unfold blank. induction s as [|c s IH]; [done|]. cbn [String.list_ascii_of_string forallb].
  intros [Hc Hs]%andb_prop. change (skip_ws (String c (s +:+ t)) = skip_ws t). cbn [skip_ws].
  rewrite Hc. by apply IH.
Qed.

Lemma space_ends c : is_space c = true -> num_char c = false.
Proof. destruct c as [[] [] [] [] [] [] [] []]; first [done|by vm_compute]. Qed.

Lemma ends_blank s t : blank s -> ends t -> ends (s +:+ t).
Proof.
  destruct s as [|c s]; [done|]. unfold blank. cbn [String.list_ascii_of_string forallb].
  intros [Hc _]%andb_prop _. by apply space_ends.
Qed.

(** [pv] reads [text] as [v], wherever it stands. *)
Definition reads {A} (pv : string -> option (A * string)) (text : string) (v : A) : Prop :=
  forall sp rest, blank sp -> ends rest -> pv (sp +:+ text +:+ rest) = Some (v, rest).

(** The layouts that only add white space. *)
Definition layout_ok (lay : layout) : Prop :=
  (forall d, blank (lay_line lay d)) /\ exists sp, lay_colon lay = String ":" sp /\ blank sp.

Lemma compact_ok : layout_ok compact.
Proof. split; [done|]. by exists "". Qed.

Lemma indented_ok indent : blank indent -> layout_ok (indented indent).
Proof.
  intros Hi. split; [|by exists " "].
  intros d. unfold blank. cbn. induction d as [|d IH]; [done|].
  assert (Ha : forall s t, blank s -> blank t -> blank (s +:+ t)).
  { intros s t Hs Ht. unfold blank in *. induction s as [|c s IHs]; [done|].
    change (is_space c && forallb is_space (String.list_ascii_of_string (s +:+ t)) = true).
    cbn [String.list_ascii_of_string forallb] in Hs. apply andb_prop in Hs as [-> Hs]. by apply IHs. }
  by apply Ha.
Qed.

Context (lay : layout) (Hlay : layout_ok lay).

Lemma key_text k text : key (enc_string k +:+ lay_colon lay +:+ text) =
  Some (to_valid k, match lay_colon lay with String _ sp => sp +:+ text | EmptyString => text end).
Proof.
  destruct Hlay as [_ (sp & -> & _)]. unfold enc_string.
  change (key (String quotation (enc_chars k +:+ String quotation "") +:+ String ":" sp +:+ text) =
    Some (to_valid k, sp +:+ text)).
  unfold key. change (skip_ws (String quotation (enc_chars k +:+ String quotation "") +:+ String ":" sp +:+ text))
    with (String quotation ((enc_chars k +:+ String quotation "") +:+ String ":" sp +:+ text)).
  cbv iota beta. rewrite Ascii.eqb_refl, String_app_assoc.
  change (String quotation "" +:+ String ":" sp +:+ text) with (String quotation (String ":" (sp +:+ text))).
  by rewrite unquote_enc_chars.
Qed.

Lemma key_blank sp s : blank sp -> key (sp +:+ s) = key s.
Proof. intros Hsp. unfold key. by rewrite skip_ws_blank. Qed.

Context {A : Type} (pv : string -> option (A * string)).

Lemma strings_Join_cons (x : string) xs :
  xs <> [] -> strings_Join "," (x :: xs) = x +:+ String "," (strings_Join "," xs).
Proof. by destruct xs. Qed.

Lemma elems_reads d (xs : list (string * A)) n rest :
  Forall (fun x => reads pv x.1 x.2) xs -> xs <> [] -> length xs <= n ->
  elems pv n (strings_Join "," (map (fun x => lay_line lay (S d) +:+ x) (map fst xs)) +:+
    lay_line lay d +:+ String "]" rest) = Some (map snd xs, rest).
Proof.
  destruct Hlay as [Hline _]. intros Hxs Hne. revert n.
  induction Hxs as [|[text v] xs Hx Hxs IH]; intros n Hn; [done|]. cbn [length] in Hn.
  destruct n as [|n]; [lia|]. cbn [map fst snd elems].
  destruct xs as [|x xs].
  - cbn [map strings_Join]. rewrite String_app_assoc.
    rewrite Hx by (apply Hline || by apply ends_blank). by rewrite skip_ws_blank.
  - rewrite strings_Join_cons by done. rewrite !String_app_assoc. rewrite Hx by (done || apply Hline).
    match goal with |- context [skip_ws (String "," ?a +:+ ?b)] =>
      change (skip_ws (String "," a +:+ b)) with (String "," (a +:+ b)) end.
    cbv iota beta. rewrite Ascii.eqb_refl, IH by (done || lia). done.
Qed.

Lemma members_reads d (xs : list (string * (string * A))) n rest :
  Forall (fun x => reads pv x.2.1 x.2.2) xs -> xs <> [] -> length xs <= n ->
  members pv n (strings_Join "," (map (fun x => lay_line lay (S d) +:+ x)
      (map (fun x => member_text lay x.1 x.2.1) xs)) +:+ lay_line lay d +:+ String "}" rest) =
    Some (map (fun x => (to_valid x.1, x.2.2)) xs, rest).
Proof.
  pose proof Hlay as [Hline (sp & Hcol & Hsp)]. intros Hxs Hne. revert n.
  induction Hxs as [|[k [text v]] xs Hx Hxs IH]; intros n Hn; [done|]. cbn [length] in Hn.
  destruct n as [|n]; [lia|]. cbn [map fst snd members].
  destruct xs as [|x xs].
  - cbn [map strings_Join]. unfold member_text. rewrite !String_app_assoc.
    rewrite key_blank by apply Hline. rewrite key_text, Hcol.
    rewrite Hx by (done || by apply ends_blank). by rewrite skip_ws_blank.
  - rewrite strings_Join_cons by done. unfold member_text at 1. rewrite !String_app_assoc.
    rewrite key_blank by apply Hline. rewrite key_text, Hcol. rewrite Hx by done.
    match goal with |- context [skip_ws (String "," ?a +:+ ?b)] =>
      change (skip_ws (String "," a +:+ b)) with (String "," (a +:+ b)) end.
    cbv iota beta. rewrite Ascii.eqb_refl, IH by (done || lia). done.
Qed.

End Print.

Section Values.
Context (lay : layout) (Hlay : layout_ok lay).

Lemma parse_value_blank n d sp s : blank sp -> parse_value n d (sp +:+ s) = parse_value n d s.
Proof. intros Hsp. destruct d; cbn [parse_value]; by rewrite skip_ws_blank. Qed.

(** A character that starts a value other than a container. *)
Definition scalar_start (c : ascii) : bool :=
  negb (is_space c) && negb (Ascii.eqb c "[") && negb (Ascii.eqb c "{").

Lemma parse_value_scalar n d c s :
  scalar_start c = true -> parse_value n d (String c s) = scalar c s.
Proof.
  unfold scalar_start. intros [[Hc H1%negb_true_iff]%andb_prop H2%negb_true_iff]%andb_prop.
  apply negb_true_iff in Hc. destruct d; cbn [parse_value skip_ws]; by rewrite Hc, H1, H2.
Qed.

Lemma num_char_scalar c s : num_char c = true ->
  scalar_start c = true /\ scalar c s = number_value (String c s).
Proof.
  intros Hc. destruct c as [[] [] [] [] [] [] [] []];
    first [discriminate Hc | split; reflexivity].
Qed.

Lemma span_all p s rest :
  forallb p (String.list_ascii_of_string s) = true ->
  match rest with String c _ => p c = false | EmptyString => True end ->
  span p (s +:+ rest) = (s, rest).
Proof.
  intros Hs Hr. induction s as [|c s IH].
  - change (span p rest = ("", rest)). destruct rest as [|c r]; [done|]. cbn [span]. by rewrite Hr.
  - cbn [String.list_ascii_of_string forallb] in Hs. apply andb_prop in Hs as [Hc Hs].
    change (span p (String c (s +:+ rest)) = (String c s, rest)). cbn [span]. by rewrite Hc, IH.
Qed.

Lemma number_reads n d lit : number_ok lit = true -> reads (parse_value n d) lit (JNum lit).
Proof.
  intros [Hall Hnum]%andb_prop sp rest Hsp Hr. rewrite parse_value_blank by done.
  pose proof (span_all num_char lit rest Hall Hr) as Hspan.
  destruct lit as [|c s]; [discriminate Hnum|].
  cbn [String.list_ascii_of_string forallb] in Hall. apply andb_prop in Hall as [Hc _].
  destruct (num_char_scalar c (s +:+ rest) Hc) as [Hst Hsc].
  change (String c s +:+ rest) with (String c (s +:+ rest)) in *.
  rewrite parse_value_scalar, Hsc by done. unfold number_value. by rewrite Hspan, Hnum.
Qed.

Lemma string_reads n d s : reads (parse_value n d) (enc_string s) (JStr (to_valid s)).
Proof.
  intros sp rest Hsp _. rewrite parse_value_blank by done. unfold enc_string.
  change (parse_value n d (String quotation ((enc_chars s +:+ String quotation "") +:+ rest)) =
    Some (JStr (to_valid s), rest)).
  rewrite parse_value_scalar by done. unfold scalar. rewrite Ascii.eqb_refl, String_app_assoc.
  change (String quotation "" +:+ rest) with (String quotation rest). by rewrite unquote_enc_chars.
Qed.

Lemma word_reads n d (v : json) c text :
  scalar_start c = true -> (forall rest, scalar c (text +:+ rest) = Some (v, rest)) ->
  reads (parse_value n d) (String c text) v.
Proof.
  intros Hst Hs sp rest Hsp _. rewrite parse_value_blank by done.
  change (String c text +:+ rest) with (String c (text +:+ rest)). by rewrite parse_value_scalar.
Qed.

(** No text of a value starts with white space or a closing bracket. *)
Definition value_start (s : string) : Prop :=
  match s with
  | String c _ => is_space c = false /\ c <> "]"%char /\ c <> "}"%char
  | EmptyString => False
  end.

Lemma print_start d v : json_ok v = true -> value_start (print lay d v).
Proof.
  destruct v as [|[]|lit|s|[|]|[|]]; cbn [print json_ok bracket map]; try done.
  intros [Hall Hnum]%andb_prop. destruct lit as [|c s]; [done|].
  cbn [String.list_ascii_of_string forallb] in Hall. apply andb_prop in Hall as [Hc _].
  destruct c as [[] [] [] [] [] [] [] []]; first [discriminate Hc | done].
Qed.

Lemma skip_ws_nonblank s t : value_start s -> skip_ws (s +:+ t) = s +:+ t.
Proof.
  destruct s as [|c s]; [done|]. intros [Hc _].
  change (skip_ws (String c (s +:+ t)) = String c (s +:+ t)). cbn [skip_ws]. by rewrite Hc.
Qed.

Context {A : Type} (pv : string -> option (A * string)).

Lemma array_elems n sp x rest :
  blank sp -> value_start x -> array pv n (sp +:+ x +:+ rest) = elems pv n (sp +:+ x +:+ rest).
Proof.
  intros Hsp Hx. unfold array. rewrite skip_ws_blank, skip_ws_nonblank by done.
  destruct x as [|c x]; [done|]. destruct Hx as (_ & Hc & _).
  change (String c x +:+ rest) with (String c (x +:+ rest)). cbv iota beta.
  by rewrite (proj2 (Ascii.eqb_neq _ _) Hc).
Qed.

Lemma object_members n sp x rest :
  blank sp -> value_start x -> object pv n (sp +:+ x +:+ rest) = members pv n (sp +:+ x +:+ rest).
Proof.
  intros Hsp Hx. unfold object. rewrite skip_ws_blank, skip_ws_nonblank by done.
  destruct x as [|c x]; [done|]. destruct Hx as (_ & _ & Hc).
  change (String c x +:+ rest) with (String c (x +:+ rest)). cbv iota beta.
  by rewrite (proj2 (Ascii.eqb_neq _ _) Hc).
Qed.

Lemma strings_Join_head (x : string) xs t :
  exists t', strings_Join "," (x :: xs) +:+ t = x +:+ t'.
Proof.
  destruct xs as [|y xs]; [by eexists|].
  rewrite strings_Join_cons, String_app_assoc by done. by eexists.
Qed.

(** The text of a container: its first bracket and what its loop reads. *)
Lemma bracket_cons d op cl x xs rest :
  bracket lay d (String op "") cl (x :: xs) +:+ rest =
    String op (strings_Join "," (map (fun y => lay_line lay (S d) +:+ y) (x :: xs)) +:+
               lay_line lay d +:+ cl +:+ rest).
Proof. cbn [bracket]. rewrite !String_app_assoc. reflexivity. Qed.

Lemma array_reads n d (xs : list (string * A)) rest :
  Forall (fun x => reads pv x.1 x.2) xs -> Forall (fun x => value_start x.1) xs -> length xs <= n ->
  exists s, bracket lay d "[" "]" (map fst xs) +:+ rest = String "[" s /\
    array pv n s = Some (map snd xs, rest).
Proof.
  intros Hxs Hst Hn. pose proof Hlay as [Hline _]. destruct xs as [|x xs].
  { eexists. split; reflexivity. }
  cbn [map]. rewrite bracket_cons. eexists. split; [reflexivity|].
  pose proof (elems_reads lay Hlay pv d (x :: xs) n rest Hxs ltac:(done) Hn) as He.
  etransitivity; [|exact He].
  inversion Hst as [|? ? Hx _].
  destruct (strings_Join_head (lay_line lay (S d) +:+ x.1) (map (fun y => lay_line lay (S d) +:+ y) (map fst xs))
    (lay_line lay d +:+ String "]" rest)) as [t Ht].
  rewrite String_app_assoc in Ht. cbn [map].
  setoid_rewrite Ht. apply array_elems; [apply Hline|done].
Qed.

Lemma object_reads n d (xs : list (string * (string * A))) rest :
  Forall (fun x => reads pv x.2.1 x.2.2) xs -> length xs <= n ->
  exists s, bracket lay d "{" "}" (map (fun x => member_text lay x.1 x.2.1) xs) +:+ rest = String "{" s /\
    object pv n s = Some (map (fun x => (to_valid x.1, x.2.2)) xs, rest).
Proof.
  intros Hxs Hn. pose proof Hlay as [Hline _]. destruct xs as [|x xs].
  { eexists. split; reflexivity. }
  cbn [map]. rewrite bracket_cons. eexists. split; [reflexivity|].
  pose proof (members_reads lay Hlay pv d (x :: xs) n rest Hxs ltac:(done) Hn) as He.
  etransitivity; [|exact He].
  destruct (strings_Join_head (lay_line lay (S d) +:+ member_text lay x.1 x.2.1)
    (map (fun y => lay_line lay (S d) +:+ y) (map (fun x => member_text lay x.1 x.2.1) xs))
    (lay_line lay d +:+ String "}" rest)) as [t Ht].
  rewrite String_app_assoc in Ht. cbn [map].
  setoid_rewrite Ht. apply object_members; [apply Hline|done].
Qed.

End Values.

Section RoundTrip.
Context (lay : layout) (Hlay : layout_ok lay).

Lemma max_over {A} (f : A -> nat) b l m :
  foldr (fun x n => Nat.max (f x) n) b l <= m -> b <= m /\ Forall (fun x => f x <= m) l.
Proof. induction l as [|x l IH]; cbn; [done|]. intros H. destruct IH; [lia|]. split; [done|]. constructor; [lia|done]. Qed.

Lemma first_reads {A B C} (f : A -> B) (o : option (A * C)) v r :
  o = Some (v, r) -> first f o = Some (f v, r).
Proof. by intros ->. Qed.

Lemma forallb_all {A} (f : A -> bool) l : forallb f l = true -> Forall (fun x => f x = true) l.
Proof. induction l as [|x l IH]; cbn; [done|]. intros [Hx Hl]%andb_prop. constructor; auto. Qed.

Lemma print_reads v : forall n d i,
  json_ok v = true -> depth v <= d -> width v <= n ->
  reads (parse_value n d) (print lay i v) (normal v).
Proof.
  induction v as [|b|lit|s|l IH|m IH] using json_ind'; intros n d i Hok Hd Hw; cbn [normal].
  - apply word_reads; [done|]. reflexivity.
  - destruct b; apply word_reads; first [done|reflexivity].
  - by apply number_reads.
  - apply string_reads.
  - intros sp rest Hsp Hr. rewrite parse_value_blank by done.
    cbn [depth width json_ok] in *. destruct d as [|d]; [lia|].
    apply le_S_n in Hd. apply (max_over depth) in Hd as [_ Hd].
    apply (max_over width) in Hw as [Hlen Hw]. apply forallb_all in Hok.
    destruct (array_reads lay Hlay (parse_value n d) n i
      (map (fun v => (print lay (S i) v, normal v)) l) rest) as (s & Hs & Ha).
    + apply Forall_map. rewrite Forall_forall in *. intros v Hv. apply IH; auto.
    + apply Forall_map. eapply Forall_impl; [exact Hok|]. intros v Hv. by apply print_start.
    + by rewrite length_map.
    + rewrite List.map_map in Hs, Ha. cbn [print]. setoid_rewrite Hs. cbn [parse_value].
      cbn [skip_ws]. apply (first_reads JArr) in Ha. exact Ha.
  - intros sp rest Hsp Hr. rewrite parse_value_blank by done.
    cbn [depth width json_ok] in *. destruct d as [|d]; [lia|].
    apply le_S_n in Hd. apply (max_over (fun kv => depth kv.2)) in Hd as [_ Hd].
    apply (max_over (fun kv => width kv.2)) in Hw as [Hlen Hw]. apply forallb_all in Hok.
    destruct (object_reads lay Hlay (parse_value n d) n i
      (map (fun kv => (kv.1, (print lay (S i) kv.2, normal kv.2))) m) rest) as (s & Hs & Ha).
    + apply Forall_map. rewrite Forall_forall in *. intros kv Hkv. apply IH; auto.
    + by rewrite length_map.
    + rewrite List.map_map in Hs, Ha. cbn [print]. setoid_rewrite Hs. cbn [parse_value].
      cbn [skip_ws]. apply (first_reads JObj) in Ha. exact Ha.
Qed.

(** The text of a value, alone or in white space, reads as the value: what is not UTF-8
    in its strings has become U+FFFD, and nothing else has changed. *)
Lemma json_parse_print v i sp :
  json_ok v = true -> depth v <= max_depth -> blank sp ->
  json_parse (print lay i v +:+ sp) = Some (normal v).
Proof.
  intros Hok Hd Hsp. unfold json_parse.
  set (s := print lay i v +:+ sp).
  rewrite (parse_value_bound max_depth _ (String.length s + width v) s) by lia.
  pose proof (print_reads v (String.length s + width v) max_depth i Hok Hd ltac:(lia) "" sp eq_refl) as Hr.
  assert (He : ends sp).
  { rewrite <- (String_app_nil sp). by apply ends_blank. }
  specialize (Hr He). change ("" +:+ print lay i v +:+ sp) with s in Hr. rewrite Hr.
  cbn [whole]. rewrite <- (String_app_nil sp), skip_ws_blank by done. done.
Qed.

End RoundTrip.

(** ** One line *)
Definition line_ok (s : string) : bool := plain_text s.

Lemma plain_num s : forallb num_char (String.list_ascii_of_string s) = true -> plain_text s = true.
Proof.
  unfold plain_text. intros H%forallb_all. apply forallb_forall. intros c Hc%list_elem_of_In.
  rewrite Forall_forall in H. specialize (H c Hc).
  destruct c as [[] [] [] [] [] [] [] []]; first [discriminate H | done].
Qed.

Lemma plain_strings_Join l : Forall (fun s => plain_text s = true) l -> plain_text (strings_Join "," l) = true.
Proof.
  intros Hl. induction Hl as [|s l Hs Hl IH]; [done|]. destruct l as [|t l]; [done|].
  rewrite strings_Join_cons by done. change (String "," ?x) with ("," +:+ x).
  rewrite !plain_text_app, Hs, IH. done.
Qed.

Lemma plain_bracket i op cl l :
  plain_text op = true -> plain_text cl = true -> Forall (fun s => plain_text s = true) l ->
  plain_text (bracket compact i op cl l) = true.
Proof.
  intros Ho Hc Hl. destruct l as [|s l]; cbn [bracket]; rewrite !plain_text_app, Ho, Hc; [done|].
  rewrite plain_strings_Join; [done|]. apply Forall_map. exact Hl.
Qed.

(** The text of [Marshal] holds no control character: no line ends inside it. *)
Lemma print_compact_plain v i : json_ok v = true -> plain_text (print compact i v) = true.
Proof.
  revert i. induction v as [|b|lit|s|l IH|m IH] using json_ind'; intros i Hok; cbn [print].
  - done.
  - by destruct b.
  - apply plain_num. by apply andb_prop in Hok as [? _].
  - apply plain_enc_string.
  - apply plain_bracket; [done..|]. apply Forall_map. cbn [json_ok] in Hok. apply forallb_all in Hok.
    rewrite Forall_forall in *. intros v Hv. by apply IH; [|apply Hok].
  - apply plain_bracket; [done..|]. apply Forall_map. cbn [json_ok] in Hok. apply forallb_all in Hok.
    rewrite Forall_forall in *. intros kv Hkv. unfold member_text.
    rewrite !plain_text_app, plain_enc_string. cbn [lay_colon compact]. by apply IH; [|apply Hok].
Qed.

(** Compact text does not depend on the level. *)
Lemma print_compact_level v i : print compact i v = print compact 0 v.
Proof.
  revert i. induction v as [|[]|lit|s|l IH|m IH] using json_ind'; intros i; try done; cbn [print].
  - assert (Hl : map (print compact (S i)) l = map (print compact 1) l).
    { rewrite Forall_forall in IH. apply map_ext_in. intros v Hv%list_elem_of_In.
      by rewrite (IH v Hv (S i)), (IH v Hv 1). }
    rewrite Hl. by destruct (map _ l).
  - assert (Hl : map (fun kv => member_text compact kv.1 (print compact (S i) kv.2)) m =
                 map (fun kv => member_text compact kv.1 (print compact 1 kv.2)) m).
    { rewrite Forall_forall in IH. apply map_ext_in. intros kv Hkv%list_elem_of_In.
      by rewrite (IH kv Hkv (S i)), (IH kv Hkv 1). }
    rewrite Hl. by destruct (map _ m).
Qed.
