(* ===== verification/GoDecimal.v ===== *)
(** * float64 in decimal (strconv, as encoding/json uses it)

    [ParseFloat] on the number literals of JSON rounds the decimal value to the nearest
    float64; [AppendFloat] with the shortest precision writes the fewest digits that
    read back, as JSON lays them out. Both are executable on exact integers. *)
From Stdlib Require Import Ascii.
From S2P Require Import Prelude.
From S2P Require Import GoFloat.
From S2P Require Import GoStrings.
From S2P Require Import Strconv.
From S2P Require Import JsonString.
From S2P Require Import Json.
From S2P Require Import JsonText.
Local Open Scope string_scope.
Local Open Scope Z_scope.

Definition f64_same (x y : float64) : bool :=
  match x, y with
  | S754_zero s, S754_zero t | S754_infinity s, S754_infinity t => Bool.eqb s t
  | S754_nan, S754_nan => true
  | S754_finite s m e, S754_finite t n f => Bool.eqb s t && (m =? n)%positive && (e =? f)
  | _, _ => false
  end.

Lemma f64_same_eq x y : f64_same x y = true -> x = y.
Proof.
  destruct x as [s|s| |s m e], y as [t|t| |t n f]; cbn; try done.
  - by intros ->%Bool.eqb_prop.
  - by intros ->%Bool.eqb_prop.
  - intros [[->%Bool.eqb_prop ->%Pos.eqb_eq]%andb_prop ->%Z.eqb_eq]%andb_prop. done.
Qed.

(** The float64 nearest to [m * 10^e]. *)
Definition round_decimal (neg : bool) (m e : Z) : float64 :=
  match m with
  | Zpos p =>
      if 0 <=? e then f64_of_Z (if neg then - (m * 10 ^ e) else m * 10 ^ e)
      else f64_div (S754_finite neg p 0) (S754_finite false (Z.to_pos (10 ^ (- e))) 0)
  | _ => S754_zero neg
  end.

(** The value of a literal; [None]: out of range. *)
Definition number_decimal (n : number) : Z * Z :=
  let frac := match num_frac n with Some f => f | None => "" end in
  let e := match num_exp n with
           | Some (neg, e) =>
               let e := default 0 (parse_digits 0 e) in if neg then - e else e
           | None => 0
           end in
  (default 0 (parse_digits 0 (num_int n +:+ frac)), e - Z.of_nat (String.length frac)).

Definition number_float (lit : string) : option float64 :=
  match parse_number lit with
  | None => None
  | Some n =>
      let '(m, e) := number_decimal n in
      match round_decimal (num_neg n) m e with
      | S754_infinity _ => None
      | x => Some x
      end
  end.

(** ** The shortest digits *)

(** Without trailing zeros. *)
Fixpoint strip_zeros (fuel : nat) (d : Z * Z) : Z * Z :=
  match fuel with
  | O => d
  | S fuel => if (d.1 mod 10 =? 0) then strip_zeros fuel (d.1 / 10, d.2 + 1) else d
  end.

(** The candidate that reads back; the nearer one when both do. *)
Definition choose (back : Z * Z -> bool) (down up : Z * Z) (nearer_down : bool) : option (Z * Z) :=
  match back down, back up with
  | true, false => Some down
  | false, true => Some up
  | true, true => if nearer_down then Some down else Some up
  | false, false => None
  end.

Section Shortest.
Context (neg : bool) (m : positive) (e : Z).

(** The value as a fraction. *)
Definition numerator : Z := if 0 <=? e then Zpos m * 2 ^ e else Zpos m.
Definition denominator : Z := if 0 <=? e then 1 else 2 ^ (- e).

(** The power of ten at or below the value: from its binary exponent, corrected by
    comparison. *)
Definition power_below (k : Z) : bool :=
  if 0 <=? k then denominator * 10 ^ k <=? numerator else denominator <=? numerator * 10 ^ (- k).

Definition exponent10 : Z :=
  let k := (Z.log2 numerator - Z.log2 denominator) * 30103 / 100000 in
  if power_below (k + 1) then k + 1 else if power_below k then k else k - 1.

(** The decimals of [n] digits on either side of the value. *)
Definition decimal_at (n : Z) : option (Z * Z) :=
  let q := exponent10 - (n - 1) in
  let num := if 0 <=? q then numerator else numerator * 10 ^ (- q) in
  let den := if 0 <=? q then denominator * 10 ^ q else denominator in
  let lo := num / den in
  let rest := num - lo * den in
  choose (fun d => f64_same (round_decimal neg d.1 d.2) (S754_finite neg m e))
    (strip_zeros 20 (lo, q)) (strip_zeros 20 (lo + 1, q))
    ((2 * rest <? den) || ((2 * rest =? den) && Z.even lo)).

(** Seventeen digits always do. *)
Fixpoint shortest_from (fuel : nat) (n : Z) : option (Z * Z) :=
  match decimal_at n, fuel with
  | Some d, _ => Some d
  | None, O => None
  | None, S fuel => shortest_from fuel (n + 1)
  end.

Definition shortest : option (Z * Z) := shortest_from 16 1.

End Shortest.

Fixpoint zeros (n : nat) : string := match n with O => "" | S n => String "0" (zeros n) end.

(** [m * 10^q], laid out with a point (format 'f') or an exponent ('e', with JSON's
    clean-up of its leading zero). *)
Definition layout_f (digits : string) (q : Z) : string :=
  let nd := String.length digits in
  let dp := Z.of_nat nd + q in
  if 0 <=? q then digits +:+ zeros (Z.to_nat q)
  else if dp <=? 0 then "0." +:+ zeros (Z.to_nat (- dp)) +:+ digits
  else String.substring 0 (Z.to_nat dp) digits +:+ "." +:+
       String.substring (Z.to_nat dp) (nd - Z.to_nat dp) digits.

Definition layout_e (digits : string) (q : Z) : string :=
  let nd := String.length digits in
  let exp := Z.of_nat nd + q - 1 in
  String.substring 0 1 digits +:+
  (if (nd =? 1)%nat then "" else "." +:+ String.substring 1 (nd - 1) digits) +:+
  "e" +:+ (if exp <? 0 then "-" else "+") +:+ pretty (Z.abs exp).

(** Below 1e-6 and from 1e21 on the exponent is written. *)
Definition wants_exponent (x : float64) : bool :=
  SFltb (SFabs x) (round_decimal false 1 (-6)) || SFleb (round_decimal false 1 21) (SFabs x).

Definition sign_text (neg : bool) (s : string) : string := if neg then String "-" s else s.

Definition float_text (x : float64) : option string :=
  match x with
  | S754_zero neg => Some (if neg then "-0" else "0")
  | S754_finite neg m e =>
      match shortest neg m e with
      | Some (d, q) =>
          let text := if wants_exponent x then layout_e (pretty d) q else layout_f (pretty d) q in
          Some (sign_text neg text)
      | None => None
      end
  | _ => None
  end.

Example float_text_example :
  map (fun d => float_text (round_decimal false d.1 d.2))
    [(1, -1); (1, 21); (123456789, -3); (3, 0); (1, -7); (5, -324); (1, 23); (17976931348623157, 292)] =
  map Some ["0.1"; "1e+21"; "123456.789"; "3"; "1e-7"; "5e-324"; "1e+23"; "1.7976931348623157e+308"].
Proof. vm_compute. reflexivity. Qed.

Example number_float_example :
  map number_float ["0.1"; "-2.5e1"; "1e999"; "9007199254740993"; "01"] =
    [Some (round_decimal false 1 (-1)); Some (round_decimal true 25 0); None;
     Some (f64_of_Z 9007199254740992); None].
Proof. vm_compute. reflexivity. Qed.

(** ** The literals that are written are numbers *)
Section Literals.

Definition all_digits (s : string) : Prop := forallb is_digit (String.list_ascii_of_string s) = true.

(** Digits without a leading zero. *)
Definition leading (s : string) : Prop := s <> "" /\ HasPrefix s "0" = false.

Lemma all_digits_app s t : all_digits s -> all_digits t -> all_digits (s +:+ t).
Proof.
  unfold all_digits. intros Hs Ht. induction s as [|c s IH]; [done|].
  change (is_digit c && forallb is_digit (String.list_ascii_of_string (s +:+ t)) = true).
  cbn [String.list_ascii_of_string forallb] in Hs. apply andb_prop in Hs as [-> Hs]. by apply IH.
Qed.

Lemma all_digits_zeros n : all_digits (zeros n).
Proof. induction n as [|n IH]; [done|]. exact IH. Qed.

Lemma pretty_char_digit n : (n < 10)%N -> is_digit (pretty_N_char n) = true.
Proof.
  intros Hn. assert (n ∈ [0; 1; 2; 3; 4; 5; 6; 7; 8; 9]%N) as Hin by (rewrite !elem_of_cons; lia).
  rewrite !elem_of_cons, elem_of_nil in Hin.
  by repeat match type of Hin with _ \/ _ => destruct Hin as [->|Hin] end.
Qed.

Lemma pretty_char_leading n s : (0 < n < 10)%N -> HasPrefix (String (pretty_N_char n) s) "0" = false.
Proof.
  intros Hn. assert (n ∈ [1; 2; 3; 4; 5; 6; 7; 8; 9]%N) as Hin by (rewrite !elem_of_cons; lia).
  rewrite !elem_of_cons, elem_of_nil in Hin.
  by repeat match type of Hin with _ \/ _ => destruct Hin as [->|Hin] end.
Qed.

Lemma pretty_go_digits n s : all_digits s -> all_digits (pretty_N_go n s).
Proof.
  revert s. induction (N.lt_wf_0 n) as [n _ IH]. intros s Hs.
  destruct (decide (n = 0%N)) as [->|Hn]; [done|].
  rewrite pretty_N_go_step by lia. apply IH; [apply N.div_lt; lia|].
  unfold all_digits. cbn [String.list_ascii_of_string forallb].
  rewrite pretty_char_digit by (apply N.mod_lt; lia). exact Hs.
Qed.

Lemma pretty_go_leading n s : (0 < n)%N -> leading (pretty_N_go n s).
Proof.
  revert s. induction (N.lt_wf_0 n) as [n _ IH]. intros s Hn.
  rewrite pretty_N_go_step by lia. destruct (decide (n / 10 = 0)%N) as [H0|H0].
  - rewrite H0. split; [done|]. apply N.div_small_iff in H0; [|lia].
    rewrite N.mod_small by lia. apply pretty_char_leading. lia.
  - apply IH; [apply N.div_lt; lia|]. by apply N.neq_0_lt_0.
Qed.

Lemma pretty_N_digits (n : N) : all_digits (pretty n).
Proof. unfold pretty, pretty_N. case_decide; [done|]. by apply pretty_go_digits. Qed.

Lemma pretty_N_leading (n : N) : (0 < n)%N -> leading (pretty n).
Proof. intros Hn. unfold pretty, pretty_N. case_decide; [lia|]. by apply pretty_go_leading. Qed.

Lemma pretty_pos p : pretty (Zpos p) = pretty (Npos p).
Proof. reflexivity. Qed.

(** A character that ends a run of digits. *)
Definition not_digit (s : string) : Prop :=
  match s with String c _ => is_digit c = false | EmptyString => True end.

Lemma span_digits s t : all_digits s -> not_digit t -> span is_digit (s +:+ t) = (s, t).
Proof. intros Hs Ht. by apply span_all. Qed.

Lemma number_sign_text neg s : all_digits s -> s <> "" -> forall t,
  number_sign (sign_text neg (s +:+ t)) = (neg, s +:+ t).
Proof.
  intros Hs Hne t. destruct neg; [done|]. destruct s as [|c s]; [done|].
  unfold all_digits in Hs. cbn [String.list_ascii_of_string forallb] in Hs.
  apply andb_prop in Hs as [Hc _].
  destruct c as [[] [] [] [] [] [] [] []]; first [discriminate Hc | done].
Qed.

(** A literal put together from its parts. *)
Lemma parse_number_text neg i rest f s e :
  all_digits i -> i <> "" -> (i = "0" \/ HasPrefix i "0" = false) -> not_digit rest ->
  number_frac rest = Some (f, s) -> number_exp s = Some e ->
  parse_number (sign_text neg (i +:+ rest)) = Some (mkNumber neg i f e).
Proof.
  intros Hi Hne Hz Hr Hf He. unfold parse_number. rewrite number_sign_text, span_digits by done.
  rewrite (proj2 (String.eqb_neq i "") Hne). cbn [orb].
  replace (HasPrefix i "0" && negb (String.eqb i "0")) with false
    by (destruct Hz as [-> | ->]; done).
  by rewrite Hf, He.
Qed.

Lemma number_frac_point f s : all_digits f -> f <> "" -> not_digit s ->
  number_frac (String "." (f +:+ s)) = Some (Some f, s).
Proof.
  intros Hf Hne Hs. cbn [number_frac]. rewrite span_digits by done.
  by rewrite (proj2 (String.eqb_neq f "") Hne).
Qed.

Lemma number_exp_text (neg : bool) e : all_digits e -> e <> "" ->
  number_exp (String "e" (String (if neg then "-" else "+")%char e)) = Some (Some (neg, e)).
Proof.
  intros He Hne. assert (Hs : span is_digit e = (e, "")).
  { rewrite <- (String_app_nil e) at 1. by apply span_digits. }
  destruct neg; cbn [number_exp]; change (in_cutset "eE" "e") with true; cbn [negb];
    rewrite Hs, (proj2 (String.eqb_neq e "") Hne); done.
Qed.

Lemma num_char_app s t :
  forallb num_char (String.list_ascii_of_string s) = true ->
  forallb num_char (String.list_ascii_of_string t) = true ->
  forallb num_char (String.list_ascii_of_string (s +:+ t)) = true.
Proof.
  intros Hs Ht. induction s as [|c s IH]; [done|].
  change (num_char c && forallb num_char (String.list_ascii_of_string (s +:+ t)) = true).
  cbn [String.list_ascii_of_string forallb] in Hs. apply andb_prop in Hs as [-> Hs]. by apply IH.
Qed.

Lemma num_char_digits s : all_digits s -> forallb num_char (String.list_ascii_of_string s) = true.
Proof.
  intros Hs. unfold all_digits in Hs. rewrite forallb_forall in *. intros c Hc.
  unfold num_char. by rewrite (Hs c Hc).
Qed.

Lemma pretty_number (z : Z) :
  parse_number (pretty z) = Some (mkNumber (z <? 0) (pretty (Z.to_N (Z.abs z))) None None).
Proof.
  assert (Hn : forall neg (n : N), parse_number (sign_text neg (pretty n)) =
    Some (mkNumber neg (pretty n) None None)).
  { intros neg n. rewrite <- (String_app_nil (pretty n)) at 1.
    eapply parse_number_text; [apply pretty_N_digits|apply pretty_N_nonempty| |done|done|done].
    destruct (decide (n = 0%N)) as [->|Hn]; [by left|right]. apply pretty_N_leading. lia. }
  destruct z as [|p|p]; [done| |].
  - rewrite pretty_pos. exact (Hn false (Npos p)).
  - exact (Hn true (Npos p)).
Qed.

Lemma pretty_number_ok (z : Z) : number_ok (pretty z) = true.
Proof.
  unfold number_ok, is_number. rewrite pretty_number, andb_true_r.
  assert (Hn : forall n : N, forallb num_char (String.list_ascii_of_string (pretty n)) = true)
    by (intros n; apply num_char_digits, pretty_N_digits).
  destruct z as [|p|p]; [done| |].
  - rewrite pretty_pos. apply (Hn (Npos p)).
  - change (pretty (Zneg p)) with (String "-" "" +:+ pretty (Npos p)). by apply num_char_app, Hn.
Qed.

(** An integer's text reads as the nearest float64. *)
Lemma number_float_pretty (z : Z) : Z.abs z <= 2 ^ 64 -> number_float (pretty z) = Some (f64_of_Z z).
Proof.
  intros Hz. unfold number_float. rewrite pretty_number. unfold number_decimal.
  cbn [num_frac num_exp num_int num_neg]. rewrite String_app_nil, parse_pretty_N. cbn [default id].
  rewrite Z2N.id by lia. change (0 - Z.of_nat (String.length "")) with 0.
  assert (Hr : round_decimal (z <? 0) (Z.abs z) 0 = f64_of_Z z).
  { destruct z as [|p|p]; [done|..]; unfold round_decimal; cbn [Z.abs];
      change (0 <=? 0) with true; cbv iota; change (10 ^ 0) with 1; by rewrite Z.mul_1_r. }
  rewrite Hr. pose proof (f64_of_Z_finite z Hz). by destruct (f64_of_Z z).
Qed.

(** ** The text of a float64 reads back *)
Lemma choose_back back down up nearer d : choose back down up nearer = Some d -> back d = true.
Proof. unfold choose. destruct (back down) eqn:H1, (back up) eqn:H2, nearer; by intros [= <-]. Qed.

Lemma decimal_at_back neg m e n d :
  decimal_at neg m e n = Some d -> round_decimal neg d.1 d.2 = S754_finite neg m e.
Proof. unfold decimal_at. cbv zeta. intros H%choose_back. by apply f64_same_eq. Qed.

Lemma shortest_back neg m e d :
  shortest neg m e = Some d -> round_decimal neg d.1 d.2 = S754_finite neg m e.
Proof.
  unfold shortest. generalize 16%nat 1. intros fuel. induction fuel as [|fuel IH]; intros n; cbn [shortest_from];
    (destruct (decimal_at neg m e n) as [d'|] eqn:Hd; [intros [= <-]; by eapply decimal_at_back|]); [done|apply IH].
Qed.

Lemma string_length_0 s : String.length s = 0%nat -> s = "".
Proof. by destruct s. Qed.

Lemma parse_digits_app acc s t n :
  parse_digits acc s = Some n -> parse_digits acc (s +:+ t) = parse_digits n t.
Proof.
  revert acc. induction s as [|c s IH]; intros acc; [by intros [= ->]|].
  change (String c s +:+ t) with (String c (s +:+ t)). cbn [parse_digits].
  destruct (digit c); [apply IH|done].
Qed.

Lemma parse_digits_zeros n k : parse_digits n (zeros k) = Some (n * 10 ^ Z.of_nat k).
Proof.
  revert n. induction k as [|k IH]; intros n; [by rewrite Z.mul_1_r|].
  cbn [zeros parse_digits]. change (digit "0") with (Some 0). cbv iota beta. rewrite IH. f_equal.
  rewrite Nat2Z.inj_succ, Z.pow_succ_r by lia. lia.
Qed.

(** A string cut in two. *)
Lemma substring_split n s : (n <= String.length s)%nat ->
  String.substring 0 n s +:+ String.substring n (String.length s - n) s = s /\
  String.length (String.substring 0 n s) = n /\
  String.length (String.substring n (String.length s - n) s) = (String.length s - n)%nat.
Proof.
  revert n. induction s as [|c s IH]; intros n Hn; cbn [String.length] in *.
  { destruct n; [done|lia]. }
  destruct n as [|n].
  - cbn [String.substring Nat.sub String.length]. rewrite substring_all. done.
  - destruct (IH n ltac:(lia)) as (H1 & H2 & H3). cbn [String.substring Nat.sub String.length].
    rewrite H2, H3. split; [|done]. by rewrite String_app_cons, H1.
Qed.

Lemma all_digits_split n s : all_digits s -> (n <= String.length s)%nat ->
  all_digits (String.substring 0 n s) /\ all_digits (String.substring n (String.length s - n) s).
Proof.
  intros Hs Hn. destruct (substring_split n s Hn) as (H & _ & _). rewrite <- H in Hs at 1.
  revert Hs. generalize (String.substring 0 n s) (String.substring n (String.length s - n) s).
  intros x y. unfold all_digits. induction x as [|c x IH]; [done|]. rewrite String_app_cons.
  cbn [String.list_ascii_of_string forallb]. intros [Hc Hx]%andb_prop. destruct (IH Hx). rewrite Hc. done.
Qed.

(** A literal with the sign [neg] that stands for [p * 10^q]. *)
Definition stands_for (neg : bool) (p : positive) (q : Z) (s : string) : Prop :=
  forallb num_char (String.list_ascii_of_string s) = true /\
  exists n, parse_number (sign_text neg s) = Some n /\ num_neg n = neg /\
    round_decimal neg (number_decimal n).1 (number_decimal n).2 = round_decimal neg (Zpos p) q.

Lemma pretty_length p : (0 < String.length (pretty (Npos p)))%nat.
Proof. destruct (pretty (Npos p)) eqn:H; [by destruct (pretty_N_nonempty (Npos p))|cbn; lia]. Qed.

Lemma HasPrefix_head s t : s <> "" -> HasPrefix (s +:+ t) "0" = HasPrefix s "0".
Proof. destruct s as [|c s]; [done|]. intros _. rewrite String_app_cons. unfold HasPrefix. cbn. by destruct s, t. Qed.

Lemma zeros_length n : String.length (zeros n) = n.
Proof. induction n as [|n IH]; cbn; [done|by rewrite IH]. Qed.

Lemma parse_number_int neg i : all_digits i -> i <> "" -> (i = "0" \/ HasPrefix i "0" = false) ->
  parse_number (sign_text neg i) = Some (mkNumber neg i None None).
Proof.
  intros Hi Hne Hz. rewrite <- (String_app_nil i) at 1. by apply (parse_number_text neg i "" None "" None).
Qed.

Section Layout.
Context (neg : bool) (p : positive) (q : Z) (ds : string).
Context (Hd : all_digits ds) (Hne : ds <> "") (Hl : HasPrefix ds "0" = false).
Context (Hp : parse_digits 0 ds = Some (Zpos p)).

Lemma stands_padded : 0 <= q -> stands_for neg p q (ds +:+ zeros (Z.to_nat q)).
Proof.
  intros Hq. assert (Hz : all_digits (ds +:+ zeros (Z.to_nat q))) by (by apply all_digits_app, all_digits_zeros).
  split; [by apply num_char_digits|]. eexists. split; [|split].
  - apply parse_number_int; [done|by destruct ds|right; by rewrite HasPrefix_head].
  - done.
  - unfold number_decimal. cbn [num_frac num_exp num_int num_neg fst snd]. rewrite String_app_nil.
    rewrite (parse_digits_app _ _ _ _ Hp), parse_digits_zeros, Z2Nat.id by lia. cbn [default id].
    change (0 - Z.of_nat (String.length "")) with 0. unfold round_decimal.
    destruct (Zpos p * 10 ^ q) as [|r|r] eqn:Hr; [lia| |lia]. rewrite (proj2 (Z.leb_le 0 q) Hq).
    change (0 <=? 0) with true. cbv iota. change (10 ^ 0) with 1. by rewrite Z.mul_1_r.
Qed.

Lemma stands_below k : Z.of_nat k = - (Z.of_nat (String.length ds) + q) ->
  stands_for neg p q ("0." +:+ zeros k +:+ ds).
Proof.
  intros Hk. assert (Hz : all_digits (zeros k +:+ ds)) by (by apply all_digits_app; [apply all_digits_zeros|]).
  split; [by apply num_char_app; [|apply num_char_digits]|]. eexists. split; [|split].
  - apply (parse_number_text neg "0" (String "." (zeros k +:+ ds)) (Some (zeros k +:+ ds)) "" None);
      try done; [by left|]. rewrite <- (String_app_nil (zeros k +:+ ds)) at 1.
    apply number_frac_point; [done| |done]. destruct k; [by destruct ds|done].
  - done.
  - unfold number_decimal. cbn [num_frac num_exp num_int num_neg fst snd].
    rewrite String_length_app, zeros_length. change ("0" +:+ zeros k +:+ ds) with (zeros (S k) +:+ ds).
    rewrite (parse_digits_app 0 (zeros (S k)) ds 0) by (by rewrite parse_digits_zeros).
    rewrite Hp. cbn [default id]. f_equal. lia.
Qed.

(** Cut after [k] digits, with or without an exponent. *)
Lemma stands_cut k rest e :
  (0 < k < String.length ds)%nat -> number_exp rest = Some e -> not_digit rest ->
  forallb num_char (String.list_ascii_of_string rest) = true ->
  match e with
  | Some (s, x) => let z := default 0 (parse_digits 0 x) in
      (if s then - z else z) = q + Z.of_nat (String.length ds - k)
  | None => q = - Z.of_nat (String.length ds - k)
  end ->
  stands_for neg p q
    (String.substring 0 k ds +:+ "." +:+ String.substring k (String.length ds - k) ds +:+ rest).
Proof.
  intros Hk He Hr Hnr Hq.
  destruct (substring_split k ds ltac:(lia)) as (Hs & Hl1 & Hl2).
  destruct (all_digits_split k ds Hd ltac:(lia)) as [Hd1 Hd2].
  set (x := String.substring 0 k ds) in *. set (y := String.substring k (String.length ds - k) ds) in *.
  assert (Hx : x <> "") by (intros Hx; rewrite Hx in Hl1; cbn in Hl1; lia).
  assert (Hy : y <> "") by (intros Hy; rewrite Hy in Hl2; cbn in Hl2; lia).
  split.
  { apply num_char_app; [by apply num_char_digits|]. apply num_char_app; [done|].
    by apply num_char_app; [apply num_char_digits|]. }
  eexists. split; [|split].
  - apply (parse_number_text neg x (String "." (y +:+ rest)) (Some y) rest e); try done.
    + right. rewrite <- Hs, HasPrefix_head in Hl by done. exact Hl.
    + by apply number_frac_point.
  - done.
  - unfold number_decimal. cbn [num_frac num_exp num_int num_neg fst snd].
    rewrite Hs, Hp, Hl2. cbn [default id]. f_equal. destruct e as [[s z]|]; cbn zeta in *; lia.
Qed.

End Layout.

Lemma layout_f_reads neg p q : stands_for neg p q (layout_f (pretty (Npos p)) q).
Proof.
  pose proof (pretty_N_digits (Npos p)) as Hd. pose proof (pretty_N_leading (Npos p) ltac:(lia)) as [Hne Hl].
  pose proof (pretty_length p) as Hlen. pose proof (parse_pretty_N (Npos p)) as Hp.
  cbn [Z.of_N] in Hp. set (ds := pretty (Npos p)) in *. unfold layout_f.
  destruct (Z.leb_spec 0 q) as [Hq|Hq]; [by apply stands_padded|].
  destruct (Z.leb_spec (Z.of_nat (String.length ds) + q) 0) as [Hdp|Hdp]; [by apply stands_below; [..|lia]|].
  rewrite <- (String_app_nil (String.substring _ (_ - _) ds)).
  apply (stands_cut neg p q ds Hd Hl Hp _ "" None); try done; lia.
Qed.

Lemma pretty_abs (z : Z) : pretty (Z.abs z) = pretty (Z.to_N (Z.abs z)).
Proof. by destruct z. Qed.

Lemma layout_e_reads neg p q : stands_for neg p q (layout_e (pretty (Npos p)) q).
Proof.
  pose proof (pretty_N_digits (Npos p)) as Hd. pose proof (pretty_N_leading (Npos p) ltac:(lia)) as [Hne Hl].
  pose proof (pretty_length p) as Hlen. pose proof (parse_pretty_N (Npos p)) as Hp.
  cbn [Z.of_N] in Hp. set (ds := pretty (Npos p)) in *. unfold layout_e.
  set (exp := Z.of_nat (String.length ds) + q - 1). rewrite pretty_abs.
  set (es := pretty (Z.to_N (Z.abs exp))).
  set (tail := "e" +:+ (if exp <? 0 then "-" else "+") +:+ es).
  assert (Htail : tail = String "e" (String (if exp <? 0 then "-"%char else "+"%char) es))
    by (unfold tail; by destruct (exp <? 0)).
  assert (He : number_exp tail = Some (Some (exp <? 0, es))).
  { rewrite Htail. apply number_exp_text; [apply pretty_N_digits|apply pretty_N_nonempty]. }
  assert (Hnd : not_digit tail) by (by rewrite Htail).
  assert (Hnc : forallb num_char (String.list_ascii_of_string tail) = true).
  { apply num_char_app; [done|]. apply num_char_app; [by destruct (exp <? 0)|].
    apply num_char_digits, pretty_N_digits. }
  assert (Hz : default 0 (parse_digits 0 es) = Z.abs exp).
  { unfold es. rewrite parse_pretty_N. cbn [default id]. lia. }
  destruct (Nat.eqb_spec (String.length ds) 1) as [H1|H1].
  - assert (Hsub : String.substring 0 1 ds = ds) by (rewrite <- H1; apply substring_all).
    rewrite Hsub. change ("" +:+ tail) with tail. clearbody tail.
    split; [by apply num_char_app; [apply num_char_digits|]|]. eexists. split; [|split].
    + apply (parse_number_text neg ds tail None tail (Some (exp <? 0, es))); try done; [by right|].
      by rewrite Htail.
    + done.
    + unfold number_decimal. cbn [num_frac num_exp num_int num_neg fst snd].
      rewrite String_app_nil, Hp, Hz. cbn [default id String.length]. f_equal.
      destruct (Z.ltb_spec exp 0); lia.
  - rewrite String_app_assoc. apply (stands_cut neg p q ds Hd Hl Hp 1 tail (Some (exp <? 0, es))); try done; [lia|].
    cbn zeta. rewrite Hz. destruct (Z.ltb_spec exp 0); lia.
Qed.

(** What the encoder writes for a float64 is a number, and it reads as that float64. *)
Lemma float_text_reads x s : float_text x = Some s -> number_ok s = true /\ number_float s = Some x.
Proof.
  unfold float_text. destruct x as [neg|neg| |neg m e]; [by destruct neg; intros [= <-]|done..|].
  destruct (shortest neg m e) as [[d q]|] eqn:Hd; [|done]. apply shortest_back in Hd. cbn [fst snd] in Hd.
  destruct d as [|p|p]; [discriminate Hd| |discriminate Hd]. rewrite pretty_pos.
  assert (Hall : stands_for neg p q (if wants_exponent (S754_finite neg m e)
    then layout_e (pretty (Npos p)) q else layout_f (pretty (Npos p)) q))
    by (destruct (wants_exponent _); [apply layout_e_reads|apply layout_f_reads]).
  revert Hall. generalize (if wants_exponent (S754_finite neg m e)
    then layout_e (pretty (Npos p)) q else layout_f (pretty (Npos p)) q).
  intros t (Hc & n & Hn & Hneg & Hr) [= <-]. unfold number_ok, number_float, is_number. rewrite Hn. split.
  - rewrite andb_true_r. unfold sign_text. destruct neg; [by apply (num_char_app "-")|done].
  - destruct (number_decimal n) as [md me]. cbn [fst snd] in Hr. by rewrite Hneg, Hr, Hd.
Qed.

End Literals.
