(* ===== verification/JsonValue.v ===== *)
(** * Go values and JSON (encoding/json)

    How the fields of the repository's structs are written and read: by exact or folded
    name, [null] leaving a value alone, a value of the wrong shape reported and the
    decoding going on, and a [json.RawMessage] keeping the text. The texts of the
    package's errors are abbreviated. *)
From Stdlib Require Import Ascii.
From S2P Require Import Prelude.
From S2P Require Import Errors.
From S2P Require Import GoFloat.
From S2P Require Import GoStrings.
From S2P Require Import Strconv.
From S2P Require Import JsonString.
From S2P Require Import Json.
From S2P Require Import JsonText.
From S2P Require Import GoDecimal.
Local Open Scope string_scope.
Local Open Scope list_scope.
Local Open Scope Z_scope.

(** What Unmarshal puts in an [interface{}]. *)
Inductive any : Type :=
  | ANil
  | ABool (b : bool)
  | AFloat (x : float64)
  | AString (s : string)
  | AList (l : list any)
  | AMap (m : list (string * any)).

Definition SyntaxError : error := External 6 "json: invalid text".
Definition UnmarshalTypeError : error := External 5 "json: cannot unmarshal".

(** All the values, or nothing. *)
Fixpoint all_Some {A} (l : list (option A)) : option (list A) :=
  match l with
  | [] => Some []
  | Some x :: l => match all_Some l with Some l => Some (x :: l) | None => None end
  | None :: _ => None
  end.

Fixpoint assoc_set {A} (k : string) (v : A) (m : list (string * A)) : list (string * A) :=
  match m with
  | [] => [(k, v)]
  | (k', v') :: m => if String.eqb k k' then (k, v) :: m else (k', v') :: assoc_set k v m
  end.

Definition assoc_of {A} (m : list (string * A)) : list (string * A) :=
  fold_left (fun m kv => assoc_set kv.1 kv.2 m) m [].

(** [None]: a number out of the range of float64. *)
Fixpoint any_of_json (v : json) : option any :=
  match v with
  | JNull => Some ANil
  | JBool b => Some (ABool b)
  | JNum lit => match number_float lit with Some x => Some (AFloat x) | None => None end
  | JStr s => Some (AString s)
  | JArr l => match all_Some (map any_of_json l) with Some l => Some (AList l) | None => None end
  | JObj m =>
      match all_Some (map (fun kv => match any_of_json (snd kv) with
                                     | Some v => Some (fst kv, v)
                                     | None => None
                                     end) m) with
      | Some m => Some (AMap (assoc_of m))
      | None => None
      end
  end.

(** ** Fields: the new value and the error, from the old value *)
Definition decoded (T : Type) : Type := T * option error.

Definition decode_string (old : string) (v : json) : decoded string :=
  match v with
  | JNull => (old, None)
  | JStr s => (s, None)
  | _ => (old, Some UnmarshalTypeError)
  end.

Definition decode_bool (old : bool) (v : json) : decoded bool :=
  match v with
  | JNull => (old, None)
  | JBool b => (b, None)
  | _ => (old, Some UnmarshalTypeError)
  end.

(** [int64], and [int] on a 64-bit platform: only an integer's literal is one. *)
Definition decode_int (old : Z) (v : json) : decoded Z :=
  match v with
  | JNull => (old, None)
  | JNum lit => match ParseInt lit with
                | Some z => (z, None)
                | None => (old, Some UnmarshalTypeError)
                end
  | _ => (old, Some UnmarshalTypeError)
  end.

(** A slice whose elements are decoded from zero values. *)
Definition decode_slice {T} (decode : json -> decoded T) (old : list T) (v : json) : decoded (list T) :=
  match v with
  | JNull => ([], None)
  | JArr l =>
      let ds := map decode l in
      (map fst ds, fold_left (fun e d => match e with None => d.2 | _ => e end) ds None)
  | _ => (old, Some UnmarshalTypeError)
  end.

Definition decode_any (v : json) : decoded any :=
  match any_of_json v with
  | Some x => (x, None)
  | None => (ANil, Some UnmarshalTypeError)
  end.

(** [map[string]string]: a value of the wrong shape is stored as the empty string. *)
Definition decode_map (old : gmap string string) (v : json) : decoded (gmap string string) :=
  match v with
  | JNull => (∅, None)
  | JObj m =>
      fold_left (fun acc kv =>
        let '(s, e) := decode_string "" kv.2 in
        (<[kv.1 := s]> acc.1, match acc.2 with None => e | _ => acc.2 end)) m (old, None)
  | _ => (old, Some UnmarshalTypeError)
  end.

(** ** Structs *)

(** Field names are compared folded: upper case, with the two characters beyond ASCII
    that fold to a letter (U+017F and U+212A). *)
Definition upper (c : ascii) : ascii :=
  if between 97 (code c) 122 then chr (code c - 32) else c.

Fixpoint fold_name (s : string) : string :=
  match s with
  | EmptyString => ""
  | String a s1 =>
      match s1 with
      | String b s2 =>
          if (code a =? 197) && (code b =? 191) then String "S" (fold_name s2)
          else
            match s2 with
            | String c s3 =>
                if (code a =? 226) && (code b =? 132) && (code c =? 170) then String "K" (fold_name s3)
                else String (upper a) (fold_name s1)
            | EmptyString => String (upper a) (fold_name s1)
            end
      | EmptyString => String (upper a) (fold_name s1)
      end
  end.

(** The field a key names. *)
Definition match_field (names : list string) (k : string) : option string :=
  match List.find (String.eqb k) names with
  | Some n => Some n
  | None => List.find (fun n => String.eqb (fold_name k) (fold_name n)) names
  end.

(** What decoding a field does: the struct, and an error that is reported at the end or
    ([true]) ends the decoding. *)
Definition field_result (T : Type) : Type := T * option (bool * error).

(** A field's decoder, with the struct it sets. *)
Definition set_field {T A} (set : A -> T) (d : decoded A) : field_result T :=
  (set d.1, match d.2 with Some e => Some (false, e) | None => None end).

Section Struct.
Context {T : Type} (names : list string).
(** The decoder of a field from the value and its text. *)
Context (field : string -> json -> string -> T -> field_result T).

Fixpoint decode_fields (ms : list (string * (json * string))) (t : T) (saved : option error)
    : decoded T :=
  match ms with
  | [] => (t, saved)
  | (k, (v, text)) :: ms =>
      match match_field names k with
      | None => decode_fields ms t saved
      | Some name =>
          match field name v text t with
          | (t, None) => decode_fields ms t saved
          | (t, Some (true, e)) => (t, Some e)
          | (t, Some (false, e)) =>
              decode_fields ms t (match saved with None => Some e | _ => saved end)
          end
      end
  end.

(** An object's members with their texts. *)
Definition json_object (data : string) : option (list (string * (json * string))) :=
  match skip_ws data with
  | String c s =>
      if Ascii.eqb c "{"
      then whole (object (with_text (parse_value (String.length data) (Nat.pred max_depth)))
                    (String.length data) s)
      else None
  | EmptyString => None
  end.

(** [json.Unmarshal] into a struct. *)
Definition Unmarshal (data : string) (t : T) : decoded T :=
  match json_parse data with
  | None => (t, Some SyntaxError)
  | Some JNull => (t, None)
  | Some (JObj _) =>
      match json_object data with
      | Some ms => decode_fields ms t None
      | None => (t, Some SyntaxError)
      end
  | Some _ => (t, Some UnmarshalTypeError)
  end.

Lemma decode_fields_error (P : error -> Prop) ms t saved t' e :
  (forall name v text t t' b e, field name v text t = (t', Some (b, e)) -> P e) ->
  (forall e, saved = Some e -> P e) ->
  decode_fields ms t saved = (t', Some e) -> P e.
Proof.
  intros Hf. revert t saved. induction ms as [|[k [v text]] ms IH]; intros t saved Hs; cbn [decode_fields].
  - intros [= _ H]. by apply Hs.
  - destruct (match_field names k) as [name|]; [|by apply IH].
    destruct (field name v text t) as [t1 [[[] e1]|]] eqn:Hd; [|apply IH|by apply IH].
    + intros [= _ <-]. by eapply Hf.
    + destruct saved as [e0|]; [done|]. intros e2 [= <-]. by eapply Hf.
Qed.

Lemma Unmarshal_error (P : error -> Prop) data t t' e :
  P SyntaxError -> P UnmarshalTypeError ->
  (forall name v text t t' b e, field name v text t = (t', Some (b, e)) -> P e) ->
  Unmarshal data t = (t', Some e) -> P e.
Proof.
  intros Hs Hu Hf. unfold Unmarshal.
  destruct (json_parse data) as [v|]; [|by intros [= _ <-]].
  destruct v; try (by intros [= _ <-]); try done.
  destruct (json_object data) as [ms|]; [|by intros [= _ <-]].
  by apply decode_fields_error.
Qed.

End Struct.

Lemma decode_string_error old v t e : decode_string old v = (t, Some e) -> e = UnmarshalTypeError.
Proof. destruct v; by intros [= _ <-]. Qed.

Lemma decode_any_error v t e : decode_any v = (t, Some e) -> e = UnmarshalTypeError.
Proof. unfold decode_any. destruct (any_of_json v); by intros [= _ <-]. Qed.

Lemma decode_slice_error {T} (decode : json -> decoded T) old v t e :
  (forall v t e, decode v = (t, Some e) -> e = UnmarshalTypeError) ->
  decode_slice decode old v = (t, Some e) -> e = UnmarshalTypeError.
Proof.
  intros Hd. destruct v as [|b|n|s|l|m]; try (by intros [= _ <-]). cbn [decode_slice]. intros [= _ H].
  assert (Hf : forall acc, (forall e, acc = Some e -> e = UnmarshalTypeError) ->
    fold_left (fun e d => match e with None => d.2 | _ => e end) (map decode l) acc = Some e -> e = UnmarshalTypeError).
  { clear H. induction l as [|x l IH]; intros acc Hacc; cbn [map fold_left]; [apply Hacc|]. apply IH.
    destruct acc as [e0|]; [done|]. destruct (decode x) as [t0 [e0|]] eqn:Hx; [|done].
    intros e1 [= <-]. by eapply Hd. }
  by apply (Hf None).
Qed.

Definition decoded_result {T} (d : decoded T) : result error T :=
  match d with (t, None) => Ok t | (_, Some e) => Err e end.

(** [json.Marshal] of a struct: its fields' texts, those that are omitted left out. *)
Definition field_text : Type := string * option string.

Definition struct_text (fields : list field_text) : string :=
  bracket compact 0 "{" "}"
    (omap (fun f => match f.2 with Some t => Some (member_text compact f.1 t) | None => None end) fields).

(** [omitempty] on a string. *)
Definition nonempty_string (s : string) : option string :=
  if String.eqb s "" then None else Some (enc_string s).

Definition bool_text (b : bool) : string := if b then "true" else "false".
Definition int_text (z : Z) : string := pretty z.

(** compact: the text of a [json.RawMessage] without the white space outside strings,
    the characters HTML reads escaped. [inside], [escaped]: within a string, after a
    backslash. *)
Fixpoint compact_text (inside escaped : bool) (s : string) : string :=
  match s with
  | EmptyString => ""
  | String c s' =>
      let next :=
        if inside then compact_text (escaped || negb (Ascii.eqb c quotation)) (negb escaped && Ascii.eqb c backslash) s'
        else compact_text (Ascii.eqb c quotation) false s' in
      if negb inside && is_space c then next
      else if (code c =? 60) || (code c =? 62) || (code c =? 38) then escape_u00 c +:+ next
      else if HasPrefix s line_separator || HasPrefix s paragraph_separator then
        match s' with
        | String _ (String _ s'') =>
            escape "u" +:+ (if HasPrefix s line_separator then "2028" else "2029") +:+
            compact_text inside false s''
        | _ => ""
        end
      else String c next
  end.

(** ** Reading a struct back *)
Section ReadStruct.

Lemma substring_prefix s t :
  String.substring 0 (String.length (s +:+ t) - String.length t) (s +:+ t) = s.
Proof.
  rewrite String_length_app. replace (String.length s + String.length t - String.length t)%nat
    with (String.length s) by lia.
  induction s as [|c s IH]; [by destruct t|].
  change (String c (String.substring 0 (String.length s) (s +:+ t)) = String c s). by rewrite IH.
Qed.

Lemma with_text_reads {A} (pv : string -> option (A * string)) text v :
  reads pv text v -> value_start text -> reads (with_text pv) text (v, text).
Proof.
  intros Hv Hs sp rest Hsp Hr. unfold with_text.
  rewrite skip_ws_blank, skip_ws_nonblank by done.
  pose proof (Hv "" rest eq_refl Hr) as H. change ("" +:+ text +:+ rest) with (text +:+ rest) in H.
  by rewrite H, substring_prefix.
Qed.

Lemma with_text_shrinks {A} (pv : string -> option (A * string)) :
  shrinks pv -> shrinks (with_text pv).
Proof.
  intros Hpv s [v t] r. unfold with_text. pose proof (skip_ws_length s).
  destruct (pv (skip_ws s)) as [[v' r']|] eqn:Hp; [|done]. apply Hpv in Hp. intros [= _ _ <-]. lia.
Qed.

(** A field whose text is that of a value of acceptable depth. *)
Definition field_ok (f : string * json) : Prop :=
  json_ok f.2 = true /\ (depth f.2 <= Nat.pred max_depth)%nat.

Definition fields_width (fs : list (string * json)) : nat :=
  foldr (fun f n => Nat.max (width f.2) n) (length fs) fs.

(** What is read of the members of an object that was written in some layout. *)
Definition object_read (lay : layout) (fs : list (string * json)) : list (string * (json * string)) :=
  map (fun f => (to_valid f.1, (normal f.2, print lay 1 f.2))) fs.

Section Layout.
Context (lay : layout) (Hlay : layout_ok lay).

Lemma object_fields (n : nat) fs rest :
  Forall field_ok fs -> (fields_width fs <= n)%nat ->
  exists s, print lay 0 (JObj fs) +:+ rest = String "{" s /\
    object (parse_value n (Nat.pred max_depth)) n s =
      Some (map (fun f => (f.1, f.2.1)) (object_read lay fs), rest) /\
    object (with_text (parse_value n (Nat.pred max_depth))) n s = Some (object_read lay fs, rest).
Proof.
  intros Hok Hw. apply (max_over (fun f : string * json => width f.2)) in Hw as [Hlen Hw].
  assert (Hr : Forall (fun f => reads (parse_value n (Nat.pred max_depth)) (print lay 1 f.2) (normal f.2)) fs).
  { rewrite Forall_forall in *. intros f Hf. destruct (Hok f Hf) as [Hj Hd].
    apply print_reads; [done|done|done|by apply Hw]. }
  destruct (object_reads lay Hlay (parse_value n (Nat.pred max_depth)) n 0
    (map (fun f => (f.1, (print lay 1 f.2, normal f.2))) fs) rest) as (s & Hs & Ho);
    [by apply Forall_map|by rewrite length_map|].
  destruct (object_reads lay Hlay (with_text (parse_value n (Nat.pred max_depth))) n 0
    (map (fun f => (f.1, (print lay 1 f.2, (normal f.2, print lay 1 f.2)))) fs) rest)
    as (s' & Hs' & Ho'); [|by rewrite length_map|].
  { apply Forall_map. rewrite Forall_forall in *. intros f Hf. apply with_text_reads; [by apply Hr|].
    apply print_start. by apply Hok. }
  rewrite List.map_map in Hs, Hs', Ho, Ho'. cbn [fst snd] in *.
  assert (s' = s) as -> by (rewrite Hs in Hs'; by injection Hs').
  exists s. split; [exact Hs|]. unfold object_read. rewrite List.map_map. by split.
Qed.

Lemma max_depth_pos : (0 < max_depth)%nat.
Proof. unfold max_depth. lia. Qed.

Lemma json_object_fields fs :
  Forall field_ok fs -> json_object (print lay 0 (JObj fs)) = Some (object_read lay fs) /\
    json_parse (print lay 0 (JObj fs)) = Some (JObj (map (fun f => (f.1, f.2.1)) (object_read lay fs))).
Proof.
  intros Hok. set (data := print lay 0 (JObj fs)). set (n := (String.length data + fields_width fs)%nat).
  destruct (object_fields n fs "" Hok ltac:(lia)) as (s & Hs & Ho & Ho').
  rewrite String_app_nil in Hs. fold data in Hs.
  assert (Hls : (String.length s <= String.length data)%nat) by (rewrite Hs; cbn; lia).
  unfold json_object, json_parse. clear Hok. pose proof max_depth_pos as Hd.
  destruct max_depth as [|d]; [lia|]. cbn [Nat.pred] in *.
  split.
  - rewrite Hs at 1. cbn [skip_ws]. change (is_space "{") with false. cbv iota beta.
    rewrite Ascii.eqb_refl.
    rewrite (object_bound _ (with_text (parse_value n d)) (String.length data) n s);
      [by rewrite Ho'|..]; [apply with_text_shrinks, parse_value_shrinks|..]; try lia.
    intros t Ht. unfold with_text. pose proof (skip_ws_length t).
    by rewrite (parse_value_bound d (String.length data) n) by lia.
  - rewrite (parse_value_bound _ _ n) by lia. rewrite Hs.
    cbn [parse_value skip_ws]. change (is_space "{") with false. cbv iota beta.
    change (Ascii.eqb "{" "[") with false. rewrite Ascii.eqb_refl, Ho. done.
Qed.

(** What Unmarshal makes of the text of an object. *)
Lemma Unmarshal_layout {T} names (field : string -> json -> string -> T -> field_result T) fs t :
  Forall field_ok fs ->
  Unmarshal names field (print lay 0 (JObj fs)) t = decode_fields names field (object_read lay fs) t None.
Proof.
  intros Hok. destruct (json_object_fields fs Hok) as [Ho Hp]. unfold Unmarshal.
  rewrite Hp, Ho. done.
Qed.

End Layout.

(** ** In the compact layout *)
Definition fields_text (fs : list (string * json)) : string :=
  bracket compact 0 "{" "}" (map (fun f => member_text compact f.1 (print compact 0 f.2)) fs).

Definition fields_read (fs : list (string * json)) : list (string * (json * string)) :=
  map (fun f => (to_valid f.1, (normal f.2, print compact 0 f.2))) fs.

Lemma print_object m : print compact 0 (JObj m) = fields_text m.
Proof.
  cbn [print]. unfold fields_text. f_equal. apply map_ext. intros kv.
  by rewrite (print_compact_level kv.2 1).
Qed.

Lemma Unmarshal_fields {T} names (field : string -> json -> string -> T -> field_result T) fs t :
  Forall field_ok fs ->
  Unmarshal names field (fields_text fs) t = decode_fields names field (fields_read fs) t None.
Proof.
  intros Hok. rewrite <- print_object, (Unmarshal_layout compact compact_ok) by done. f_equal.
  apply map_ext. intros kv. by rewrite (print_compact_level kv.2 1).
Qed.

(** Of a value that is an object. *)
Lemma object_field_ok m :
  json_ok (JObj m) = true -> (depth (JObj m) <= max_depth)%nat -> Forall field_ok m.
Proof.
  intros Hok Hd. cbn [json_ok depth] in *. apply forallb_all in Hok.
  apply (Nat.pred_le_mono) in Hd. cbn [Nat.pred] in Hd.
  apply (max_over (fun kv : string * json => depth kv.2)) in Hd as [_ Hd].
  rewrite Forall_forall in *. intros f Hf. split; [by apply Hok|by apply Hd].
Qed.

Lemma Unmarshal_object {T} names (field : string -> json -> string -> T -> field_result T) m t :
  json_ok (JObj m) = true -> (depth (JObj m) <= max_depth)%nat ->
  Unmarshal names field (print compact 0 (JObj m)) t = decode_fields names field (fields_read m) t None.
Proof. intros Hok Hd. rewrite print_object. by apply Unmarshal_fields, object_field_ok. Qed.

(** The fields that are not omitted, as values. *)
Definition present {A} (fs : list (string * option A)) : list (string * A) :=
  omap (fun f => match f.2 with Some v => Some (f.1, v) | None => None end) fs.

Lemma struct_text_fields (fs : list (string * option json)) :
  struct_text (map (fun f => (f.1, print compact 0 <$> f.2)) fs) = fields_text (present fs).
Proof.
  unfold struct_text, fields_text, present. f_equal.
  induction fs as [|[k [v|]] fs IH]; cbn in *; [done|by rewrite IH|exact IH].
Qed.

End ReadStruct.

(** ** A value's own text is already compact *)
Section Compact.

Definition no_separator (s : string) : Prop :=
  HasPrefix s line_separator = false /\ HasPrefix s paragraph_separator = false.

Lemma compact_step inside escaped c s :
  no_separator (String c s) -> plain c = true -> (inside = true \/ is_space c = false) ->
  compact_text inside escaped (String c s) =
    String c (if inside
              then compact_text (escaped || negb (Ascii.eqb c quotation))
                     (negb escaped && Ascii.eqb c backslash) s
              else compact_text (Ascii.eqb c quotation) false s).
Proof.
  intros [H1 H2] Hp Hs. cbn [compact_text].
  replace (negb inside && is_space c) with false
    by (destruct Hs as [-> | ->]; [done|by rewrite andb_false_r]).
  unfold plain in Hp. apply andb_prop in Hp as [_ Hp]. apply negb_true_iff in Hp. by rewrite Hp, H1, H2.
Qed.

(** The separators start with the byte 226. *)
Lemma no_separator_lead c s : code c <> 226 -> no_separator (String c s).
Proof.
  intros Hc. assert (Hpre : forall t, HasPrefix (String c s) (String "226" t) = false).
  { intros t. unfold HasPrefix. cbn [String.prefix]. destruct (ascii_dec "226" c) as [<-|]; [|done].
    by destruct Hc. }
  split; apply Hpre.
Qed.

Lemma no_separator_three a b c s :
  String a (String b (String c "")) <> line_separator ->
  String a (String b (String c "")) <> paragraph_separator ->
  no_separator (String a (String b (String c s))).
Proof.
  assert (Hpre : forall x y z, String a (String b (String c "")) <> String x (String y (String z "")) ->
    HasPrefix (String a (String b (String c s))) (String x (String y (String z ""))) = false).
  { intros x y z Hne. unfold HasPrefix. cbn [String.prefix].
    destruct (ascii_dec x a) as [->|]; [|done]. destruct (ascii_dec y b) as [->|]; [|done].
    destruct (ascii_dec z c) as [->|]; [|done]. by destruct Hne. }
  intros Hl Hp. split; by apply Hpre.
Qed.

Lemma compact_byte c t : code c < 128 ->
  compact_text true false (enc_byte c +:+ t) = enc_byte c +:+ compact_text true false t.
Proof.
  intros Hc. destruct c as [[] [] [] [] [] [] [] []];
    first [exfalso; vm_compute in Hc; discriminate Hc | reflexivity].
Qed.

Lemma compact_high c t : 128 <= code c -> no_separator (String c t) ->
  compact_text true false (String c t) = String c (compact_text true false t).
Proof.
  intros Hc Hne. rewrite compact_step by (try apply plain_high; auto).
  assert (Hq : forall d, code d < 128 -> Ascii.eqb c d = false).
  { intros d Hd. apply Ascii.eqb_neq. intros ->. lia. }
  by rewrite !Hq.
Qed.

(** A byte that continues a rune. *)
Lemma compact_cont (lo hi : Z) c t :
  128 <= lo -> hi <= 191 -> between lo (code c) hi = true ->
  compact_text true false (String c t) = String c (compact_text true false t).
Proof.
  intros Hlo Hhi. unfold between. intros H. bool_to_prop.
  apply compact_high; [lia|]. apply no_separator_lead. lia.
Qed.

Lemma compact_multi m t : multi m -> m <> line_separator -> m <> paragraph_separator ->
  compact_text true false (m +:+ t) = m +:+ compact_text true false t.
Proof.
  intros Hm Hl Hp. destruct Hm as [a b H|a b c H|a b c d H]; rewrite !String_app_cons.
  - pose proof (rune2_lead _ _ H). unfold rune2 in H. apply andb_prop in H as [_ H].
    rewrite compact_high by (apply no_separator_lead || idtac; lia).
    by rewrite (compact_cont 128 191) by (lia || done).
  - pose proof (rune3_lead _ _ _ H). unfold rune3 in H. apply andb_prop in H as [H H3].
    apply andb_prop in H as [_ H].
    rewrite compact_high by (by apply no_separator_three || lia).
    rewrite (compact_cont (if code a =? 224 then 160 else 128) (if code a =? 237 then 159 else 191) b);
      [|by destruct (code a =? 224)|by destruct (code a =? 237)|exact H].
    by rewrite (compact_cont 128 191) by (lia || done).
  - pose proof (rune4_lead _ _ _ _ H). unfold rune4 in H. apply andb_prop in H as [H H4].
    apply andb_prop in H as [H H3]. apply andb_prop in H as [_ H].
    rewrite compact_high by (apply no_separator_lead || idtac; lia).
    rewrite (compact_cont (if code a =? 240 then 144 else 128) (if code a =? 244 then 143 else 191) b);
      [|by destruct (code a =? 240)|by destruct (code a =? 244)|exact H].
    by rewrite !(compact_cont 128 191) by (lia || done).
Qed.

Lemma compact_enc_string s rest :
  compact_text false false (enc_string s +:+ rest) = enc_string s +:+ compact_text false false rest.
Proof.
  unfold enc_string. rewrite !String_app_cons, !String_app_assoc.
  change (compact_text false false (String quotation ?t)) with (String quotation (compact_text true false t)).
  f_equal. unfold enc_chars. revert s.
  refine (runes_ind (fun s rs => compact_text true false (flatten enc_rune rs +:+ String quotation "" +:+ rest)
    = flatten enc_rune rs +:+ String quotation "" +:+ compact_text false false rest) _ _ _ _); [done|..];
    intros x s rs Hx IH; cbn [flatten]; rewrite !String_app_assoc.
  - cbn [enc_rune]. by rewrite compact_byte, IH.
  - cbn [enc_rune]. destruct (String.eqb_spec x line_separator) as [->|Hl]; [by rewrite <- IH|].
    destruct (String.eqb_spec x paragraph_separator) as [->|Hp]; [by rewrite <- IH|].
    by rewrite compact_multi, IH.
  - by rewrite <- IH.
Qed.

(** Text outside strings. *)
Definition bare (c : ascii) : bool :=
  (code c <? 128) && plain c && negb (is_space c) && negb (Ascii.eqb c quotation).

Lemma compact_bare s rest :
  forallb bare (String.list_ascii_of_string s) = true ->
  compact_text false false (s +:+ rest) = s +:+ compact_text false false rest.
Proof.
  induction s as [|c s IH]; [done|]. cbn [String.list_ascii_of_string forallb].
  intros [[[[Ha Hp]%andb_prop Hs%negb_true_iff]%andb_prop Hq%negb_true_iff]%andb_prop Hr]%andb_prop.
  rewrite !String_app_cons, compact_step; [|apply no_separator_lead; bool_to_prop; lia|done|by right].
  by rewrite Hq, IH.
Qed.

Definition self_compact (s : string) : Prop :=
  forall rest, compact_text false false (s +:+ rest) = s +:+ compact_text false false rest.

Lemma compact_bracket i op cl l :
  self_compact op -> self_compact cl -> Forall self_compact l ->
  self_compact (bracket compact i op cl l).
Proof.
  intros Ho Hc Hl rest. destruct l as [|s l]; cbn [bracket]; rewrite !String_app_assoc, Ho; [by rewrite Hc|].
  f_equal. assert (Hj : self_compact (strings_Join "," (map (fun x => lay_line compact (S i) +:+ x) (s :: l)))).
  { change (map (fun x => lay_line compact (S i) +:+ x) (s :: l)) with (map (fun x : string => x) (s :: l)).
    rewrite List.map_id. clear -Hl. induction Hl as [|s0 l0 Hs Hl IH]; [done|]. destruct l0 as [|t l0]; [exact Hs|].
    intros r. rewrite strings_Join_cons, !String_app_assoc, Hs, !String_app_cons by done. f_equal.
    change (compact_text false false (String "," ?x)) with (String "," (compact_text false false x)).
    by rewrite IH. }
  rewrite Hj. f_equal. apply Hc.
Qed.

Lemma compact_print v i : json_ok v = true -> self_compact (print compact i v).
Proof.
  revert i. induction v as [|b|lit|s|l IH|m IH] using json_ind'; intros i Hok; cbn [print].
  - intros rest. by apply compact_bare.
  - intros rest. destruct b; by apply compact_bare.
  - intros rest. apply compact_bare. apply andb_prop in Hok as [H _]. apply forallb_all in H.
    apply forallb_forall. intros c Hc%list_elem_of_In. rewrite Forall_forall in H. specialize (H c Hc).
    destruct c as [[] [] [] [] [] [] [] []]; first [discriminate H | done].
  - intros rest. apply compact_enc_string.
  - apply compact_bracket; [intros rest; by apply compact_bare..|]. apply Forall_map.
    cbn [json_ok] in Hok. apply forallb_all in Hok. rewrite Forall_forall in *. intros v Hv. by apply IH; [|apply Hok].
  - apply compact_bracket; [intros rest; by apply compact_bare..|]. apply Forall_map.
    cbn [json_ok] in Hok. apply forallb_all in Hok. rewrite Forall_forall in *. intros kv Hkv rest.
    unfold member_text. rewrite !String_app_assoc, compact_enc_string. f_equal.
    rewrite (compact_bare (lay_colon compact)) by done. f_equal. apply IH; [done|by apply Hok].
Qed.

Lemma compact_text_print v : json_ok v = true -> compact_text false false (print compact 0 v) = print compact 0 v.
Proof.
  intros Hok. pose proof (compact_print v 0 Hok "") as H. by rewrite !String_app_nil in H.
Qed.

End Compact.

(** ** Decoding field by field *)
Section Fields.
Context {T : Type} (names : list string) (field : string -> json -> string -> T -> field_result T).
(** The text of a field's value. *)
Context (text : json -> string).

Definition decode_texts (fs : list (string * option json)) (t : T) : decoded T :=
  decode_fields names field (map (fun f => (to_valid f.1, (normal f.2, text f.2))) (present fs)) t None.

(** A field that is there or omitted. *)
Lemma decode_texts_cons name o fs t t' :
  match_field names (to_valid name) = Some name ->
  match o with
  | Some v => field name (normal v) (text v) t = (t', None)
  | None => t' = t
  end ->
  decode_texts ((name, o) :: fs) t = decode_texts fs t'.
Proof.
  intros Hn Ho. unfold decode_texts. destruct o as [v|]; [|by subst].
  change (present ((name, Some v) :: fs)) with ((name, v) :: present fs).
  cbn [map decode_fields fst snd]. by rewrite Hn, Ho.
Qed.

End Fields.

Section CompactFields.
Context {T : Type} (names : list string) (field : string -> json -> string -> T -> field_result T).

Definition decode_present : list (string * option json) -> T -> decoded T :=
  decode_texts names field (print compact 0).

Lemma decode_present_cons name o fs t t' :
  match_field names (to_valid name) = Some name ->
  match o with
  | Some v => field name (normal v) (print compact 0 v) t = (t', None)
  | None => t' = t
  end ->
  decode_present ((name, o) :: fs) t = decode_present fs t'.
Proof. apply decode_texts_cons. Qed.

(** The text of a struct from its fields' values, and what Unmarshal makes of it. *)
Lemma Unmarshal_struct fs t :
  Forall field_ok (present fs) ->
  Unmarshal names field (struct_text (map (fun f => (f.1, print compact 0 <$> f.2)) fs)) t =
    decode_present fs t.
Proof. intros Hok. by rewrite struct_text_fields, Unmarshal_fields. Qed.

End CompactFields.

(** An optional string of a struct. *)
Definition opt_string (s : string) : option json := if String.eqb s "" then None else Some (JStr s).

Lemma nonempty_string_print s : nonempty_string s = (print compact 0 <$> opt_string s).
Proof. unfold nonempty_string, opt_string. by destruct (String.eqb s ""). Qed.

Lemma field_ok_opt_string name s fs :
  Forall field_ok (present fs) -> Forall field_ok (present ((name, opt_string s) :: fs)).
Proof.
  intros Hfs. unfold opt_string. destruct (String.eqb s ""); [done|].
  constructor; [|done]. split; [done|]. cbn [snd depth]. lia.
Qed.

Lemma field_ok_some name v fs :
  json_ok v = true -> (depth v < max_depth)%nat -> Forall field_ok (present fs) ->
  Forall field_ok (present ((name, Some v) :: fs)).
Proof. intros Hv Hd Hfs. constructor; [|done]. split; [done|]. cbn [snd]. lia. Qed.

(** A string field decoded into a struct that has it empty. *)
Lemma opt_string_field {T} (field : string -> json -> string -> T -> field_result T) txt name s
    (set : string -> T) t :
  (forall v text, field name v text t = set_field set (decode_string "" v)) -> set "" = t ->
  match opt_string s with
  | Some v => field name (normal v) (txt v) t = (set (to_valid s), None)
  | None => set (to_valid s) = t
  end.
Proof.
  intros Hf Ht. unfold opt_string. destruct (String.eqb_spec s "") as [->|_]; [exact Ht|].
  rewrite Hf. reflexivity.
Qed.

(** ** Slices and integers *)
Lemma decode_slice_cons {T} (decode : json -> decoded T) old x y l ys :
  decode x = (y, None) -> decode_slice decode old (JArr l) = (ys, None) ->
  decode_slice decode old (JArr (x :: l)) = (y :: ys, None).
Proof.
  cbn [decode_slice map fold_left]. intros Hx [= <- Hl]. rewrite Hx. cbn [fst snd]. by rewrite Hl.
Qed.

Lemma decode_int_pretty old z : in_int64 z -> decode_int old (JNum (pretty z)) = (z, None).
Proof. intros Hz. unfold decode_int. by rewrite ParseInt_pretty. Qed.

(** ** The text of a struct is one line *)
Lemma struct_text_plain (fs : list (string * option json)) :
  Forall field_ok (present fs) ->
  plain_text (struct_text (map (fun f => (f.1, print compact 0 <$> f.2)) fs)) = true.
Proof.
  intros Hok. rewrite struct_text_fields. unfold fields_text. apply plain_bracket; [done..|].
  apply Forall_map. eapply Forall_impl; [exact Hok|]. intros f [Hf _]. unfold member_text.
  rewrite !plain_text_app, plain_enc_string, print_compact_plain by done. done.
Qed.

(** Members whose names are no field's change nothing. *)
Definition unknown (names ks : list string) : bool :=
  forallb (fun k => match match_field names (to_valid k) with None => true | Some _ => false end) ks.

Lemma decode_unknown {T} names (field : string -> json -> string -> T -> field_result T) m t :
  unknown names (map fst m) = true ->
  decode_fields names field (fields_read m) t None = (t, None).
Proof.
  unfold unknown. induction m as [|[k v] m IH]; [done|]. cbn [map forallb fst].
  intros [Hk Hm]%andb_prop. cbn [fields_read map decode_fields fst snd].
  destruct (match_field names (to_valid k)); [done|]. by apply IH.
Qed.

(** A member with an integer. *)
Lemma decode_fields_int {T} names (field : string -> json -> string -> T -> field_result T)
    k name z m t (get : T -> Z) (set : Z -> T) :
  match_field names (to_valid k) = Some name -> in_int64 z ->
  (forall v text, field name v text t = set_field set (decode_int (get t) v)) ->
  decode_fields names field (fields_read ((k, JNum (pretty z)) :: m)) t None =
    decode_fields names field (fields_read m) (set z) None.
Proof.
  intros Hn Hz Hf. cbn [fields_read map decode_fields fst snd normal]. rewrite Hn, Hf.
  by rewrite decode_int_pretty.
Qed.
