(* ===== verification/Rfc3339.v ===== *)
(** * Times in RFC 3339 (time.Time's MarshalJSON and UnmarshalJSON)

    The proleptic Gregorian calendar on days, the text of an instant in a zone some
    seconds east of Greenwich, with the fraction of the second as short as it can be, and
    the strict parser. An instant is the number of nanoseconds since January 1, year 1. *)
From Stdlib Require Import Ascii.
From S2P Require Import Prelude.
From S2P Require Import GoFloat.
From S2P Require Import GoStrings.
From S2P Require Import Strconv.
From S2P Require Import JsonString.
From S2P Require Import Json.
From S2P Require Import JsonText.
From S2P Require Import GoDecimal.
Local Open Scope string_scope.
Local Open Scope Z_scope.

(** ** The calendar *)

(** Days before March 1 of year [y], from March 1 of year 0. *)
Definition days_before (y : Z) : Z := 365 * y + y / 4 - y / 100 + y / 400.

(** The day of a year that starts on March 1: month and day of the month. *)
Definition month_day (doy : Z) : Z * Z :=
  let mp := (5 * doy + 2) / 153 in
  (if mp <? 10 then mp + 3 else mp - 9, doy - (153 * mp + 2) / 5 + 1).

Definition day_of_year (m d : Z) : Z := (153 * (if 2 <? m then m - 3 else m + 9) + 2) / 5 + d - 1.

(** The date of a day, counted from January 1, year 1: first the year that starts in
    March, within the cycle of 400 years. *)
Definition date_of_day (day : Z) : Z * Z * Z :=
  let z := day + 306 in
  let doe := z mod 146097 in
  let guess := doe / 365 in
  let yoe := if doe <? days_before guess then guess - 1 else guess in
  let '(m, d) := month_day (doe - days_before yoe) in
  ((if m <=? 2 then yoe + 1 else yoe) + 400 * (z / 146097), m, d).

Definition day_of_date (date : Z * Z * Z) : Z :=
  let '(y, m, d) := date in
  days_before (if m <=? 2 then y - 1 else y) + day_of_year m d - 306.

Definition is_leap (y : Z) : bool :=
  (y mod 4 =? 0) && (negb (y mod 100 =? 0) || (y mod 400 =? 0)).

Definition days_in (y m : Z) : Z :=
  if m =? 2 then (if is_leap y then 29 else 28)
  else if (m =? 4) || (m =? 6) || (m =? 9) || (m =? 11) then 30 else 31.

(** ** The text *)
Definition digit_char (n : Z) : ascii := chr (48 + n).

(** [n] in [k] digits. *)
Fixpoint padded (k : nat) (n : Z) : string :=
  match k with O => "" | S k => padded k (n / 10) +:+ String (digit_char (n mod 10)) "" end.

Definition fraction_text (nsec : Z) : string :=
  match TrimRight "0" (padded 9 nsec) with "" => "" | f => String "." f end.

Definition zone_text (offset : Z) : string :=
  let zone := Z.quot offset 60 in
  if offset =? 0 then "Z"
  else String (if zone <? 0 then "-"%char else "+"%char)
         (padded 2 (Z.abs zone / 60) +:+ ":" +:+ padded 2 (Z.abs zone mod 60)).

(** The seconds and the nanoseconds of an instant on the clocks of a zone. *)
Definition local_seconds (offset t : Z) : Z := t / Second + offset.

Definition format_time (offset t : Z) : string :=
  let s := local_seconds offset t in
  let '(y, m, d) := date_of_day (s / 86400) in
  let sec := s mod 86400 in
  padded 4 y +:+ "-" +:+ padded 2 m +:+ "-" +:+ padded 2 d +:+ "T" +:+
  padded 2 (sec / 3600) +:+ ":" +:+ padded 2 (sec / 60 mod 60) +:+ ":" +:+ padded 2 (sec mod 60) +:+
  fraction_text (t mod Second) +:+ zone_text offset.

(** [MarshalJSON] refuses years of other than four digits and zones a day away. *)
Definition time_text (offset t : Z) : option string :=
  let '(y, _, _) := date_of_day (local_seconds offset t / 86400) in
  if between 0 y 9999 && (Z.abs (Z.quot offset 3600) <? 24) then Some (format_time offset t) else None.

(** ** The parser *)

(** A number of [k] digits between two bounds. *)
Fixpoint take_digits (k : nat) (acc : Z) (s : string) : option (Z * string) :=
  match k with
  | O => Some (acc, s)
  | S k =>
      match s with
      | String c s => match digit c with Some d => take_digits k (acc * 10 + d) s | None => None end
      | EmptyString => None
      end
  end.

Definition number_in (k : nat) (lo hi : Z) (s : string) : option (Z * string) :=
  match take_digits k 0 s with
  | Some (n, s) => if between lo n hi then Some (n, s) else None
  | None => None
  end.

(** The first nine digits of a fraction, the missing ones zeros. *)
Definition parse_fraction (s : string) : Z * string :=
  match s with
  | String c rest =>
      let '(f, r) := span is_digit rest in
      if Ascii.eqb c "." && negb (String.eqb f "")
      then (default 0 (parse_digits 0 (String.substring 0 9 (f +:+ zeros 9))), r)
      else (0, s)
  | EmptyString => (0, s)
  end.

Definition parse_zone (s : string) : option Z :=
  match s with
  | EmptyString => None
  | String c s =>
      if Ascii.eqb c "Z" then (if String.eqb s "" then Some 0 else None)
      else
        match number_in 2 0 23 s with
        | Some (hr, String ":" s) =>
            match number_in 2 0 59 s with
            | Some (mm, EmptyString) =>
                let z := (hr * 60 + mm) * 60 in
                if Ascii.eqb c "+" then Some z else if Ascii.eqb c "-" then Some (- z) else None
            | _ => None
            end
        | _ => None
        end
  end.

Definition parse_time (s : string) : option Z :=
  y ← number_in 4 0 9999 s; s ← expect "-" y.2;
  m ← number_in 2 1 12 s; s ← expect "-" m.2;
  d ← number_in 2 1 (days_in y.1 m.1) s; s ← expect "T" d.2;
  h ← number_in 2 0 23 s; s ← expect ":" h.2;
  n ← number_in 2 0 59 s; s ← expect ":" n.2;
  x ← number_in 2 0 59 s;
  let '(nsec, s) := parse_fraction x.2 in
  zone ← parse_zone s;
  Some ((day_of_date (y.1, m.1, d.1) * 86400 + h.1 * 3600 + n.1 * 60 + x.1 - zone) * Second + nsec).

Example format_example :
  time_text 0 0 = Some "0001-01-01T00:00:00Z" /\
  time_text 19800 (63839663999 * Second + 120000000) = Some "2024-01-01T05:29:59.12+05:30" /\
  time_text 0 (- 366 * 86400 * Second - 1) = None.
Proof. vm_compute. repeat split. Qed.

Example parse_example :
  parse_time "2024-02-29T00:00:00Z" = Some (63844761600 * Second) /\
  parse_time "2023-02-29T00:00:00Z" = None /\
  parse_time "2024-01-01T05:29:59.12+05:30" = Some (63839663999 * Second + 120000000).
Proof. vm_compute. repeat split. Qed.

(** ** The round trip *)
Section RoundTrip.

(** The days of a year, by computation. *)
Definition day_ok (doy : Z) : bool :=
  let '(m, d) := month_day doy in
  between 1 m 12 && between 1 d (if (m =? 2) && (doy =? 365) then 29 else days_in 1 m) &&
  (day_of_year m d =? doy) && (negb (doy =? 365) || (m =? 2)).

Lemma month_day_ok doy : 0 <= doy <= 365 -> day_ok doy = true.
Proof.
  intros Hd. assert (Hall : forallb day_ok (map Z.of_nat (seq 0 366)) = true) by (vm_compute; reflexivity).
  rewrite forallb_forall in Hall. apply Hall. apply in_map_iff. exists (Z.to_nat doy).
  split; [lia|]. apply in_seq. lia.
Qed.

Lemma yoe_ok doe : 0 <= doe < 146097 ->
  let guess := doe / 365 in
  let yoe := if doe <? days_before guess then guess - 1 else guess in
  0 <= yoe < 400 /\ 0 <= doe - days_before yoe <= 365 /\
  (doe - days_before yoe = 365 -> is_leap (yoe + 1) = true).
Proof.
  intros Hd guess yoe.
  assert (Hy : 0 <= yoe < 400 /\ days_before yoe <= doe < days_before (yoe + 1)).
  { unfold yoe, guess, days_before. destruct (Z.ltb_spec doe (365 * (doe / 365) + doe / 365 / 4 - doe / 365 / 100 + doe / 365 / 400));
      Z.div_mod_to_equations; lia. }
  clearbody yoe. destruct Hy as [Hy Hb]. split; [done|]. unfold days_before, is_leap in *.
  split; [Z.div_mod_to_equations; lia|]. intros H365.
  destruct (Z.eqb_spec ((yoe + 1) mod 4) 0), (Z.eqb_spec ((yoe + 1) mod 100) 0), (Z.eqb_spec ((yoe + 1) mod 400) 0);
    cbn; try done; exfalso; Z.div_mod_to_equations; lia.
Qed.

Lemma is_leap_cycle y k : is_leap (y + 400 * k) = is_leap y.
Proof.
  unfold is_leap. replace (y + 400 * k) with (y + (100 * k) * 4) at 1 by lia. rewrite Z.mod_add by lia.
  replace (y + 400 * k) with (y + (4 * k) * 100) at 1 by lia. rewrite Z.mod_add by lia.
  replace (y + 400 * k) with (y + k * 400) by lia. by rewrite Z.mod_add by lia.
Qed.

Lemma days_before_cycle y k : days_before (y + 400 * k) = days_before y + 146097 * k.
Proof.
  unfold days_before. replace (y + 400 * k) with (y + (100 * k) * 4) at 2 by lia. rewrite Z.div_add by lia.
  replace (y + 400 * k) with (y + (4 * k) * 100) at 2 by lia. rewrite Z.div_add by lia.
  replace (y + 400 * k) with (y + k * 400) at 2 by lia. rewrite Z.div_add by lia. lia.
Qed.

Lemma days_in_ge y m : days_in 1 m <= days_in y m.
Proof. unfold days_in. destruct (m =? 2); [destruct (is_leap y); done|done]. Qed.

(** A day's date is a date, and the day it is the date of. *)
Lemma date_of_day_ok day y m d :
  date_of_day day = (y, m, d) ->
  1 <= m <= 12 /\ 1 <= d <= days_in y m /\ day_of_date (y, m, d) = day.
Proof.
  unfold date_of_day. pose proof (Z.mod_pos_bound (day + 306) 146097 ltac:(lia)) as Hdoe.
  destruct (yoe_ok _ Hdoe) as (Hy & Hdoy & Hleap). cbn zeta in *.
  pose proof (Z.div_mod (day + 306) 146097 ltac:(lia)) as Hz.
  revert Hdoe Hy Hdoy Hleap Hz. set (doe := (day + 306) mod 146097). set (k := (day + 306) / 146097).
  generalize (if doe <? days_before (doe / 365) then doe / 365 - 1 else doe / 365). intros yoe Hdoe Hy Hdoy Hleap Hz.
  pose proof (month_day_ok _ Hdoy) as Hmd. unfold day_ok in Hmd.
  destruct (month_day (doe - days_before yoe)) as [m' d']. intros [= <- <- <-].
  apply andb_prop in Hmd as [Hmd Hfeb]. apply andb_prop in Hmd as [Hmd Hday].
  apply andb_prop in Hmd as [Hm Hd]. unfold between in *. bool_to_prop. split; [lia|]. split; [split; [lia|]|].
  - destruct (Z.eqb_spec m' 2) as [->|Hm2]; cbn [andb] in *.
    + change (2 <=? 2) with true. cbv iota. unfold days_in. change (2 =? 2) with true. cbv iota.
      rewrite is_leap_cycle. destruct (Z.eqb_spec (doe - days_before yoe) 365) as [H365|H365].
      * rewrite Hleap by done. lia.
      * change (days_in 1 2) with 28 in *. destruct (is_leap (yoe + 1)); lia.
    + etransitivity; [|apply days_in_ge]. lia.
  - unfold day_of_date. rewrite Hday.
    replace (if m' <=? 2 then (if m' <=? 2 then yoe + 1 else yoe) + 400 * k - 1 else (if m' <=? 2 then yoe + 1 else yoe) + 400 * k)
      with (yoe + 400 * k) by (destruct (m' <=? 2); lia).
    rewrite days_before_cycle. lia.
Qed.

(** ** The digits *)
Lemma digit_char_digit n : 0 <= n < 10 -> digit (digit_char n) = Some n /\ is_digit (digit_char n) = true.
Proof.
  intros Hn. assert (n ∈ [0; 1; 2; 3; 4; 5; 6; 7; 8; 9]) as Hin by (rewrite !elem_of_cons; lia).
  rewrite !elem_of_cons, elem_of_nil in Hin.
  by repeat match type of Hin with _ \/ _ => destruct Hin as [->|Hin] end.
Qed.

Lemma take_digits_add j k acc s :
  take_digits (j + k) acc s = match take_digits j acc s with
                              | Some (v, r) => take_digits k v r
                              | None => None
                              end.
Proof.
  revert acc s. induction j as [|j IH]; intros acc s; [done|]. cbn [Nat.add take_digits].
  destruct s as [|c s]; [done|]. by destruct (digit c).
Qed.

Lemma take_digits_app k : forall acc n s,
  0 <= n < 10 ^ Z.of_nat k -> take_digits k acc (padded k n +:+ s) = Some (acc * 10 ^ Z.of_nat k + n, s).
Proof.
  induction k as [|k IH]; intros acc n s Hn.
  { change (10 ^ Z.of_nat 0) with 1 in *. cbn [padded take_digits]. change ("" +:+ s) with s. do 2 f_equal. lia. }
  cbn [padded]. rewrite String_app_assoc. replace (S k) with (k + 1)%nat in * by lia.
  rewrite Nat2Z.inj_add, Z.pow_add_r in * by lia. change (10 ^ Z.of_nat 1) with 10 in *.
  rewrite take_digits_add, IH by (split; [apply Z.div_pos; lia|apply Z.div_lt_upper_bound; lia]).
  rewrite String_app_cons. cbn [take_digits].
  rewrite (proj1 (digit_char_digit (n mod 10) (Z.mod_pos_bound n 10 ltac:(lia)))). do 2 f_equal.
  pose proof (Z.div_mod n 10 ltac:(lia)). lia.
Qed.

Lemma number_in_padded k lo hi n s :
  0 <= n < 10 ^ Z.of_nat k -> lo <= n <= hi -> number_in k lo hi (padded k n +:+ s) = Some (n, s).
Proof.
  intros Hk Hn. unfold number_in. rewrite take_digits_app by done. rewrite Z.mul_0_l, Z.add_0_l.
  unfold between. destruct (Z.leb_spec lo n); [|lia]. destruct (Z.leb_spec n hi); [done|lia].
Qed.

(** ** The fraction *)
Lemma padded_digits k n : all_digits (padded k n).
Proof.
  revert n. induction k as [|k IH]; intros n; [done|]. cbn [padded]. apply all_digits_app; [apply IH|].
  unfold all_digits. cbn [String.list_ascii_of_string forallb].
  by rewrite (proj2 (digit_char_digit (n mod 10) (Z.mod_pos_bound n 10 ltac:(lia)))).
Qed.

Lemma padded_length k n : String.length (padded k n) = k.
Proof.
  revert n. induction k as [|k IH]; intros n; [done|]. cbn [padded]. rewrite String_length_app, IH. cbn. lia.
Qed.

Lemma parse_digits_padded k : forall acc n, 0 <= n < 10 ^ Z.of_nat k ->
  parse_digits acc (padded k n) = Some (acc * 10 ^ Z.of_nat k + n).
Proof.
  induction k as [|k IH]; intros acc n Hn.
  { change (10 ^ Z.of_nat 0) with 1 in *. cbn [padded parse_digits]. f_equal. lia. }
  cbn [padded]. rewrite Nat2Z.inj_succ, Z.pow_succ_r in * by lia.
  erewrite parse_digits_app by (apply IH; split; [apply Z.div_pos; lia|apply Z.div_lt_upper_bound; lia]).
  cbn [parse_digits]. rewrite (proj1 (digit_char_digit (n mod 10) (Z.mod_pos_bound n 10 ltac:(lia)))).
  f_equal. pose proof (Z.div_mod n 10 ltac:(lia)). lia.
Qed.

Lemma zeros_app j k : zeros (j + k) = zeros j +:+ zeros k.
Proof. induction j as [|j IH]; [done|]. cbn [zeros Nat.add]. by rewrite String_app_cons, IH. Qed.

Lemma TrimRight_zeros s : exists j, s = TrimRight "0" s +:+ zeros j.
Proof.
  induction s as [|c s [j IH]]; [by exists 0%nat|]. cbn [TrimRight].
  destruct (TrimRight "0" s) as [|d r] eqn:Hr.
  - destruct (in_cutset "0" c) eqn:Hc.
    + exists (S j). cbn [zeros]. rewrite IH. change ("" +:+ zeros j) with (zeros j). 
      unfold in_cutset in Hc. cbn [String.list_ascii_of_string existsb] in Hc. rewrite orb_false_r in Hc.
      apply Ascii.eqb_eq in Hc as ->. done.
    + exists j. rewrite IH at 1. done.
  - exists j. rewrite IH at 1. done.
Qed.

Lemma substring_app s t : String.substring 0 (String.length s) (s +:+ t) = s.
Proof.
  induction s as [|c s IH]; [by destruct t|].
  change (String c (String.substring 0 (String.length s) (s +:+ t)) = String c s). by rewrite IH.
Qed.

(** What follows the fraction: no digit, no point. *)
Definition zone_start (z : string) : Prop :=
  match z with String c _ => is_digit c = false /\ c <> "."%char | EmptyString => False end.

Lemma parse_fraction_text n z : 0 <= n < Second -> zone_start z ->
  parse_fraction (fraction_text n +:+ z) = (n, z).
Proof.
  intros Hn Hz. change Second with (10 ^ Z.of_nat 9) in Hn. unfold fraction_text.
  destruct (TrimRight_zeros (padded 9 n)) as [j Hj].
  pose proof (parse_digits_padded 9 0 n Hn) as Hp. rewrite Z.mul_0_l, Z.add_0_l in Hp.
  pose proof (padded_digits 9 n) as Hd. pose proof (padded_length 9 n) as Hl.
  destruct (TrimRight "0" (padded 9 n)) as [|c f].
  - change ("" +:+ z) with z. rewrite Hj in Hp. change ("" +:+ zeros j) with (zeros j) in Hp.
    rewrite parse_digits_zeros in Hp. assert (n = 0) as -> by (injection Hp; lia).
    destruct z as [|d z]; [done|]. destruct Hz as [_ Hdot]. cbn [parse_fraction].
    destruct (span is_digit z). by rewrite (proj2 (Ascii.eqb_neq d ".") Hdot).
  - rewrite String_app_cons. cbn [parse_fraction].
    assert (Hf : all_digits (String c f)).
    { rewrite Hj in Hd. revert Hd. generalize (String c f) as g. clear. intros g. unfold all_digits.
      induction g as [|e g IH]; [done|]. rewrite String_app_cons. cbn [String.list_ascii_of_string forallb].
      intros [He Hg]%andb_prop. by rewrite He, IH. }
    rewrite span_digits; [|exact Hf|destruct z; [done|by destruct Hz]].
    change (Ascii.eqb "." ".") with true. cbn [String.eqb negb andb].
    assert (Hlen : (String.length (String c f) + j = 9)%nat).
    { rewrite <- (zeros_length j), <- String_length_app, <- Hj. exact Hl. }
    replace 9%nat with (j + String.length (String c f))%nat at 2 by lia.
    rewrite zeros_app, <- String_app_assoc, <- Hj. rewrite <- Hl at 1. rewrite substring_app, Hp. done.
Qed.

(** ** The zone *)
Lemma zone_text_start offset : zone_start (zone_text offset).
Proof. unfold zone_text. destruct (offset =? 0); [done|]. by destruct (Z.quot offset 60 <? 0). Qed.

Lemma parse_zone_text offset :
  Z.rem offset 60 = 0 -> Z.abs (Z.quot offset 3600) < 24 -> parse_zone (zone_text offset) = Some offset.
Proof.
  intros Hm Hr. unfold zone_text. destruct (Z.eqb_spec offset 0) as [->|Hne]; [done|].
  pose proof (Z.quot_rem' offset 60) as Hq. set (zone := Z.quot offset 60) in *.
  assert (Hz : Z.abs zone < 1440) by (Z.quot_rem_to_equations; lia).
  unfold parse_zone.
  replace (Ascii.eqb (if zone <? 0 then "-"%char else "+"%char) "Z") with false by (by destruct (zone <? 0)).
  rewrite number_in_padded; [|change (10 ^ Z.of_nat 2) with 100; Z.div_mod_to_equations; lia|Z.div_mod_to_equations; lia].
  change (":" +:+ padded 2 (Z.abs zone mod 60)) with (String ":" (padded 2 (Z.abs zone mod 60))).
  rewrite <- (String_app_nil (padded 2 (Z.abs zone mod 60))).
  rewrite number_in_padded; [|change (10 ^ Z.of_nat 2) with 100; Z.div_mod_to_equations; lia|Z.div_mod_to_equations; lia].
  destruct (Z.ltb_spec zone 0); cbn [Ascii.eqb Bool.eqb]; f_equal; Z.div_mod_to_equations; lia.
Qed.

Lemma expect_text pre s : expect pre (pre +:+ s) = Some s.
Proof.
  induction pre as [|c pre IH]; [by destruct s|]. rewrite String_app_cons. cbn [expect].
  by rewrite Ascii.eqb_refl.
Qed.

(** What MarshalJSON writes for an instant UnmarshalJSON reads as that instant, in every
    zone of whole minutes. *)
Lemma parse_time_text offset t s :
  Z.rem offset 60 = 0 -> time_text offset t = Some s -> parse_time s = Some t.
Proof.
  intros Hz. unfold time_text, format_time. cbv zeta.
  destruct (date_of_day (local_seconds offset t / 86400)) as [[y m] d] eqn:Hdate.
  destruct (between 0 y 9999) eqn:Hy; [|done]. destruct (Z.ltb_spec (Z.abs (Z.quot offset 3600)) 24) as [Hr|]; [|done].
  intros Htext. apply (inj Some) in Htext as <-.
  destruct (date_of_day_ok _ _ _ _ Hdate) as (Hm & Hd & Hday).
  unfold between in Hy. bool_to_prop.
  assert (Hd31 : days_in y m <= 31).
  { unfold days_in. destruct (m =? 2); [destruct (is_leap y); lia|]. destruct (_ || _); lia. }
  pose proof (Z.mod_pos_bound (local_seconds offset t) 86400 ltac:(lia)) as Hs.
  pose proof (Z.mod_pos_bound t Second ltac:(unfold Second; lia)) as Hn.
  set (sec := local_seconds offset t mod 86400) in *.
  unfold parse_time.
  rewrite number_in_padded by (change (10 ^ Z.of_nat 4) with 10000; lia). cbn [mbind option_bind fst snd].
  rewrite expect_text. cbn [mbind option_bind].
  rewrite number_in_padded by (change (10 ^ Z.of_nat 2) with 100; lia). cbn [mbind option_bind fst snd].
  rewrite expect_text. cbn [mbind option_bind].
  rewrite number_in_padded by (change (10 ^ Z.of_nat 2) with 100; lia). cbn [mbind option_bind fst snd].
  rewrite expect_text. cbn [mbind option_bind].
  rewrite number_in_padded by (change (10 ^ Z.of_nat 2) with 100; Z.div_mod_to_equations; lia). cbn [mbind option_bind fst snd].
  rewrite expect_text. cbn [mbind option_bind].
  rewrite number_in_padded by (change (10 ^ Z.of_nat 2) with 100; Z.div_mod_to_equations; lia). cbn [mbind option_bind fst snd].
  rewrite expect_text. cbn [mbind option_bind].
  rewrite number_in_padded by (change (10 ^ Z.of_nat 2) with 100; Z.div_mod_to_equations; lia). cbn [mbind option_bind fst snd].
  rewrite parse_fraction_text by (done || apply zone_text_start).
  rewrite parse_zone_text by done. cbn [mbind option_bind]. f_equal. rewrite Hday.
  assert (Hsec : sec / 3600 * 3600 + sec / 60 mod 60 * 60 + sec mod 60 = sec)
    by (clear; Z.div_mod_to_equations; lia).
  pose proof (Z.div_mod (local_seconds offset t) 86400 ltac:(lia)) as Hl. fold sec in Hl.
  pose proof (Z.div_mod t Second ltac:(unfold Second; lia)) as Ht.
  unfold local_seconds in *. unfold Second in *. lia.
Qed.

End RoundTrip.
