(* ===== verification/Config.v ===== *)
(** * Configuration (config.go, and [RuntimeConfig] of dbruntime.go)

    The environment is a function from variable names to values, as [os.Getenv] gives
    it (the empty string for an unset variable). *)
From S2P Require Import Prelude.
From S2P Require Import Errors.
From S2P Require Import GoFloat.
From S2P Require Import Strconv.
From S2P Require Import StmtCache.
From S2P Require Import Sql.
From S2P Require Import Retry.
From S2P Require Import Open.
Local Open Scope string_scope.
Local Open Scope Z_scope.

Record RuntimeConfig : Type := mkRuntimeConfig {
  rc_DatabaseType : string;
  rc_DSN : string;
  rc_MaxOpenConns : Z;
  rc_MaxIdleConns : Z;
  rc_ConnMaxLifetime : Z;
  rc_ConnMaxIdleTime : Z;
  rc_LeakDetectionThreshold : Z;
  rc_ValidationQuery : string;
  rc_ValidationTimeout : Z;
  rc_WarmupConnections : Z;
  rc_WarmupTimeout : Z;
  rc_ConnectionTimeout : Z;
  rc_EnableLeakDetection : bool;
  rc_CircuitBreakerMaxFailures : Z;
  rc_CircuitBreakerResetTimeout : Z;
  rc_CircuitBreakerHalfOpenTimeout : Z;
  rc_MaxRequestsPerSecond : Z;
  rc_MaxConcurrentConnections : Z;
  rc_StmtCacheSize : Z;
  rc_SlowQueryThreshold : Z;
  rc_QueryTimeout : Z;
  rc_MaxRetries : Z;
  rc_RetryBackoff : Z;
  rc_BackpressureMode : string;
  rc_BackpressureTimeout : Z;
  rc_EnableAggressiveCaching : bool;
  rc_CacheDefaultTTL : Z;
  rc_CacheCapacity : Z;
  rc_InMemoryMode : bool;
}.

(** [&RuntimeConfig{}] *)
Definition RuntimeConfig_zero : RuntimeConfig := {|
  rc_DatabaseType := "";
  rc_DSN := "";
  rc_MaxOpenConns := 0;
  rc_MaxIdleConns := 0;
  rc_ConnMaxLifetime := 0;
  rc_ConnMaxIdleTime := 0;
  rc_LeakDetectionThreshold := 0;
  rc_ValidationQuery := "";
  rc_ValidationTimeout := 0;
  rc_WarmupConnections := 0;
  rc_WarmupTimeout := 0;
  rc_ConnectionTimeout := 0;
  rc_EnableLeakDetection := false;
  rc_CircuitBreakerMaxFailures := 0;
  rc_CircuitBreakerResetTimeout := 0;
  rc_CircuitBreakerHalfOpenTimeout := 0;
  rc_MaxRequestsPerSecond := 0;
  rc_MaxConcurrentConnections := 0;
  rc_StmtCacheSize := 0;
  rc_SlowQueryThreshold := 0;
  rc_QueryTimeout := 0;
  rc_MaxRetries := 0;
  rc_RetryBackoff := 0;
  rc_BackpressureMode := "";
  rc_BackpressureTimeout := 0;
  rc_EnableAggressiveCaching := false;
  rc_CacheDefaultTTL := 0;
  rc_CacheCapacity := 0;
  rc_InMemoryMode := false;
|}.

Section Env.
Context (oor : float64 -> Z).
Context (os_Getenv : string -> string).

Definition getEnv (key defaultValue : string) : string :=
  let value := os_Getenv key in
  if negb (String.eqb value "") then value else defaultValue.

Definition getEnvInt (key : string) (defaultValue : Z) : Z :=
  let value := os_Getenv key in
  if negb (String.eqb value "") then
    match Atoi value with Some intValue => intValue | None => defaultValue end
  else defaultValue.

Definition getEnvInt64 (key : string) (defaultValue : Z) : Z :=
  let value := os_Getenv key in
  if negb (String.eqb value "") then
    match ParseInt value with Some intValue => intValue | None => defaultValue end
  else defaultValue.

Definition getEnvBool (key : string) (defaultValue : bool) : bool :=
  let value := os_Getenv key in
  if negb (String.eqb value "") then
    match ParseBool value with Some boolValue => boolValue | None => defaultValue end
  else defaultValue.

Definition getEnvDuration (key : string) (defaultValue : Z) : Z :=
  let value := os_Getenv key in
  if negb (String.eqb value "") then
    match ParseDuration oor value with Some duration => duration | None => defaultValue end
  else defaultValue.

Definition DefaultConfig : RuntimeConfig :=
  let dbType := getEnv "DB_TYPE" DatabaseTypeSQLite in
  let validationQuery :=
    if String.eqb dbType DatabaseTypeOracle then "SELECT 1 FROM DUAL" else "SELECT 1" in
  let dsn := getEnv "DB_DSN" "" in
  let dsn := if String.eqb dsn "" && String.eqb dbType DatabaseTypeSQLite then ":memory:" else dsn in
  {|
  rc_DatabaseType := dbType;
  rc_DSN := dsn;
  rc_MaxOpenConns := getEnvInt "DB_MAX_OPEN_CONNS" 50;
  rc_MaxIdleConns := getEnvInt "DB_MAX_IDLE_CONNS" 10;
  rc_ConnMaxLifetime := getEnvDuration "DB_CONN_MAX_LIFETIME" (30 * Minute);
  rc_ConnMaxIdleTime := getEnvDuration "DB_CONN_MAX_IDLE_TIME" (10 * Minute);
  rc_LeakDetectionThreshold := getEnvDuration "DB_LEAK_DETECTION_THRESHOLD" (10 * Minute);
  rc_ValidationQuery := getEnv "DB_VALIDATION_QUERY" validationQuery;
  rc_ValidationTimeout := getEnvDuration "DB_VALIDATION_TIMEOUT" (5 * Second);
  rc_WarmupConnections := getEnvInt "DB_WARMUP_CONNECTIONS" 5;
  rc_WarmupTimeout := getEnvDuration "DB_WARMUP_TIMEOUT" (30 * Second);
  rc_ConnectionTimeout := getEnvDuration "DB_CONNECTION_TIMEOUT" (30 * Second);
  rc_EnableLeakDetection := getEnvBool "DB_ENABLE_LEAK_DETECTION" true;
  rc_CircuitBreakerMaxFailures := getEnvInt "DB_CB_MAX_FAILURES" 5;
  rc_CircuitBreakerResetTimeout := getEnvDuration "DB_CB_RESET_TIMEOUT" (60 * Second);
  rc_CircuitBreakerHalfOpenTimeout := getEnvDuration "DB_CB_HALF_OPEN_TIMEOUT" (10 * Second);
  rc_MaxRequestsPerSecond := getEnvInt64 "DB_MAX_REQUESTS_PER_SEC" 1000;
  rc_MaxConcurrentConnections := getEnvInt64 "DB_MAX_CONCURRENT_CONNECTIONS" 100;
  rc_StmtCacheSize := getEnvInt "DB_STMT_CACHE_SIZE" 200;
  rc_SlowQueryThreshold := getEnvDuration "DB_SLOW_QUERY_THRESHOLD" (1 * Second);
  rc_QueryTimeout := getEnvDuration "DB_QUERY_TIMEOUT" (30 * Second);
  rc_MaxRetries := getEnvInt "DB_MAX_RETRIES" 3;
  rc_RetryBackoff := getEnvDuration "DB_RETRY_BACKOFF" (100 * Millisecond);
  rc_BackpressureMode := getEnv "DB_BACKPRESSURE_MODE" "drop";
  rc_BackpressureTimeout := getEnvDuration "DB_BACKPRESSURE_TIMEOUT" 0;
  rc_EnableAggressiveCaching := getEnvBool "DB_AGGRESSIVE_CACHING" false;
  rc_CacheDefaultTTL := getEnvDuration "DB_CACHE_DEFAULT_TTL" (300 * Second);
  rc_CacheCapacity := getEnvInt "DB_CACHE_CAPACITY" 10000;
  rc_InMemoryMode := getEnvBool "DB_IN_MEMORY_MODE" false;
  |}.

(** A builder is the configuration it points to. *)
Definition NewConfigBuilder : RuntimeConfig := DefaultConfig.

End Env.

(** ** The builder *)
Definition WithDatabaseType (dbType : string) (config : RuntimeConfig) : RuntimeConfig :=
  let config := config{{rc_DatabaseType := dbType}} in
  if String.eqb dbType DatabaseTypePostgreSQL || String.eqb dbType DatabaseTypeMySQL ||
     String.eqb dbType DatabaseTypeSQLite then
    if String.eqb (rc_ValidationQuery config) "SELECT 1 FROM DUAL"
    then config{{rc_ValidationQuery := "SELECT 1"}} else config
  else if String.eqb dbType DatabaseTypeOracle then
    if String.eqb (rc_ValidationQuery config) "SELECT 1"
    then config{{rc_ValidationQuery := "SELECT 1 FROM DUAL"}} else config
  else config.

Definition WithDSN (dsn : string) (config : RuntimeConfig) : RuntimeConfig :=
  config{{rc_DSN := dsn}}.

Definition WithConnectionPool (maxOpen maxIdle : Z) (config : RuntimeConfig) : RuntimeConfig :=
  config{{rc_MaxOpenConns := maxOpen; rc_MaxIdleConns := maxIdle}}.

Definition WithConnectionLifetime (maxLifetime maxIdleTime : Z) (config : RuntimeConfig)
    : RuntimeConfig :=
  config{{rc_ConnMaxLifetime := maxLifetime; rc_ConnMaxIdleTime := maxIdleTime}}.

Definition WithLeakDetection (enabled : bool) (threshold : Z) (config : RuntimeConfig)
    : RuntimeConfig :=
  config{{rc_EnableLeakDetection := enabled; rc_LeakDetectionThreshold := threshold}}.

Definition WithCircuitBreaker (maxFailures resetTimeout halfOpenTimeout : Z)
    (config : RuntimeConfig) : RuntimeConfig :=
  config{{rc_CircuitBreakerMaxFailures := maxFailures;
          rc_CircuitBreakerResetTimeout := resetTimeout;
          rc_CircuitBreakerHalfOpenTimeout := halfOpenTimeout}}.

Definition WithRateLimit (maxRequestsPerSecond : Z) (config : RuntimeConfig) : RuntimeConfig :=
  config{{rc_MaxRequestsPerSecond := maxRequestsPerSecond}}.

Definition WithBackpressure (mode : string) (timeout : Z) (config : RuntimeConfig)
    : RuntimeConfig :=
  config{{rc_BackpressureMode := mode; rc_BackpressureTimeout := timeout}}.

Definition WithInMemoryMode (enabled : bool) (config : RuntimeConfig) : RuntimeConfig :=
  let config := config{{rc_InMemoryMode := enabled}} in
  if enabled then
    let config := config{{rc_EnableAggressiveCaching := true;
                          rc_CacheDefaultTTL := 600 * Second;
                          rc_CacheCapacity := 50000}} in
    if String.eqb (rc_DSN config) ""
    then config{{rc_DatabaseType := DatabaseTypeSQLite; rc_DSN := ":memory:"}} else config
  else config.

Definition WithAggressiveCaching (capacity defaultTTL : Z) (config : RuntimeConfig)
    : RuntimeConfig :=
  config{{rc_EnableAggressiveCaching := true; rc_CacheCapacity := capacity;
          rc_CacheDefaultTTL := defaultTTL}}.

Definition WithQuerySettings (stmtCacheSize slowQueryThreshold queryTimeout : Z)
    (config : RuntimeConfig) : RuntimeConfig :=
  config{{rc_StmtCacheSize := stmtCacheSize; rc_SlowQueryThreshold := slowQueryThreshold;
          rc_QueryTimeout := queryTimeout}}.

Definition WithRetryPolicy (maxRetries backoff : Z) (config : RuntimeConfig) : RuntimeConfig :=
  config{{rc_MaxRetries := maxRetries; rc_RetryBackoff := backoff}}.

Definition Build (config : RuntimeConfig) : RuntimeConfig := config.

Definition Validate (config : RuntimeConfig) : option error :=
  if String.eqb (rc_DSN config) "" then Some (Errorf "DSN is required")
  else if rc_MaxOpenConns config <=? 0 then Some (Errorf "MaxOpenConns must be greater than 0")
  else if rc_MaxOpenConns config <? rc_MaxIdleConns config
  then Some (Errorf "MaxIdleConns cannot exceed MaxOpenConns")
  else if rc_MaxIdleConns config <=? 0 then Some (Errorf "MaxIdleConns must be greater than 0")
  else None.

(** The validation query of each supported type. *)
Definition standard_query (dbType : string) : string :=
  if String.eqb dbType DatabaseTypeOracle then "SELECT 1 FROM DUAL" else "SELECT 1".

Definition supported_type (dbType : string) : bool :=
  existsb (String.eqb dbType)
    [DatabaseTypeOracle; DatabaseTypePostgreSQL; DatabaseTypeMySQL; DatabaseTypeSQLite].

(** ** Properties *)

(** Validate accepts exactly the usable settings: a data source name and
    0 < MaxIdleConns <= MaxOpenConns. *)
Theorem ConfigBuilder_Validate_spec config :
  Validate config = None <->
    rc_DSN config <> "" /\ 0 < rc_MaxIdleConns config <= rc_MaxOpenConns config.
Proof.
  unfold Validate. destruct (String.eqb_spec (rc_DSN config) "").
  - split; [done|]. by intros [? _].
  - destruct (Z.leb_spec (rc_MaxOpenConns config) 0),
      (Z.ltb_spec (rc_MaxOpenConns config) (rc_MaxIdleConns config)),
      (Z.leb_spec (rc_MaxIdleConns config) 0); split; try done; intuition lia.
Qed.

Lemma supported_type_cases t :
  supported_type t = true ->
  t = DatabaseTypeOracle \/ t = DatabaseTypePostgreSQL \/ t = DatabaseTypeMySQL \/
  t = DatabaseTypeSQLite.
Proof.
  unfold supported_type. cbn. rewrite !orb_true_iff, !String.eqb_eq. intuition discriminate.
Qed.

(** Choosing a supported database type keeps the validation query in step with it,
    whatever types were chosen before: a standard query becomes the standard one of the
    new type, a query of the user's own is left alone, and nothing else changes. *)
Theorem WithDatabaseType_query_in_step ts t config :
  supported_type t = true ->
  let config' := WithDatabaseType t (foldl (fun c t => WithDatabaseType t c) config ts) in
  rc_DatabaseType config' = t /\
  rc_ValidationQuery config' =
    (if String.eqb (rc_ValidationQuery config) "SELECT 1" ||
        String.eqb (rc_ValidationQuery config) "SELECT 1 FROM DUAL"
     then standard_query t else rc_ValidationQuery config) /\
  rc_DSN config' = rc_DSN config.
Proof.
  intros Ht. cbn zeta.
  set (std q := String.eqb q "SELECT 1" || String.eqb q "SELECT 1 FROM DUAL").
  assert (Hstep : forall t c,
    (std (rc_ValidationQuery (WithDatabaseType t c)) = std (rc_ValidationQuery c)) /\
    (std (rc_ValidationQuery c) = false ->
       rc_ValidationQuery (WithDatabaseType t c) = rc_ValidationQuery c) /\
    rc_DSN (WithDatabaseType t c) = rc_DSN c).
  { clear. intros t c. unfold std, WithDatabaseType. destruct c as [ty dsn mo mi ml mt ld q]. cbn.
    destruct (String.eqb_spec q "SELECT 1") as [->|Hq1]; [cbn; by split_ifs|].
    destruct (String.eqb_spec q "SELECT 1 FROM DUAL") as [->|Hq2]; [cbn; by split_ifs|].
    apply String.eqb_neq in Hq1, Hq2. cbn. split_ifs; cbn; by rewrite ?Hq1, ?Hq2. }
  assert (Hrun : forall c,
    let c' := foldl (fun c t => WithDatabaseType t c) c ts in
    std (rc_ValidationQuery c') = std (rc_ValidationQuery c) /\
    (std (rc_ValidationQuery c) = false -> rc_ValidationQuery c' = rc_ValidationQuery c) /\
    rc_DSN c' = rc_DSN c).
  { induction ts as [|t0 ts IH]; intros c; cbn; [done|].
    destruct (IH (WithDatabaseType t0 c)) as (Hs & Hq & Hd), (Hstep t0 c) as (Hs0 & Hq0 & Hd0).
    rewrite Hs0 in Hs, Hq. rewrite Hs, Hd. split_and!; [done| |done].
    intros Hf. by rewrite Hq, Hq0. }
  destruct (Hrun config) as (Hs & Hq & Hd). clear Hrun.
  set (c := foldl _ config ts) in *. clearbody c.
  destruct (Hstep t c) as (_ & _ & Hd'). rewrite Hd', Hd. split_and!; [|fold (std (rc_ValidationQuery config))|done].
  - clear -c. unfold WithDatabaseType. destruct c. cbn. by split_ifs.
  - rewrite <- Hs in *. destruct (std (rc_ValidationQuery c)) eqn:Hstd.
    + clear -Hstd Ht. unfold std, WithDatabaseType, standard_query in *. destruct c as [ty dsn mo mi ml mt ld q].
      cbn in *. apply orb_true_iff in Hstd as [->%String.eqb_eq | ->%String.eqb_eq];
        apply supported_type_cases in Ht as [->|[->|[->| ->]]]; done.
    + rewrite <- Hq by done. by apply Hstep.
Qed.

(** The environment overrides the defaults: a variable holding the decimal form of
    an integer gives that integer, an unset or malformed one the default; with nothing
    set, the default configuration is valid and in-memory. *)
Theorem DefaultConfig_environment oor :
  (forall env n, in_int64 n -> env "DB_MAX_OPEN_CONNS" = pretty n ->
     rc_MaxOpenConns (DefaultConfig oor env) = n) /\
  (forall env, Atoi (env "DB_MAX_OPEN_CONNS") = None ->
     rc_MaxOpenConns (DefaultConfig oor env) = 50) /\
  Validate (DefaultConfig oor (fun _ => "")) = None /\
  rc_DSN (DefaultConfig oor (fun _ => "")) = ":memory:".
Proof.
  split_and!; try done.
  - intros env n Hn He. cbn. unfold getEnvInt, Atoi. rewrite He, ParseInt_pretty by done.
    destruct (String.eqb_spec (pretty n) "") as [Hp|]; [|done]. exfalso.
    pose proof (ParseInt_pretty n Hn) as Hi. rewrite Hp in Hi. done.
  - intros env He. cbn. unfold getEnvInt. rewrite He. by destruct (negb _).
Qed.

(** ** The hypotheses can hold *)
Lemma WithDatabaseType_query_in_step_witness :
  rc_ValidationQuery (WithDatabaseType DatabaseTypeMySQL
    (WithDatabaseType DatabaseTypeOracle (DefaultConfig (fun _ => 0%Z) (fun _ => "")))) = "SELECT 1".
Proof.
  apply (WithDatabaseType_query_in_step [DatabaseTypeOracle] DatabaseTypeMySQL
    (DefaultConfig (fun _ => 0%Z) (fun _ => "")) eq_refl).
Defined.

(** In-memory mode changes the type without the query: Oracle's stays. *)
Example WithInMemoryMode_keeps_query :
  let config := WithInMemoryMode true
    (DefaultConfig (fun _ => 0%Z) (fun k => if String.eqb k "DB_TYPE" then "oracle" else "")) in
  (rc_DatabaseType config, rc_ValidationQuery config) = ("sqlite", "SELECT 1 FROM DUAL").
Proof. reflexivity. Qed.
