(* ===== verification/Runtime.v ===== *)
(** * The database runtime (dbruntime.go)

    [DBRuntime] ties the connection manager, the gate, the wrapper and the cache
    together. The gate is one object shared by the runtime and the wrapper: it is kept
    in the runtime, and [with_db] runs an operation of the wrapper on it. *)
From S2P Require Import Prelude.
From S2P Require Import Errors.
From S2P Require Import GoFloat.
From S2P Require Import GateConfig.
From S2P Require Import CircuitBreaker.
From S2P Require Import Gate.
From S2P Require Import Cache.
From S2P Require Import StmtCache.
From S2P Require Import Metrics.
From S2P Require Import Retry.
From S2P Require Import Sql.
From S2P Require Import Db.
From S2P Require Import Open.
From S2P Require Import Config.
Local Open Scope string_scope.
Local Open Scope list_scope.
Local Open Scope Z_scope.

(** A database value as [Scan] stores it in an [interface{}]. *)
Inductive sql_value : Type :=
  | VNil
  | VBool (b : bool)
  | VInt (z : Z)
  | VFloat (x : float64)
  | VBytes (b : string)
  | VString (s : string)
  | VTime (t : Z).

(** [if b, ok := v.( []byte ); ok { values[i] = string(b) }] *)
Definition bytes_to_string (v : sql_value) : sql_value :=
  match v with VBytes b => VString b | _ => v end.

(** What the code stores in a cache: a query result, or a value of some other type. *)
Inductive cached_value : Type :=
  | CachedRows (Columns : list string) (Rows : list (list sql_value))
  | CachedOther (id : Z).

(** *sql.Rows: its columns, its cursor and its error. *)
Class SqlRows (W Rows : Type) : Type := {
  rows_Columns : Rows -> W -> result error (list string);
  rows_Next : Rows -> W -> W * bool;
  rows_Scan : Rows -> W -> W * result error (list sql_value);
  rows_Err : Rows -> W -> option error;
  rows_Close : Rows -> W -> W;
}.

Record DBRuntime (DB C : Type) : Type := mkDBRuntime {
  rt_connManager : ConnectionManager DB;
  rt_gate : ConnectionGate;
  rt_advancedDB : option AdvancedDB;
  rt_config : RuntimeConfig;
  rt_cache : option C;
}.
Arguments mkDBRuntime {DB C}.
Arguments rt_connManager {DB C}.
Arguments rt_gate {DB C}.
Arguments rt_advancedDB {DB C}.
Arguments rt_config {DB C}.
Arguments rt_cache {DB C}.

(** The configurations [NewDBRuntime] and [Connect] derive from the runtime's. *)
Definition RuntimeConfig_conn (config : RuntimeConfig) : AdvancedConfig := {|
  ac_DatabaseType := rc_DatabaseType config;
  ac_DSN := rc_DSN config;
  ac_MaxOpenConns := rc_MaxOpenConns config;
  ac_MaxIdleConns := rc_MaxIdleConns config;
  ac_ConnMaxLifetime := rc_ConnMaxLifetime config;
  ac_ConnMaxIdleTime := rc_ConnMaxIdleTime config;
  ac_LeakDetectionThreshold := rc_LeakDetectionThreshold config;
  ac_ValidationQuery := rc_ValidationQuery config;
  ac_ValidationTimeout := rc_ValidationTimeout config;
  ac_WarmupConnections := rc_WarmupConnections config;
  ac_WarmupTimeout := rc_WarmupTimeout config;
  ac_ConnectionTimeout := rc_ConnectionTimeout config;
  ac_EnableMetrics := false;
  ac_EnableLeakDetection := rc_EnableLeakDetection config;
|}.

Definition RuntimeConfig_gate (config : RuntimeConfig) : GateConfig := {|
  MaxFailures := rc_CircuitBreakerMaxFailures config;
  ResetTimeout := rc_CircuitBreakerResetTimeout config;
  HalfOpenTimeout := rc_CircuitBreakerHalfOpenTimeout config;
  MaxRequestsPerSecond := rc_MaxRequestsPerSecond config;
  MaxConcurrentConnections := rc_MaxConcurrentConnections config;
  BackpressureMode := rc_BackpressureMode config;
  BackpressureTimeout := rc_BackpressureTimeout config;
|}.

Definition RuntimeConfig_db (config : RuntimeConfig) : DBAdvancedConfig := {|
  dc_StmtCacheSize := rc_StmtCacheSize config;
  dc_SlowQueryThreshold := rc_SlowQueryThreshold config;
  dc_QueryTimeout := rc_QueryTimeout config;
  dc_MaxRetries := rc_MaxRetries config;
  dc_RetryBackoff := rc_RetryBackoff config;
|}.

Definition not_connected : error := Errorf "database not connected".

Section NewRuntime.
Context {DB C : Type}.
(** [NewInMemoryCache], as the [Cache] the runtime holds. *)
Context (new_cache : Z -> Z -> C).

Definition NewDBRuntime (now : Z) (config : option RuntimeConfig) : DBRuntime DB C :=
  let config := default RuntimeConfig_zero config in
  let connManager := NewConnectionManager (RuntimeConfig_conn config) in
  let gate := NewConnectionGate now (Some (RuntimeConfig_gate config)) in
  let runtime := mkDBRuntime connManager gate None config None in
  if rc_EnableAggressiveCaching config || rc_InMemoryMode config then
    let capacity := rc_CacheCapacity config in
    let capacity := if capacity <=? 0 then 10000 else capacity in
    let ttl := rc_CacheDefaultTTL config in
    let ttl := if ttl <=? 0 then 300 * Second else ttl in
    runtime{{rt_cache := Some (new_cache capacity ttl)}}
  else runtime.

End NewRuntime.

Section Runtime.
Context (oor : float64 -> Z).
Context (first_key : gmap string Stmt -> option string).
Context `{Sql : SqlDB W Ctx Arg Res Rows Row Tx}.
Context `{Pool : SqlPool W Ctx DB Conn}.
Context `{RowsOps : !SqlRows W Rows}.
Context `{CacheOps : Cache C cached_value}.
Implicit Types rt : DBRuntime DB C.

Definition DBRuntime_IsConnected (rt : DBRuntime DB C) : bool :=
  match cm_db (rt_connManager rt) with Some _ => true | None => false end.

(** Runs [f] on the wrapper with the shared gate, and stores both back. A connected
    runtime has a wrapper; without one the code would dereference nil. *)
Definition with_db {T} (f : AdvancedDB -> W -> option (AdvancedDB * W * T))
    (rt : DBRuntime DB C) (w : W) : option (outcome (DBRuntime DB C * W * T)) :=
  match rt_advancedDB rt with
  | None => Some (Panic "nil pointer dereference")
  | Some adb =>
      match f (adb{{adb_gate := rt_gate rt}}) w with
      | None => None
      | Some (adb, w, r) =>
          Some (Ret (rt{{rt_advancedDB := Some adb; rt_gate := adb_gate adb}}, w, r))
      end
  end.

Definition DBRuntime_Connect (rt : DBRuntime DB C) (w : W) : DBRuntime DB C * W * option error :=
  let '(cm, w, err) := ConnectionManager_Open (rt_connManager rt) w in
  let rt := rt{{rt_connManager := cm}} in
  match err with
  | Some e => (rt, w, Some (Wrapf "failed to open connection: " e ""))
  | None =>
      let dbConfig := RuntimeConfig_db (rt_config rt) in
      (rt{{rt_advancedDB := Some (NewAdvancedDB (rt_gate rt) (Some dbConfig))}}, w, None)
  end.

Definition DBRuntime_Disconnect (rt : DBRuntime DB C) (w : W)
    : outcome (DBRuntime DB C * W * option error) :=
  let '(rt, w) :=
    match rt_advancedDB rt with
    | Some adb =>
        let '(psc, closed) := PreparedStatementCache_Clear (adb_stmtCache adb) in
        (rt{{rt_advancedDB := Some (adb{{adb_stmtCache := psc}})}},
         foldl (fun w s => stmt_Close s w) w closed)
    | None => (rt, w)
    end in
  r <-! ConnectionManager_Close (rt_connManager rt) w;
  let '(cm, w, err) := r in
  Ret (rt{{rt_connManager := cm}}, w, err).

Definition DBRuntime_SetCache (c : option C) (rt : DBRuntime DB C) : DBRuntime DB C :=
  rt{{rt_cache := c}}.

Definition DBRuntime_Exec (env : db_env) (ctx : Ctx) (query : string) (args : list Arg)
    (rt : DBRuntime DB C) (w : W) : option (outcome (DBRuntime DB C * W * result error Res)) :=
  if negb (DBRuntime_IsConnected rt) then Some (Ret (rt, w, Err not_connected))
  else with_db (AdvancedDB_Exec oor env ctx query args) rt w.

Definition DBRuntime_Query (env : db_env) (ctx : Ctx) (query : string) (args : list Arg)
    (rt : DBRuntime DB C) (w : W) : option (outcome (DBRuntime DB C * W * result error Rows)) :=
  if negb (DBRuntime_IsConnected rt) then Some (Ret (rt, w, Err not_connected))
  else with_db (AdvancedDB_Query oor env ctx query args) rt w.

(** [None] in the answer: the nil row. *)
Definition DBRuntime_QueryRow (env : db_env) (ctx : Ctx) (query : string) (args : list Arg)
    (rt : DBRuntime DB C) (w : W) : option (outcome (DBRuntime DB C * W * option Row)) :=
  if negb (DBRuntime_IsConnected rt) then Some (Ret (rt, w, None))
  else with_db (fun adb w =>
         let '(adb, w, row) := AdvancedDB_QueryRow env ctx query args adb w in
         Some (adb, w, Some row)) rt w.

Definition DBRuntime_Prepare (ctx : Ctx) (query : string) (rt : DBRuntime DB C) (w : W)
    : option (outcome (DBRuntime DB C * W * result error Stmt)) :=
  if negb (DBRuntime_IsConnected rt) then Some (Ret (rt, w, Err not_connected))
  else with_db (fun adb w => Some (AdvancedDB_Prepare first_key ctx query adb w)) rt w.

Definition DBRuntime_Begin (env : db_env) (ctx : Ctx) (rt : DBRuntime DB C) (w : W)
    : option (outcome (DBRuntime DB C * W * result error (AdvancedTx Tx))) :=
  if negb (DBRuntime_IsConnected rt) then Some (Ret (rt, w, Err not_connected))
  else with_db (AdvancedDB_Begin oor env ctx) rt w.

Definition DBRuntime_Stats (rt : DBRuntime DB C) (w : W) : DBStats :=
  if negb (DBRuntime_IsConnected rt) then DBStats_zero else AdvancedDB_Stats w.

Definition DBRuntime_Metrics (rt : DBRuntime DB C) : MetricsStats :=
  if negb (DBRuntime_IsConnected rt) then MetricsStats_zero
  else match rt_advancedDB rt with
       | Some adb => DBMetrics_GetStats (AdvancedDB_Metrics adb)
       | None => MetricsStats_zero (* nil dereference in the code *)
       end.

Definition DBRuntime_HealthCheck (ctx : Ctx) (rt : DBRuntime DB C) (w : W) : W * option error :=
  if negb (DBRuntime_IsConnected rt) then (w, Some not_connected)
  else AdvancedDB_HealthCheck ctx w.

Definition DBRuntime_DB (rt : DBRuntime DB C) : option DB := ConnectionManager_DB (rt_connManager rt).
Definition DBRuntime_AdvancedDB (rt : DBRuntime DB C) : option AdvancedDB := rt_advancedDB rt.
Definition DBRuntime_Cache (rt : DBRuntime DB C) : option C := rt_cache rt.

Definition DBRuntime_CircuitBreakerState (rt : DBRuntime DB C) : string :=
  ConnectionGate_State (rt_gate rt).

(** ** QueryCached *)

(** The loop over the rows; [None] when the fuel ends before [Next] does. *)
Fixpoint scan_rows (fuel : nat) (rows : Rows) (results : list (list sql_value)) (w : W)
    : option (W * result error (list (list sql_value))) :=
  match fuel with
  | O => None
  | S fuel =>
      let '(w, more) := rows_Next rows w in
      if more then
        let '(w, r) := rows_Scan rows w in
        match r with
        | Err err => Some (w, Err err)
        | Ok values => scan_rows fuel rows (results ++ [map bytes_to_string values]) w
        end
      else Some (w, match rows_Err rows w with Some err => Err err | None => Ok results end)
  end.

(** The clock readings of a QueryCached call: of the cache's Get, of the query, and of
    the cache's Set. *)
Record cached_env : Type := mkCachedEnv {
  ce_get : Z;
  ce_query : db_env;
  ce_set : Z;
}.

(** The answer: columns, rows, whether they came from the cache. *)
Definition cached_answer : Type := list string * list (list sql_value) * bool.

Definition QueryCached_lookup (now : Z) (key : string) (rt : DBRuntime DB C)
    : DBRuntime DB C * option cached_answer :=
  match rt_cache rt with
  | Some c =>
      if negb (String.eqb key "") then
        let '(c, v) := Cache_Get now key c in
        let rt := rt{{rt_cache := Some c}} in
        match v with
        | Some (CachedRows cols rows) => (rt, Some (cols, rows, true))
        | _ => (rt, None)
        end
      else (rt, None)
  | None => (rt, None)
  end.

Definition QueryCached_store (now : Z) (key : string) (ttl : Z) (cols : list string)
    (rows : list (list sql_value)) (rt : DBRuntime DB C) : DBRuntime DB C :=
  match rt_cache rt with
  | Some c =>
      if negb (String.eqb key "")
      then rt{{rt_cache := Some (Cache_Set now key (CachedRows cols rows) ttl c).1}}
      else rt
  | None => rt
  end.

Definition DBRuntime_QueryCached (fuel : nat) (env : cached_env) (ctx : Ctx) (key : string)
    (ttl : Z) (query : string) (args : list Arg) (rt : DBRuntime DB C) (w : W)
    : option (outcome (DBRuntime DB C * W * result error cached_answer)) :=
  let '(rt, hit) := QueryCached_lookup (ce_get env) key rt in
  match hit with
  | Some answer => Some (Ret (rt, w, Ok answer))
  | None =>
      match DBRuntime_Query (ce_query env) ctx query args rt w with
      | None => None
      | Some (Panic m) => Some (Panic m)
      | Some (Ret (rt, w, Err err)) => Some (Ret (rt, w, Err err))
      | Some (Ret (rt, w, Ok rows)) =>
          match rows_Columns rows w with
          | Err err => Some (Ret (rt, rows_Close rows w, Err err))
          | Ok columns =>
              match scan_rows fuel rows [] w with
              | None => None
              | Some (w, Err err) => Some (Ret (rt, rows_Close rows w, Err err))
              | Some (w, Ok results) =>
                  let rt := QueryCached_store (ce_set env) key ttl columns results rt in
                  Some (Ret (rt, rows_Close rows w, Ok (columns, results, false)))
              end
          end
      end
  end.

(** ** Lemmas *)

(** Nothing but the caching steps touches the cache. *)
Lemma with_db_cache {T} (f : AdvancedDB -> W -> option (AdvancedDB * W * T)) rt w rt' w' r :
  with_db f rt w = Some (Ret (rt', w', r)) ->
  rt_cache rt' = rt_cache rt /\ rt_connManager rt' = rt_connManager rt.
Proof.
  unfold with_db. destruct (rt_advancedDB rt) as [adb|]; [|done].
  destruct (f _ w) as [[[adb' w1] r1]|]; [|done]. by intros [= <- <- <-].
Qed.

Lemma DBRuntime_Query_cache env ctx q args rt w rt' w' r :
  DBRuntime_Query env ctx q args rt w = Some (Ret (rt', w', r)) ->
  rt_cache rt' = rt_cache rt /\ rt_connManager rt' = rt_connManager rt.
Proof.
  unfold DBRuntime_Query. destruct (negb _); [by intros [= <- <- <-]|]. apply with_db_cache.
Qed.

(** Without a connection no operation reaches the database or changes anything. *)
Lemma DBRuntime_disconnected env ctx q args rt w :
  DBRuntime_IsConnected rt = false ->
  DBRuntime_Exec env ctx q args rt w = Some (Ret (rt, w, Err not_connected)) /\
  DBRuntime_Query env ctx q args rt w = Some (Ret (rt, w, Err not_connected)) /\
  DBRuntime_QueryRow env ctx q args rt w = Some (Ret (rt, w, None)) /\
  DBRuntime_Prepare ctx q rt w = Some (Ret (rt, w, Err not_connected)) /\
  DBRuntime_Begin env ctx rt w = Some (Ret (rt, w, Err not_connected)) /\
  DBRuntime_HealthCheck ctx rt w = (w, Some not_connected).
Proof.
  intros Hc. unfold DBRuntime_Exec, DBRuntime_Query, DBRuntime_QueryRow, DBRuntime_Prepare,
    DBRuntime_Begin, DBRuntime_HealthCheck. by rewrite Hc.
Qed.

(** ** Properties *)
Context `{Lawful : !LawfulCache C cached_value}.

(** C30: A result read from the database is served from the cache until its ttl: after
    a QueryCached call that returned rows, the next call with the same key, no later than
    the deadline, and with whatever query text, returns the same rows marked as cached and
    does not reach the database. Holds for every cache that keeps the interface's
    promises. *)
Theorem DBRuntime_QueryCached_hit fuel env ctx key ttl q args rt w rt1 w1 cols rows
    fuel' env' ctx' ttl' q' args' w2 c :
  rt_cache rt = Some c -> cache_inv c -> key <> "" -> 0 < ttl ->
  ce_get env' <= ce_set env + ttl ->
  DBRuntime_QueryCached fuel env ctx key ttl q args rt w =
    Some (Ret (rt1, w1, Ok (cols, rows, false))) ->
  exists rt2, DBRuntime_QueryCached fuel' env' ctx' key ttl' q' args' rt1 w2 =
      Some (Ret (rt2, w2, Ok (cols, rows, true))) /\
    rt_advancedDB rt2 = rt_advancedDB rt1 /\ rt_gate rt2 = rt_gate rt1.
Proof.
  intros Hcache Hinv Hkey Httl Hnow. apply String.eqb_neq in Hkey.
  unfold DBRuntime_QueryCached at 1, QueryCached_lookup. rewrite Hcache, Hkey. cbn [negb].
  pose proof (law_Get_inv (ce_get env) key c Hinv) as Hinv1.
  destruct (Cache_Get (ce_get env) key c) as [c1 v]. cbn [fst] in Hinv1.
  assert (Hmiss : forall rt0, rt_cache rt0 = Some c1 ->
    match DBRuntime_Query (ce_query env) ctx q args rt0 w with
    | Some (Ret (rt, w, Ok rows)) =>
        match rows_Columns rows w with
        | Err err => Some (Ret (rt, rows_Close rows w, Err err))
        | Ok columns =>
            match scan_rows fuel rows [] w with
            | Some (w, Ok results) =>
                Some (Ret (QueryCached_store (ce_set env) key ttl columns results rt,
                  rows_Close rows w, Ok (columns, results, false)))
            | Some (w, Err err) => Some (Ret (rt, rows_Close rows w, Err err))
            | None => None
            end
        end
    | Some (Ret (rt, w, Err err)) => Some (Ret (rt, w, Err err))
    | Some (Panic m) => Some (Panic m)
    | None => None
    end = Some (Ret (rt1, w1, Ok (cols, rows, false))) ->
    rt_cache rt1 = Some (Cache_Set (ce_set env) key (CachedRows cols rows) ttl c1).1).
  { intros rt0 H0. destruct (DBRuntime_Query _ _ _ _ rt0 w) as [[[[rt' w'] [rs|e]]|m]|] eqn:Hq; try done.
    destruct (rows_Columns rs w') as [columns|e]; [|done].
    destruct (scan_rows fuel rs [] w') as [[w3 [results|e]]|]; [|done..].
    apply DBRuntime_Query_cache in Hq as [Hq _]. rewrite H0 in Hq.
    unfold QueryCached_store. rewrite Hq, Hkey. cbn [negb]. by intros [= <- _ -> ->]. }
  intros Hrun.
  assert (Hc1 : rt_cache rt1 = Some (Cache_Set (ce_set env) key (CachedRows cols rows) ttl c1).1).
  { destruct v as [[cs rs|id]|]; [done| |]; by eapply Hmiss; [|exact Hrun]. }
  unfold DBRuntime_QueryCached, QueryCached_lookup. rewrite Hc1, Hkey. cbn [negb].
  pose proof (law_Set_Get (ce_set env) key (CachedRows cols rows) ttl c1 (ce_get env') Hinv1 Httl Hnow) as Hget.
  destruct (Cache_Get (ce_get env') key _) as [c2 v2]. cbn in Hget. subst v2.
  by eexists.
Qed.

End Runtime.

(** ** The one-cell database as a whole runtime *)
Module CellRuntime.
Import OneCell.

#[export] Instance cell_pool : SqlPool world nat unit unit := {
  sql_Open _ _ w := (w, Ok tt);
  pool_configure _ _ _ _ _ w := w;
  pool_PingContext _ c w := (w, OneCell.err c w);
  pool_Close _ w := (w, None);
  pool_Conn _ _ w := (w, Ok tt);
  conn_Close _ w := w;
  conn_ScanOne _ c _ w := (w, OneCell.err c w);
  ctx_Background := 0%nat;
  pool_WithTimeout _ c w := (w{{ow_next := S (ow_next w)}}, ow_next w);
  pool_cancel c w := w{{ow_cancelled := c :: ow_cancelled w}};
  time_Sleep _ w := w;
}.

#[export] Instance cell_rows : SqlRows world (list Z) := {
  rows_Columns _ _ := Ok ["value"];
  rows_Next rows w :=
    if (ow_read w <? length rows)%nat then (w{{ow_read := S (ow_read w)}}, true) else (w, false);
  rows_Scan rows w :=
    (w, match rows !! Nat.pred (ow_read w) with
        | Some z => Ok [VInt z]
        | None => Err (External 3 "no row")
        end);
  rows_Err _ _ := None;
  rows_Close _ w := w{{ow_read := 0%nat}};
}.

(** A runtime with the defaults and a cache. *)
Definition config : RuntimeConfig :=
  WithInMemoryMode true (DefaultConfig (fun _ => 0) (fun _ => "")).

Definition runtime0 : DBRuntime unit (InMemoryCache cached_value) :=
  NewDBRuntime NewInMemoryCache 0 (Some config).

Definition runtime : DBRuntime unit (InMemoryCache cached_value) * world :=
  (DBRuntime_Connect runtime0 OneCell.start).1.

Definition env (t : Z) : db_env := mkDbEnv (mkGateEnv t t t t (fun cl => (cl, ConnectionLimiter.WakeSlot))) t t.

Definition cenv (t : Z) : cached_env := mkCachedEnv t (env t) t.
End CellRuntime.

(** ** The hypotheses can hold *)
Section Witnesses.
Import OneCell CellRuntime.

Lemma DBRuntime_QueryCached_hit_witness :
  exists rt1 w1 rt2 w2,
    DBRuntime_QueryCached (fun _ => 0) 5 (cenv 10) 0%nat "k" 100 "SELECT v" [] runtime.1 runtime.2 =
      Some (Ret (rt1, w1, Ok (["value"], [[VInt 0]], false))) /\
    DBRuntime_QueryCached (fun _ => 0) 5 (cenv 110) 0%nat "k" 100 "SELECT v" [] rt1 w2 =
      Some (Ret (rt2, w2, Ok (["value"], [[VInt 0]], true))).
Proof.
  destruct (DBRuntime_QueryCached (fun _ => 0) 5 (cenv 10) 0%nat "k" 100 "SELECT v" [] runtime.1 runtime.2)
    as [[[[rt1 w1] [[[cols rows] b]|e]]|m]|] eqn:Hr; [|vm_compute in Hr; discriminate Hr..].
  assert (Hans : cols = ["value"] /\ rows = [[VInt 0]] /\ b = false)
    by (vm_compute in Hr; injection Hr as _ _ <- <- <-; split; [|split]; reflexivity).
  destruct Hans as (-> & -> & ->).
  destruct (DBRuntime_QueryCached_hit (fun _ => 0) 5 (cenv 10) 0%nat "k" 100 "SELECT v" []
    runtime.1 runtime.2 rt1 w1 ["value"] [[VInt 0]] 5 (cenv 110) 0%nat 100 "SELECT v" [] w1
    (NewInMemoryCache 50000 (600 * Second)))
    as (rt2 & Hrun & _).
  - vm_compute. reflexivity.
  - apply NewInMemoryCache_wf.
  - discriminate.
  - reflexivity.
  - vm_compute. discriminate.
  - exact Hr.
  - exists rt1, w1, rt2, w1. split; [reflexivity|exact Hrun].
Defined.

End Witnesses.
