(* ===== verification/RuntimeInv.v ===== *)
(** * What every call on a runtime keeps (dbruntime.go and the parts below it)

    The invariants of the gate, the wrapper, the manager and the cache put together into
    one of the runtime, the calls of a runtime as a sequence, and the proof that each
    keeps it: machine integers in range, bounded caches, a breaker in one of its three
    states, and a wrapper wherever there is a connection. *)
From S2P Require Import Prelude.
From S2P Require Import Errors.
From S2P Require Import GoFloat.
From S2P Require Import GateConfig.
From S2P Require Import CircuitBreaker.
From S2P Require Import RateLimiter.
From S2P Require Import ConnectionLimiter.
From S2P Require Import Gate.
From S2P Require Import Cache.
From S2P Require Import StmtCache.
From S2P Require Import Metrics.
From S2P Require Import Retry.
From S2P Require Import Sql.
From S2P Require Import Db.
From S2P Require Import Open.
From S2P Require Import Config.
From S2P Require Import Runtime.
Local Open Scope string_scope.
Local Open Scope list_scope.
Local Open Scope Z_scope.

(** ** The gate *)

(** Whatever the clock and the refill rate do, the bucket never holds more than its
    capacity. *)
Definition bucket_wf (rl : RateLimiter) : Prop :=
  in_int64 (rl_tokens rl) /\ rl_tokens rl <= rl_maxTokens rl /\ 0 < rl_maxTokens rl <= int64_max.

Definition limiter_wf (cl : ConnectionLimiter) : Prop :=
  in_int64 (cl_currentConnections cl) /\ 0 < cl_maxConnections cl <= int64_max /\
  forall ch, cl_sem cl = Some ch -> 0 <= chan_len ch <= chan_cap ch /\ chan_cap ch = cl_maxConnections cl.

Record gate_wf (cg : ConnectionGate) : Prop := mk_gate_wf {
  gw_breaker : cb_wf (cg_circuitBreaker cg);
  gw_bucket : bucket_wf (cg_rateLimiter cg);
  gw_limiter : limiter_wf (cg_connectionLimiter cg);
}.

(** What the rest of the program does to the limiter while a call waits keeps it well
    formed. *)
Definition env_wf (env : gate_env) : Prop :=
  forall cl, limiter_wf cl -> limiter_wf (while_parked env cl).1.

Section Gate.
Context (oor : float64 -> Z).

Lemma Allow_bucket_wf now rl : bucket_wf rl -> bucket_wf (RateLimiter_Allow oor now rl).1.
Proof.
  intros (Ht & Hle & Hm).
  assert (Hr : bucket_wf (RateLimiter_refill oor now rl)).
  { unfold RateLimiter_refill. destruct (0 <? _); [|done].
    pose proof (wrap64_in (rl_tokens rl + RateLimiter_tokensToAdd oor now rl)) as Hw.
    revert Hw. generalize (wrap64 (rl_tokens rl + RateLimiter_tokensToAdd oor now rl)) as t. intros t Hw.
    destruct rl. unfold bucket_wf, min_int64. cbn in *. destruct (Z.ltb_spec t rl_maxTokens); split_and!; solve_int64. }
  unfold RateLimiter_Allow. destruct (RateLimiter_refill oor now rl) as [t m r l].
  destruct Hr as (Hr1 & Hr2 & Hr3). unfold bucket_wf. cbn in *.
  destruct (Z.ltb_spec 0 t); cbn; split_and!; solve_int64.
Qed.

Lemma add_limiter_wf d cl : limiter_wf cl -> limiter_wf (ConnectionLimiter_add d cl).
Proof. destruct cl. intros (_ & Hm & Hch). split_and!; [apply wrap64_in|apply Hm..|exact Hch]. Qed.

Lemma send_limiter_wf cl cl' : ConnectionLimiter_send cl = Some cl' -> limiter_wf cl -> limiter_wf cl'.
Proof.
  intros (n & cap & Hs & Hn & ->)%send_Some (Hc & Hm & Hch). destruct cl. cbn in *. subst.
  split_and!; [done|apply Hm..|]. cbn. intros ch [= <-]. specialize (Hch _ eq_refl). cbn in *. lia.
Qed.

Lemma Release_limiter_wf cl : limiter_wf cl -> limiter_wf (ConnectionLimiter_Release cl).
Proof.
  intros Hcl. unfold ConnectionLimiter_Release. apply add_limiter_wf.
  destruct (ConnectionLimiter_recv cl) as [cl'|] eqn:Hr; [|done].
  apply recv_Some in Hr as (n & cap & Hs & Hn & ->). destruct cl, Hcl as (Hc & Hm & Hch). cbn in *. subst.
  split_and!; [done|apply Hm..|]. cbn. intros ch [= <-]. specialize (Hch _ eq_refl). cbn in *. lia.
Qed.

Lemma Acquire_limiter_wf others cl cl' e :
  (forall cl, limiter_wf cl -> limiter_wf (others cl).1) -> limiter_wf cl ->
  ConnectionLimiter_AcquireWithContext others cl = Some (cl', e) -> limiter_wf cl'.
Proof.
  intros Ho Hcl. unfold ConnectionLimiter_AcquireWithContext.
  destruct (AcquireWithContext_enter cl) as [cl1 e1| |t] eqn:He.
  - intros [= <- _]. unfold AcquireWithContext_enter, ConnectionLimiter_Acquire in He.
    destruct (cl_sem cl) eqn:Hsem.
    + destruct (ConnectionLimiter_send cl) as [cl2|] eqn:Hs.
      * injection He as <- _. by apply add_limiter_wf; eapply send_limiter_wf.
      * split_ifs; try done; destruct (String.eqb (cl_mode cl) "block"); try done;
          destruct (String.eqb (cl_mode cl) "timeout"); try destruct (cl_timeout cl <=? 0); try done; by injection He as <- _.
    + destruct (_ <=? _); injection He as <- _; [done|by apply add_limiter_wf].
  - specialize (Ho cl Hcl). destruct (others cl) as [cl2 [| |err]]; cbn in *; [|done|by intros [= <- _]].
    destruct (ConnectionLimiter_send cl2) as [cl3|] eqn:Hs; [|done]. intros [= <- _].
    by apply add_limiter_wf; eapply send_limiter_wf.
  - specialize (Ho cl Hcl). destruct (others cl) as [cl2 [| |err]]; cbn in *; [|by intros [= <- _]|by intros [= <- _]].
    destruct (ConnectionLimiter_send cl2) as [cl3|] eqn:Hs; [|done]. intros [= <- _].
    by apply add_limiter_wf; eapply send_limiter_wf.
Qed.

Lemma RecordFailure_wf now cg : gate_wf cg -> gate_wf (ConnectionGate_RecordFailure now cg).
Proof.
  destruct cg. intros [Hb Hr Hl]. constructor; [exact (cb_step_wf (CallFailure now) _ Hb)|done|by apply Release_limiter_wf].
Qed.

Lemma RecordSuccess_wf cg : gate_wf cg -> gate_wf (ConnectionGate_RecordSuccess cg).
Proof. destruct cg. intros [Hb Hr Hl]. constructor; [exact (cb_step_wf CallSuccess _ Hb)|done|done]. Qed.

Lemma ConnectionGate_Allow_wf env cg cg' e :
  env_wf env -> gate_wf cg -> ConnectionGate_Allow oor env cg = Some (cg', e) -> gate_wf cg'.
Proof.
  intros He. destruct cg as [cb rl cl]. intros [Hb Hr Hl]. unfold ConnectionGate_Allow. cbn in *.
  pose proof (cb_step_wf (CallAllow (at_breaker env)) cb Hb) as Hb1. cbn [cb_step] in Hb1.
  destruct (CircuitBreaker_Allow (at_breaker env) cb) as [cb1 [e1|]]; cbn in *; [by intros [= <- _]|].
  pose proof (Allow_bucket_wf (at_rate env) rl Hr) as Hr1.
  pose proof (cb_step_wf (CallFailure (at_reject env)) cb1 Hb1) as Hb2.
  destruct (RateLimiter_Allow oor (at_rate env) rl) as [rl1 [e1|]]; cbn in *; [by intros [= <- _]|].
  destruct (ConnectionLimiter_AcquireWithContext (while_parked env) cl) as [[cl1 e1]|] eqn:Ha; [|done].
  apply Acquire_limiter_wf in Ha; [|done..]. by destruct e1; intros [= <- _].
Qed.

Lemma ExecuteWithGate_wf {W T} env (op : W -> W * result error T) cg w cg' w' r :
  env_wf env -> gate_wf cg -> ExecuteWithGate oor env op cg w = Some (cg', w', r) -> gate_wf cg'.
Proof.
  intros He Hcg. unfold ExecuteWithGate.
  destruct (ConnectionGate_Allow oor env cg) as [[cg1 [e|]]|] eqn:Ha; [| |done].
  - apply ConnectionGate_Allow_wf in Ha; [|done..]. by intros [= <- _ _].
  - apply ConnectionGate_Allow_wf in Ha; [|done..]. destruct (op w) as [w1 [v|e]]; intros [= <- _ _];
      [by apply RecordSuccess_wf|by apply RecordFailure_wf].
Qed.

Lemma NewConnectionGate_wf now config :
  (forall c, config = Some c -> GateConfig_ok c /\ MaxRequestsPerSecond c <= int64_max / 10) ->
  gate_wf (NewConnectionGate now config).
Proof.
  intros Hc. constructor.
  - apply NewCircuitBreaker_wf. intros c Hcc. by apply Hc.
  - destruct (NewRateLimiter_wf now config) as [Ht Hm]; [intros c Hcc; by apply Hc|].
    change (bucket_wf (NewRateLimiter now config)). unfold bucket_wf. solve_int64.
  - pose proof (NewConnectionLimiter_max config) as Hm. pose proof (NewConnectionLimiter_sem config) as Hs.
    pose proof (NewConnectionLimiter_zero config) as H0.
    specialize (Hm ltac:(intros c Hcc; by apply Hc)).
    change (limiter_wf (NewConnectionLimiter config)).
    split_and!; [rewrite H0; solve_int64|apply Hm..|]. intros ch Hch. rewrite Hch in Hs.
    revert Hs Hm. generalize (cl_maxConnections (NewConnectionLimiter config)) as max. intros max Hs Hm.
    destruct config as [c|]; [|done]. destruct (_ || _); [|done]. apply (inj Some) in Hs as ->. cbn. lia.
Qed.
End Gate.

(** ** The wrapper *)
Definition metrics_wf (m : DBMetrics) : Prop :=
  in_int64 (m_TotalQueries m) /\ in_int64 (m_SuccessfulQueries m) /\ in_int64 (m_FailedQueries m) /\
  in_int64 (m_TotalQueryTime m) /\ in_int64 (m_SlowQueries m) /\ 0 < m_SlowQueryThreshold m.

Record adb_wf (adb : AdvancedDB) : Prop := mk_adb_wf {
  aw_gate : gate_wf (adb_gate adb);
  aw_stmtCache : psc_wf (adb_stmtCache adb);
  aw_metrics : metrics_wf (adb_metrics adb);
  aw_timeout : 0 < adb_queryTimeout adb;
}.

Lemma RecordQuery_wf d e m : metrics_wf m -> metrics_wf (DBMetrics_RecordQuery d e m).
Proof.
  intros (H1 & H2 & H3 & H4 & H5 & H6). unfold DBMetrics_RecordQuery, metrics_wf.
  destruct e; cbn; split_ifs; cbn; split_and!; auto using wrap64_in.
Qed.

Lemma Clear_wf psc : psc_wf psc -> psc_wf (PreparedStatementCache_Clear psc).1.
Proof. destruct psc as [m max]. intros [Hp Hs]. split; [done|]. cbn in *. rewrite map_size_empty. lia. Qed.

Lemma NewDBMetrics_wf config : metrics_wf (NewDBMetrics config).
Proof.
  unfold NewDBMetrics, metrics_wf. cbn. split_and!; try solve_int64.
  destruct config as [c|]; [|unfold Second; lia]. destruct (Z.ltb_spec 0 (dc_SlowQueryThreshold c)); [done|unfold Second; lia].
Qed.

Lemma NewAdvancedDB_wf gate config : gate_wf gate -> adb_wf (NewAdvancedDB gate config).
Proof.
  intros Hg. assert (H : adb_wf (mkAdvancedDB gate (NewPreparedStatementCache config) (NewDBMetrics config)
                                   (NewRetryPolicy config) (30 * Second))).
  { constructor; [done|apply NewPreparedStatementCache_wf|apply NewDBMetrics_wf|unfold Second; cbn; lia]. }
  unfold NewAdvancedDB. destruct config as [c|]; [|done].
  destruct (Z.ltb_spec 0 (dc_QueryTimeout c)); [|done]. destruct H. by constructor.
Qed.

Lemma adb_wf_gate g adb : gate_wf g -> adb_wf adb -> adb_wf (adb{{adb_gate := g}}).
Proof. destruct adb. intros Hg []. by constructor. Qed.

Lemma record_wf env e adb : adb_wf adb -> adb_wf (AdvancedDB_record env e adb).
Proof. destruct adb. intros []. constructor; try done. by apply RecordQuery_wf. Qed.

Section Db.
Context (oor : float64 -> Z).
Context (first_key : gmap string Stmt -> option string).
Context (Hfirst : first_key_ok first_key).
Context `{Sql : SqlDB W Ctx Arg Res Rows Row Tx}.

Lemma gated_wf {T} env ctx (op : Ctx -> W -> W * result error T) adb w adb' w' r :
  env_wf (e_gate env) -> adb_wf adb ->
  AdvancedDB_gated oor env ctx op adb w = Some (adb', w', r) -> adb_wf adb'.
Proof.
  intros He [Hg Hs Hm Ht]. unfold AdvancedDB_gated. destruct (ctx_WithTimeout _ ctx w) as [w1 c].
  destruct (ExecuteWithGate _ _ _ _ _) as [[[cg w2] r2]|] eqn:Hx; [|done]. intros [= <- _ _].
  apply ExecuteWithGate_wf in Hx; [|done..]. destruct adb. by constructor.
Qed.

Lemma AdvancedDB_Exec_wf env ctx q args adb w adb' w' r :
  env_wf (e_gate env) -> adb_wf adb ->
  AdvancedDB_Exec oor env ctx q args adb w = Some (adb', w', r) -> adb_wf adb'.
Proof.
  intros He Ha. unfold AdvancedDB_Exec. destruct (AdvancedDB_gated _ _ _ _ _) as [[[adb1 w1] r1]|] eqn:Hg; [|done].
  intros [= <- _ _]. apply record_wf. by eapply gated_wf.
Qed.

Lemma AdvancedDB_Query_wf env ctx q args adb w adb' w' r :
  env_wf (e_gate env) -> adb_wf adb ->
  AdvancedDB_Query oor env ctx q args adb w = Some (adb', w', r) -> adb_wf adb'.
Proof.
  intros He Ha. unfold AdvancedDB_Query. destruct (AdvancedDB_gated _ _ _ _ _) as [[[adb1 w1] r1]|] eqn:Hg; [|done].
  intros [= <- _ _]. apply record_wf. by eapply gated_wf.
Qed.

Lemma AdvancedDB_Begin_wf env ctx adb w adb' w' r :
  env_wf (e_gate env) -> adb_wf adb ->
  AdvancedDB_Begin oor env ctx adb w = Some (adb', w', r) -> adb_wf adb'.
Proof.
  intros He Ha. unfold AdvancedDB_Begin. destruct (AdvancedDB_gated _ _ _ _ _) as [[[adb1 w1] r1]|] eqn:Hg; [|done].
  intros [= <- _ _]. by eapply gated_wf.
Qed.

Lemma AdvancedDB_QueryRow_wf env ctx q args adb w :
  adb_wf adb -> adb_wf (AdvancedDB_QueryRow env ctx q args adb w).1.1.
Proof.
  intros Ha. unfold AdvancedDB_QueryRow. destruct (ctx_WithTimeout _ ctx w) as [w1 c].
  destruct (db_QueryRowContext c q args w1) as [w2 row]. by apply record_wf.
Qed.

Lemma AdvancedDB_Prepare_wf ctx q adb w :
  adb_wf adb -> adb_wf (AdvancedDB_Prepare first_key ctx q adb w).1.1.
Proof.
  intros Ha. unfold AdvancedDB_Prepare. destruct (PreparedStatementCache_Get _ _); [done|].
  destruct (db_PrepareContext ctx q w) as [w1 [s|e]]; [|done]. destruct adb, Ha. constructor; try done.
  by apply Put_wf.
Qed.

Lemma AdvancedTx_Commit_wf now atx adb w : adb_wf adb -> adb_wf (AdvancedTx_Commit now atx adb w).1.1.
Proof.
  intros Ha. unfold AdvancedTx_Commit. destruct (tx_Commit (atx_tx atx) w) as [w1 [e|]]; destruct adb, Ha;
    constructor; try done; [by apply RecordFailure_wf|by apply RecordSuccess_wf].
Qed.

Lemma AdvancedTx_Rollback_wf now atx adb w : adb_wf adb -> adb_wf (AdvancedTx_Rollback now atx adb w).1.1.
Proof.
  intros Ha. unfold AdvancedTx_Rollback. destruct (tx_Rollback (atx_tx atx) w) as [w1 [e|]]; [|done].
  destruct adb, Ha. constructor; try done. by apply RecordFailure_wf.
Qed.
End Db.

(** ** The runtime *)
Section Runtime.
Context (oor : float64 -> Z).
Context (first_key : gmap string Stmt -> option string).
Context (Hfirst : first_key_ok first_key).
Context `{Sql : SqlDB W Ctx Arg Res Rows Row Tx}.
Context `{Pool : SqlPool W Ctx DB Conn}.
Context `{RowsOps : !SqlRows W Rows}.
Context `{CacheOps : Cache C cached_value}.
Context `{Lawful : !LawfulCache C cached_value}.
Implicit Types rt : DBRuntime DB C.

Record rt_wf (rt : DBRuntime DB C) : Prop := mk_rt_wf {
  rw_gate : gate_wf (rt_gate rt);
  rw_db : forall adb, rt_advancedDB rt = Some adb -> adb_wf (adb{{adb_gate := rt_gate rt}});
  rw_cache : forall c, rt_cache rt = Some c -> cache_inv c;
  rw_connected : DBRuntime_IsConnected rt = true -> is_Some (rt_advancedDB rt);
}.

(** The calls of a program on its runtime, with the transactions it has begun. *)
Inductive rt_call : Type :=
  | RtConnect
  | RtDisconnect
  | RtSetCache (c : option C)
  | RtExec (env : db_env) (ctx : Ctx) (query : string) (args : list Arg)
  | RtQuery (env : db_env) (ctx : Ctx) (query : string) (args : list Arg)
  | RtQueryRow (env : db_env) (ctx : Ctx) (query : string) (args : list Arg)
  | RtPrepare (ctx : Ctx) (query : string)
  | RtBegin (env : db_env) (ctx : Ctx)
  | RtCommit (now : Z) (tx : AdvancedTx Tx)
  | RtRollback (now : Z) (tx : AdvancedTx Tx)
  | RtQueryCached (fuel : nat) (env : cached_env) (ctx : Ctx) (key : string) (ttl : Z)
      (query : string) (args : list Arg)
  | RtHealthCheck (ctx : Ctx).

(** The runtime and the world of an answer. *)
Definition answered {T} (o : option (outcome (DBRuntime DB C * W * T))) : option (outcome (DBRuntime DB C * W)) :=
  match o with
  | None => None
  | Some (Panic m) => Some (Panic m)
  | Some (Ret (rt, w, _)) => Some (Ret (rt, w))
  end.

(** One call; [None]: it never returns, or it is one on a transaction that no wrapper
    has begun. *)
Definition rt_step (c : rt_call) (rt : DBRuntime DB C) (w : W) : option (outcome (DBRuntime DB C * W)) :=
  match c with
  | RtConnect => answered (Some (Ret (DBRuntime_Connect rt w)))
  | RtDisconnect => answered (Some (DBRuntime_Disconnect rt w))
  | RtSetCache c => Some (Ret (DBRuntime_SetCache c rt, w))
  | RtExec env ctx q args => answered (DBRuntime_Exec oor env ctx q args rt w)
  | RtQuery env ctx q args => answered (DBRuntime_Query oor env ctx q args rt w)
  | RtQueryRow env ctx q args => answered (DBRuntime_QueryRow env ctx q args rt w)
  | RtPrepare ctx q => answered (DBRuntime_Prepare first_key ctx q rt w)
  | RtBegin env ctx => answered (DBRuntime_Begin oor env ctx rt w)
  | RtCommit now tx =>
      match rt_advancedDB rt with
      | None => None
      | Some _ => answered (with_db (fun adb w => Some (AdvancedTx_Commit now tx adb w)) rt w)
      end
  | RtRollback now tx =>
      match rt_advancedDB rt with
      | None => None
      | Some _ => answered (with_db (fun adb w => Some (AdvancedTx_Rollback now tx adb w)) rt w)
      end
  | RtQueryCached fuel env ctx key ttl q args =>
      answered (DBRuntime_QueryCached oor fuel env ctx key ttl q args rt w)
  | RtHealthCheck ctx => let '(w, _) := DBRuntime_HealthCheck ctx rt w in Some (Ret (rt, w))
  end.

Fixpoint rt_run (cs : list rt_call) (rt : DBRuntime DB C) (w : W) : option (outcome (DBRuntime DB C * W)) :=
  match cs with
  | [] => Some (Ret (rt, w))
  | c :: cs =>
      match rt_step c rt w with
      | None => None
      | Some (Panic m) => Some (Panic m)
      | Some (Ret (rt, w)) => rt_run cs rt w
      end
  end.

(** What a call brings is well formed. *)
Definition call_wf (c : rt_call) : Prop :=
  match c with
  | RtExec env _ _ _ | RtQuery env _ _ _ | RtBegin env _ => env_wf (e_gate env)
  | RtQueryCached _ env _ _ _ _ _ => env_wf (e_gate (ce_query env))
  | RtSetCache c => forall c', c = Some c' -> cache_inv c'
  | _ => True
  end.

(** The answer is a well-formed runtime, or the one panic there is: a second
    [LeakDetector_Stop]. *)
Definition fine {T} (o : option (outcome (DBRuntime DB C * W * T))) : Prop :=
  match o with
  | None => True
  | Some (Panic m) => m = "close of closed channel"
  | Some (Ret (rt, _, _)) => rt_wf rt
  end.

Lemma with_db_fine {T} (f : AdvancedDB -> W -> option (AdvancedDB * W * T)) rt w :
  (forall adb adb' w w' r, adb_wf adb -> f adb w = Some (adb', w', r) -> adb_wf adb') ->
  rt_wf rt -> is_Some (rt_advancedDB rt) -> fine (with_db f rt w).
Proof.
  intros Hf [Hg Hd Hc Hn] [adb Hadb]. unfold with_db. rewrite Hadb.
  specialize (Hd adb Hadb). specialize (Hf (adb{{adb_gate := rt_gate rt}})).
  destruct (f _ w) as [[[adb' w'] r]|] eqn:Hx; [|done]. cbn [fine].
  apply Hf in Hx; [|done]. destruct adb' as [g s m p t], rt as [cm g0 a cfg cc], Hx. cbn in *.
  constructor; cbn; [done| |done|by eexists].
  intros ? [= <-]. by constructor.
Qed.

Lemma connected_fine {T} (f : AdvancedDB -> W -> option (AdvancedDB * W * T)) rt w r0 :
  (forall adb adb' w w' r, adb_wf adb -> f adb w = Some (adb', w', r) -> adb_wf adb') ->
  rt_wf rt ->
  fine (if negb (DBRuntime_IsConnected rt) then Some (Ret (rt, w, r0)) else with_db f rt w).
Proof.
  intros Hf Hrt. destruct (DBRuntime_IsConnected rt) eqn:Hc; [|done].
  apply with_db_fine; [done..|]. by apply (rw_connected _ Hrt).
Qed.

Lemma DBRuntime_Query_fine env ctx q args rt w :
  env_wf (e_gate env) -> rt_wf rt -> fine (DBRuntime_Query oor env ctx q args rt w).
Proof. intros He. apply connected_fine. intros adb adb' w1 w2 r Ha. by apply AdvancedDB_Query_wf. Qed.

Lemma Connect_wf rt w : rt_wf rt -> rt_wf (DBRuntime_Connect rt w).1.1.
Proof.
  intros [Hg Hd Hc Hn]. unfold DBRuntime_Connect.
  destruct (ConnectionManager_Open (rt_connManager rt) w) as [[cm w1] [e|]] eqn:Ho; destruct rt as [cm0 g a cfg cc].
  - constructor; cbn in *; [done..|]. unfold DBRuntime_IsConnected in *. cbn in *. intros Hcm. apply Hn.
    destruct (cm_db cm0) as [db|] eqn:Hdb; [done|].
    by rewrite (ConnectionManager_Open_failed _ _ _ _ _ Hdb Ho) in Hcm.
  - pose proof (NewAdvancedDB_wf g (Some (RuntimeConfig_db cfg)) Hg) as Hadb.
    constructor; [done| |done|by eexists]. intros adb [= <-]. by apply adb_wf_gate.
Qed.

Lemma Disconnect_fine rt w : rt_wf rt -> fine (Some (DBRuntime_Disconnect rt w)).
Proof.
  intros [Hg Hd Hc Hn]. unfold DBRuntime_Disconnect. destruct rt as [cm g a cfg cc]. cbn in *.
  set (rtw := match a with Some _ => _ | None => _ end).
  assert (H : rt_wf rtw.1 /\ rt_connManager rtw.1 = cm /\ (is_Some a -> is_Some (rt_advancedDB rtw.1))).
  { subst rtw. destruct a as [adb|]; [|done]. cbn. split_and!; [|done|by eexists].
    constructor; cbn in *; [done| |done|by eexists]. intros adb' [= <-].
    specialize (Hd adb eq_refl). destruct adb as [g1 s m p t], Hd. constructor; try done.
    by apply Clear_wf. }
  destruct rtw as [rt1 w1]. cbn [fst] in H. destruct H as ([Hg1 Hd1 Hc1 Hn1] & Hcm & _). rewrite Hcm.
  unfold ConnectionManager_Close. destruct (LeakDetector_Stop _) as [ld|m] eqn:Hld.
  2:{ cbn. unfold LeakDetector_Stop in Hld. destruct (cm_leakDetector cm) as [l|]; [|done].
      destruct (ld_stopChan l); [by injection Hld|done]. }
  destruct rt1 as [cm1 g1 a1 cfg1 cc1]. cbn in *. subst cm1. destruct cm as [[db|] c ac id l v wd]; cbn.
  - destruct (pool_Close db w1) as [w2 [e|]]; cbn; constructor; cbn; try done.
  - constructor; cbn; done.
Qed.

Lemma lookup_wf now key rt : rt_wf rt -> rt_wf (QueryCached_lookup now key rt).1.
Proof.
  intros [Hg Hd Hc Hn]. unfold QueryCached_lookup. destruct rt as [cm g a cfg [c|]]; cbn in *; [|done].
  destruct (negb _); [|done]. pose proof (law_Get_inv now key c (Hc c eq_refl)) as Hi.
  destruct (Cache_Get now key c) as [c1 v]. cbn in Hi.
  assert (H : rt_wf (mkDBRuntime cm g a cfg (Some c1))) by (constructor; cbn; [done|done| |done]; by intros ? [= <-]).
  by destruct v as [[cols rows|id]|].
Qed.

Lemma store_wf now key ttl cols rows rt : rt_wf rt -> rt_wf (QueryCached_store now key ttl cols rows rt).
Proof.
  intros [Hg Hd Hc Hn]. unfold QueryCached_store. destruct rt as [cm g a cfg [c|]]; cbn in *; [|done].
  destruct (negb _); [|done]. constructor; cbn; [done|done| |done]. intros c1 [= <-].
  by apply law_Set_inv, Hc.
Qed.

Lemma QueryCached_fine fuel env ctx key ttl q args rt w :
  env_wf (e_gate (ce_query env)) -> rt_wf rt ->
  fine (DBRuntime_QueryCached oor fuel env ctx key ttl q args rt w).
Proof.
  intros He Hrt. unfold DBRuntime_QueryCached. apply (lookup_wf (ce_get env) key) in Hrt.
  destruct (QueryCached_lookup (ce_get env) key rt) as [rt1 [a|]]; [done|]. cbn [fst] in Hrt.
  pose proof (DBRuntime_Query_fine (ce_query env) ctx q args rt1 w He Hrt) as Hq.
  destruct (DBRuntime_Query _ _ _ _ _ _ _) as [[[[rt2 w2] [rows|e]]|m]|]; try done. cbn in Hq.
  destruct (rows_Columns rows w2); [|done].
  destruct (scan_rows fuel rows [] w2) as [[w3 [res|e]]|]; [|done|done]. cbn. by apply store_wf.
Qed.

Lemma answered_fine {T} (o : option (outcome (DBRuntime DB C * W * T))) :
  fine o ->
  match answered o with
  | None => True
  | Some (Panic m) => m = "close of closed channel"
  | Some (Ret (rt, _)) => rt_wf rt
  end.
Proof. by destruct o as [[[[rt w] r]|m]|]. Qed.

Lemma rt_step_fine c rt w :
  call_wf c -> rt_wf rt ->
  match rt_step c rt w with
  | None => True
  | Some (Panic m) => m = "close of closed channel"
  | Some (Ret (rt, _)) => rt_wf rt
  end.
Proof.
  intros Hc Hrt. destruct c; cbn [rt_step call_wf] in *; try apply answered_fine.
  - pose proof (Connect_wf rt w Hrt) as H. by destruct (DBRuntime_Connect rt w) as [[? ?] ?].
  - by apply Disconnect_fine.
  - destruct Hrt. destruct rt. by constructor.
  - apply connected_fine; [|done]. intros adb adb' w1 w2 r Ha. by apply AdvancedDB_Exec_wf.
  - by apply DBRuntime_Query_fine.
  - apply connected_fine; [|done]. intros adb adb' w1 w2 r Ha.
    pose proof (AdvancedDB_QueryRow_wf env ctx query args adb w1 Ha) as Hq.
    destruct (AdvancedDB_QueryRow env ctx query args adb w1) as [[a1 ?] ?]. by intros [= <- _ _].
  - apply connected_fine; [|done]. intros adb adb' w1 w2 r Ha.
    pose proof (AdvancedDB_Prepare_wf first_key Hfirst ctx query adb w1 Ha) as Hq. intros [= Hx]. by rewrite Hx in Hq.
  - apply connected_fine; [|done]. intros adb adb' w1 w2 r Ha. by apply AdvancedDB_Begin_wf.
  - destruct (rt_advancedDB rt) eqn:Ha; [|done]. apply answered_fine, with_db_fine; [|done|by rewrite Ha].
    intros adb adb' w1 w2 r Hw. pose proof (AdvancedTx_Commit_wf now tx adb w1 Hw) as Hq. intros [= Hx]. by rewrite Hx in Hq.
  - destruct (rt_advancedDB rt) eqn:Ha; [|done]. apply answered_fine, with_db_fine; [|done|by rewrite Ha].
    intros adb adb' w1 w2 r Hw. pose proof (AdvancedTx_Rollback_wf now tx adb w1 Hw) as Hq. intros [= Hx]. by rewrite Hx in Hq.
  - by apply QueryCached_fine.
  - by destruct (DBRuntime_HealthCheck ctx rt w).
Qed.

Lemma NewDBRuntime_wf (new_cache : Z -> Z -> C) now config :
  (forall cap ttl, cache_inv (new_cache cap ttl)) ->
  (forall c, config = Some c -> GateConfig_ok (RuntimeConfig_gate c) /\ rc_MaxRequestsPerSecond c <= int64_max / 10) ->
  rt_wf (NewDBRuntime (DB := DB) new_cache now config).
Proof.
  intros Hnew Hc. unfold NewDBRuntime.
  assert (Hg : gate_wf (NewConnectionGate now (Some (RuntimeConfig_gate (default RuntimeConfig_zero config))))).
  { apply NewConnectionGate_wf. intros c [= <-]. destruct config as [c|]; [by apply Hc|].
    split; [repeat split; vm_compute; discriminate|vm_compute; discriminate]. }
  destruct (_ || _); constructor; cbn; try done. by intros ? [= <-].
Qed.

(** C8: Every state of a runtime is well formed: after any calls of a program on the
    runtime NewDBRuntime makes, from any answers of the driver and the clock, the
    breaker is in one of its states with its failures below the threshold when closed,
    the bucket and the limiter's channel are within their capacities, the statement
    cache within its bound, the counters in int64, the result cache keeps its
    invariant, and a connected runtime has its wrapper. So no call dereferences nil:
    the only panic is that of a Disconnect after the leak detector has been stopped. (For
    a MaxRequestsPerSecond whose ten seconds fit an int64.) *)
Theorem DBRuntime_well_formed (new_cache : Z -> Z -> C) now config cs w :
  (forall cap ttl, cache_inv (new_cache cap ttl)) ->
  (forall c, config = Some c -> GateConfig_ok (RuntimeConfig_gate c) /\ rc_MaxRequestsPerSecond c <= int64_max / 10) ->
  Forall call_wf cs ->
  match rt_run cs (NewDBRuntime new_cache now config) w with
  | None => True
  | Some (Panic m) => m = "close of closed channel"
  | Some (Ret (rt, _)) => rt_wf rt
  end.
Proof.
  intros Hnew Hc Hcs. pose proof (NewDBRuntime_wf new_cache now config Hnew Hc) as Hrt.
  revert Hrt. generalize (NewDBRuntime (DB := DB) new_cache now config) as rt. revert w.
  induction Hcs as [|c cs Hcc _ IH]; intros w rt Hrt; [done|]. cbn [rt_run].
  pose proof (rt_step_fine c rt w Hcc Hrt) as Hs.
  destruct (rt_step c rt w) as [[[rt1 w1]|m]|]; [by apply IH|done|done].
Qed.

End Runtime.

(** ** The hypotheses can hold *)
Section Witnesses.
Import OneCell CellRuntime.

Definition session_example : list (rt_call (Ctx := nat) (Arg := Z) (Tx := OneCell.tx) (C := InMemoryCache cached_value)) :=
  [RtExec (env 1) 0%nat "UPDATE" [5]; RtConnect; RtPrepare 0%nat "SELECT"; RtExec (env 2) 0%nat "UPDATE" [5];
   RtBegin (env 3) 0%nat; RtQueryCached 5 (cenv 4) 0%nat "k" 100 "SELECT" []; RtHealthCheck 0%nat; RtDisconnect].

Lemma DBRuntime_well_formed_witness :
  exists rt w, rt_run (fun _ => 0) first_key_example session_example runtime0 OneCell.start = Some (Ret (rt, w)) /\
    rt_wf rt.
Proof.
  pose proof (DBRuntime_well_formed (DB := unit) (fun _ => 0) first_key_example first_key_example_ok NewInMemoryCache 0
    (Some config) session_example OneCell.start) as H.
  destruct (rt_run (fun _ => 0) first_key_example session_example runtime0 OneCell.start) as [[[rt w]|m]|] eqn:Hr;
    [|vm_compute in Hr; discriminate Hr..].
  exists rt, w. split; [reflexivity|].
  change (NewDBRuntime NewInMemoryCache 0 (Some config)) with runtime0 in H. rewrite Hr in H. apply H.
  - intros cap ttl. apply NewInMemoryCache_wf.
  - intros c [= <-]. split; [repeat split; vm_compute; discriminate|vm_compute; discriminate].
  - repeat apply List.Forall_cons; try apply List.Forall_nil; cbn; try exact I; intros cl Hcl; exact Hcl.
Defined.
End Witnesses.
