(* ===== verification/Utils.v ===== *)
(** * Helpers around the runtime (utils.go, the recovery half of errors.go)

    [QueryExecutor] with its transactions, the health check and error recovery.
    [WithRetry] of utils.go is in Retry, its report in Report. *)
From S2P Require Import Prelude.
From S2P Require Import Errors.
From S2P Require Import GoFloat.
From S2P Require Import GateConfig.
From S2P Require Import CircuitBreaker.
From S2P Require Import Gate.
From S2P Require Import Cache.
From S2P Require Import StmtCache.
From S2P Require Import Metrics.
From S2P Require Import Retry.
From S2P Require Import Sql.
From S2P Require Import Db.
From S2P Require Import Open.
From S2P Require Import Config.
From S2P Require Import Runtime.
Local Open Scope string_scope.
Local Open Scope list_scope.
Local Open Scope Z_scope.

Record HealthStatus : Type := mkHealthStatus {
  hs_Healthy : bool;
  hs_Message : string;
  hs_LastCheck : Z;
  hs_ConnectionOK : bool;
  hs_CircuitBreakerOK : bool;
}.

Record Diagnostics : Type := mkDiagnostics {
  dg_ConnectionStats : DBStats;
  dg_Metrics : MetricsStats;
  dg_CircuitBreaker : string;
  dg_Timestamp : Z;
}.

Section Utils.
Context (oor : float64 -> Z).
Context `{Sql : SqlDB W Ctx Arg Res Rows Row Tx}.
Context `{Pool : SqlPool W Ctx DB Conn}.
Context `{RowsOps : !SqlRows W Rows}.
Context {C : Type}.
Implicit Types rt : DBRuntime DB C.

(** ** QueryExecutor *)

(** The loop of [Select]; [scanFunc] is the caller's, with the variables it assigns to. *)
Fixpoint select_loop {V : Type} (fuel : nat) (scanFunc : Rows -> V -> W -> V * W * option error)
    (rows : Rows) (v : V) (w : W) : option (V * W * option error) :=
  match fuel with
  | O => None
  | S fuel =>
      let '(w, more) := rows_Next rows w in
      if more then
        let '(v, w, err) := scanFunc rows v w in
        match err with
        | Some e => Some (v, w, Some (Wrapf "scan failed: " e ""))
        | None => select_loop fuel scanFunc rows v w
        end
      else Some (v, w, rows_Err rows w)
  end.

Definition QueryExecutor_Select {V : Type} (fuel : nat) (env : db_env) (ctx : Ctx) (query : string)
    (args : list Arg) (scanFunc : Rows -> V -> W -> V * W * option error) (v : V)
    (rt : DBRuntime DB C) (w : W) : option (outcome (DBRuntime DB C * W * (V * option error))) :=
  match DBRuntime_Query oor env ctx query args rt w with
  | None => None
  | Some (Panic m) => Some (Panic m)
  | Some (Ret (rt, w, Err err)) => Some (Ret (rt, w, (v, Some (Wrapf "query failed: " err ""))))
  | Some (Ret (rt, w, Ok rows)) =>
      match select_loop fuel scanFunc rows v w with
      | None => None
      | Some (v, w, err) => Some (Ret (rt, rows_Close rows w, (v, err)))
      end
  end.

(** [scanFunc] gets the nil row of a runtime that is not connected. *)
Definition QueryExecutor_SelectOne (env : db_env) (ctx : Ctx) (query : string) (args : list Arg)
    (scanFunc : option Row -> W -> W * outcome (option error)) (rt : DBRuntime DB C) (w : W)
    : option (DBRuntime DB C * W * outcome (option error)) :=
  match DBRuntime_QueryRow env ctx query args rt w with
  | None => None
  | Some (Panic m) => Some (rt, w, Panic m)
  | Some (Ret (rt, w, row)) => let '(w, r) := scanFunc row w in Some (rt, w, r)
  end.

Definition QueryExecutor_Execute (env : db_env) (ctx : Ctx) (query : string) (args : list Arg)
    (rt : DBRuntime DB C) (w : W) : option (outcome (DBRuntime DB C * W * result error Res)) :=
  DBRuntime_Exec oor env ctx query args rt w.

(** The transaction's own operations, on the gate it shares with the runtime. *)
Definition Tx_Commit (now : Z) (tx : AdvancedTx Tx) (rt : DBRuntime DB C) (w : W)
    : DBRuntime DB C * W * option error :=
  match with_db (fun adb w => Some (AdvancedTx_Commit now tx adb w)) rt w with
  | Some (Ret r) => r
  | _ => (rt, w, None)
  end.

Definition Tx_Rollback (now : Z) (tx : AdvancedTx Tx) (rt : DBRuntime DB C) (w : W)
    : DBRuntime DB C * W * option error :=
  match with_db (fun adb w => Some (AdvancedTx_Rollback now tx adb w)) rt w with
  | Some (Ret r) => r
  | _ => (rt, w, None)
  end.

(** [Transaction]: the result is not named, so what the deferred function assigns to
    [err] after [return err] is lost: the answer is that of [fn]. *)
Definition QueryExecutor_Transaction (env : db_env) (now : Z) (ctx : Ctx)
    (fn : AdvancedTx Tx -> DBRuntime DB C -> W -> DBRuntime DB C * W * outcome (option error))
    (rt : DBRuntime DB C) (w : W) : option (DBRuntime DB C * W * outcome (option error)) :=
  match DBRuntime_Begin oor env ctx rt w with
  | None => None
  | Some (Panic m) => Some (rt, w, Panic m)
  | Some (Ret (rt, w, Err err)) =>
      Some (rt, w, Ret (Some (Wrapf "failed to begin transaction: " err "")))
  | Some (Ret (rt, w, Ok tx)) =>
      let '(rt, w, r) := fn tx rt w in
      match r with
      | Panic m => let '(rt, w, _) := Tx_Rollback now tx rt w in Some (rt, w, Panic m)
      | Ret (Some err) => let '(rt, w, _) := Tx_Rollback now tx rt w in Some (rt, w, Ret (Some err))
      | Ret None => let '(rt, w, _) := Tx_Commit now tx rt w in Some (rt, w, Ret None)
      end
  end.

(** ** Health *)
Definition GetDiagnostics (now : Z) (rt : DBRuntime DB C) (w : W) : Diagnostics :=
  mkDiagnostics (DBRuntime_Stats rt w) (DBRuntime_Metrics rt) (DBRuntime_CircuitBreakerState rt) now.

Definition CheckHealth (now : Z) (ctx : Ctx) (rt : DBRuntime DB C) (w : W) : W * HealthStatus :=
  let '(w, err) := DBRuntime_HealthCheck ctx rt w in
  match err with
  | Some e => (w, mkHealthStatus false ("Connection check failed: " +:+ Error_text e) now false false)
  | None =>
      let cbState := DBRuntime_CircuitBreakerState rt in
      if String.eqb cbState CircuitStateOpen
      then (w, mkHealthStatus false "Circuit breaker is open" now true false)
      else
        let stats := DBRuntime_Stats rt w in
        if MaxOpenConnections stats <=? OpenConnections stats
        then (w, mkHealthStatus false "Connection pool is at capacity" now true true)
        else (w, mkHealthStatus true "All systems operational" now true true)
  end.

(** ** Error recovery (errors.go) *)
Definition ErrorRecovery_RecoverConnection (ctx : Ctx) (rt : DBRuntime DB C) (w : W)
    : DBRuntime DB C * W * option error :=
  let '(rt, w, err) :=
    if negb (DBRuntime_IsConnected rt) then
      let '(rt, w, err) := DBRuntime_Connect rt w in
      (rt, w, WrapError ErrCodeConnectionFailed "failed to reconnect" err)
    else (rt, w, None) in
  match err with
  | Some e => (rt, w, Some e)
  | None =>
      let '(w, err) := DBRuntime_HealthCheck ctx rt w in
      (rt, w, WrapError ErrCodeConnectionFailed "connection health check failed" err)
  end.

Definition ErrorRecovery_HandleError (ctx : Ctx) (err : option error) (rt : DBRuntime DB C) (w : W)
    : DBRuntime DB C * W * option error :=
  match err with
  | None => (rt, w, None)
  | Some e =>
      if IsCircuitBreakerError (Some e) then
        let w := time_Sleep (1 * Second) w in
        if negb (String.eqb (DBRuntime_CircuitBreakerState rt) CircuitStateOpen)
        then (rt, w, None) else (rt, w, Some e)
      else if IsRetryableError (Some e) then
        let '(rt, w, recoverErr) := ErrorRecovery_RecoverConnection ctx rt w in
        match recoverErr with
        | Some r =>
            (rt, w, Some (Wrapf "recovery failed: " r (" (original error: " +:+ Error_text e +:+ ")")))
        | None => (rt, w, Some e)
        end
      else (rt, w, Some e)
  end.

(** ** Lemmas *)
Lemma Tx_Commit_spec now tx rt w adb :
  rt_advancedDB rt = Some adb ->
  let '(rt', w', err) := Tx_Commit now tx rt w in
  w' = (tx_Commit (atx_tx tx) w).1 /\ err = (tx_Commit (atx_tx tx) w).2 /\
  rt_gate rt' = match err with
                | Some _ => ConnectionGate_RecordFailure now (rt_gate rt)
                | None => ConnectionGate_RecordSuccess (rt_gate rt)
                end.
Proof.
  intros Hadb. unfold Tx_Commit, with_db. rewrite Hadb. unfold AdvancedTx_Commit.
  destruct (tx_Commit (atx_tx tx) w) as [w1 [e|]]; by destruct adb.
Qed.

Lemma DBRuntime_Begin_spec env ctx rt w rt' w' tx :
  DBRuntime_Begin oor env ctx rt w = Some (Ret (rt', w', Ok tx)) ->
  exists adb0 adb', AdvancedDB_Begin oor env ctx adb0 w = Some (adb', w', Ok tx) /\
    adb_gate adb0 = rt_gate rt /\ rt_advancedDB rt' = Some adb'.
Proof.
  unfold DBRuntime_Begin. destruct (negb _); [done|]. unfold with_db.
  destruct (rt_advancedDB rt) as [adb|]; [|done].
  destruct (AdvancedDB_Begin _ _ _ _ _) as [[[adb' w1] r]|] eqn:Hb; [|done].
  intros [= <- <- ->]. by do 2 eexists.
Qed.

(** ** Properties *)
Section Transactions.
Context `{Laws : !LawfulSqlDB D}.

(** C9: Transaction reports success for work that is lost: whenever it returns nil, the
    function ran and returned nil, and then nothing was committed: the durable state is
    the one the function left, and the gate recorded a failure. (Begin cancels the
    transaction's context, Commit fails, and the error is assigned to a variable that
    is no longer the result.) *)
Theorem Transaction_nil_commits_nothing env now ctx
    (fn : AdvancedTx Tx -> DBRuntime DB C -> W -> DBRuntime DB C * W * outcome (option error))
    rt w rt' w' :
  (forall tx rt w, let '(rt', w', _) := fn tx rt w in
     (forall c, is_Some (ctx_Err c w) -> is_Some (ctx_Err c w')) /\
     (is_Some (rt_advancedDB rt) -> is_Some (rt_advancedDB rt'))) ->
  QueryExecutor_Transaction env now ctx fn rt w = Some (rt', w', Ret None) ->
  exists tx rt1 w1 rt2 w2,
    DBRuntime_Begin oor env ctx rt w = Some (Ret (rt1, w1, Ok tx)) /\
    fn tx rt1 w1 = (rt2, w2, Ret None) /\
    durable w' = durable w2 /\
    rt_gate rt' = ConnectionGate_RecordFailure now (rt_gate rt2).
Proof.
  intros Hfn. unfold QueryExecutor_Transaction.
  destruct (DBRuntime_Begin _ env ctx rt w) as [[[[rt1 w1] [tx|e]]|m]|] eqn:Hb; [|done..].
  apply DBRuntime_Begin_spec in Hb as Hb'. destruct Hb' as (adb0 & adb1 & Hbegin & _ & Hadb1).
  pose proof (AdvancedDB_Begin_spec _ _ _ _ _ _ _ _ Hbegin) as Hdone.
  specialize (Hfn tx rt1 w1). destruct (fn tx rt1 w1) as [[rt2 w2] r] eqn:Hf.
  destruct Hfn as [Hmono Hsome]. destruct (Hsome ltac:(by rewrite Hadb1)) as [adb2 Hadb2].
  destruct (law_Commit_done (atx_tx tx) w2 (Hmono _ Hdone)) as [[e He] Hd].
  destruct r as [[e'|]|m]; [by destruct (Tx_Rollback _ _ _ _) as [[? ?] ?]| |by destruct (Tx_Rollback _ _ _ _) as [[? ?] ?]].
  pose proof (Tx_Commit_spec now tx rt2 w2 adb2 Hadb2) as Hc.
  destruct (Tx_Commit now tx rt2 w2) as [[rt3 w3] err3]. destruct Hc as (-> & -> & Hg).
  intros [= <- <-]. rewrite He in Hg. exists tx, rt1, w1, rt2, w2. done.
Qed.

End Transactions.

(** CheckHealth is sound and complete: it says healthy exactly when the ping
    succeeded, the breaker is not open, and the pool is below its limit; the two flags
    say which check failed. *)
Theorem CheckHealth_spec now ctx rt w :
  let '(w', hs) := CheckHealth now ctx rt w in
  w' = (DBRuntime_HealthCheck ctx rt w).1 /\
  (hs_ConnectionOK hs = true <-> (DBRuntime_HealthCheck ctx rt w).2 = None) /\
  (hs_CircuitBreakerOK hs = true <->
     (DBRuntime_HealthCheck ctx rt w).2 = None /\ DBRuntime_CircuitBreakerState rt <> CircuitStateOpen) /\
  (hs_Healthy hs = true <->
     (DBRuntime_HealthCheck ctx rt w).2 = None /\ DBRuntime_CircuitBreakerState rt <> CircuitStateOpen /\
     OpenConnections (DBRuntime_Stats rt w') < MaxOpenConnections (DBRuntime_Stats rt w')).
Proof.
  unfold CheckHealth. destruct (DBRuntime_HealthCheck ctx rt w) as [w1 [e|]]; cbn.
  { split_and!; [done|..]; split; try done; by intros (? & _). }
  destruct (String.eqb_spec (DBRuntime_CircuitBreakerState rt) CircuitStateOpen) as [He|Hne]; cbn.
  { split_and!; [done|..]; split; try done; [by intros (_ & ?)|by intros (_ & ? & _)]. }
  destruct (Z.leb_spec (MaxOpenConnections (DBRuntime_Stats rt w1)) (OpenConnections (DBRuntime_Stats rt w1)));
    cbn; split_and!; try done; split; try done; intros (_ & _ & ?); lia.
Qed.

(** Wrapping with [%w] any number of times. *)
Inductive wraps (e : error) : error -> Prop :=
  | wraps_refl : wraps e e
  | wraps_step pre e' post : wraps e e' -> wraps e (Wrapf pre e' post).

Lemma wraps_not_classified e e' :
  e ∈ [ErrCircuitOpen; ErrRateLimitExceeded; ErrConnectionLimit; DeadlineExceeded; Canceled] ->
  wraps e e' -> IsRetryableError (Some e') = false /\ IsCircuitBreakerError (Some e') = false.
Proof. intros He Hw. induction Hw; [by apply sentinel_not_classified|done]. Qed.

(** Recovery does nothing about the errors the gate itself returns: an open
    circuit, a rate or connection limit, or an ended context, however wrapped, is
    returned unchanged, without waiting and without touching the runtime; the branch
    that waits for the circuit is never taken for them. *)
Theorem HandleError_ignores_gate_errors ctx e e' rt w :
  e ∈ [ErrCircuitOpen; ErrRateLimitExceeded; ErrConnectionLimit; DeadlineExceeded; Canceled] ->
  wraps e e' -> ErrorRecovery_HandleError ctx (Some e') rt w = (rt, w, Some e').
Proof.
  intros He Hw. destruct (wraps_not_classified e e' He Hw) as [Hr Hc].
  unfold ErrorRecovery_HandleError. by rewrite Hc, Hr.
Qed.

End Utils.

(** ** The hypotheses can hold *)
Section Witnesses.
Import OneCell CellRuntime.

(** A function that writes 7 in the transaction. *)
Definition example_fn (tx : AdvancedTx OneCell.tx) (rt : DBRuntime unit (InMemoryCache cached_value))
    (w : world) : DBRuntime unit (InMemoryCache cached_value) * world * outcome (option error) :=
  let '(w, r) := tx_exec (atx_tx tx) [7] w in (rt, w, Ret (result_error r)).

Lemma Transaction_nil_commits_nothing_witness :
  match QueryExecutor_Transaction (fun _ => 0) (env 5) 6 0%nat example_fn runtime.1 runtime.2 with
  | Some (_, w', Ret None) => ow_value w' = 0
  | _ => False
  end.
Proof.
  destruct (QueryExecutor_Transaction (fun _ => 0) (env 5) 6 0%nat example_fn runtime.1 runtime.2)
    as [[[rt' w'] [[e|]|m]]|] eqn:Hr; [vm_compute in Hr; discriminate Hr| |vm_compute in Hr; discriminate Hr..].
  assert (Hfn : forall tx rt w, let '(rt', w', _) := example_fn tx rt w in
    (forall c, is_Some (ctx_Err c w) -> is_Some (ctx_Err c w')) /\
    (is_Some (rt_advancedDB rt) -> is_Some (rt_advancedDB rt'))).
  { intros tx rt w. split; [intros c Hc; exact Hc|intros Ha; exact Ha]. }
  destruct (Transaction_nil_commits_nothing (fun _ => 0) (env 5) 6 0%nat example_fn _ _ _ _ Hfn Hr)
    as (tx & rt1 & w1 & rt2 & w2 & Hb & Hf & Hd & _).
  refine (eq_trans Hd _). vm_compute in Hb. injection Hb as <- <- <-.
  vm_compute in Hf. injection Hf as <- <-. reflexivity.
Defined.

Lemma HandleError_ignores_gate_errors_witness :
  ErrorRecovery_HandleError 0%nat (Some (Wrapf "query failed: " ErrCircuitOpen "")) runtime.1 runtime.2 =
    (runtime.1, runtime.2, Some (Wrapf "query failed: " ErrCircuitOpen "")).
Proof.
  apply (HandleError_ignores_gate_errors 0%nat ErrCircuitOpen).
  - apply list_elem_of_In. left. reflexivity.
  - apply wraps_step, wraps_refl.
Defined.

End Witnesses.
