(* ===== verification/Rows.v ===== *)
(** * Result sets read to their end (dbruntime.go, utils.go)

    The loops over a driver's rows run on fuel. Over rows that [database/sql] delivers one
    after the other they end, and what they return is the rows. *)
From S2P Require Import Prelude.
From S2P Require Import Errors.
From S2P Require Import GoFloat.
From S2P Require Import Gate.
From S2P Require Import Cache.
From S2P Require Import StmtCache.
From S2P Require Import Sql.
From S2P Require Import Db.
From S2P Require Import Open.
From S2P Require Import Config.
From S2P Require Import Runtime.
From S2P Require Import Utils.
Local Open Scope string_scope.
Local Open Scope list_scope.
Local Open Scope Z_scope.

(** Documented behaviour of rows: a Next that answers true makes the next row the current
    one, and a Scan that succeeds reads it and keeps it; when no row is left Next answers
    false. Rows may be closed under their reader, as the ones of a context that is done
    are: then Next answers false early and Err says why, or Scan fails. [rows_rest]: the
    rows the driver has still to deliver. *)
Class LawfulRows (W Rows : Type) `{SqlRows W Rows} : Type := {
  rows_rest : Rows -> W -> list (list sql_value);
  law_Next_end rows w : rows_rest rows w = [] -> (rows_Next rows w).2 = false;
  law_Next_row rows w row rest :
    rows_rest rows w = row :: rest ->
    let '(w1, more) := rows_Next rows w in
    if more
    then forall w2 row', rows_Scan rows w1 = (w2, Ok row') -> row' = row /\ rows_rest rows w2 = rest
    else rows_Err rows w1 <> None;
}.

(** A failure of reading the rows: the error they end with, or that of a Scan of a row. *)
Definition rows_failed {W Rows : Type} `{SqlRows W Rows} (rows : Rows) (w : W) (err : error) : Prop :=
  rows_Err rows w = Some err \/
  exists w0 w1, rows_Next rows w0 = (w1, true) /\ rows_Scan rows w1 = (w, Err err).

(** A caller's function applied to the rows until it fails. *)
Fixpoint visit {V : Type} (f : list sql_value -> V -> V * option error) (rows : list (list sql_value))
    (v : V) : V * option error :=
  match rows with
  | [] => (v, None)
  | row :: rows =>
      match f row v with
      | (v, None) => visit f rows v
      | (v, Some e) => (v, Some e)
      end
  end.

(** The [scanFunc] of a caller that scans the row and works on what it holds. *)
Definition scan_and {V W Rows : Type} `{SqlRows W Rows} (f : list sql_value -> V -> V * option error)
    (rows : Rows) (v : V) (w : W) : V * W * option error :=
  match rows_Scan rows w with
  | (w, Err e) => (v, w, Some e)
  | (w, Ok row) => let '(v, err) := f row v in (v, w, err)
  end.

Section Rows.
Context (oor : float64 -> Z).
Context `{Sql : SqlDB W Ctx Arg Res RowsT Row Tx}.
Context `{Pool : SqlPool W Ctx DB Conn}.
Context `{RowsOps : !SqlRows W RowsT}.
Context `{Lawful : !LawfulRows W RowsT}.
Context `{CacheOps : Cache C cached_value}.
Implicit Types (rows : RowsT) (rt : DBRuntime DB C).

(** The loop of QueryCached and of the server's QUERY: every row, or a failure. *)
Lemma scan_rows_all fuel rows results w :
  (length (rows_rest rows w) < fuel)%nat ->
  exists w' r, scan_rows fuel rows results w = Some (w', r) /\
    match r with
    | Ok all => all = results ++ map (map bytes_to_string) (rows_rest rows w) /\ rows_Err rows w' = None
    | Err err => rows_failed rows w' err
    end.
Proof.
  revert results w. induction fuel as [|fuel IH]; intros results w Hf; [lia|]. cbn [scan_rows].
  destruct (rows_rest rows w) as [|row rest] eqn:Hr.
  - apply law_Next_end in Hr. destruct (rows_Next rows w) as [w1 more]. cbn in Hr. subst more.
    destruct (rows_Err rows w1) as [err|] eqn:He; do 2 eexists; (split; [reflexivity|]); cbn; [by left|].
    by rewrite app_nil_r.
  - apply law_Next_row in Hr. destruct (rows_Next rows w) as [w1 [|]] eqn:Hn.
    + destruct (rows_Scan rows w1) as [w2 [row'|err]] eqn:Hs.
      * destruct (Hr w2 row' eq_refl) as [-> Hr2]. cbn [length] in Hf.
        destruct (IH (results ++ [map bytes_to_string row]) w2) as (w' & r & -> & Hend); [rewrite Hr2; lia|].
        exists w', r. by rewrite Hr2, <- app_assoc in Hend.
      * exists w2, (Err err). split; [done|]. right. eauto.
    + destruct (rows_Err rows w1) as [err|] eqn:He; [|done]. exists w1, (Err err). split; [done|by left].
Qed.

(** The loop of Select: the caller's function on the rows up to the [n]-th, all of them
    when it returns without an error. *)
Lemma select_loop_all {V} fuel (f : list sql_value -> V -> V * option error) rows v w :
  (length (rows_rest rows w) < fuel)%nat ->
  exists n w' err, select_loop fuel (scan_and f) rows v w =
    Some ((visit f (take n (rows_rest rows w)) v).1, w', err) /\
    match (visit f (take n (rows_rest rows w)) v).2, err with
    | Some e, _ => err = Some (Wrapf "scan failed: " e "")
    | None, None => take n (rows_rest rows w) = rows_rest rows w /\ rows_Err rows w' = None
    | None, Some err => rows_Err rows w' = Some err \/
        exists e, err = Wrapf "scan failed: " e "" /\ rows_failed rows w' e
    end.
Proof.
  revert v w. induction fuel as [|fuel IH]; intros v w Hf; [lia|]. cbn [select_loop].
  destruct (rows_rest rows w) as [|row rest] eqn:Hr.
  - apply law_Next_end in Hr. destruct (rows_Next rows w) as [w1 more]. cbn in Hr. subst more.
    exists 0%nat, w1, (rows_Err rows w1). split; [done|]. cbn. destruct (rows_Err rows w1) eqn:He; [by left|done].
  - apply law_Next_row in Hr. destruct (rows_Next rows w) as [w1 [|]] eqn:Hn.
    + unfold scan_and at 1. destruct (rows_Scan rows w1) as [w2 [row'|err]] eqn:Hs.
      * destruct (Hr w2 row' eq_refl) as [-> Hr2]. cbn [length] in Hf.
        destruct (f row v) as [v1 [e|]] eqn:Hfv.
        { exists 1%nat, w2, (Some (Wrapf "scan failed: " e "")). cbn. by rewrite Hfv. }
        destruct (IH v1 w2) as (n & w' & err & -> & Hend); [rewrite Hr2; lia|].
        exists (S n), w', err. rewrite Hr2 in *. cbn [take visit]. rewrite Hfv. split; [done|].
        destruct (visit f (take n rest) v1).2; [done|]. destruct err; [done|]. by destruct Hend as [-> ?].
      * exists 0%nat, w2, (Some (Wrapf "scan failed: " err "")). split; [done|]. cbn. right. exists err.
        split; [done|]. right. eauto.
    + exists 0%nat, w1, (rows_Err rows w1). split; [done|]. cbn. destruct (rows_Err rows w1); [by left|done].
Qed.

(** ** Properties *)

(** C31: A QueryCached call that has to ask the database and can read the columns returns:
    with the whole result set, every row the driver delivers, in order, with byte slices
    turned into strings, or with no rows and the error the rows ended with (the cancelled
    context of the query may have closed them) or that of a Scan; and only a result set
    that was read to its end without an error is stored. *)
Theorem DBRuntime_QueryCached_result_set fuel env ctx key ttl q args rt w rt1 w1 rows cols :
  (QueryCached_lookup (ce_get env) key rt).2 = None ->
  DBRuntime_Query oor (ce_query env) ctx q args (QueryCached_lookup (ce_get env) key rt).1 w =
    Some (Ret (rt1, w1, Ok rows)) ->
  rows_Columns rows w1 = Ok cols -> (length (rows_rest rows w1) < fuel)%nat ->
  let all := map (map bytes_to_string) (rows_rest rows w1) in
  exists w2 failed, DBRuntime_QueryCached oor fuel env ctx key ttl q args rt w =
    Some (Ret (match failed with
               | Some err => (rt1, rows_Close rows w2, Err err)
               | None => (QueryCached_store (ce_set env) key ttl cols all rt1, rows_Close rows w2,
                          Ok (cols, all, false))
               end)) /\
    match failed with
    | Some err => rows_failed rows w2 err
    | None => rows_Err rows w2 = None
    end.
Proof.
  intros Hmiss Hq Hcols Hf all. unfold DBRuntime_QueryCached.
  destruct (QueryCached_lookup (ce_get env) key rt) as [rt0 hit]. cbn in Hmiss, Hq. subst hit.
  rewrite Hq, Hcols. destruct (scan_rows_all fuel rows [] w1 Hf) as (w2 & r & -> & Hend). exists w2.
  destruct r as [all'|err]; [|by exists (Some err)]. exists None. by destruct Hend as [-> ?].
Qed.

(** Select calls the caller's function on the rows in order until it fails or they end,
    and returns what the function has assigned: without an error only after all of them,
    else with the function's error or that of reading the rows. *)
Theorem QueryExecutor_Select_visits {V} fuel env ctx q args (f : list sql_value -> V -> V * option error)
    v rt w rt1 w1 rows :
  DBRuntime_Query oor env ctx q args rt w = Some (Ret (rt1, w1, Ok rows)) ->
  (length (rows_rest rows w1) < fuel)%nat ->
  exists n w2 err, QueryExecutor_Select oor fuel env ctx q args (scan_and f) v rt w =
    Some (Ret (rt1, rows_Close rows w2, ((visit f (take n (rows_rest rows w1)) v).1, err))) /\
    match (visit f (take n (rows_rest rows w1)) v).2, err with
    | Some e, _ => err = Some (Wrapf "scan failed: " e "")
    | None, None => take n (rows_rest rows w1) = rows_rest rows w1 /\ rows_Err rows w2 = None
    | None, Some err => rows_Err rows w2 = Some err \/
        exists e, err = Wrapf "scan failed: " e "" /\ rows_failed rows w2 e
    end.
Proof.
  intros Hq Hf. unfold QueryExecutor_Select. rewrite Hq.
  destruct (select_loop_all fuel f rows v w1 Hf) as (n & w2 & err & -> & Hend). by exists n, w2, err.
Qed.

End Rows.

(** ** The hypotheses can hold *)
Section Witnesses.
Import OneCell CellRuntime.

(** The rows of the one-cell database. *)
#[refine] Instance cell_lawful_rows : LawfulRows world (list Z) := {
  rows_rest rows w := map (fun z => [VInt z]) (drop (ow_read w) rows);
}.
Proof.
  - intros rows w Hr. cbn -[Nat.ltb]. apply map_eq_nil in Hr.
    apply (f_equal length) in Hr. rewrite length_drop in Hr. cbn in Hr.
    by rewrite (proj2 (Nat.ltb_ge _ _)) by lia.
  - intros rows w row rest Hr. destruct w as [v n c p cl r]. cbn -[Nat.ltb] in *.
    assert (Hlt : (r < length rows)%nat).
    { destruct (decide (r < length rows)%nat) as [|Hge]; [done|]. rewrite drop_ge in Hr by lia. done. }
    apply list_lookup_lookup_total_lt in Hlt as Hl. rewrite (drop_S _ _ _ Hl) in Hr. cbn in Hr.
    injection Hr as <- <-. rewrite (proj2 (Nat.ltb_lt _ _)) by done.
    intros w2 row' Hs. cbn in Hs. rewrite Hl in Hs. injection Hs as <- <-. by split.
Defined.

(** Nothing closes them under their reader. *)
Lemma cell_rows_never_fail rows (w : world) err : rows_failed rows w err -> False.
Proof.
  intros [He|(w0 & w1 & Hn & Hs)]; [discriminate He|].
  destruct w0 as [v n c p cl r]. cbn -[Nat.ltb] in Hn, Hs.
  destruct (Nat.ltb_spec r (length rows)) as [Hr|Hr]; [|discriminate Hn].
  injection Hn as <-. cbn in Hs. apply lookup_lt_is_Some in Hr as [z Hz]. rewrite Hz in Hs. discriminate Hs.
Qed.

Lemma DBRuntime_QueryCached_result_set_witness :
  exists rt1 w1,
    DBRuntime_QueryCached (fun _ => 0) 2 (cenv 10) 0%nat "k" 100 "SELECT v" [] runtime.1 runtime.2 =
      Some (Ret (rt1, w1, Ok (["value"], [[VInt 0]], false))).
Proof.
  destruct (DBRuntime_Query (fun _ => 0) (ce_query (cenv 10)) 0%nat "SELECT v" []
    (QueryCached_lookup (ce_get (cenv 10)) "k" runtime.1).1 runtime.2)
    as [[[[rt1 w1] [rows|e]]|m]|] eqn:Hq; [|vm_compute in Hq; discriminate Hq..].
  assert (Hr : rows = [0] /\ ow_read w1 = 0%nat) by (vm_compute in Hq; injection Hq as _ <- <-; split; reflexivity).
  destruct Hr as [-> Hr].
  destruct (DBRuntime_QueryCached_result_set (fun _ => 0) 2 (cenv 10) 0%nat "k" 100 "SELECT v" []
    runtime.1 runtime.2 rt1 w1 [0] ["value"]) as (w2 & failed & H & Hend).
  - reflexivity.
  - exact Hq.
  - reflexivity.
  - cbn. rewrite Hr. cbn. lia.
  - destruct failed as [err|]; [by apply cell_rows_never_fail in Hend|].
    cbn in H. rewrite Hr in H. do 2 eexists. exact H.
Defined.

(** A caller that sums the first column. *)
Definition sum_rows (row : list sql_value) (sum : Z) : Z * option error :=
  match row with
  | VInt z :: _ => (sum + z, None)
  | _ => (sum, Some (External 4 "not an integer"))
  end.

Lemma QueryExecutor_Select_visits_witness :
  exists rt1 w1,
    QueryExecutor_Select (fun _ => 0) 2 (env 10) 0%nat "SELECT v" [] (scan_and sum_rows) 5 runtime.1 runtime.2 =
      Some (Ret (rt1, w1, (5, None))).
Proof.
  destruct (DBRuntime_Query (fun _ => 0) (env 10) 0%nat "SELECT v" [] runtime.1 runtime.2)
    as [[[[rt1 w1] [rows|e]]|m]|] eqn:Hq; [|vm_compute in Hq; discriminate Hq..].
  assert (Hr : rows = [0] /\ ow_read w1 = 0%nat) by (vm_compute in Hq; injection Hq as _ <- <-; split; reflexivity).
  destruct Hr as [-> Hr].
  destruct (QueryExecutor_Select_visits (fun _ => 0) 2 (env 10) 0%nat "SELECT v" [] sum_rows 5
    runtime.1 runtime.2 rt1 w1 [0] Hq) as (n & w2 & err & H & Hend); [cbn; rewrite Hr; cbn; lia|].
  cbn in H, Hend. rewrite Hr in H, Hend. exists rt1, (rows_Close [0] w2). rewrite H. clear -Hend.
  destruct n as [|n]; cbn in *.
  - destruct err as [err|]; [|by destruct Hend].
    by destruct Hend as [|(e & _ & He)]; [|apply cell_rows_never_fail in He].
  - rewrite take_nil in *. cbn in *. destruct err as [err|]; [|reflexivity].
    by destruct Hend as [|(e & _ & He)]; [|apply cell_rows_never_fail in He].
Defined.

End Witnesses.
