(* ===== verification/Monitor.v ===== *)
(** * The monitor (monitor.go)

    A check and the calls it makes to the callbacks; then the monitor as a system: the
    goroutines [Start] spawns, their tickers, and what the rest of the program does
    between any two of their steps. *)
From S2P Require Import Prelude.
From S2P Require Import Errors.
From S2P Require Import GoFloat.
From S2P Require Import GateConfig.
From S2P Require Import CircuitBreaker.
From S2P Require Import Gate.
From S2P Require Import Cache.
From S2P Require Import StmtCache.
From S2P Require Import Metrics.
From S2P Require Import Retry.
From S2P Require Import Sql.
From S2P Require Import Db.
From S2P Require Import Open.
From S2P Require Import Config.
From S2P Require Import Runtime.
From S2P Require Import Utils.
Local Open Scope string_scope.
Local Open Scope list_scope.
Local Open Scope Z_scope.

Record MonitorEvent : Type := mkMonitorEvent {
  me_Type : string;
  me_Timestamp : Z;
  me_Diagnostics : option Diagnostics;
  me_Health : option HealthStatus;
  me_Message : string;
}.

(** A monitor: its callbacks by number, and whether [stopChan] is closed. *)
Record Monitor : Type := mkMonitor {
  mo_interval : Z;
  mo_stopChan : bool;
  mo_callbacks : list nat;
  mo_running : bool;
}.

Definition NewMonitor (interval : Z) : Monitor := mkMonitor interval false [] false.

Definition Monitor_AddCallback (callback : nat) (m : Monitor) : Monitor :=
  m{{mo_callbacks := (mo_callbacks m ++ [callback])%list}}.

(** The second component: whether a goroutine is started. *)
Definition Monitor_Start (m : Monitor) : Monitor * bool :=
  if mo_running m then (m, false) else (m{{mo_running := true}}, true).

Definition Monitor_Stop (m : Monitor) : outcome Monitor :=
  if negb (mo_running m) then Ret m
  else if mo_stopChan m then Panic "close of closed channel"
  else Ret (m{{mo_stopChan := true; mo_running := false}}).

Section Monitor.
Context (oor : float64 -> Z).
Context `{Sql : SqlDB W Ctx Arg Res Rows Row Tx}.
Context {DB C : Type}.
Implicit Types rt : DBRuntime DB C.

(** ** The monitor's check *)

(** The clock readings: of the diagnostics, of the health check and of the events. *)
Record monitor_env : Type := mkMonitorEnv {
  t_diagnostics : Z;
  t_health : Z;
  t_event : Z -> Z; (* the n-th event *)
}.

(** [for _, callback := range callbacks { callback(event) }] *)
Definition notify (callbacks : list nat) (event : MonitorEvent) : list (nat * MonitorEvent) :=
  map (fun callback => (callback, event)) callbacks.

(** [checkAndNotify]: the calls made to the callbacks, in order. *)
Definition Monitor_checkAndNotify (env : monitor_env) (ctx : Ctx) (m : Monitor)
    (rt : DBRuntime DB C) (w : W) : W * list (nat * MonitorEvent) :=
  let diagnostics := GetDiagnostics (t_diagnostics env) rt w in
  let '(w, health) := CheckHealth (t_health env) ctx rt w in
  let callbacks := mo_callbacks m in
  let calls := notify callbacks
    (mkMonitorEvent "periodic_check" (t_event env 0) (Some diagnostics) (Some health) "") in
  let calls :=
    if negb (hs_Healthy health) then
      calls ++ notify callbacks
        (mkMonitorEvent "health_warning" (t_event env 1) (Some diagnostics) (Some health)
           (hs_Message health))
    else calls in
  let metrics := dg_Metrics diagnostics in
  let calls :=
    if 0 <? ms_SlowQueries metrics then
      calls ++ notify callbacks
        (mkMonitorEvent "slow_queries" (t_event env 2) (Some diagnostics) None
           ("Detected " +:+ pretty (ms_SlowQueries metrics) +:+ " slow queries"))
    else calls in
  let calls :=
    if String.eqb (dg_CircuitBreaker diagnostics) CircuitStateOpen then
      calls ++ notify callbacks
        (mkMonitorEvent "circuit_breaker_open" (t_event env 3) (Some diagnostics) None
           "Circuit breaker is open")
    else calls in
  (w, calls).

(** The events of one check, and their order. *)
Definition check_events (env : monitor_env) (ctx : Ctx) (rt : DBRuntime DB C) (w : W) : list string :=
  let health := (CheckHealth (t_health env) ctx rt w).2 in
  ["periodic_check"] ++
  (if hs_Healthy health then [] else ["health_warning"]) ++
  (if 0 <? ms_SlowQueries (DBRuntime_Metrics rt) then ["slow_queries"] else []) ++
  (if String.eqb (DBRuntime_CircuitBreakerState rt) CircuitStateOpen
   then ["circuit_breaker_open"] else []).

(** One monitoring check: every callback gets the same events in the same order,
    the periodic one first and then a warning, slow-query and breaker event exactly
    when their condition holds, each event to all callbacks before the next. *)
Theorem Monitor_checkAndNotify_spec env ctx m rt w :
  map (fun c => (me_Type c.2, c.1)) (Monitor_checkAndNotify env ctx m rt w).2 =
    flat_map (fun ty => map (fun cb => (ty, cb)) (mo_callbacks m)) (check_events env ctx rt w).
Proof.
  unfold Monitor_checkAndNotify, check_events.
  destruct (CheckHealth (t_health env) ctx rt w) as [w1 health]. cbn [fst snd].
  assert (Hn : forall ev, map (fun c => (me_Type c.2, c.1)) (notify (mo_callbacks m) ev) =
                          map (fun cb => (me_Type ev, cb)) (mo_callbacks m)).
  { intros ev. unfold notify. by rewrite List.map_map. }
  cbn [GetDiagnostics dg_Metrics dg_CircuitBreaker].
  destruct (hs_Healthy health), (0 <? ms_SlowQueries (DBRuntime_Metrics rt)),
    (String.eqb (DBRuntime_CircuitBreakerState rt) CircuitStateOpen); cbn [negb snd app flat_map];
    rewrite ?map_app, !Hn; cbn [me_Type]; by rewrite ?app_nil_r, <- ?app_assoc.
Qed.

(** ** The loops *)

(** Where a [monitorLoop] goroutine is: before [time.NewTicker], in its [select] (with a
    tick in the ticker's channel of one, or without), or between two of the calls of its
    check. *)
Inductive loop_pc : Type :=
  | Starting
  | Selecting (tick : bool)
  | Notifying (tick : bool) (calls : list (nat * MonitorEvent)).

Record loop : Type := mkLoop { lp_ctx : Ctx; lp_pc : loop_pc }.

(** The calls made to the callbacks so far, and for each check begun the calls it is to
    make, are kept to state the properties. *)
Record monitor_sys : Type := mkMonitorSys {
  sy_monitor : Monitor;
  sy_rt : DBRuntime DB C;
  sy_w : W;
  sy_loops : list loop;
  sy_calls : list (nat * MonitorEvent);
  sy_checks : list (list (nat * MonitorEvent));
}.

(** What happens next: a call of the program ([AddCallback], [Start], [Stop]), the rest
    of the program using the runtime, or a step of the i-th goroutine. *)
Inductive monitor_event : Type :=
  | EvAddCallback (callback : nat)
  | EvStart (ctx : Ctx)
  | EvStop
  | EvRest (rt : DBRuntime DB C) (w : W)
  | EvTick (i : nat)
  | EvEnter (i : nat)
  | EvTake (i : nat) (env : monitor_env)
  | EvCall (i : nat)
  | EvLeave (i : nat).

Definition set_pc (i : nat) (pc : loop_pc) (s : monitor_sys) : monitor_sys :=
  s{{sy_loops := alter (fun l => mkLoop (lp_ctx l) pc) i (sy_loops s)}}.

(** One step; [None]: it is not possible in this state. *)
Definition monitor_step (e : monitor_event) (s : monitor_sys) : option (outcome monitor_sys) :=
  match e with
  | EvAddCallback cb => Some (Ret (s{{sy_monitor := Monitor_AddCallback cb (sy_monitor s)}}))
  | EvStart ctx =>
      let '(m, go) := Monitor_Start (sy_monitor s) in
      Some (Ret (s{{sy_monitor := m;
                    sy_loops := if go then sy_loops s ++ [mkLoop ctx Starting] else sy_loops s}}))
  | EvStop =>
      match Monitor_Stop (sy_monitor s) with
      | Panic m => Some (Panic m)
      | Ret m => Some (Ret (s{{sy_monitor := m}}))
      end
  | EvRest rt w => Some (Ret (s{{sy_rt := rt; sy_w := w}}))
  | EvTick i =>
      match lp_pc <$> sy_loops s !! i with
      | Some (Selecting _) => Some (Ret (set_pc i (Selecting true) s))
      | Some (Notifying _ calls) => Some (Ret (set_pc i (Notifying true calls) s))
      | _ => None
      end
  | EvEnter i =>
      match lp_pc <$> sy_loops s !! i with
      | Some Starting =>
          if mo_interval (sy_monitor s) <=? 0
          then Some (Panic "non-positive interval for NewTicker")
          else Some (Ret (set_pc i (Selecting false) s))
      | _ => None
      end
  | EvTake i env =>
      match sy_loops s !! i with
      | Some (mkLoop ctx (Selecting true)) =>
          let '(w, calls) := Monitor_checkAndNotify env ctx (sy_monitor s) (sy_rt s) (sy_w s) in
          Some (Ret (set_pc i (Notifying false calls)
                       (s{{sy_w := w; sy_checks := (sy_checks s ++ [calls])}})))
      | _ => None
      end
  | EvCall i =>
      match lp_pc <$> sy_loops s !! i with
      | Some (Notifying tick []) => Some (Ret (set_pc i (Selecting tick) s))
      | Some (Notifying tick (call :: calls)) =>
          Some (Ret (set_pc i (Notifying tick calls) (s{{sy_calls := (sy_calls s ++ [call])}})))
      | _ => None
      end
  | EvLeave i =>
      match sy_loops s !! i with
      | Some (mkLoop ctx (Selecting _)) =>
          match mo_stopChan (sy_monitor s), ctx_Err ctx (sy_w s) with
          | false, None => None
          | _, _ => Some (Ret (s{{sy_loops := delete i (sy_loops s)}}))
          end
      | _ => None
      end
  end.

Fixpoint monitor_run (es : list monitor_event) (s : monitor_sys) : option (outcome monitor_sys) :=
  match es with
  | [] => Some (Ret s)
  | e :: es =>
      match monitor_step e s with
      | Some (Ret s) => monitor_run es s
      | o => o
      end
  end.

Definition monitor_init (interval : Z) (rt : DBRuntime DB C) (w : W) : monitor_sys :=
  mkMonitorSys (NewMonitor interval) rt w [] [] [].

(** *** One loop at a time *)

(** The calls a check still has to make. *)
Definition pending (l : loop) : list (nat * MonitorEvent) :=
  match lp_pc l with Notifying _ calls => calls | _ => [] end.

Record one_loop (s : monitor_sys) : Prop := mk_one_loop {
  ol_fresh : mo_running (sy_monitor s) = false -> sy_loops s = [];
  ol_one : (length (sy_loops s) <= 1)%nat;
  ol_calls : sy_calls s ++ flat_map pending (sy_loops s) = concat (sy_checks s);
}.

(** At most one loop: there is none, or only the one at 0. *)
Lemma single_loop (ls : list loop) i l : (length ls <= 1)%nat -> ls !! i = Some l -> i = 0%nat /\ ls = [l].
Proof.
  intros H1 Hl. destruct ls as [|l0 [|l1 ls]]; [done| |cbn in H1; lia].
  destruct i as [|i]; [|done]. by injection Hl as ->.
Qed.

Lemma one_loop_pc s i l pc :
  one_loop s -> sy_loops s !! i = Some l -> pending (mkLoop (lp_ctx l) pc) = pending l ->
  one_loop (set_pc i pc s).
Proof.
  intros [Hf H1 Hc] Hl Hp. destruct (single_loop _ _ _ H1 Hl) as [-> Hls]. destruct s as [m rt w ls cs ks].
  cbn in *. subst ls. constructor; cbn; [by intros ?%Hf|done|].
  cbn in Hc. by rewrite Hp.
Qed.

Lemma pc_lookup s i pc : lp_pc <$> sy_loops s !! i = Some pc -> exists ctx, sy_loops s !! i = Some (mkLoop ctx pc).
Proof. destruct (sy_loops s !! i) as [[ctx pc']|]; [|done]. intros [= <-]. by exists ctx. Qed.

Lemma leave_step i s s' :
  monitor_step (EvLeave i) s = Some (Ret s') ->
  exists l, sy_loops s !! i = Some l /\ pending l = [] /\ s' = s{{sy_loops := delete i (sy_loops s)}}.
Proof.
  cbn [monitor_step]. destruct (sy_loops s !! i) as [[ctx [|t|]]|]; try done. intros H.
  eexists. split_and!; [done|done|]. destruct (mo_stopChan (sy_monitor s)); [by injection H|].
  destruct (ctx_Err ctx (sy_w s)); [by injection H|done].
Qed.

Lemma monitor_step_one_loop e s s' :
  monitor_step e s = Some (Ret s') ->
  (mo_stopChan (sy_monitor s) = false -> one_loop s) ->
  mo_stopChan (sy_monitor s') = false -> one_loop s'.
Proof.
  destruct e as [cb|ctx| |rt w|i|i|i env|i|i]; cbn [monitor_step].
  - intros [= <-] H Hs. destruct s as [[] ? ? ? ? ?]. cbn in *. by destruct (H Hs).
  - unfold Monitor_Start. destruct s as [[iv st cbs run] rt w ls cs ks]. cbn. intros Hst H Hs.
    destruct run; injection Hst as <-; destruct (H Hs) as [Hf H1 Hc]; cbn in *; [done|].
    specialize (Hf eq_refl). subst ls. by constructor.
  - unfold Monitor_Stop. destruct s as [[iv st cbs run] rt w ls cs ks]. cbn.
    destruct run; cbn; [|by intros [= <-]]. destruct st; [done|]. by intros [= <-].
  - intros [= <-] H Hs. by destruct (H Hs).
  - destruct (lp_pc <$> sy_loops s !! i) as [[|t|t calls]|] eqn:Hp; try done;
      apply pc_lookup in Hp as [ctx Hl]; intros [= <-] H Hs; by eapply one_loop_pc; [apply H|exact Hl|].
  - destruct (lp_pc <$> sy_loops s !! i) as [[|t|t calls]|] eqn:Hp; try done;
      apply pc_lookup in Hp as [ctx Hl]. destruct (_ <=? 0); [done|].
    intros [= <-] H Hs; by eapply one_loop_pc; [apply H|exact Hl|].
  - destruct (sy_loops s !! i) as [[ctx [|[]|]]|] eqn:Hl; try done.
    destruct (Monitor_checkAndNotify env ctx (sy_monitor s) (sy_rt s) (sy_w s)) as [w calls].
    intros [= <-] H Hs. destruct s as [m rt w0 ls cs ks]. cbn in *. destruct (H Hs) as [Hf H1 Hc]. cbn in *.
    destruct (single_loop _ _ _ H1 Hl) as [-> ->]. cbn in *. rewrite app_nil_r in Hc.
    constructor; cbn; [by intros ?%Hf|done|]. by rewrite concat_app, <- Hc.
  - destruct (lp_pc <$> sy_loops s !! i) as [[|t|t [|call calls]]|] eqn:Hp; try done;
      apply pc_lookup in Hp as [ctx Hl]; intros [= <-] H Hs.
    + by eapply one_loop_pc; [apply H|exact Hl|].
    + destruct s as [m rt w0 ls cs ks]. cbn in *. destruct (H Hs) as [Hf H1 Hc]. cbn in *.
      destruct (single_loop _ _ _ H1 Hl) as [-> ->]. cbn in *.
      constructor; cbn; [by intros ?%Hf|done|]. by rewrite <- Hc, <- app_assoc.
  - intros (l & Hl & Hp & ->)%leave_step H Hs. destruct s as [m rt w0 ls cs ks]. cbn in *. destruct (H Hs) as [Hf H1 Hc]. cbn in *.
    destruct (single_loop _ _ _ H1 Hl) as [-> ->]. cbn in Hc. rewrite Hp in Hc. constructor; cbn; [done|lia|done].
Qed.

(** Until it is stopped, a monitor runs one loop at a time: however calls to Start,
    AddCallback and Stop, ticks and the end of contexts interleave, there is at most one
    monitorLoop goroutine, and the callbacks have been called check after check, each
    check's calls in order and complete but for the last one's. *)
Theorem Monitor_one_loop interval rt w es s :
  monitor_run es (monitor_init interval rt w) = Some (Ret s) ->
  mo_stopChan (sy_monitor s) = false ->
  (length (sy_loops s) <= 1)%nat /\
  sy_calls s ++ flat_map pending (sy_loops s) = concat (sy_checks s).
Proof.
  assert (H0 : mo_stopChan (sy_monitor (monitor_init interval rt w)) = false -> one_loop (monitor_init interval rt w))
    by (constructor; cbn; [done|lia|done]).
  revert H0. generalize (monitor_init interval rt w) as s0. induction es as [|e es IH]; intros s0 H0.
  - intros [= <-] Hs. by destruct (H0 Hs).
  - cbn [monitor_run]. destruct (monitor_step e s0) as [[s1|m]|] eqn:He; [|done|done].
    apply IH. intros Hs. by eapply monitor_step_one_loop.
Qed.

(** *** After Stop *)

(** The steps of the goroutines, without the ticks their timers bring. *)
Definition own_step (e : monitor_event) : bool :=
  match e with EvEnter _ | EvTake _ _ | EvCall _ | EvLeave _ => true | _ => false end.

(** How many own steps are left to a goroutine that is to leave at a [select]. *)
Definition check_weight (m : Monitor) : nat := 4 * length (mo_callbacks m) + 2.

Definition loop_weight (m : Monitor) (l : loop) : nat :=
  match lp_pc l with
  | Starting => 2
  | Selecting tick => 1 + (if tick then check_weight m else 0)
  | Notifying tick calls => 2 + length calls + (if tick then check_weight m else 0)
  end.

Definition sys_weight (s : monitor_sys) : nat :=
  foldr (fun l n => loop_weight (sy_monitor s) l + n)%nat 0%nat (sy_loops s).

Lemma notify_length cbs ev : length (notify cbs ev) = length cbs.
Proof. apply length_map. Qed.

Lemma check_length env ctx m rt w :
  (length (Monitor_checkAndNotify env ctx m rt w).2 <= 4 * length (mo_callbacks m))%nat.
Proof.
  unfold Monitor_checkAndNotify. destruct (CheckHealth _ _ _ _) as [w1 health]. cbn [snd].
  split_ifs; rewrite ?length_app, ?notify_length; lia.
Qed.

Lemma weight_alter m (ls : list loop) i l pc :
  ls !! i = Some l ->
  (foldr (fun l n => loop_weight m l + n) 0 (alter (fun l => mkLoop (lp_ctx l) pc) i ls) + loop_weight m l =
   foldr (fun l n => loop_weight m l + n) 0 ls + loop_weight m (mkLoop (lp_ctx l) pc))%nat.
Proof.
  revert i. induction ls as [|l0 ls IH]; intros [|i] Hl; cbn in *; [done|done| |].
  - injection Hl as ->. lia.
  - specialize (IH i Hl). lia.
Qed.

Lemma weight_delete m (ls : list loop) i l :
  ls !! i = Some l ->
  (foldr (fun l n => loop_weight m l + n) 0 (delete i ls) + loop_weight m l =
   foldr (fun l n => loop_weight m l + n) 0 ls)%nat.
Proof.
  revert i. induction ls as [|l0 ls IH]; intros [|i] Hl; cbn in *; [done|done| |].
  - injection Hl as ->. lia.
  - specialize (IH i Hl). unfold delete in *. lia.
Qed.

(** A change of place of one goroutine changes the weight by the difference. *)
Lemma set_pc_weight i pc s ctx pc0 :
  sy_loops s !! i = Some (mkLoop ctx pc0) ->
  (loop_weight (sy_monitor s) (mkLoop ctx pc) < loop_weight (sy_monitor s) (mkLoop ctx pc0))%nat ->
  (sys_weight (set_pc i pc s) < sys_weight s)%nat.
Proof.
  intros Hl Hlt. pose proof (weight_alter (sy_monitor s) (sy_loops s) i _ pc Hl) as Hw.
  destruct s. unfold sys_weight. cbn in *. lia.
Qed.

Lemma own_step_decreases e s s' :
  own_step e = true -> monitor_step e s = Some (Ret s') ->
  (sys_weight s' < sys_weight s)%nat /\ sy_monitor s' = sy_monitor s.
Proof.
  destruct e as [cb|ctx| |rt w|i|i|i env|i|i]; try done; intros _; cbn [monitor_step].
  - destruct (lp_pc <$> sy_loops s !! i) as [[|t|t calls]|] eqn:Hp; try done;
      apply pc_lookup in Hp as [ctx Hl]. destruct (_ <=? 0); [done|]. intros [= <-]. split; [|done].
    by apply (set_pc_weight _ _ _ ctx Starting); [|cbn; lia].
  - destruct (sy_loops s !! i) as [[ctx [|[]|]]|] eqn:Hl; try done.
    pose proof (check_length env ctx (sy_monitor s) (sy_rt s) (sy_w s)) as Hlen.
    destruct (Monitor_checkAndNotify env ctx (sy_monitor s) (sy_rt s) (sy_w s)) as [w calls].
    intros [= <-]. split; [|done]. destruct s as [m rt w0 ls cs ks]. cbn [sy_loops sy_monitor snd] in *.
    refine (Nat.lt_le_trans _ _ _ (set_pc_weight i _ (mkMonitorSys m rt w ls cs (ks ++ [calls])) ctx (Selecting true) Hl _) _).
    + unfold loop_weight, check_weight. cbn [lp_pc sy_monitor]. lia.
    + done.
  - destruct (lp_pc <$> sy_loops s !! i) as [[|t|t [|call calls]]|] eqn:Hp; try done;
      apply pc_lookup in Hp as [ctx Hl]; intros [= <-]; (split; [|done]).
    + apply (set_pc_weight _ _ _ ctx (Notifying t [])); [done|]. unfold loop_weight. cbn. lia.
    + destruct s as [m rt w0 ls cs ks]. cbn [sy_loops sy_monitor] in *.
      refine (Nat.lt_le_trans _ _ _ (set_pc_weight i _ (mkMonitorSys m rt w0 ls (cs ++ [call]) ks) ctx
        (Notifying t (call :: calls)) Hl _) _); [|done]. unfold loop_weight. cbn. lia.
  - intros (l & Hl & _ & ->)%leave_step. pose proof (weight_delete (sy_monitor s) _ _ _ Hl) as Hw.
    assert (Hpos : (0 < loop_weight (sy_monitor s) l)%nat) by (unfold loop_weight; destruct (lp_pc l); lia).
    destruct s. split; [|done]. unfold sys_weight. cbn in *. lia.
Qed.

(** A goroutine of a stopped monitor always has a step of its own. *)
Lemma own_step_enabled s :
  mo_stopChan (sy_monitor s) = true -> 0 < mo_interval (sy_monitor s) -> sy_loops s <> [] ->
  exists e s', own_step e = true /\ monitor_step e s = Some (Ret s').
Proof.
  intros Hs Hi Hl. destruct s as [m rt w [|[ctx [|t|t [|call calls]]] ls] cs ks]; [done|..]; cbn in Hs, Hi.
  - exists (EvEnter 0). cbn. destruct (Z.leb_spec (mo_interval m) 0); [lia|]. by eexists.
  - exists (EvLeave 0). cbn. rewrite Hs. by eexists.
  - exists (EvCall 0). cbn. by eexists.
  - exists (EvCall 0). cbn. by eexists.
Qed.

(** C18: Stop ends the monitoring: from any state of a stopped monitor made with a
    positive interval, its goroutines
    take at most [sys_weight] steps of their own between two ticks, whatever they choose
    at their selects, and as long as one of them is left it has a step to take; so when
    no more ticks come they are all gone after at most so many steps. *)
Theorem Monitor_Stop_terminates s es s' :
  mo_stopChan (sy_monitor s) = true -> 0 < mo_interval (sy_monitor s) ->
  forallb own_step es = true -> monitor_run es s = Some (Ret s') ->
  (length es <= sys_weight s)%nat /\
  (sy_loops s' = [] \/ exists e s2, own_step e = true /\ monitor_step e s' = Some (Ret s2)).
Proof.
  intros Hs Hi. revert s Hs Hi. induction es as [|e es IH]; intros s Hs Hi Ho.
  - intros [= <-]. split; [cbn; lia|]. destruct (decide (sy_loops s = [])); [by left|right].
    by apply own_step_enabled.
  - cbn [forallb] in Ho. apply andb_prop in Ho as [He Ho]. cbn [monitor_run].
    destruct (monitor_step e s) as [[s1|m]|] eqn:Hst; [|done|done]. intros Hr.
    destruct (own_step_decreases _ _ _ He Hst) as [Hw Hm]. rewrite <- Hm in Hs, Hi.
    destruct (IH s1 Hs Hi Ho Hr) as [Hlen Hend]. split; [cbn [length]; lia|done].
Qed.

(** A loop whose context ends leaves the monitor marked as running: no later Start
    brings a loop, so nothing is checked again until Stop. *)
Theorem Monitor_ended_context_stays_off s es s' :
  mo_running (sy_monitor s) = true -> sy_loops s = [] ->
  Forall (fun e => e <> EvStop) es -> monitor_run es s = Some (Ret s') ->
  sy_checks s' = sy_checks s /\ sy_loops s' = [].
Proof.
  intros Hrun Hl Hes. revert s Hrun Hl. induction Hes as [|e es He _ IH]; intros s Hrun Hl.
  { by intros [= <-]. }
  cbn [monitor_run]. destruct (monitor_step e s) as [[s1|m]|] eqn:Hst; [|done|done]. intros Hr.
  assert (H1 : mo_running (sy_monitor s1) = true /\ sy_loops s1 = [] /\ sy_checks s1 = sy_checks s).
  { destruct s as [m rt w ls cs ks]. cbn in Hrun, Hl. subst ls.
    destruct e; cbn in Hst; rewrite ?lookup_nil in Hst; try done.
    - by injection Hst as <-.
    - unfold Monitor_Start in Hst. rewrite Hrun in Hst. by injection Hst as <-.
    - by injection Hst as <-. }
  destruct H1 as (Hrun1 & Hl1 & Hk1). destruct (IH s1 Hrun1 Hl1 Hr) as [-> ->]. by rewrite Hk1.
Qed.

(** A stopped monitor cannot be used again: Start after Stop, then Stop, closes a closed
    channel. *)
Theorem Monitor_restart_panics s ctx :
  mo_stopChan (sy_monitor s) = true -> mo_running (sy_monitor s) = false ->
  monitor_run [EvStart ctx; EvStop] s = Some (Panic "close of closed channel").
Proof.
  destruct s as [[iv st cbs run] rt w ls cs ks]. cbn. by intros -> ->.
Qed.

End Monitor.

(** ** The hypotheses can hold *)
Section Witnesses.
Import OneCell CellRuntime.

Definition menv_example : monitor_env := mkMonitorEnv 10 11 (fun n => 12 + n).

(** A check is under way and a tick has come when the program calls Stop. *)
Definition stopped_example : list (monitor_event (W := world) (Ctx := nat) (DB := unit) (C := InMemoryCache cached_value)) :=
  [EvAddCallback 7; EvStart 0%nat; EvEnter 0; EvTick 0; EvTake 0 menv_example; EvTick 0; EvStop].

Definition drain_example : list (monitor_event (W := world) (Ctx := nat) (DB := unit) (C := InMemoryCache cached_value)) :=
  [EvCall 0; EvCall 0; EvTake 0 menv_example; EvCall 0; EvCall 0; EvLeave 0].

Definition run_example es s := monitor_run (Sql := cell_db) (DB := unit) (C := InMemoryCache cached_value) es s.

Definition start_example := monitor_init (Ctx := nat) Second runtime.1 runtime.2.

Lemma Monitor_Stop_terminates_witness :
  exists s s', run_example stopped_example start_example = Some (Ret s) /\
    run_example drain_example s = Some (Ret s') /\
    (6 <= sys_weight s)%nat /\ sy_loops s' = [].
Proof.
  destruct (run_example stopped_example start_example) as [[s|m]|] eqn:Hs;
    [|vm_compute in Hs; discriminate Hs..].
  destruct (run_example drain_example s)
    as [[s'|m]|] eqn:Hs'; [|vm_compute in Hs; injection Hs as <-; vm_compute in Hs'; discriminate Hs'..].
  exists s, s'. split; [reflexivity|]. split; [exact Hs'|].
  assert (Hst : mo_stopChan (sy_monitor s) = true /\ mo_interval (sy_monitor s) = Second)
    by (vm_compute in Hs; injection Hs as <-; split; reflexivity).
  destruct Hst as [H1 H2].
  pose proof (Monitor_Stop_terminates s drain_example s' H1 ltac:(rewrite H2; reflexivity) eq_refl Hs') as [Hlen _].
  split; [exact Hlen|]. vm_compute in Hs. injection Hs as <-. vm_compute in Hs'. injection Hs' as <-. reflexivity.
Defined.
End Witnesses.
