(* ===== verification/Report.v ===== *)
(** * What is printed (the rest of utils.go and monitor.go)

    [Diagnostics.String] and [DefaultLoggingCallback], with the texts fmt gives a
    duration ([%v]) and a float ([%.2f]), and [DisconnectWithLog]. *)
From Stdlib Require Import Ascii SpecFloat.
From S2P Require Import Prelude.
From S2P Require Import Errors.
From S2P Require Import GoStrings.
From S2P Require Import GoFloat.
From S2P Require Import Cache.
From S2P Require Import Metrics.
From S2P Require Import Sql.
From S2P Require Import Open.
From S2P Require Import Strconv.
From S2P Require Import GoDecimal.
From S2P Require Import Rfc3339.
From S2P Require Import Runtime.
From S2P Require Import Utils.
From S2P Require Import Monitor.
Local Open Scope string_scope.
Local Open Scope list_scope.
Local Open Scope Z_scope.

Definition eol : string := String "010" "".

(** ** Durations: [Duration.String] *)

(** [fmtFrac]: [.fraction] of [v / 10^prec] without its trailing zeros, and the rest. *)
Definition fmtFrac (v : Z) (prec : nat) : string * Z :=
  (match TrimRight "0" (padded prec (v mod 10 ^ Z.of_nat prec)) with "" => "" | f => String "." f end,
   v / 10 ^ Z.of_nat prec).

Definition Duration_String (d : Z) : string :=
  let u := Z.abs d in
  let '(prec, unit) :=
    if u <? 1000 then (0%nat, "ns")
    else if u <? Millisecond then (3%nat, micro_sign)
    else if u <? Second then (6%nat, "ms")
    else (9%nat, "s") in
  if u =? 0 then "0s"
  else
    let '(frac, u) := fmtFrac u prec in
    sign_text (d <? 0)
      (if (prec <? 9)%nat then pretty u +:+ frac +:+ unit
       else
         let seconds := pretty (u mod 60) +:+ frac +:+ "s" in
         let u := u / 60 in
         if u =? 0 then seconds
         else
           let minutes := pretty (u mod 60) +:+ "m" +:+ seconds in
           let u := u / 60 in
           if u =? 0 then minutes else pretty u +:+ "h" +:+ minutes).

Example Duration_String_examples :
  map Duration_String [0; 7; 1500; 2 * Millisecond + 50000; 1500 * Millisecond; 90 * Second; 3600 * Second; -61 * Second] =
  ["0s"; "7ns"; "1.5" +:+ micro_sign; "2.05ms"; "1.5s"; "1m30s"; "1h0m0s"; "-1m1s"].
Proof. vm_compute. reflexivity. Qed.

(** [ParseDuration] (config.go) reads them back. *)
Example Duration_String_parse :
  map (fun d => ParseDuration (fun _ => 0) (Duration_String d)) [0; 7; 1500; 90 * Second; 3661000000001; - int64_max] =
  map Some [0; 7; 1500; 90 * Second; 3661000000001; - int64_max].
Proof. vm_compute. reflexivity. Qed.

(** ** Floats: [%.2f] *)

(** The hundredths of [m * 2^e], rounded to the nearest, ties to even. *)
Definition hundredths (m : positive) (e : Z) : Z :=
  let num := Zpos m * 100 * 2 ^ Z.max 0 e in
  let den := 2 ^ Z.max 0 (- e) in
  let q := num / den in
  match 2 * (num mod den) ?= den with
  | Lt => q
  | Gt => q + 1
  | Eq => if Z.even q then q else q + 1
  end.

Definition f64_text2 (x : float64) : string :=
  match x with
  | S754_nan => "NaN"
  | S754_infinity s => if s then "-Inf" else "+Inf"
  | S754_zero s => sign_text s "0.00"
  | S754_finite s m e =>
      let q := hundredths m e in
      sign_text s (pretty (q / 100) +:+ "." +:+ padded 2 (q mod 100))
  end.

Example f64_text2_examples :
  map f64_text2 [f64_of_Z 100; f64_div (f64_of_Z 200) (f64_of_Z 3); f64_div (f64_of_Z 1) (f64_of_Z 8);
                 f64_div (f64_of_Z 0) (f64_of_Z 0); f64_of_Z (-5)] =
  ["100.00"; "66.67"; "0.12"; "NaN"; "-5.00"].
Proof. vm_compute. reflexivity. Qed.

Section Report.
(** The time zone of the machine. *)
Context (zone : Z -> Z).

(** [t.Format(time.RFC3339)]: to the second. *)
Definition rfc3339 (t : Z) : string := format_time (zone t) (t / Second * Second).

Definition Diagnostics_String (d : Diagnostics) : string :=
  let stats := dg_ConnectionStats d in
  let metrics := dg_Metrics d in
  strings_Join eol
    ["Database Runtime Diagnostics";
     "==========================";
     "Timestamp: " +:+ rfc3339 (dg_Timestamp d);
     "Circuit Breaker: " +:+ dg_CircuitBreaker d;
     "";
     "Connection Pool:";
     "  Open Connections: " +:+ pretty (OpenConnections stats);
     "  In Use: " +:+ pretty (InUse stats);
     "  Idle: " +:+ pretty (Idle stats);
     "  Wait Count: " +:+ pretty (WaitCount stats);
     "  Wait Duration: " +:+ Duration_String (WaitDuration stats);
     "  Max Idle Closed: " +:+ pretty (MaxIdleClosed stats);
     "  Max Idle Time Closed: " +:+ pretty (MaxIdleTimeClosed stats);
     "  Max Lifetime Closed: " +:+ pretty (MaxLifetimeClosed stats);
     "";
     "Performance Metrics:";
     "  Total Queries: " +:+ pretty (ms_TotalQueries metrics);
     "  Successful: " +:+ pretty (ms_SuccessfulQueries metrics);
     "  Failed: " +:+ pretty (ms_FailedQueries metrics);
     "  Success Rate: " +:+ f64_text2 (ms_SuccessRate metrics) +:+ "%";
     "  Average Query Time: " +:+ Duration_String (ms_AverageQueryTime metrics);
     "  Slow Queries: " +:+ pretty (ms_SlowQueries metrics);
     ""].

(** What the callback prints. *)
Definition DefaultLoggingCallback (event : MonitorEvent) : string :=
  let t := rfc3339 (me_Timestamp event) in
  if String.eqb (me_Type event) "health_warning" then "[WARN] " +:+ t +:+ ": " +:+ me_Message event +:+ eol
  else if String.eqb (me_Type event) "circuit_breaker_open" then
    "[ERROR] " +:+ t +:+ ": Circuit breaker is open" +:+ eol
  else if String.eqb (me_Type event) "slow_queries" then "[WARN] " +:+ t +:+ ": " +:+ me_Message event +:+ eol
  else
    match me_Diagnostics event with
    | None => ""
    | Some d =>
        let stats := dg_ConnectionStats d in
        "[INFO] " +:+ t +:+ ": Connections=" +:+ pretty (InUse stats) +:+ "/" +:+ pretty (OpenConnections stats) +:+
        ", Queries=" +:+ pretty (ms_TotalQueries (dg_Metrics d)) +:+
        ", SuccessRate=" +:+ f64_text2 (ms_SuccessRate (dg_Metrics d)) +:+ "%" +:+ eol
    end.

End Report.

Section Helpers.
Context `{Sql : SqlDB W Ctx Arg Res Rows Row Tx}.
Context `{Pool : SqlPool W Ctx DB Conn}.
Context {C : Type}.

(** The context and its cancel function are one in the model. *)
Definition WithTimeout (ctx : Ctx) (timeout : Z) (w : W) : W * Ctx := ctx_WithTimeout timeout ctx w.

(** The text logged. *)
Definition DisconnectWithLog (rt : DBRuntime DB C) (w : W) : outcome (DBRuntime DB C * W * string) :=
  r <-! DBRuntime_Disconnect rt w;
  let '(rt, w, err) := r in
  Ret (rt, w, match err with
              | Some e => "Error disconnecting database runtime: " +:+ Error_text e +:+ eol
              | None => ""
              end).
End Helpers.

(** Before its first query a connected runtime reports a success rate that is not a
    number; one that is not connected reports 0.00. *)
Example SuccessRate_of_nothing :
  f64_text2 (ms_SuccessRate (DBMetrics_GetStats (NewDBMetrics None))) = "NaN" /\
  f64_text2 (ms_SuccessRate MetricsStats_zero) = "0.00".
Proof. vm_compute. split; reflexivity. Qed.

Import OneCell CellRuntime.

Example report_example :
  DefaultLoggingCallback (fun _ => 3600)
    (mkMonitorEvent "periodic_check" (63839663999 * Second + 5)
       (Some (GetDiagnostics 0 runtime.1 runtime.2)) None "") =
  "[INFO] 2024-01-01T00:59:59+01:00: Connections=0/1, Queries=0, SuccessRate=NaN%" +:+ eol.
Proof. vm_compute. reflexivity. Qed.
