(* ===== verification/TcpProtocol.v ===== *)
(** * The TCP protocol (tcp_protocol.go, and the parsers of tcp_server.go)

    Messages and responses, their JSON lines and how they are read. A message's
    arguments leave the client as Go values ([sql_value]) and arrive as what Unmarshal
    makes of them ([any]); a [json.RawMessage] is its text, empty when nil. *)
From Stdlib Require Import Ascii.
From S2P Require Import Prelude.
From S2P Require Import Errors.
From S2P Require Import GoFloat.
From S2P Require Import GoStrings.
From S2P Require Import Strconv.
From S2P Require Import JsonString.
From S2P Require Import Json.
From S2P Require Import JsonText.
From S2P Require Import GoDecimal.
From S2P Require Import JsonValue.
From S2P Require Import Runtime.
Local Open Scope string_scope.
Local Open Scope list_scope.
Local Open Scope Z_scope.

Definition MessageTypeExec : string := "EXEC".
Definition MessageTypeQuery : string := "QUERY".
Definition MessageTypePing : string := "PING".
Definition MessageTypeStats : string := "STATS".
Definition MessageTypeMetrics : string := "METRICS".
Definition MessageTypeClose : string := "CLOSE".

Record ExecResult : Type := mkExecResult {
  er_RowsAffected : Z;
  er_LastInsertID : Z;
}.

(** [V]: the values of the rows, the driver's on the server and [any] on the client. *)
Record QueryResult (V : Type) : Type := mkQueryResult {
  qr_Columns : list string;
  qr_Rows : list (list V);
}.
Arguments mkQueryResult {V}.
Arguments qr_Columns {V}.
Arguments qr_Rows {V}.

Record StatsResult : Type := mkStatsResult {
  sr_MaxOpenConnections : Z;
  sr_OpenConnections : Z;
  sr_InUse : Z;
  sr_Idle : Z;
  sr_WaitCount : Z;
  sr_WaitDuration : Z;
  sr_MaxIdleClosed : Z;
  sr_MaxIdleTimeClosed : Z;
  sr_MaxLifetimeClosed : Z;
}.

Record MetricsResult : Type := mkMetricsResult {
  mr_TotalQueries : Z;
  mr_SuccessfulQueries : Z;
  mr_FailedQueries : Z;
  mr_SlowQueries : Z;
  mr_AverageQueryTime : Z;
}.

(** The values the server puts in a response. *)
Inductive payload : Type :=
  | PStatus (status : string)            (* map[string]string{"status": status} *)
  | PExec (r : ExecResult)
  | PQuery (r : QueryResult sql_value)
  | PStats (r : StatsResult)
  | PMetrics (r : MetricsResult).

Record TCPMessage (Arg : Type) : Type := mkTCPMessage {
  msg_Type : string;
  msg_ID : string;
  msg_Query : string;
  msg_Args : list Arg;
  msg_Payload : string;
  msg_IdempotencyKey : string;
  msg_ClientIP : string;
  msg_RequestSize : Z;
}.
Arguments mkTCPMessage {Arg}.
Arguments msg_Type {Arg}.
Arguments msg_ID {Arg}.
Arguments msg_Query {Arg}.
Arguments msg_Args {Arg}.
Arguments msg_Payload {Arg}.
Arguments msg_IdempotencyKey {Arg}.
Arguments msg_ClientIP {Arg}.
Arguments msg_RequestSize {Arg}.

Record TCPResponse : Type := mkTCPResponse {
  resp_ID : string;
  resp_Success : bool;
  resp_Error : string;
  resp_Data : string;
}.

Definition NewErrorResponse (id : string) (err : error) : TCPResponse :=
  mkTCPResponse id false (Error_text err) "".

(** ** Values in JSON *)

(** base64.StdEncoding, in which a byte slice is written. *)
Definition base64_digit (z : Z) : ascii :=
  chr (if z <? 26 then 65 + z else if z <? 52 then 71 + z else if z <? 62 then z - 4
       else if z =? 62 then 43 else 47).

Fixpoint base64 (s : string) : string :=
  match s with
  | EmptyString => ""
  | String a EmptyString =>
      let x := code a * 16 in
      String (base64_digit (x / 64)) (String (base64_digit (x mod 64)) "==")
  | String a (String b EmptyString) =>
      let x := code a * 1024 + code b * 4 in
      String (base64_digit (x / 4096)) (String (base64_digit (x / 64 mod 64))
        (String (base64_digit (x mod 64)) "="))
  | String a (String b (String c s)) =>
      let x := code a * 65536 + code b * 256 + code c in
      String (base64_digit (x / 262144)) (String (base64_digit (x / 4096 mod 64))
        (String (base64_digit (x / 64 mod 64)) (String (base64_digit (x mod 64)) (base64 s))))
  end.

Definition JInt (z : Z) : json := JNum (pretty z).

(** [null] for a slice without elements that was never made. *)
Definition JSlice (l : list json) : json := match l with [] => JNull | _ => JArr l end.

Section Codec.
(** [Time.MarshalJSON]: RFC 3339 in the zone the time carries; [None] for a year it
    refuses. *)
Variable time_text : Z -> option string.

(** [None]: encoding/json refuses the value. *)
Definition json_value (v : sql_value) : option json :=
  match v with
  | VNil => Some JNull
  | VBool b => Some (JBool b)
  | VInt z => Some (JInt z)
  | VFloat x => match float_text x with Some s => Some (JNum s) | None => None end
  | VBytes b => Some (JStr (base64 b))
  | VString s => Some (JStr s)
  | VTime t => match time_text t with Some s => Some (JStr s) | None => None end
  end.

Definition json_values (vs : list sql_value) : option (list json) := all_Some (map json_value vs).

Definition json_rows (rows : list (list sql_value)) : option json :=
  match all_Some (map json_values rows) with
  | Some rows => Some (JSlice (map JArr rows))
  | None => None
  end.

Definition json_payload (data : payload) : option json :=
  match data with
  | PStatus status => Some (JObj [("status", JStr status)])
  | PExec r =>
      Some (JObj [("rows_affected", JInt (er_RowsAffected r));
                  ("last_insert_id", JInt (er_LastInsertID r))])
  | PQuery r =>
      match json_rows (qr_Rows r) with
      | Some rows => Some (JObj [("columns", JArr (map JStr (qr_Columns r))); ("rows", rows)])
      | None => None
      end
  | PStats r =>
      Some (JObj [("max_open_connections", JInt (sr_MaxOpenConnections r));
                  ("open_connections", JInt (sr_OpenConnections r));
                  ("in_use", JInt (sr_InUse r));
                  ("idle", JInt (sr_Idle r));
                  ("wait_count", JInt (sr_WaitCount r));
                  ("wait_duration_ns", JInt (sr_WaitDuration r));
                  ("max_idle_closed", JInt (sr_MaxIdleClosed r));
                  ("max_idle_time_closed", JInt (sr_MaxIdleTimeClosed r));
                  ("max_lifetime_closed", JInt (sr_MaxLifetimeClosed r))])
  | PMetrics r =>
      Some (JObj [("total_queries", JInt (mr_TotalQueries r));
                  ("successful_queries", JInt (mr_SuccessfulQueries r));
                  ("failed_queries", JInt (mr_FailedQueries r));
                  ("slow_queries", JInt (mr_SlowQueries r));
                  ("average_query_time_ns", JInt (mr_AverageQueryTime r))])
  end.

Definition UnsupportedValueError : error := External 4 "json: unsupported value".

(** [json.Marshal] of a response's data. *)
Definition json_Marshal (data : payload) : result error string :=
  match json_payload data with
  | Some v => Ok (print compact 0 v)
  | None => Err UnsupportedValueError
  end.

Definition NewSuccessResponse (id : string) (data : payload) : result error TCPResponse :=
  match json_Marshal data with
  | Err err => Err err
  | Ok payload => Ok (mkTCPResponse id true "" payload)
  end.

(** ** Lines *)
Definition new_line : string := String "010" "".

(** A [json.RawMessage] field with [omitempty]; [Err] when it is no JSON. *)
Definition raw_text (raw : string) : result error (option string) :=
  if String.eqb raw "" then Ok None
  else match json_parse raw with
       | Some _ => Ok (Some (compact_text false false raw))
       | None => Err SyntaxError
       end.

Definition EncodeTCPMessage (msg : TCPMessage sql_value) : result error string :=
  match json_values (msg_Args msg), raw_text (msg_Payload msg) with
  | None, _ => Err (Wrapf "failed to encode message: " UnsupportedValueError "")
  | _, Err err => Err (Wrapf "failed to encode message: " err "")
  | Some args, Ok payload =>
      Ok (struct_text
           [("type", Some (enc_string (msg_Type msg)));
            ("id", Some (enc_string (msg_ID msg)));
            ("query", nonempty_string (msg_Query msg));
            ("args", match args with [] => None | _ => Some (print compact 0 (JArr args)) end);
            ("payload", payload);
            ("idempotency_key", nonempty_string (msg_IdempotencyKey msg));
            ("client_ip", nonempty_string (msg_ClientIP msg));
            ("request_size", if msg_RequestSize msg =? 0 then None else Some (int_text (msg_RequestSize msg)))]
          +:+ new_line)
  end.

End Codec.

Definition message_names : list string :=
  ["type"; "id"; "query"; "args"; "payload"; "idempotency_key"; "client_ip"; "request_size"].

Definition message_field (name : string) (v : json) (text : string) (msg : TCPMessage any)
    : field_result (TCPMessage any) :=
  if String.eqb name "type" then
    set_field (fun x => msg{{msg_Type := x}}) (decode_string (msg_Type msg) v)
  else if String.eqb name "id" then
    set_field (fun x => msg{{msg_ID := x}}) (decode_string (msg_ID msg) v)
  else if String.eqb name "query" then
    set_field (fun x => msg{{msg_Query := x}}) (decode_string (msg_Query msg) v)
  else if String.eqb name "args" then
    set_field (fun x => msg{{msg_Args := x}}) (decode_slice decode_any (msg_Args msg) v)
  else if String.eqb name "payload" then (msg{{msg_Payload := text}}, None)
  else if String.eqb name "idempotency_key" then
    set_field (fun x => msg{{msg_IdempotencyKey := x}}) (decode_string (msg_IdempotencyKey msg) v)
  else if String.eqb name "client_ip" then
    set_field (fun x => msg{{msg_ClientIP := x}}) (decode_string (msg_ClientIP msg) v)
  else set_field (fun x => msg{{msg_RequestSize := x}}) (decode_int (msg_RequestSize msg) v).

Definition TCPMessage_zero {Arg} : TCPMessage Arg := mkTCPMessage "" "" "" [] "" "" "" 0.

Definition DecodeTCPMessage (data : string) : result error (TCPMessage any) :=
  match Unmarshal message_names message_field data TCPMessage_zero with
  | (msg, None) => Ok msg
  | (_, Some err) => Err (Wrapf "failed to decode message: " err "")
  end.

Definition EncodeTCPResponse (resp : TCPResponse) : result error string :=
  match raw_text (resp_Data resp) with
  | Err err => Err (Wrapf "failed to encode response: " err "")
  | Ok data =>
      Ok (struct_text
           [("id", Some (enc_string (resp_ID resp)));
            ("success", Some (bool_text (resp_Success resp)));
            ("error", nonempty_string (resp_Error resp));
            ("data", data)]
          +:+ new_line)
  end.

Definition response_names : list string := ["id"; "success"; "error"; "data"].

Definition response_field (name : string) (v : json) (text : string) (resp : TCPResponse)
    : field_result TCPResponse :=
  if String.eqb name "id" then
    set_field (fun x => resp{{resp_ID := x}}) (decode_string (resp_ID resp) v)
  else if String.eqb name "success" then
    set_field (fun x => resp{{resp_Success := x}}) (decode_bool (resp_Success resp) v)
  else if String.eqb name "error" then
    set_field (fun x => resp{{resp_Error := x}}) (decode_string (resp_Error resp) v)
  else (resp{{resp_Data := text}}, None).

Definition TCPResponse_zero : TCPResponse := mkTCPResponse "" false "" "".

Definition DecodeTCPResponse (data : string) : result error TCPResponse :=
  match Unmarshal response_names response_field data TCPResponse_zero with
  | (resp, None) => Ok resp
  | (_, Some err) => Err (Wrapf "failed to decode response: " err "")
  end.

(** ** The parsers of a response's data (tcp_server.go) *)
Definition exec_field (name : string) (v : json) (text : string) (r : ExecResult)
    : field_result ExecResult :=
  if String.eqb name "rows_affected" then
    set_field (fun x => r{{er_RowsAffected := x}}) (decode_int (er_RowsAffected r) v)
  else set_field (fun x => r{{er_LastInsertID := x}}) (decode_int (er_LastInsertID r) v).

Definition ParseExecResult (data : string) : result error ExecResult :=
  decoded_result (Unmarshal ["rows_affected"; "last_insert_id"] exec_field data (mkExecResult 0 0)).

Definition query_field (name : string) (v : json) (text : string) (r : QueryResult any)
    : field_result (QueryResult any) :=
  if String.eqb name "columns" then
    set_field (fun x => r{{qr_Columns := x}}) (decode_slice (decode_string "") (qr_Columns r) v)
  else set_field (fun x => r{{qr_Rows := x}})
         (decode_slice (decode_slice decode_any []) (qr_Rows r) v).

Definition ParseQueryResult (data : string) : result error (QueryResult any) :=
  decoded_result (Unmarshal ["columns"; "rows"] query_field data (mkQueryResult [] [])).

Lemma ParseQueryResult_error data e :
  ParseQueryResult data = Err e -> e = SyntaxError \/ e = UnmarshalTypeError.
Proof.
  unfold ParseQueryResult, decoded_result.
  destruct (Unmarshal _ _ _ _) as [t [e1|]] eqn:Hu; [|done]. intros [= <-].
  eapply (Unmarshal_error _ _ (fun e => e = SyntaxError \/ e = UnmarshalTypeError)); [by left|by right| |exact Hu].
  intros name v text r r' b e0. unfold query_field, set_field. destruct (String.eqb name "columns").
  - destruct (decode_slice _ _ _) as [cs [e2|]] eqn:Hd; [|done]. intros [= _ _ <-]. right.
    eapply decode_slice_error; [|exact Hd]. intros ? ? ?. apply decode_string_error.
  - destruct (decode_slice _ _ _) as [rows [e2|]] eqn:Hd; [|done]. intros [= _ _ <-]. right.
    eapply decode_slice_error; [|exact Hd]. intros ? ? ?. apply decode_slice_error, decode_any_error.
Qed.

Definition stats_names : list string :=
  ["max_open_connections"; "open_connections"; "in_use"; "idle"; "wait_count"; "wait_duration_ns";
   "max_idle_closed"; "max_idle_time_closed"; "max_lifetime_closed"].

Definition stats_field (name : string) (v : json) (text : string) (r : StatsResult)
    : field_result StatsResult :=
  if String.eqb name "max_open_connections" then
    set_field (fun x => r{{sr_MaxOpenConnections := x}}) (decode_int (sr_MaxOpenConnections r) v)
  else if String.eqb name "open_connections" then
    set_field (fun x => r{{sr_OpenConnections := x}}) (decode_int (sr_OpenConnections r) v)
  else if String.eqb name "in_use" then
    set_field (fun x => r{{sr_InUse := x}}) (decode_int (sr_InUse r) v)
  else if String.eqb name "idle" then
    set_field (fun x => r{{sr_Idle := x}}) (decode_int (sr_Idle r) v)
  else if String.eqb name "wait_count" then
    set_field (fun x => r{{sr_WaitCount := x}}) (decode_int (sr_WaitCount r) v)
  else if String.eqb name "wait_duration_ns" then
    set_field (fun x => r{{sr_WaitDuration := x}}) (decode_int (sr_WaitDuration r) v)
  else if String.eqb name "max_idle_closed" then
    set_field (fun x => r{{sr_MaxIdleClosed := x}}) (decode_int (sr_MaxIdleClosed r) v)
  else if String.eqb name "max_idle_time_closed" then
    set_field (fun x => r{{sr_MaxIdleTimeClosed := x}}) (decode_int (sr_MaxIdleTimeClosed r) v)
  else set_field (fun x => r{{sr_MaxLifetimeClosed := x}}) (decode_int (sr_MaxLifetimeClosed r) v).

Definition ParseStatsResult (data : string) : result error StatsResult :=
  decoded_result (Unmarshal stats_names stats_field data (mkStatsResult 0 0 0 0 0 0 0 0 0)).

Definition metrics_names : list string :=
  ["total_queries"; "successful_queries"; "failed_queries"; "slow_queries"; "average_query_time_ns"].

Definition metrics_field (name : string) (v : json) (text : string) (r : MetricsResult)
    : field_result MetricsResult :=
  if String.eqb name "total_queries" then
    set_field (fun x => r{{mr_TotalQueries := x}}) (decode_int (mr_TotalQueries r) v)
  else if String.eqb name "successful_queries" then
    set_field (fun x => r{{mr_SuccessfulQueries := x}}) (decode_int (mr_SuccessfulQueries r) v)
  else if String.eqb name "failed_queries" then
    set_field (fun x => r{{mr_FailedQueries := x}}) (decode_int (mr_FailedQueries r) v)
  else if String.eqb name "slow_queries" then
    set_field (fun x => r{{mr_SlowQueries := x}}) (decode_int (mr_SlowQueries r) v)
  else set_field (fun x => r{{mr_AverageQueryTime := x}}) (decode_int (mr_AverageQueryTime r) v).

Definition ParseMetricsResult (data : string) : result error MetricsResult :=
  decoded_result (Unmarshal metrics_names metrics_field data (mkMetricsResult 0 0 0 0 0)).

(** ** What arrives *)

(** A Go value on the other side of the wire: every number is a float64, a byte slice is
    its base64, and bytes that are not UTF-8 are replaced. *)
Definition received (time_text : Z -> option string) (v : sql_value) : any :=
  match v with
  | VNil => ANil
  | VBool b => ABool b
  | VInt z => AFloat (f64_of_Z z)
  | VFloat x => AFloat x
  | VBytes b => AString (base64 b)
  | VString s => AString (to_valid s)
  | VTime t => AString (to_valid (default "" (time_text t)))
  end.

Definition value_in_range (v : sql_value) : Prop :=
  match v with VInt z => in_int64 z | _ => True end.

Section Received.
Context (time_text : Z -> option string).

Lemma code_chr z : 0 <= z < 256 -> code (chr z) = z.
Proof. intros Hz. unfold code, chr. rewrite N_ascii_embedding by lia. lia. Qed.

Lemma base64_digit_code z : 0 <= z < 64 -> code (base64_digit z) < 128.
Proof.
  intros Hz. unfold base64_digit.
  destruct (Z.ltb_spec z 26); [rewrite code_chr; lia|].
  destruct (Z.ltb_spec z 52); [rewrite code_chr; lia|].
  destruct (Z.ltb_spec z 62); [rewrite code_chr; lia|].
  destruct (Z.eqb_spec z 62); rewrite code_chr; lia.
Qed.

Lemma code_range c : 0 <= code c < 256.
Proof. unfold code. pose proof (N_ascii_bounded c). lia. Qed.

Lemma to_valid_cons c s : code c < 128 -> to_valid (String c s) = String c (to_valid s).
Proof.
  intros Hc. unfold to_valid. cbn [runes]. by rewrite (proj2 (Z.ltb_lt (code c) 128) Hc).
Qed.

Lemma base64_valid s : to_valid (base64 s) = base64 s.
Proof.
  remember (String.length s) as n eqn:Hn. revert s Hn.
  induction (lt_wf n) as [n _ IH]. intros s ->.
  destruct s as [|a [|b [|c s]]]; [done|..]; cbn [base64];
    pose proof (code_range a); try pose proof (code_range b); try pose proof (code_range c);
    rewrite !to_valid_cons; try (apply base64_digit_code; Z.div_mod_to_equations; lia); try done.
  do 4 f_equal. apply (IH (String.length s)); [cbn; lia|done].
Qed.

Lemma all_Some_cons {A} (o : option A) l r :
  all_Some (o :: l) = Some r -> exists x r', o = Some x /\ all_Some l = Some r' /\ r = x :: r'.
Proof. cbn. destruct o as [x|]; [|done]. destruct (all_Some l) as [r'|]; [|done]. intros [= <-]. eauto. Qed.

Lemma json_value_received v j :
  json_value time_text v = Some j -> value_in_range v ->
  any_of_json (normal j) = Some (received time_text v) /\ json_ok j = true /\ depth j = 0%nat.
Proof.
  destruct v as [|b|z|x|b|s|t]; cbn [json_value value_in_range received].
  - by intros [= <-].
  - by intros [= <-].
  - intros [= <-] Hz. cbn [normal any_of_json json_ok JInt]. rewrite pretty_number_ok.
    rewrite number_float_pretty; [done|]. revert Hz. unfold in_int64, int64_min, int64_max. lia.
  - destruct (float_text x) as [s|] eqn:Hx; [|done]. intros [= <-] _.
    apply float_text_reads in Hx as [Hok Hr]. cbn [normal any_of_json json_ok]. by rewrite Hr.
  - intros [= <-] _. cbn [normal any_of_json]. by rewrite base64_valid.
  - by intros [= <-].
  - destruct (time_text t) as [s|]; [|done]. by intros [= <-].
Qed.

Lemma json_values_received vs js :
  json_values time_text vs = Some js -> Forall value_in_range vs ->
  all_Some (map any_of_json (map normal js)) = Some (map (received time_text) vs) /\
  forallb json_ok js = true /\ Forall (fun j => depth j = 0%nat) js /\
  decode_slice decode_any [] (JArr (map normal js)) = (map (received time_text) vs, None).
Proof.
  unfold json_values. revert js. induction vs as [|v vs IH]; intros js; cbn [map].
  { by intros [= <-]. }
  intros (j & js' & Hj & Hjs & ->)%all_Some_cons [Hv Hvs]%Forall_cons.
  destruct (json_value_received v j Hj Hv) as (H1 & H2 & H3).
  destruct (IH js' Hjs Hvs) as (H4 & H5 & H6 & H7).
  split; [cbn [map all_Some]; by rewrite H1, H4|]. split; [cbn; by rewrite H2|]. split; [by constructor|].
  apply decode_slice_cons; [|exact H7]. unfold decode_any. by rewrite H1.
Qed.

End Received.

(** ** A response's data *)

(** What the client makes of a result of the server. *)
Definition received_query (time_text : Z -> option string) (r : QueryResult sql_value) : QueryResult any :=
  mkQueryResult (map to_valid (qr_Columns r)) (map (map (received time_text)) (qr_Rows r)).

Definition payload_in_range (data : payload) : Prop :=
  match data with
  | PStatus _ => True
  | PExec r => in_int64 (er_RowsAffected r) /\ in_int64 (er_LastInsertID r)
  | PQuery r => Forall (Forall value_in_range) (qr_Rows r)
  | PStats r =>
      Forall in_int64 [sr_MaxOpenConnections r; sr_OpenConnections r; sr_InUse r; sr_Idle r;
        sr_WaitCount r; sr_WaitDuration r; sr_MaxIdleClosed r; sr_MaxIdleTimeClosed r;
        sr_MaxLifetimeClosed r]
  | PMetrics r =>
      Forall in_int64 [mr_TotalQueries r; mr_SuccessfulQueries r; mr_FailedQueries r; mr_SlowQueries r;
        mr_AverageQueryTime r]
  end.

Section Data.
Context (time_text : Z -> option string).

Lemma json_rows_received rows j :
  json_rows time_text rows = Some j -> Forall (Forall value_in_range) rows ->
  json_ok j = true /\ (depth j <= 2)%nat /\
  forall old, decode_slice (decode_slice decode_any []) old (normal j) =
    (map (map (received time_text)) rows, None).
Proof.
  unfold json_rows. intros Hj Hr.
  destruct (all_Some (map (json_values time_text) rows)) as [jss|] eqn:Hjs; [|done].
  injection Hj as <-.
  assert (H : forallb json_ok (map JArr jss) = true /\
    (foldr (fun v n => Nat.max (depth v) n) 0 (map JArr jss) <= 1)%nat /\
    decode_slice (decode_slice decode_any []) [] (JArr (map normal (map JArr jss))) =
      (map (map (received time_text)) rows, None)).
  { revert jss Hjs. induction Hr as [|vs rows Hvs Hr IH]; intros jss; cbn [map].
    { intros [= <-]. split; [done|]. split; [cbn; lia|done]. }
    intros (js & jss' & Hj & Hjs & ->)%all_Some_cons.
    destruct (json_values_received time_text vs js Hj Hvs) as (_ & H2 & H3 & H4).
    destruct (IH jss' Hjs) as (H5 & H6 & H7).
    split; [cbn [map forallb json_ok]; by rewrite H2|]. split.
    - cbn [map foldr depth]. assert (H0 : (foldr (fun v n => Nat.max (depth v) n) 0 js = 0)%nat).
      { clear -H3. induction H3 as [|j js Hj H3 IH]; cbn; [done|]. by rewrite Hj, IH. }
      rewrite H0. lia.
    - cbn [map normal]. by apply decode_slice_cons. }
  destruct H as (H1 & H2 & H3). destruct jss as [|js jss].
  { destruct rows as [|vs rows]; [split; [done|split; [cbn; lia|done]]|].
    by apply all_Some_cons in Hjs as (x & r & _ & _ & ?). }
  cbn [JSlice map] in *. split; [exact H1|]. split; [cbn [depth]; lia|]. intros old. exact H3.
Qed.

Lemma json_payload_ok data j :
  json_payload time_text data = Some j -> payload_in_range data ->
  json_ok j = true /\ (depth j <= 3)%nat.
Proof.
  assert (Hint : forall l : list (string * Z), let m := map (fun kv => (kv.1, JInt kv.2)) l in
    json_ok (JObj m) = true /\ (depth (JObj m) <= 3)%nat).
  { intros l. cbn zeta. induction l as [|[k z] l [IH1 IH2]]; [split; cbn; lia || done|].
    cbn [map json_ok forallb snd fst depth foldr] in *. unfold JInt at 1 3. cbn [json_ok depth].
    rewrite pretty_number_ok. split; [exact IH1|lia]. }
  destruct data as [st|r|r|r|r]; cbn [json_payload payload_in_range].
  - intros [= <-] _. split; [done|]. cbn. lia.
  - intros [= <-] _. apply (Hint [("rows_affected", er_RowsAffected r); ("last_insert_id", er_LastInsertID r)]).
  - destruct (json_rows time_text (qr_Rows r)) as [rows|] eqn:Hr; [|done]. intros [= <-] Hok.
    destruct (json_rows_received _ _ Hr Hok) as (H1 & H2 & _).
    assert (Hcol : forallb json_ok (map JStr (qr_Columns r)) = true /\
      foldr (fun v n => Nat.max (depth v) n) 0%nat (map JStr (qr_Columns r)) = 0%nat).
    { induction (qr_Columns r) as [|c cs [IH1 IH2]]; [done|]. cbn. by rewrite IH1, IH2. }
    destruct Hcol as [Hc1 Hc2]. split.
    + cbn [json_ok forallb snd]. by rewrite Hc1, H1.
    + cbn [depth foldr snd]. rewrite Hc2. lia.
  - intros [= <-] _. apply (Hint (combine stats_names [sr_MaxOpenConnections r; sr_OpenConnections r;
      sr_InUse r; sr_Idle r; sr_WaitCount r; sr_WaitDuration r; sr_MaxIdleClosed r;
      sr_MaxIdleTimeClosed r; sr_MaxLifetimeClosed r])).
  - intros [= <-] _. apply (Hint (combine metrics_names [mr_TotalQueries r; mr_SuccessfulQueries r;
      mr_FailedQueries r; mr_SlowQueries r; mr_AverageQueryTime r])).
Qed.

End Data.

(** ** The parsers read what the server writes *)
Section Parse.
Context (time_text : Z -> option string).

Lemma max_depth_ge n : (n <= 100)%nat -> (n <= max_depth)%nat.
Proof. unfold max_depth. lia. Qed.

(** A result is parsed as the fields of the object it was written as. *)
Lemma Unmarshal_payload {T} names (field : string -> json -> string -> T -> field_result T) data text t :
  json_Marshal time_text data = Ok text -> payload_in_range data ->
  exists m, json_payload time_text data = Some (JObj m) /\
    Unmarshal names field text t = decode_fields names field (fields_read m) t None.
Proof.
  unfold json_Marshal. intros Ht Hr. destruct (json_payload time_text data) as [j|] eqn:Hj; [|done].
  injection Ht as <-. pose proof (json_payload_ok time_text data j Hj Hr) as [Hok Hd].
  assert (Hobj : exists m, j = JObj m).
  { destruct data as [st|r|r|r|r]; cbn [json_payload] in Hj; try (injection Hj as <-; by eexists).
    destruct (json_rows time_text (qr_Rows r)); [|done]. injection Hj as <-. by eexists. }
  destruct Hobj as [m ->]. exists m. split; [done|].
  apply Unmarshal_object; [done|]. apply max_depth_ge. lia.
Qed.

Ltac int_field tac :=
  match goal with
  | |- context [fields_read ((?k, _) :: _)] =>
      erewrite (decode_fields_int _ _ k k); [|vm_compute; reflexivity|tac|intros; reflexivity]
  end.

(** A parser takes what it knows from a response's data and ignores the rest: the data
    of another kind of response is a result of zeros. *)
Lemma ParseExecResult_Marshal data text :
  json_Marshal time_text data = Ok text -> payload_in_range data ->
  ParseExecResult text = Ok (match data with PExec r => r | _ => mkExecResult 0 0 end).
Proof.
  intros Ht Hr. unfold ParseExecResult.
  destruct (Unmarshal_payload ["rows_affected"; "last_insert_id"] exec_field data text (mkExecResult 0 0) Ht Hr)
    as (m & Hm & ->).
  destruct data as [st|r|r|r|r]; cbn [payload_in_range json_payload] in *;
    [..|destruct (json_rows time_text (qr_Rows r)) in Hm; [|discriminate Hm]| |]; injection Hm as <-;
    try (rewrite decode_unknown by (vm_compute; reflexivity); reflexivity).
  destruct Hr as [H1 H2]. unfold JInt. do 2 (int_field ltac:(done)). by destruct r.
Qed.

Lemma ParseStatsResult_Marshal data text :
  json_Marshal time_text data = Ok text -> payload_in_range data ->
  ParseStatsResult text = Ok (match data with PStats r => r | _ => mkStatsResult 0 0 0 0 0 0 0 0 0 end).
Proof.
  intros Ht Hr. unfold ParseStatsResult.
  destruct (Unmarshal_payload stats_names stats_field data text (mkStatsResult 0 0 0 0 0 0 0 0 0) Ht Hr)
    as (m & Hm & ->).
  destruct data as [st|r|r|r|r]; cbn [payload_in_range json_payload] in *;
    [..|destruct (json_rows time_text (qr_Rows r)) in Hm; [|discriminate Hm]| |]; injection Hm as <-;
    try (rewrite decode_unknown by (vm_compute; reflexivity); reflexivity).
  rewrite !Forall_cons in Hr. destruct_and! Hr. unfold JInt. do 9 (int_field ltac:(done)). by destruct r.
Qed.

Lemma ParseMetricsResult_Marshal data text :
  json_Marshal time_text data = Ok text -> payload_in_range data ->
  ParseMetricsResult text = Ok (match data with PMetrics r => r | _ => mkMetricsResult 0 0 0 0 0 end).
Proof.
  intros Ht Hr. unfold ParseMetricsResult.
  destruct (Unmarshal_payload metrics_names metrics_field data text (mkMetricsResult 0 0 0 0 0) Ht Hr)
    as (m & Hm & ->).
  destruct data as [st|r|r|r|r]; cbn [payload_in_range json_payload] in *;
    [..|destruct (json_rows time_text (qr_Rows r)) in Hm; [|discriminate Hm]| |]; injection Hm as <-;
    try (rewrite decode_unknown by (vm_compute; reflexivity); reflexivity).
  rewrite !Forall_cons in Hr. destruct_and! Hr. unfold JInt. do 5 (int_field ltac:(done)). by destruct r.
Qed.

Lemma decode_columns old cs :
  decode_slice (decode_string "") old (normal (JArr (map JStr cs))) = (map to_valid cs, None).
Proof.
  cbn [normal]. assert (H : forall o, decode_slice (decode_string "") o (JArr (map normal (map JStr cs))) =
    (map to_valid cs, None)); [|apply H].
  intros o. induction cs as [|c cs IH]; [done|]. cbn [map]. by apply decode_slice_cons.
Qed.

Lemma ParseQueryResult_Marshal data text :
  json_Marshal time_text data = Ok text -> payload_in_range data ->
  ParseQueryResult text =
    Ok (match data with PQuery r => received_query time_text r | _ => mkQueryResult [] [] end).
Proof.
  intros Ht Hr. unfold ParseQueryResult.
  destruct (Unmarshal_payload ["columns"; "rows"] query_field data text (mkQueryResult [] []) Ht Hr)
    as (m & Hm & ->).
  destruct data as [st|r|r|r|r]; cbn [payload_in_range json_payload] in *;
    [| |destruct (json_rows time_text (qr_Rows r)) as [rows|] eqn:Hrows; [|discriminate Hm]| |];
    injection Hm as <-;
    try (rewrite decode_unknown by (vm_compute; reflexivity); reflexivity).
  destruct (json_rows_received time_text _ _ Hrows Hr) as (_ & _ & Hdec).
  assert (H1 : match_field ["columns"; "rows"] (to_valid "columns") = Some "columns") by (vm_compute; reflexivity).
  assert (H2 : match_field ["columns"; "rows"] (to_valid "rows") = Some "rows") by (vm_compute; reflexivity).
  cbn [fields_read map decode_fields fst snd]. rewrite H1. unfold query_field at 1.
  change (String.eqb "columns" "columns") with true. cbv iota. rewrite decode_columns. cbn [set_field fst snd].
  rewrite H2. unfold query_field. change (String.eqb "rows" "columns") with false. cbv iota.
  by rewrite Hdec.
Qed.
End Parse.

(** ** Messages and responses cross the wire *)

(** A response's data is nothing, or the text of a value. *)
Definition response_carries (resp : TCPResponse) (data : option json) : Prop :=
  match data with
  | None => resp_Data resp = ""
  | Some j => resp_Data resp = print compact 0 j /\ json_ok j = true /\ (depth j < max_depth)%nat
  end.

Definition received_response (resp : TCPResponse) : TCPResponse :=
  mkTCPResponse (to_valid (resp_ID resp)) (resp_Success resp) (to_valid (resp_Error resp)) (resp_Data resp).

Lemma raw_text_carries resp data :
  response_carries resp data -> raw_text (resp_Data resp) = Ok (print compact 0 <$> data).
Proof.
  unfold response_carries, raw_text. destruct data as [j|]; [|by intros ->].
  intros (-> & Hok & Hd). pose proof (print_start compact 0 j Hok) as Hst.
  destruct (String.eqb_spec (print compact 0 j) "") as [He|_]; [by rewrite He in Hst|].
  rewrite <- (String_app_nil (print compact 0 j)) at 1.
  rewrite (json_parse_print compact compact_ok) by (done || lia).
  by rewrite compact_text_print.
Qed.

Lemma response_crosses resp data :
  response_carries resp data ->
  exists text, EncodeTCPResponse resp = Ok (text +:+ new_line) /\ plain_text text = true /\
    DecodeTCPResponse text = Ok (received_response resp).
Proof.
  intros Hc. unfold EncodeTCPResponse. rewrite (raw_text_carries _ _ Hc), nonempty_string_print.
  set (fs := [("id", Some (JStr (resp_ID resp))); ("success", Some (JBool (resp_Success resp)));
              ("error", opt_string (resp_Error resp)); ("data", data)]).
  assert (Hok : Forall field_ok (present fs)).
  { pose proof max_depth_pos. apply field_ok_some; [done..|]. apply field_ok_some; [done..|].
    apply field_ok_opt_string. destruct data as [j|]; [|constructor].
    destruct Hc as (_ & Hj & Hd). by apply field_ok_some. }
  exists (struct_text (map (fun f => (f.1, print compact 0 <$> f.2)) fs)).
  split; [cbn; by destruct (resp_Success resp)|]. split; [by apply struct_text_plain|].
  unfold DecodeTCPResponse. rewrite Unmarshal_struct by done. unfold fs.
  destruct resp as [id ok err raw]. cbn [resp_ID resp_Success resp_Error resp_Data] in *.
  erewrite decode_present_cons; [|vm_compute; reflexivity|reflexivity]. cbn [set_field decode_string normal fst snd].
  erewrite decode_present_cons; [|vm_compute; reflexivity|reflexivity]. cbn [set_field decode_bool normal fst snd].
  erewrite decode_present_cons;
    [|vm_compute; reflexivity|apply (opt_string_field _ _ _ _ (fun x => mkTCPResponse (to_valid id) ok x "")); done].
  rewrite (decode_present_cons _ _ "data" data [] _ (mkTCPResponse (to_valid id) ok (to_valid err) raw));
    [done|vm_compute; reflexivity|].
  destruct data as [j|]; cbn [response_carries resp_Data] in Hc; [by destruct Hc as [-> _]|by rewrite Hc].
Qed.

Definition received_message (time_text : Z -> option string) (msg : TCPMessage sql_value) : TCPMessage any :=
  mkTCPMessage (to_valid (msg_Type msg)) (to_valid (msg_ID msg)) (to_valid (msg_Query msg))
    (map (received time_text) (msg_Args msg)) (msg_Payload msg) (to_valid (msg_IdempotencyKey msg))
    (to_valid (msg_ClientIP msg)) (msg_RequestSize msg).

Lemma message_crosses time_text msg line :
  EncodeTCPMessage time_text msg = Ok line ->
  msg_Payload msg = "" -> Forall value_in_range (msg_Args msg) -> in_int64 (msg_RequestSize msg) ->
  exists text, line = text +:+ new_line /\ plain_text text = true /\
    DecodeTCPMessage text = Ok (received_message time_text msg).
Proof.
  destruct msg as [ty id q args pl key ip size]. unfold EncodeTCPMessage.
  cbn [msg_Type msg_ID msg_Query msg_Args msg_Payload msg_IdempotencyKey msg_ClientIP msg_RequestSize].
  destruct (json_values time_text args) as [js|] eqn:Hjs; [|done]. intros Hl -> Hr Hsize.
  destruct (json_values_received time_text args js Hjs Hr) as (_ & Hj & Hdep & Hdec).
  cbn [raw_text String.eqb] in Hl. injection Hl as <-. rewrite !nonempty_string_print.
  set (fs := [("type", Some (JStr ty)); ("id", Some (JStr id)); ("query", opt_string q);
              ("args", match js with [] => None | _ => Some (JArr js) end); ("payload", None);
              ("idempotency_key", opt_string key); ("client_ip", opt_string ip);
              ("request_size", if size =? 0 then None else Some (JInt size))]).
  assert (Hok : Forall field_ok (present fs)).
  { pose proof (max_depth_ge 2 ltac:(lia)). apply field_ok_some; [done|cbn; lia|].
    apply field_ok_some; [done|cbn; lia|]. apply field_ok_opt_string.
    assert (Hrest : Forall field_ok (present [("payload", None);
      ("idempotency_key", opt_string key); ("client_ip", opt_string ip);
      ("request_size", if size =? 0 then None else Some (JInt size))])).
    { apply (field_ok_opt_string "idempotency_key"), field_ok_opt_string.
      destruct (size =? 0); [constructor|].
      apply field_ok_some; [apply pretty_number_ok|cbn; lia|constructor]. }
    destruct js as [|j js]; [exact Hrest|]. apply field_ok_some; [exact Hj| |exact Hrest].
    cbn [depth]. assert (H0 : (foldr (fun v n => Nat.max (depth v) n) 0 (j :: js) = 0)%nat).
    { clear -Hdep. induction Hdep as [|x l Hx Hdep IH]; cbn; [done|]. by rewrite Hx, IH. }
    rewrite H0. lia. }
  exists (struct_text (map (fun f => (f.1, print compact 0 <$> f.2)) fs)).
  split; [|split; [by apply struct_text_plain|]].
  { f_equal. cbn [fs map fst snd]. by destruct js, (size =? 0). }
  unfold DecodeTCPMessage. rewrite Unmarshal_struct by done. unfold fs, TCPMessage_zero.
  erewrite decode_present_cons; [|vm_compute; reflexivity|reflexivity]. cbn [set_field decode_string normal fst snd].
  erewrite decode_present_cons; [|vm_compute; reflexivity|reflexivity]. cbn [set_field decode_string normal fst snd].
  erewrite decode_present_cons; [|vm_compute; reflexivity|
    apply (opt_string_field _ _ _ _ (fun x => mkTCPMessage (to_valid ty) (to_valid id) x [] "" "" "" 0)); done].
  rewrite (decode_present_cons _ _ "args" _ _ _ (mkTCPMessage (to_valid ty) (to_valid id) (to_valid q)
    (map (received time_text) args) "" "" "" 0)); [|vm_compute; reflexivity|].
  2:{ destruct js as [|j js]; [|cbn [normal]; unfold message_field, set_field; cbn [String.eqb Ascii.eqb Bool.eqb msg_Args]; by rewrite Hdec].
      destruct args; [done|]. by apply all_Some_cons in Hjs as (x & r & _ & _ & ?). }
  rewrite (decode_present_cons _ _ "payload" None _ _ (mkTCPMessage (to_valid ty) (to_valid id) (to_valid q)
    (map (received time_text) args) "" "" "" 0)); [|vm_compute; reflexivity|reflexivity].
  erewrite decode_present_cons; [|vm_compute; reflexivity|
    apply (opt_string_field _ _ _ _ (fun x => mkTCPMessage (to_valid ty) (to_valid id) (to_valid q)
      (map (received time_text) args) "" x "" 0)); done].
  erewrite decode_present_cons; [|vm_compute; reflexivity|
    apply (opt_string_field _ _ _ _ (fun x => mkTCPMessage (to_valid ty) (to_valid id) (to_valid q)
      (map (received time_text) args) "" (to_valid key) x 0)); done].
  rewrite (decode_present_cons _ _ "request_size" _ _ _ (mkTCPMessage (to_valid ty) (to_valid id) (to_valid q)
    (map (received time_text) args) "" (to_valid key) (to_valid ip) size)); [done|vm_compute; reflexivity|].
  destruct (Z.eqb_spec size 0) as [->|_]; [done|]. unfold JInt, message_field, set_field.
  cbn [normal String.eqb Ascii.eqb Bool.eqb msg_RequestSize]. by rewrite decode_int_pretty.
Qed.
