(* ===== verification/Scanner.v ===== *)
(** * Lines from a connection (bufio.Scanner, as both ends of the protocol use it)

    A scanner with ScanLines and a buffer of one megabyte over what the connection's
    reads return. [Scan] is one call; the server calls it until it fails, the client
    once per scanner. The lines of a connection are those of its bytes, however the
    bytes are cut into reads. *)
From Stdlib Require Import Ascii.
From S2P Require Import Prelude.
From S2P Require Import Errors.
From S2P Require Import GoStrings.
Local Open Scope string_scope.
Local Open Scope list_scope.
Local Open Scope Z_scope.

(** What one [Read] of the connection returns; after the last one the peer has closed. *)
Inductive arrival : Type :=
  | Bytes (b : string)
  | ReadErr (err : error).

(** [Scan] is true with the line, or false with [Err()]. *)
Inductive scanned : Type :=
  | Line (data : string)
  | ScanErr (err : error)
  | ScanEOF.

Definition ErrTooLong : error := External 7 "bufio.Scanner: token too long".

(** The buffer: 1024*1024 bytes, the line's end included. *)
Definition maxTokenSize : Z := 1024 * 1024.

Definition bytes_len (s : string) : Z := Z.of_nat (String.length s).

Definition too_long (line : string) : bool := maxTokenSize <=? bytes_len line.

Definition newline : ascii := "010".

(** dropCR *)
Definition drop_cr (line : string) : string :=
  match String.length line with
  | O => line
  | S n => if String.eqb (String.substring n 1 line) (String "013" "")
           then String.substring 0 n line else line
  end.

(** The unread bytes of the buffer, the read error it stopped on, and the reads to come. *)
Definition scanner : Type := string * option error * list arrival.

(** The last bytes of a connection without a line's end are a line as well. *)
Definition last_line (buf : string) (err : option error) (ar : list arrival) : scanned * scanner :=
  if String.eqb buf "" then (match err with Some e => ScanErr e | None => ScanEOF end, ("", err, ar))
  else (Line (drop_cr buf), ("", err, ar)).

Fixpoint Scan (buf : string) (err : option error) (ar : list arrival) : scanned * scanner :=
  match Cut newline buf with
  | Some (line, rest) =>
      if too_long line then (ScanErr ErrTooLong, (buf, err, ar))
      else (Line (drop_cr line), (rest, err, ar))
  | None =>
      if too_long buf then (ScanErr ErrTooLong, (buf, err, ar))
      else
        match err with
        | Some _ => last_line buf err ar
        | None =>
            match ar with
            | [] => last_line buf None []
            | ReadErr e :: ar => last_line buf (Some e) ar
            | Bytes b :: ar => Scan (buf +:+ b) None ar
            end
        end
  end.

(** The loop [for scanner.Scan()]: the lines, and [scanner.Err()] after them. *)
Fixpoint scan_all (fuel : nat) (buf : string) (err : option error) (ar : list arrival)
    : option (list string * option error) :=
  match fuel with
  | O => None
  | S fuel =>
      match Scan buf err ar with
      | (Line data, (buf, err, ar)) =>
          match scan_all fuel buf err ar with
          | Some (lines, e) => Some (data :: lines, e)
          | None => None
          end
      | (ScanErr e, _) => Some ([], Some e)
      | (ScanEOF, _) => Some ([], None)
      end
  end.

(** ** The lines of a stream of bytes *)
Fixpoint stream_lines (parts : list string) : list string * option error :=
  match parts with
  | [] => ([], None)
  | part :: parts' =>
      if too_long part then ([], Some ErrTooLong)
      else
        match parts' with
        | [] => (if String.eqb part "" then [] else [drop_cr part], None)
        | _ => let '(lines, e) := stream_lines parts' in (drop_cr part :: lines, e)
        end
  end.

Definition lines_of (bytes : string) : list string * option error := stream_lines (Split newline bytes).

Definition concat_bytes (chunks : list string) : string := foldr String.append "" chunks.

Section Scanner.

Lemma Cut_Split sep s :
  Split sep s = match Cut sep s with Some (x, r) => x :: Split sep r | None => [s] end.
Proof.
  induction s as [|c s IH]; [done|]. cbn [Split Cut]. destruct (Ascii.eqb c sep); [done|].
  rewrite IH. destruct (Cut sep s) as [[x r]|]; done.
Qed.

Lemma Cut_app_l sep s t x r : Cut sep s = Some (x, r) -> Cut sep (s +:+ t) = Some (x, r +:+ t).
Proof.
  revert x. induction s as [|c s IH]; intros x; [done|]. rewrite String_app_cons. cbn [Cut].
  destruct (Ascii.eqb c sep); [by intros [= <- <-]|].
  destruct (Cut sep s) as [[y q]|]; [|done]. intros [= <- <-]. by rewrite (IH y).
Qed.

Lemma Cut_length sep s x r : Cut sep s = Some (x, r) ->
  (String.length x + String.length r < String.length s)%nat.
Proof.
  revert x. induction s as [|c s IH]; intros x; [done|]. cbn [Cut].
  destruct (Ascii.eqb c sep); [intros [= <- <-]; cbn; lia|].
  destruct (Cut sep s) as [[y q]|]; [|done]. intros [= <- <-]. specialize (IH y eq_refl). cbn in *. lia.
Qed.

Lemma Cut_app_r sep s t x r : Cut sep s = None -> Cut sep (s +:+ t) = Some (x, r) ->
  (String.length s <= String.length x)%nat.
Proof.
  revert x. induction s as [|c s IH]; intros x; [cbn; lia|]. rewrite String_app_cons. cbn [Cut].
  destruct (Ascii.eqb c sep); [done|].
  destruct (Cut sep s) as [[y q]|]; [done|]. intros _.
  destruct (Cut sep (s +:+ t)) as [[y q]|]; [|done]. intros [= <- <-]. specialize (IH y eq_refl eq_refl).
  cbn. lia.
Qed.

Lemma too_long_le s t : (String.length s <= String.length t)%nat -> too_long s = true -> too_long t = true.
Proof. unfold too_long, bytes_len. intros Hl Hs. bool_to_prop. apply Z.leb_le. lia. Qed.

(** One call, from the bytes that are still to come. *)
Lemma Scan_stream chunks : forall buf,
  let all := buf +:+ concat_bytes chunks in
  match Cut newline all with
  | Some (line, rest) =>
      if too_long line then (Scan buf None (map Bytes chunks)).1 = ScanErr ErrTooLong
      else exists buf' chunks', Scan buf None (map Bytes chunks) = (Line (drop_cr line), (buf', None, map Bytes chunks')) /\
             buf' +:+ concat_bytes chunks' = rest
  | None =>
      if too_long all then (Scan buf None (map Bytes chunks)).1 = ScanErr ErrTooLong
      else Scan buf None (map Bytes chunks) = last_line all None []
  end.
Proof.
  induction chunks as [|b chunks IH]; intros buf all; subst all.
  { cbn [concat_bytes foldr map Scan]. rewrite String_app_nil.
    destruct (Cut newline buf) as [[line rest]|].
    - destruct (too_long line); [done|]. exists rest, []. by rewrite String_app_nil.
    - by destruct (too_long buf). }
  change (concat_bytes (b :: chunks)) with (b +:+ concat_bytes chunks). rewrite <- String_app_assoc.
  cbn [map Scan]. specialize (IH (buf +:+ b)). cbn zeta in IH.
  destruct (Cut newline buf) as [[line rest]|] eqn:Hc.
  - rewrite String_app_assoc, (Cut_app_l _ _ _ _ _ Hc). destruct (too_long line); [done|].
    exists rest, (b :: chunks). split; [done|]. done.
  - destruct (too_long buf) eqn:Hl; [|exact IH].
    destruct (Cut newline ((buf +:+ b) +:+ concat_bytes chunks)) as [[line rest]|] eqn:Hc'.
    + rewrite String_app_assoc in Hc'. pose proof (Cut_app_r _ _ _ _ _ Hc Hc') as Hle.
      by rewrite (too_long_le _ _ Hle Hl).
    + rewrite (too_long_le buf); [done| |done]. rewrite !String_length_app. lia.
Qed.

(** The lines a scanner finds are those of the bytes, wherever the reads cut them; and
    the loop ends: one call per byte is more than enough. *)
Lemma scan_all_stream fuel buf chunks :
  (String.length (buf +:+ concat_bytes chunks) < fuel)%nat ->
  scan_all fuel buf None (map Bytes chunks) = Some (lines_of (buf +:+ concat_bytes chunks)).
Proof.
  revert buf chunks. induction fuel as [|fuel IH]; intros buf chunks Hf; [lia|].
  cbn [scan_all]. unfold lines_of. rewrite Cut_Split. pose proof (Scan_stream chunks buf) as Hs.
  cbn zeta in Hs. destruct (Cut newline _) as [[line rest]|] eqn:Hc.
  - cbn [stream_lines]. destruct (too_long line).
    { destruct (Scan buf None (map Bytes chunks)) as [r s]. cbn [fst] in Hs. by subst r. }
    destruct Hs as (buf' & chunks' & -> & Hr). apply Cut_length in Hc.
    rewrite IH by (rewrite Hr; lia). rewrite Hr.
    destruct (Split newline rest) as [|p ps] eqn:Hsp; [by destruct (Split_nonempty newline rest)|].
    unfold lines_of. rewrite Hsp. by destruct (stream_lines (p :: ps)).
  - cbn [stream_lines]. destruct (too_long _).
    { destruct (Scan buf None (map Bytes chunks)) as [r s]. cbn [fst] in Hs. by subst r. }
    rewrite Hs. unfold last_line. destruct (String.eqb_spec (buf +:+ concat_bytes chunks) "") as [|Hne]; [done|].
    destruct fuel as [|fuel]; [|done].
    destruct (buf +:+ concat_bytes chunks); [done|]. cbn in Hf. lia.
Qed.

(** ** Lines that end as they should *)

(** A line without the characters that end lines. *)
Definition one_line (s : string) : Prop :=
  Split newline s = [s] /\ drop_cr s = s /\ too_long s = false.

Fixpoint sent_lines (texts : list string) : string :=
  match texts with [] => "" | t :: ts => t +:+ String newline (sent_lines ts) end.

Lemma lines_of_sent texts tail :
  Forall one_line texts ->
  lines_of (sent_lines texts +:+ tail) = (texts ++ (lines_of tail).1, (lines_of tail).2).
Proof.
  intros Ht. induction Ht as [|t ts (Hs & Hd & Hl) Ht IH].
  { cbn [sent_lines app]. change ("" +:+ tail) with tail. by destruct (lines_of tail). }
  cbn [sent_lines app]. rewrite String_app_assoc, String_app_cons. unfold lines_of in *.
  rewrite Split_app by done. cbn [stream_lines]. rewrite Hl, Hd.
  destruct (Split newline (sent_lines ts +:+ tail)) as [|p ps] eqn:Hp;
    [by destruct (Split_nonempty newline (sent_lines ts +:+ tail))|].
  by rewrite IH.
Qed.

End Scanner.

Example scan_example :
  scan_all 20 "" None [Bytes "a"; Bytes ("b" +:+ String "013" (String "010" "c")); Bytes (String "010" "d")] =
    Some (["ab"; "c"; "d"], None).
Proof. reflexivity. Qed.
