(* ===== verification/TcpAddr.v ===== *)
(** * The address of a client ([getClientIP] of tcp_server.go)

    [net.JoinHostPort], which writes the address of a connection, [net.SplitHostPort],
    which [getClientIP] reads it with, and what comes back. *)
From Stdlib Require Import Ascii.
From S2P Require Import Prelude.
From S2P Require Import GoStrings.
Local Open Scope string_scope.

(** Is the character in the text? *)
Fixpoint has_char (c : ascii) (s : string) : bool :=
  match s with "" => false | String d s => Ascii.eqb c d || has_char c s end.

(** The text before and after the last separator. *)
Fixpoint CutLast (sep : ascii) (s : string) : option (string * string) :=
  match s with
  | "" => None
  | String c s =>
      match CutLast sep s with
      | Some (a, b) => Some (String c a, b)
      | None => if Ascii.eqb c sep then Some ("", s) else None
      end
  end.

(** [None]: an error; a port is missing, or a bracket or a colon is where it may not be. *)
Definition SplitHostPort (hostport : string) : option (string * string) :=
  match CutLast ":" hostport with
  | None => None
  | Some (before, port) =>
      match hostport with
      | String "[" inside =>
          match Cut "]" inside with
          | None => None
          | Some (host, rest) =>
              if String.eqb before (String "[" (host +:+ "]")) then
                if has_char "[" inside || has_char "]" rest then None else Some (host, port)
              else None
          end
      | _ =>
          if has_char ":" before || has_char "[" hostport || has_char "]" hostport then None
          else Some (before, port)
      end
  end.

Definition JoinHostPort (host port : string) : string :=
  if has_char ":" host then "[" +:+ host +:+ "]:" +:+ port else host +:+ ":" +:+ port.

Definition TCPServer_getClientIP (addr : string) : string :=
  match SplitHostPort addr with Some (host, _) => host | None => addr end.

Example getClientIP_examples :
  map TCPServer_getClientIP ["192.168.0.7:51234"; "[::1]:80"; "[fe80::1%eth0]:9"; "pipe"; "::1:80"; "[::1]"] =
  ["192.168.0.7"; "::1"; "fe80::1%eth0"; "pipe"; "::1:80"; "[::1]"]%list.
Proof. reflexivity. Qed.

(** ** Lemmas *)
Lemma has_char_app c s t : has_char c (s +:+ t) = has_char c s || has_char c t.
Proof. induction s as [|d s IH]; [done|]. rewrite String_app_cons. cbn [has_char]. by rewrite IH, orb_assoc. Qed.

Lemma CutLast_none sep s : has_char sep s = false -> CutLast sep s = None.
Proof.
  induction s as [|c s IH]; [done|]. cbn [has_char CutLast]. intros [Hc Hs]%orb_false_elim.
  rewrite IH by done. by rewrite Ascii.eqb_sym, Hc.
Qed.

Lemma CutLast_app sep s t : has_char sep t = false -> CutLast sep (s +:+ String sep t) = Some (s, t).
Proof.
  intros Ht. induction s as [|c s IH].
  - change (CutLast sep (String sep t) = Some ("", t)). cbn [CutLast]. by rewrite CutLast_none, Ascii.eqb_refl.
  - rewrite String_app_cons. cbn [CutLast]. by rewrite IH.
Qed.

Lemma Cut_first sep s t : has_char sep s = false -> Cut sep (s +:+ String sep t) = Some (s, t).
Proof.
  induction s as [|c s IH]; intros Hs.
  - change (Cut sep (String sep t) = Some ("", t)). cbn [Cut]. by rewrite Ascii.eqb_refl.
  - cbn [has_char] in Hs. apply orb_false_elim in Hs as [Hc Hs]. rewrite String_app_cons. cbn [Cut].
    rewrite Ascii.eqb_sym in Hc. by rewrite Hc, IH.
Qed.

(** A host or a port as net writes them: without brackets, and without a colon where it
    is a port. *)
Definition no_brackets (s : string) : Prop := has_char "[" s = false /\ has_char "]" s = false.

Lemma SplitHostPort_Join host port :
  no_brackets host -> no_brackets port -> has_char ":" port = false ->
  SplitHostPort (JoinHostPort host port) = Some (host, port).
Proof.
  intros [Hl Hr] [Hpl Hpr] Hp. unfold JoinHostPort. destruct (has_char ":" host) eqn:Hc.
  - unfold SplitHostPort.
    assert (Hcut : CutLast ":" ("[" +:+ host +:+ "]:" +:+ port) = Some (String "[" (host +:+ "]"), port)).
    { pose proof (CutLast_app ":" (String "[" (host +:+ "]")) port Hp) as H.
      by rewrite String_app_cons, String_app_assoc in H. }
    rewrite Hcut. change ("[" +:+ host +:+ "]:" +:+ port) with (String "[" (host +:+ String "]" (String ":" port))).
    cbv iota. rewrite Cut_first by done. rewrite String.eqb_refl, has_char_app, Hl.
    change (has_char "[" (String "]" (String ":" port))) with (has_char "[" port).
    change (has_char "]" (String ":" port)) with (has_char "]" port). by rewrite Hpl, Hpr.
  - unfold SplitHostPort. change (host +:+ ":" +:+ port) with (host +:+ String ":" port).
    rewrite CutLast_app by done.
    assert (Hrest : has_char ":" host || has_char "[" (host +:+ ":" +:+ port) || has_char "]" (host +:+ ":" +:+ port) = false).
    { rewrite !has_char_app, Hc, Hl, Hr. change (has_char "[" (":" +:+ port)) with (has_char "[" port).
      change (has_char "]" (":" +:+ port)) with (has_char "]" port). by rewrite Hpl, Hpr. }
    change (host +:+ String ":" port) with (host +:+ ":" +:+ port). rewrite Hrest.
    destruct host as [|d host]; [done|]. rewrite String_app_cons. cbn [has_char] in Hl.
    apply orb_false_elim in Hl as [Hd _].
    destruct d as [[] [] [] [] [] [] [] []]; done.
Qed.

(** A client is known by its address alone: from the address of a connection as the
    net package writes it, IPv6 ones in brackets, getClientIP gives back the host,
    whatever the port, so that all the connections of one host count as one client. *)
Theorem getClientIP_is_host host port :
  no_brackets host -> no_brackets port -> has_char ":" port = false ->
  TCPServer_getClientIP (JoinHostPort host port) = host.
Proof. intros Hh Hp Hc. unfold TCPServer_getClientIP. by rewrite SplitHostPort_Join. Qed.

Lemma getClientIP_is_host_witness :
  TCPServer_getClientIP (JoinHostPort "fe80::1" "9000") = "fe80::1".
Proof. apply getClientIP_is_host; [split; reflexivity|split; reflexivity|reflexivity]. Defined.
