(* ===== verification/TcpServer.v ===== *)
(** * The TCP server (tcp_server.go)

    The server's own state (connection counts, last requests, black- and whitelist,
    idempotency cache), the guards in front of a connection and of a message, and
    [handleMessage] on top of the runtime. What a handler writes to the connection is
    the list of responses it returns. *)
From S2P Require Import Prelude.
From S2P Require Import Errors.
From S2P Require Import GoFloat.
From S2P Require Import Gate.
From S2P Require Import Cache.
From S2P Require Import StmtCache.
From S2P Require Import Metrics.
From S2P Require Import Sql.
From S2P Require Import Db.
From S2P Require Import Open.
From S2P Require Import Config.
From S2P Require Import Runtime.
From S2P Require Import TcpProtocol.
Local Open Scope string_scope.
Local Open Scope list_scope.
Local Open Scope Z_scope.

Record TCPServerConfig : Type := mkTCPServerConfig {
  sc_Address : string;
  sc_EnableIdempotency : bool;
  sc_EnableDDoSProtection : bool;
  sc_MaxRequestSize : Z;
  sc_MaxConnectionsPerIP : Z;
  sc_RateLimitPerIP : Z;
  sc_BlacklistedIPs : list string;
  sc_WhitelistedIPs : list string;
}.

Record TCPServer (C : Type) : Type := mkTCPServer {
  ts_config : TCPServerConfig;
  ts_listener : bool;
  ts_shutdown : bool;
  ts_clients : gset Z;
  ts_clientCounter : Z;
  ts_ipConnections : gmap string Z;
  ts_ipRateLimits : gmap string Z;
  ts_blacklistMap : gset string;
  ts_whitelistMap : gset string;
  ts_idempotencyCache : option C;
}.
Arguments mkTCPServer {C}.
Arguments ts_config {C}.
Arguments ts_listener {C}.
Arguments ts_shutdown {C}.
Arguments ts_clients {C}.
Arguments ts_clientCounter {C}.
Arguments ts_ipConnections {C}.
Arguments ts_ipRateLimits {C}.
Arguments ts_blacklistMap {C}.
Arguments ts_whitelistMap {C}.
Arguments ts_idempotencyCache {C}.

Section Server.
Context {C : Type}.
Implicit Types s : TCPServer C.

Definition NewTCPServer (new_cache : Z -> Z -> C) (config : TCPServerConfig) : TCPServer C :=
  mkTCPServer config false false ∅ 0 ∅ ∅ (list_to_set (sc_BlacklistedIPs config))
    (list_to_set (sc_WhitelistedIPs config))
    (if sc_EnableIdempotency config then Some (new_cache 10000 (300 * Second)) else None).

(** [Start] and [Stop]; [listen] is the error of [net.Listen]. Stopping a stopped
    server closes a closed channel. *)
Definition TCPServer_Start (listen : option error) (s : TCPServer C) : TCPServer C * option error :=
  if ts_listener s then (s, Some (Errorf "server already started"))
  else match listen with
       | Some err => (s, Some (Wrapf "failed to start TCP server: " err ""))
       | None => (s{{ts_listener := true}}, None)
       end.

Definition TCPServer_Stop (s : TCPServer C) : outcome (TCPServer C * option error) :=
  if negb (ts_listener s) then Ret (s, Some (Errorf "server not started"))
  else if ts_shutdown s then Panic "close of closed channel"
  else Ret (s{{ts_shutdown := true; ts_clients := ∅}}, None).

(** [listening]: the address of the listener, as the system gives it. *)
Definition TCPServer_GetAddress (listening : string) (s : TCPServer C) : string :=
  if ts_listener s then listening else sc_Address (ts_config s).

Definition TCPServer_GetClientCount (s : TCPServer C) : Z := Z.of_nat (size (ts_clients s)).

Definition TCPServer_allowConnection (clientIP : string) (s : TCPServer C) : TCPServer C * bool :=
  if bool_decide (clientIP ∈ ts_blacklistMap s) then (s, false)
  else if (0 <? Z.of_nat (size (ts_whitelistMap s))) && negb (bool_decide (clientIP ∈ ts_whitelistMap s))
  then (s, false)
  else if 0 <? sc_MaxConnectionsPerIP (ts_config s) then
    let n := default 0 (ts_ipConnections s !! clientIP) in
    if sc_MaxConnectionsPerIP (ts_config s) <=? n then (s, false)
    else (s{{ts_ipConnections := <[clientIP := wrap64 (n + 1)]> (ts_ipConnections s)}}, true)
  else (s, true).

Definition TCPServer_checkRateLimit (now : Z) (clientIP : string) (s : TCPServer C)
    : TCPServer C * bool :=
  if sc_RateLimitPerIP (ts_config s) <=? 0 then (s, true)
  else
    match ts_ipRateLimits s !! clientIP with
    | None => (s{{ts_ipRateLimits := <[clientIP := now]> (ts_ipRateLimits s)}}, true)
    | Some lastRequest =>
        if Time_Sub now lastRequest <? Second then (s, false)
        else (s{{ts_ipRateLimits := <[clientIP := now]> (ts_ipRateLimits s)}}, true)
    end.

(** ** A connection's life, as the server counts it *)
Inductive conn_event : Type :=
  | Connect (clientIP : string)      (* acceptLoop and the guard of handleClient *)
  | Disconnected (clientID : Z).     (* the deferred calls of handleClient *)

(** [acceptLoop]: the next client number, stored with its connection. *)
Definition server_accept (s : TCPServer C) : TCPServer C :=
  let clientID := wrapu64 (ts_clientCounter s + 1) in
  s{{ts_clientCounter := clientID; ts_clients := {[clientID]} ∪ ts_clients s}}.

(** [defer s.clients.Delete(clientID)] *)
Definition server_delete (clientID : Z) (s : TCPServer C) : TCPServer C :=
  s{{ts_clients := ts_clients s ∖ {[clientID]}}}.

Definition server_event (e : conn_event) (s : TCPServer C) : TCPServer C * bool :=
  match e with
  | Connect clientIP =>
      let s := server_accept s in
      if sc_EnableDDoSProtection (ts_config s) then
        let '(s, ok) := TCPServer_allowConnection clientIP s in
        if ok then (s, true)
        else (server_delete (ts_clientCounter s) s, false)
      else (s, true)
  | Disconnected clientID => (server_delete clientID s, false)
  end.

(** The state after a schedule and how many connections from [ip] got past the guard. *)
Fixpoint server_run (ip : string) (es : list conn_event) (s : TCPServer C) : TCPServer C * Z :=
  match es with
  | [] => (s, 0)
  | e :: es =>
      let '(s, ok) := server_event e s in
      let '(s, n) := server_run ip es s in
      (s, match e with
          | Connect ip' => if ok && String.eqb ip' ip then n + 1 else n
          | Disconnected _ => n
          end)
  end.

Definition attempts_from (ip : string) (es : list conn_event) : Z :=
  Z.of_nat (length (List.filter
    (fun e => match e with Connect ip' => String.eqb ip' ip | Disconnected _ => false end) es)).

(** Whether the lists let [ip] in at all. *)
Definition listed_ok (ip : string) (config : TCPServerConfig) : Prop :=
  (ip ∉ sc_BlacklistedIPs config) /\ (sc_WhitelistedIPs config = [] \/ ip ∈ sc_WhitelistedIPs config).

(** The parts of the state the guard reads stay those of the configuration. *)
Definition guarded_by (config : TCPServerConfig) (s : TCPServer C) : Prop :=
  ts_config s = config /\ ts_blacklistMap s = list_to_set (sc_BlacklistedIPs config) /\
  ts_whitelistMap s = list_to_set (sc_WhitelistedIPs config).

Lemma allowConnection_spec ip s config :
  guarded_by config s -> 0 < sc_MaxConnectionsPerIP config ->
  listed_ok ip config ->
  TCPServer_allowConnection ip s =
    (let n := default 0 (ts_ipConnections s !! ip) in
     if sc_MaxConnectionsPerIP config <=? n then (s, false)
     else (s{{ts_ipConnections := <[ip := wrap64 (n + 1)]> (ts_ipConnections s)}}, true)).
Proof.
  intros (Hc & Hb & Hw) Hmax [Hblack Hwhite]. unfold TCPServer_allowConnection.
  rewrite Hb, Hw, Hc. rewrite bool_decide_false by (by rewrite elem_of_list_to_set).
  rewrite (proj2 (Z.ltb_lt 0 _) Hmax).
  destruct Hwhite as [->|Hin].
  - cbn [list_to_set]. by rewrite size_empty.
  - rewrite (bool_decide_true (ip ∈ _)) by (by apply elem_of_list_to_set). by rewrite andb_false_r.
Qed.

Lemma allowConnection_other ip ip' s :
  ip' <> ip ->
  ts_ipConnections (TCPServer_allowConnection ip' s).1 !! ip = ts_ipConnections s !! ip.
Proof.
  intros Hne. unfold TCPServer_allowConnection. split_ifs; cbn; try done.
  destruct s. cbn. by rewrite lookup_insert_ne.
Qed.

Lemma allowConnection_guarded config ip s :
  guarded_by config s -> guarded_by config (TCPServer_allowConnection ip s).1.
Proof.
  unfold TCPServer_allowConnection. split_ifs; cbn; first [done|by destruct s].
Qed.

Lemma server_event_guarded config e s :
  guarded_by config s -> guarded_by config (server_event e s).1.
Proof.
  intros Hg. destruct e as [ip|id]; cbn [server_event]; [|by destruct s].
  assert (Hg1 : guarded_by config (server_accept s)) by (by destruct s).
  set (s1 := server_accept s) in *. clearbody s1.
  destruct (sc_EnableDDoSProtection (ts_config s1)); [|done].
  pose proof (allowConnection_guarded config ip s1 Hg1) as Hg2.
  destruct (TCPServer_allowConnection ip s1) as [s2 ok]. cbn in Hg2.
  destruct ok; [done|]. by destruct s2.
Qed.

Lemma server_run_count config ip es s n :
  guarded_by config s -> sc_EnableDDoSProtection config = true ->
  0 < sc_MaxConnectionsPerIP config <= int64_max -> listed_ok ip config ->
  default 0 (ts_ipConnections s !! ip) = n -> 0 <= n <= sc_MaxConnectionsPerIP config ->
  (server_run ip es s).2 = Z.min (attempts_from ip es) (sc_MaxConnectionsPerIP config - n).
Proof.
  intros Hg Hddos Hmax Hl. revert s n Hg. unfold attempts_from.
  induction es as [|e es IH]; intros s n Hg Hn Hrange; [cbn; lia|].
  cbn [server_run List.filter]. pose proof (server_event_guarded config e s Hg) as Hg'.
  destruct e as [ip'|id].
  - cbn [server_event] in *. revert Hg'.
    assert (Hg1 : guarded_by config (server_accept s)) by (by destruct s).
    assert (Hip1 : ts_ipConnections (server_accept s) = ts_ipConnections s) by (by destruct s).
    set (s1 := server_accept s) in *. clearbody s1.
    rewrite (proj1 Hg1), Hddos. destruct (String.eqb_spec ip' ip) as [->|Hne].
    + rewrite (allowConnection_spec ip s1 config Hg1) by (lia || done). cbn zeta.
      rewrite Hip1, Hn. destruct (Z.leb_spec (sc_MaxConnectionsPerIP config) n) as [Hfull|Hroom].
      * intros Hg'. cbn [fst] in Hg'. specialize (IH _ n Hg').
        destruct (server_run ip es _) as [s2 m]. cbn in *.
        rewrite IH; [|by destruct s1; cbn in *; subst|lia]. cbn [length]. lia.
      * intros Hg'. cbn [fst] in Hg'. specialize (IH _ (n + 1) Hg').
        destruct (server_run ip es _) as [s2 m]. cbn [snd andb] in *.
        rewrite IH; [cbn [length]; lia| |lia].
        destruct s1. cbn. rewrite lookup_insert_eq. cbn. apply wrap64_id. solve_int64.
    + pose proof (allowConnection_other ip ip' s1 Hne) as Ho.
      destruct (TCPServer_allowConnection ip' s1) as [s2 ok]. cbn [fst] in Ho.
      rewrite Hip1 in Ho. destruct ok; intros Hg'; cbn [fst] in Hg'; specialize (IH _ n Hg');
        destruct (server_run ip es _) as [s3 m]; cbn [snd andb] in *;
        (rewrite IH; [done| |lia]); [by rewrite Ho|destruct s2; cbn in *; by rewrite Ho].
  - cbn [server_event fst] in *. specialize (IH _ n Hg').
    destruct (server_run ip es _) as [s2 m]. cbn in *. rewrite IH; [done| |lia]. by destruct s.
Qed.

(** C25: A client address is admitted MaxConnectionsPerIP times and never again: with the
    guard on, and for an address its lists let in, over any schedule of connections and disconnections, the connections from an
    address that get past the guard are exactly the first MaxConnectionsPerIP attempts,
    because a closed connection is never taken off the count. *)
Theorem TCPServer_connections_for_life new_cache config ip es :
  sc_EnableDDoSProtection config = true -> 0 < sc_MaxConnectionsPerIP config <= int64_max ->
  listed_ok ip config ->
  (server_run ip es (NewTCPServer new_cache config)).2 =
    Z.min (attempts_from ip es) (sc_MaxConnectionsPerIP config).
Proof.
  intros Hd Hm Hl. rewrite (server_run_count config ip es _ 0); [f_equal; lia|..]; try done; lia.
Qed.

(** An address a non-empty whitelist does not name is never admitted. *)
Lemma server_run_unlisted config ip es s :
  guarded_by config s -> sc_EnableDDoSProtection config = true ->
  sc_WhitelistedIPs config <> [] -> (ip ∉ sc_WhitelistedIPs config) ->
  (server_run ip es s).2 = 0.
Proof.
  intros Hg Hd Hne Hip. revert s Hg. induction es as [|e es IH]; intros s Hg; [done|].
  cbn [server_run]. pose proof (server_event_guarded config e s Hg) as Hg'.
  assert (He : match e with Connect ip' => ip' = ip -> (server_event e s).2 = false | Disconnected _ => True end).
  { destruct e as [ip'|id]; [|done]. intros ->. cbn [server_event].
    assert (Hg1 : guarded_by config (server_accept s)) by (by destruct s).
    set (s1 := server_accept s) in *. clearbody s1. destruct Hg1 as (Hc & _ & Hw).
    rewrite Hc, Hd. unfold TCPServer_allowConnection. rewrite Hw.
    destruct (bool_decide (ip ∈ ts_blacklistMap s1)); [done|].
    rewrite (bool_decide_false (ip ∈ _)) by (by rewrite elem_of_list_to_set).
    assert (Hs : size (list_to_set (C := gset string) (sc_WhitelistedIPs config)) <> 0%nat).
    { intros H0. apply size_empty_inv in H0. destruct (sc_WhitelistedIPs config) as [|x l]; [done|].
      cbn [list_to_set] in H0. set_solver. }
    by replace (0 <? _) with true by (symmetry; apply Z.ltb_lt; lia). }
  destruct (server_event e s) as [s1 ok]. cbn in Hg'. specialize (IH s1 Hg').
  destruct (server_run ip es s1) as [s2 n]. cbn in IH. subst n. cbn.
  destruct e as [ip'|id]; [|done]. destruct (String.eqb_spec ip' ip) as [->|]; [|by rewrite andb_false_r].
  cbn in He. by rewrite (He eq_refl).
Qed.

(** ** The rate limit *)

(** Requests from one address at the given times; the times that were let through. *)
Fixpoint rate_run (ip : string) (ts : list Z) (s : TCPServer C) : list Z :=
  match ts with
  | [] => []
  | t :: ts =>
      let '(s, ok) := TCPServer_checkRateLimit t ip s in
      if ok then t :: rate_run ip ts s else rate_run ip ts s
  end.

(** Each at least a second after the one before. *)
Fixpoint spaced (last : option Z) (ts : list Z) : Prop :=
  match ts with
  | [] => True
  | t :: ts =>
      match last with Some l => Second <= Time_Sub t l | None => True end /\ spaced (Some t) ts
  end.

Lemma rate_run_spaced ip ts s :
  0 < sc_RateLimitPerIP (ts_config s) -> spaced (ts_ipRateLimits s !! ip) (rate_run ip ts s).
Proof.
  revert s. induction ts as [|t ts IH]; intros s Hr; cbn [rate_run spaced]; [done|].
  unfold TCPServer_checkRateLimit. destruct (Z.leb_spec (sc_RateLimitPerIP (ts_config s)) 0); [lia|].
  set (s1 := s{{ts_ipRateLimits := <[ip := t]> (ts_ipRateLimits s)}}).
  assert (H1 : spaced (Some t) (rate_run ip ts s1)).
  { specialize (IH s1). destruct s. cbn in *. rewrite lookup_insert_eq in IH. by apply IH. }
  destruct (ts_ipRateLimits s !! ip) as [l|] eqn:Hl; [|by split].
  destruct (Z.ltb_spec (Time_Sub t l) Second).
  - rewrite <- Hl. by apply IH.
  - by split.
Qed.

Lemma rate_run_config ip ts s s' :
  0 < sc_RateLimitPerIP (ts_config s) -> 0 < sc_RateLimitPerIP (ts_config s') ->
  ts_ipRateLimits s = ts_ipRateLimits s' -> rate_run ip ts s = rate_run ip ts s'.
Proof.
  revert s s'. induction ts as [|t ts IH]; intros s s' Hr Hr' Heq; cbn [rate_run]; [done|].
  unfold TCPServer_checkRateLimit. rewrite Heq.
  rewrite (proj2 (Z.leb_gt (sc_RateLimitPerIP (ts_config s)) 0) Hr).
  rewrite (proj2 (Z.leb_gt (sc_RateLimitPerIP (ts_config s')) 0) Hr').
  assert (Hgo : rate_run ip ts (s{{ts_ipRateLimits := <[ip := t]> (ts_ipRateLimits s')}}) =
                rate_run ip ts (s'{{ts_ipRateLimits := <[ip := t]> (ts_ipRateLimits s')}})).
  { apply IH; by destruct s, s'. }
  destruct (ts_ipRateLimits s' !! ip) as [l|]; [|by rewrite Hgo].
  destruct (_ <? Second); [by apply IH|by rewrite Hgo].
Qed.

(** The per-address rate limit is one request per second whatever RateLimitPerIP
    says: from any positive setting, the requests let through are at least one second
    apart, and two servers configured with different positive limits let through the
    same requests. *)
Theorem TCPServer_rate_is_one_per_second new_cache config limit ip ts :
  0 < sc_RateLimitPerIP config -> 0 < limit ->
  let through := rate_run ip ts (NewTCPServer new_cache config) in
  spaced None through /\
  rate_run ip ts (NewTCPServer new_cache (config{{sc_RateLimitPerIP := limit}})) = through.
Proof.
  intros Hr Hl. cbn zeta. split.
  - pose proof (rate_run_spaced ip ts (NewTCPServer new_cache config) Hr) as H. cbn in H.
    by rewrite lookup_empty in H.
  - apply rate_run_config; by destruct config.
Qed.

End Server.

(** ** Messages *)

(** sql.Result *)
Class SqlResult (Res : Type) : Type := {
  res_RowsAffected : Res -> Z;
  res_LastInsertId : Res -> Z;
}.

(** The clock readings of one message: the rate limiter's, the idempotency cache's, and
    those of the database call. *)
Record msg_env : Type := mkMsgEnv {
  te_rate : Z;
  te_get : Z;
  te_db : db_env;
  te_set : Z;
}.

Section Messages.
Context (oor : float64 -> Z).
(** The text of a [time.Time] in a result. *)
Context (time_text : Z -> option string).
Context `{Sql : SqlDB W Ctx Arg Res Rows Row Tx}.
Context `{Pool : SqlPool W Ctx DB Conn}.
Context `{RowsOps : !SqlRows W Rows}.
Context `{ResOps : !SqlResult Res}.
Context {RC : Type}.
Context `{IdemCache : Cache C TCPResponse}.
Implicit Types s : TCPServer C.
Implicit Types rt : DBRuntime DB RC.

(** A handler's answer: the runtime, the world, what was written to the connection, and
    the response it returns ([nil] is [None]); [None]: it never returns. *)
Definition handled : Type := DBRuntime DB RC * W * list TCPResponse * option TCPResponse.

Definition reply (rt : DBRuntime DB RC) (w : W) (id : string) (data : payload) : handled :=
  match NewSuccessResponse time_text id data with
  | Err err => (rt, w, [NewErrorResponse id err], None)
  | Ok resp => (rt, w, [resp], Some resp)
  end.

Definition TCPServer_handlePing (msg : TCPMessage Arg) (rt : DBRuntime DB RC) (w : W) : handled :=
  reply rt w (msg_ID msg) (PStatus "ok").

Definition TCPServer_handleExec (env : msg_env) (ctx : Ctx) (msg : TCPMessage Arg)
    (rt : DBRuntime DB RC) (w : W) : option (outcome handled) :=
  match DBRuntime_Exec oor (te_db env) ctx (msg_Query msg) (msg_Args msg) rt w with
  | None => None
  | Some (Panic m) => Some (Panic m)
  | Some (Ret (rt, w, Err err)) => Some (Ret (rt, w, [NewErrorResponse (msg_ID msg) err], None))
  | Some (Ret (rt, w, Ok result)) =>
      let execResult := mkExecResult (res_RowsAffected result) (res_LastInsertId result) in
      Some (Ret (reply rt w (msg_ID msg) (PExec execResult)))
  end.

Definition TCPServer_handleQuery (fuel : nat) (env : msg_env) (ctx : Ctx) (msg : TCPMessage Arg)
    (rt : DBRuntime DB RC) (w : W) : option (outcome handled) :=
  match DBRuntime_Query oor (te_db env) ctx (msg_Query msg) (msg_Args msg) rt w with
  | None => None
  | Some (Panic m) => Some (Panic m)
  | Some (Ret (rt, w, Err err)) => Some (Ret (rt, w, [NewErrorResponse (msg_ID msg) err], None))
  | Some (Ret (rt, w, Ok rows)) =>
      match rows_Columns rows w with
      | Err err => Some (Ret (rt, rows_Close rows w, [NewErrorResponse (msg_ID msg) err], None))
      | Ok columns =>
          match scan_rows fuel rows [] w with
          | None => None
          | Some (w, Err err) =>
              Some (Ret (rt, rows_Close rows w, [NewErrorResponse (msg_ID msg) err], None))
          | Some (w, Ok results) =>
              Some (Ret (reply rt (rows_Close rows w) (msg_ID msg)
                           (PQuery (mkQueryResult columns results))))
          end
      end
  end.

Definition TCPServer_handleStats (msg : TCPMessage Arg) (rt : DBRuntime DB RC) (w : W) : handled :=
  let stats := DBRuntime_Stats rt w in
  reply rt w (msg_ID msg) (PStats (mkStatsResult (MaxOpenConnections stats) (OpenConnections stats)
    (InUse stats) (Idle stats) (WaitCount stats) (WaitDuration stats) (MaxIdleClosed stats)
    (MaxIdleTimeClosed stats) (MaxLifetimeClosed stats))).

Definition TCPServer_handleMetrics (msg : TCPMessage Arg) (rt : DBRuntime DB RC) (w : W) : handled :=
  let metrics := DBRuntime_Metrics rt in
  reply rt w (msg_ID msg) (PMetrics (mkMetricsResult (ms_TotalQueries metrics)
    (ms_SuccessfulQueries metrics) (ms_FailedQueries metrics) (ms_SlowQueries metrics)
    (ms_AverageQueryTime metrics))).

Definition TCPServer_checkIdempotency (now : Z) (msg : TCPMessage Arg) (s : TCPServer C)
    : TCPServer C * option TCPResponse :=
  match ts_idempotencyCache s with
  | Some c =>
      if String.eqb (msg_IdempotencyKey msg) "" then (s, None)
      else
        let '(c, cached) := Cache_Get now (msg_IdempotencyKey msg) c in
        (s{{ts_idempotencyCache := Some c}}, cached)
  | None => (s, None)
  end.

Definition TCPServer_storeIdempotency (now : Z) (msg : TCPMessage Arg) (response : option TCPResponse)
    (s : TCPServer C) : TCPServer C :=
  match ts_idempotencyCache s, response with
  | Some c, Some response =>
      if String.eqb (msg_IdempotencyKey msg) "" then s
      else s{{ts_idempotencyCache :=
                Some (Cache_Set now (msg_IdempotencyKey msg) response (300 * Second) c).1}}
  | _, _ => s
  end.

(** The state after a message and what was written. *)
Definition served : Type := TCPServer C * DBRuntime DB RC * W * list TCPResponse.

Definition finish (s : TCPServer C) (h : handled) : served :=
  let '(rt, w, out, _) := h in (s, rt, w, out).

(** The tail of the EXEC and QUERY cases. *)
Definition finish_stored (env : msg_env) (msg : TCPMessage Arg) (s : TCPServer C) (h : handled)
    : served :=
  let '(rt, w, out, response) := h in
  let s :=
    if sc_EnableIdempotency (ts_config s) && negb (String.eqb (msg_IdempotencyKey msg) "")
    then TCPServer_storeIdempotency (te_set env) msg response s else s in
  (s, rt, w, out).

(** The dispatch on the message type. *)
Definition TCPServer_dispatch (fuel : nat) (env : msg_env) (ctx : Ctx) (msg : TCPMessage Arg)
    (s : TCPServer C) (rt : DBRuntime DB RC) (w : W) : option (outcome served) :=
  if String.eqb (msg_Type msg) MessageTypePing then
    Some (Ret (finish s (TCPServer_handlePing msg rt w)))
  else if String.eqb (msg_Type msg) MessageTypeExec then
    match TCPServer_handleExec env ctx msg rt w with
    | None => None
    | Some o => Some (h <-! o; Ret (finish_stored env msg s h))
    end
  else if String.eqb (msg_Type msg) MessageTypeQuery then
    match TCPServer_handleQuery fuel env ctx msg rt w with
    | None => None
    | Some o => Some (h <-! o; Ret (finish_stored env msg s h))
    end
  else if String.eqb (msg_Type msg) MessageTypeStats then
    Some (Ret (finish s (TCPServer_handleStats msg rt w)))
  else if String.eqb (msg_Type msg) MessageTypeMetrics then
    Some (Ret (finish s (TCPServer_handleMetrics msg rt w)))
  else
    Some (Ret (s, rt, w,
      [NewErrorResponse (msg_ID msg) (Errorf ("unknown message type: " +:+ msg_Type msg))])).

(** [clientIP] is the connection's address; [ctx] the background context. *)
Definition TCPServer_handleMessage (fuel : nat) (env : msg_env) (ctx : Ctx) (clientIP : string)
    (msg : TCPMessage Arg) (s : TCPServer C) (rt : DBRuntime DB RC) (w : W)
    : option (outcome served) :=
  let msg := msg{{msg_ClientIP := clientIP}} in
  let config := ts_config s in
  if sc_EnableDDoSProtection config && (0 <? sc_MaxRequestSize config) &&
     (sc_MaxRequestSize config <? msg_RequestSize msg)
  then Some (Ret (s, rt, w, [NewErrorResponse (msg_ID msg)
         (Errorf ("request too large: " +:+ pretty (msg_RequestSize msg) +:+ " bytes"))]))
  else
    let '(s, ok) :=
      if sc_EnableDDoSProtection config
      then TCPServer_checkRateLimit (te_rate env) clientIP s else (s, true) in
    if negb ok
    then Some (Ret (s, rt, w, [NewErrorResponse (msg_ID msg)
           (Errorf ("rate limit exceeded for IP: " +:+ clientIP))]))
    else
      let '(s, cached) :=
        if sc_EnableIdempotency config && negb (String.eqb (msg_IdempotencyKey msg) "")
        then TCPServer_checkIdempotency (te_get env) msg s else (s, None) in
      match cached with
      | Some result => Some (Ret (s, rt, w, [result]))
      | None => TCPServer_dispatch fuel env ctx msg s rt w
      end.

(** One line of a connection: the clock readings of its handling, its length, and the
    message it decodes to. *)
Definition line : Type := msg_env * Z * result error (TCPMessage Arg).

(** The scanner's loop of [handleClient]: the lines up to a CLOSE. *)
Fixpoint TCPServer_clientLoop (fuel : nat) (ctx : Ctx) (clientIP : string) (lines : list line)
    (s : TCPServer C) (rt : DBRuntime DB RC) (w : W) : option (outcome served) :=
  match lines with
  | [] => Some (Ret (s, rt, w, []))
  | (env, requestSize, decoded) :: lines =>
      if ts_shutdown s then Some (Ret (s, rt, w, []))
      else
        match decoded with
        | Err err =>
            match TCPServer_clientLoop fuel ctx clientIP lines s rt w with
            | Some (Ret (s, rt, w, out)) => Some (Ret (s, rt, w, NewErrorResponse "" err :: out))
            | stuck => stuck
            end
        | Ok msg =>
            let msg := msg{{msg_RequestSize := requestSize; msg_ClientIP := clientIP}} in
            match TCPServer_handleMessage fuel env ctx clientIP msg s rt w with
            | Some (Ret (s, rt, w, out)) =>
                if String.eqb (msg_Type msg) MessageTypeClose then Some (Ret (s, rt, w, out))
                else
                  match TCPServer_clientLoop fuel ctx clientIP lines s rt w with
                  | Some (Ret (s, rt, w, out')) => Some (Ret (s, rt, w, out ++ out'))
                  | stuck => stuck
                  end
            | stuck => stuck
            end
        end
  end.

(** [handleClient] on an accepted connection and the lines it sends. *)
Definition TCPServer_handleClient (fuel : nat) (ctx : Ctx) (clientID : Z) (clientIP : string)
    (lines : list line) (s : TCPServer C) (rt : DBRuntime DB RC) (w : W) : option (outcome served) :=
  let '(s, ok) :=
    if sc_EnableDDoSProtection (ts_config s) then TCPServer_allowConnection clientIP s
    else (s, true) in
  if negb ok then Some (Ret (server_delete clientID s, rt, w, []))
  else
    match TCPServer_clientLoop fuel ctx clientIP lines s rt w with
    | Some (Ret (s, rt, w, out)) => Some (Ret (server_delete clientID s, rt, w, out))
    | stuck => stuck
    end.

(** The lines a connection gets to have handled: up to the first CLOSE. *)
Fixpoint until_close (lines : list line) : list line :=
  match lines with
  | [] => []
  | ((_, _, Ok msg) as l) :: lines =>
      if String.eqb (msg_Type msg) MessageTypeClose then [l] else l :: until_close lines
  | l :: lines => l :: until_close lines
  end.

(** ** Lemmas *)
Lemma reply_one rt w id data : exists r, (reply rt w id data).1.2 = [r].
Proof. unfold reply. destruct (NewSuccessResponse time_text id data); by eexists. Qed.

Lemma finish_out s h : (finish s h).2 = h.1.2.
Proof. by destruct h as [[[rt w] out] r]. Qed.

Lemma finish_stored_out env msg s h : (finish_stored env msg s h).2 = h.1.2.
Proof. by destruct h as [[[rt w] out] r]. Qed.

Lemma handleExec_one env ctx msg rt w h :
  TCPServer_handleExec env ctx msg rt w = Some (Ret h) -> exists r, h.1.2 = [r].
Proof.
  unfold TCPServer_handleExec.
  destruct (DBRuntime_Exec _ _ _ _ _ _ _) as [[[[rt1 w1] [v|e]]|m]|]; [..|done|done];
    intros Hh; injection Hh as <-; [apply reply_one|by eexists].
Qed.

Lemma handleQuery_one fuel env ctx msg rt w h :
  TCPServer_handleQuery fuel env ctx msg rt w = Some (Ret h) -> exists r, h.1.2 = [r].
Proof.
  unfold TCPServer_handleQuery.
  destruct (DBRuntime_Query _ _ _ _ _ _ _) as [[[[rt1 w1] [v|e]]|m]|]; [| |done..].
  - destruct (rows_Columns v w1) as [cols|e];
      [destruct (scan_rows fuel v [] w1) as [[w2 [results|e]]|]; [..|done]|];
      intros Hh; injection Hh as <-; [apply reply_one|by eexists..].
  - intros Hh. injection Hh as <-. by eexists.
Qed.

Lemma dispatch_one fuel env ctx msg s rt w r :
  TCPServer_dispatch fuel env ctx msg s rt w = Some (Ret r) -> length r.2 = 1%nat.
Proof.
  assert (Hone : forall h : handled, (exists r, h.1.2 = [r]) -> length h.1.2 = 1%nat)
    by (by intros h [r0 ->]).
  assert (Hret : forall x y : served, Some (Ret x) = Some (Ret y) -> y = x) by (by intros x y [=]).
  unfold TCPServer_dispatch.
  destruct (String.eqb _ MessageTypePing);
    [intros ->%Hret; rewrite finish_out; apply Hone, reply_one|].
  destruct (String.eqb _ MessageTypeExec).
  { destruct (TCPServer_handleExec _ _ _ _ _) as [[h|m]|] eqn:He; [|done..]. cbn [outcome_bind].
    intros ->%Hret. rewrite finish_stored_out. by eapply Hone, handleExec_one. }
  destruct (String.eqb _ MessageTypeQuery).
  { destruct (TCPServer_handleQuery _ _ _ _ _ _) as [[h|m]|] eqn:He; [|done..]. cbn [outcome_bind].
    intros ->%Hret. rewrite finish_stored_out. by eapply Hone, handleQuery_one. }
  destruct (String.eqb _ MessageTypeStats);
    [intros ->%Hret; rewrite finish_out; apply Hone, reply_one|].
  destruct (String.eqb _ MessageTypeMetrics);
    [intros ->%Hret; rewrite finish_out; apply Hone, reply_one|].
  by intros ->%Hret.
Qed.

(** A message whose handling returns has had exactly one response written. *)
Lemma TCPServer_handleMessage_one_response fuel env ctx clientIP msg s rt w s' rt' w' out :
  TCPServer_handleMessage fuel env ctx clientIP msg s rt w = Some (Ret (s', rt', w', out)) ->
  length out = 1%nat.
Proof.
  unfold TCPServer_handleMessage.
  destruct (_ && _ && _); [by intros [= <- <- <- <-]|].
  destruct (if sc_EnableDDoSProtection (ts_config s) then _ else _) as [s1 ok].
  destruct (negb ok); [by intros [= <- <- <- <-]|].
  destruct (if _ && _ then _ else _) as [s2 [r|]]; [by intros [= <- <- <- <-]|].
  apply dispatch_one.
Qed.

(** No message changes what the loop and the guard look at. *)
Lemma handleMessage_shutdown fuel env ctx ip msg s rt w s' rt' w' out :
  TCPServer_handleMessage fuel env ctx ip msg s rt w = Some (Ret (s', rt', w', out)) ->
  ts_shutdown s' = ts_shutdown s.
Proof.
  assert (Hfs : forall msg0 s0 h a, finish_stored env msg0 s0 h = a -> ts_shutdown a.1.1.1 = ts_shutdown s0).
  { intros msg0 s0 [[[rt0 w0] out0] r0] a <-. unfold finish_stored, TCPServer_storeIdempotency.
    destruct s0. cbn. by split_matches. }
  assert (Hf : forall s0 h a, finish s0 h = a -> ts_shutdown a.1.1.1 = ts_shutdown s0).
  { by intros s0 [[[rt0 w0] out0] r0] a <-. }
  assert (Hret : forall x y : served, Some (Ret x) = Some (Ret y) -> x = y) by (by intros x y [=]).
  unfold TCPServer_handleMessage.
  destruct (_ && _ && _); [by intros [= <- <- <- <-]|].
  destruct (if sc_EnableDDoSProtection (ts_config s) then _ else _) as [s1 ok] eqn:H1.
  assert (Hs1 : ts_shutdown s1 = ts_shutdown s).
  { revert H1. destruct (sc_EnableDDoSProtection _); [|by intros [= <- _]].
    unfold TCPServer_checkRateLimit. destruct s. cbn. split_matches; by intros [= <- _]. }
  destruct (negb ok); [by intros [= <- <- <- <-]|].
  destruct (if _ && _ then _ else _) as [s2 r] eqn:H2.
  assert (Hs2 : ts_shutdown s2 = ts_shutdown s1).
  { revert H2. destruct (_ && _); [|by intros [= <- _]].
    unfold TCPServer_checkIdempotency. destruct (ts_idempotencyCache s1) as [c|]; [|by intros [= <- _]].
    destruct (String.eqb _ ""); [by intros [= <- _]|].
    destruct (Cache_Get _ _ _). destruct s1. by intros [= <- _]. }
  rewrite <- Hs1, <- Hs2. destruct r as [r|]; [by intros [= <- <- <- <-]|].
  unfold TCPServer_dispatch.
  destruct (String.eqb _ MessageTypePing); [by intros H%Hret%Hf|].
  destruct (String.eqb _ MessageTypeExec).
  { destruct (TCPServer_handleExec _ _ _ _ _) as [[h|m]|]; [|done..]. by intros H%Hret%Hfs. }
  destruct (String.eqb _ MessageTypeQuery).
  { destruct (TCPServer_handleQuery _ _ _ _ _ _) as [[h|m]|]; [|done..]. by intros H%Hret%Hfs. }
  destruct (String.eqb _ MessageTypeStats); [by intros H%Hret%Hf|].
  destruct (String.eqb _ MessageTypeMetrics); [by intros H%Hret%Hf|].
  by intros [= <- _ _ _].
Qed.

(** Every line of a connection up to its CLOSE is answered exactly once, and
    nothing after it is: whatever the lines decode to, whichever guard stops them and
    whatever the database does, a connection whose handling returns has had as many
    responses written as there are such lines. *)
Theorem TCPServer_clientLoop_answers fuel ctx ip lines s rt w s' rt' w' out :
  ts_shutdown s = false ->
  TCPServer_clientLoop fuel ctx ip lines s rt w = Some (Ret (s', rt', w', out)) ->
  length out = length (until_close lines).
Proof.
  revert s rt w s' rt' w' out.
  induction lines as [|[[env size] [msg|err]] lines IH]; intros s rt w s' rt' w' out Hsh;
    cbn [TCPServer_clientLoop until_close]; [by intros [= <- <- <- <-]|rewrite Hsh..].
  - cbn zeta. set (msg' := msg{{msg_RequestSize := size}}{{msg_ClientIP := ip}}).
    assert (Hty : msg_Type msg' = msg_Type msg) by (by destruct msg). rewrite Hty. clearbody msg'.
    destruct (TCPServer_handleMessage _ _ _ _ _ _ _ _) as [[[[[s1 rt1] w1] out1]|m]|] eqn:Hm; [|done..].
    apply TCPServer_handleMessage_one_response in Hm as Hone.
    apply handleMessage_shutdown in Hm. rewrite Hsh in Hm.
    destruct (String.eqb _ MessageTypeClose); [by intros [= <- <- <- <-]|].
    destruct (TCPServer_clientLoop _ _ _ _ s1 rt1 w1) as [[[[[s2 rt2] w2] out2]|m]|] eqn:Hl; [|done..].
    intros [= <- <- <- <-]. rewrite length_app, Hone. cbn [length]. f_equal. by eapply IH.
  - destruct (TCPServer_clientLoop _ _ _ _ s rt w) as [[[[[s2 rt2] w2] out2]|m]|] eqn:Hl; [|done..].
    intros [= <- <- <- <-]. cbn [length]. f_equal. by eapply IH.
Qed.

Context `{Lawful : !LawfulCache C TCPResponse}.

(** What the guards before the idempotency check leave alone. *)
Lemma checkRateLimit_cache now ip s :
  ts_idempotencyCache (TCPServer_checkRateLimit now ip s).1 = ts_idempotencyCache s /\
  ts_config (TCPServer_checkRateLimit now ip s).1 = ts_config s.
Proof. unfold TCPServer_checkRateLimit. destruct s; cbn. by split_matches. Qed.

(** A message whose key the cache knows is answered from it. *)
Lemma handle_replay fuel env ctx ip msg s rt w c c' resp :
  sc_EnableIdempotency (ts_config s) = true -> sc_EnableDDoSProtection (ts_config s) = false ->
  ts_idempotencyCache s = Some c -> msg_IdempotencyKey msg <> "" ->
  Cache_Get (te_get env) (msg_IdempotencyKey msg) c = (c', Some resp) ->
  TCPServer_handleMessage fuel env ctx ip msg s rt w =
    Some (Ret (s{{ts_idempotencyCache := Some c'}}, rt, w, [resp])).
Proof.
  intros Hidem Hddos Hc Hkey Hget. apply String.eqb_neq in Hkey.
  destruct s as [cfg lst sh cl cc ipc ipr bl wl ic], msg as [ty id q args pl key cip size].
  cbn in *. subst ic. unfold TCPServer_handleMessage. cbn. rewrite Hidem, Hddos. cbn. rewrite ?Hkey. cbn.
  unfold TCPServer_checkIdempotency. cbn. by rewrite ?Hkey, Hget.
Qed.

(** A keyed EXEC whose key the cache does not know runs, and its response is stored. *)
Lemma handle_exec_stored fuel env ctx ip msg s rt w c c' rt' w' res resp :
  sc_EnableIdempotency (ts_config s) = true -> sc_EnableDDoSProtection (ts_config s) = false ->
  ts_idempotencyCache s = Some c -> msg_IdempotencyKey msg <> "" -> msg_Type msg = MessageTypeExec ->
  Cache_Get (te_get env) (msg_IdempotencyKey msg) c = (c', None) ->
  DBRuntime_Exec oor (te_db env) ctx (msg_Query msg) (msg_Args msg) rt w = Some (Ret (rt', w', Ok res)) ->
  NewSuccessResponse time_text (msg_ID msg)
    (PExec (mkExecResult (res_RowsAffected res) (res_LastInsertId res))) = Ok resp ->
  TCPServer_handleMessage fuel env ctx ip msg s rt w =
    Some (Ret (s{{ts_idempotencyCache :=
                    Some (Cache_Set (te_set env) (msg_IdempotencyKey msg) resp (300 * Second) c').1}},
               rt', w', [resp])).
Proof.
  intros Hidem Hddos Hc Hkey Hty Hget Hx Hresp. apply String.eqb_neq in Hkey.
  destruct s as [cfg lst sh cl cc ipc ipr bl wl ic], msg as [ty id q args pl key cip size].
  cbn -[NewSuccessResponse] in Hidem, Hddos, Hc, Hkey, Hty, Hget, Hx, Hresp. subst ic ty.
  unfold TCPServer_handleMessage. cbn -[NewSuccessResponse]. rewrite Hidem, Hddos. cbn -[NewSuccessResponse].
  rewrite ?Hkey. cbn -[NewSuccessResponse].
  unfold TCPServer_checkIdempotency. cbn -[NewSuccessResponse]. rewrite ?Hkey, Hget.
  unfold TCPServer_dispatch. cbn -[NewSuccessResponse]. unfold TCPServer_handleExec. cbn -[NewSuccessResponse].
  rewrite Hx. cbn -[NewSuccessResponse]. unfold reply. rewrite Hresp. cbn. rewrite ?Hidem, ?Hkey. cbn.
  unfold TCPServer_storeIdempotency. cbn. by rewrite ?Hkey.
Qed.

(** What the guards in front of the idempotency check answer, if they turn a message away. *)
Definition turned_away (env : msg_env) (clientIP : string) (msg : TCPMessage Arg) (s : TCPServer C) : option error :=
  let config := ts_config s in
  if sc_EnableDDoSProtection config && (0 <? sc_MaxRequestSize config) && (sc_MaxRequestSize config <? msg_RequestSize msg)
  then Some (Errorf ("request too large: " +:+ pretty (msg_RequestSize msg) +:+ " bytes"))
  else if sc_EnableDDoSProtection config && negb (TCPServer_checkRateLimit (te_rate env) clientIP s).2
  then Some (Errorf ("rate limit exceeded for IP: " +:+ clientIP))
  else None.

(** A message is its guards, then its idempotency check, then its dispatch. *)
Lemma handleMessage_guards fuel env ctx ip msg s rt w c :
  ts_idempotencyCache s = Some c -> sc_EnableIdempotency (ts_config s) = true ->
  exists s0, ts_idempotencyCache s0 = Some c /\ ts_config s0 = ts_config s /\
    TCPServer_handleMessage fuel env ctx ip msg s rt w =
      match turned_away env ip msg s with
      | Some err => Some (Ret (s0, rt, w, [NewErrorResponse (msg_ID msg) err]))
      | None =>
          if String.eqb (msg_IdempotencyKey msg) ""
          then TCPServer_dispatch fuel env ctx (msg{{msg_ClientIP := ip}}) s0 rt w
          else
            let '(c', cached) := Cache_Get (te_get env) (msg_IdempotencyKey msg) c in
            match cached with
            | Some resp => Some (Ret (s0{{ts_idempotencyCache := Some c'}}, rt, w, [resp]))
            | None => TCPServer_dispatch fuel env ctx (msg{{msg_ClientIP := ip}}) (s0{{ts_idempotencyCache := Some c'}}) rt w
            end
      end.
Proof.
  intros Hc Hidem. unfold TCPServer_handleMessage, turned_away.
  destruct msg as [ty id q args pl key cip size].
  change ((mkTCPMessage ty id q args pl key cip size){{msg_ClientIP := ip}})
    with (mkTCPMessage ty id q args pl key ip size).
  cbn [msg_RequestSize msg_ID msg_IdempotencyKey].
  destruct (sc_EnableDDoSProtection (ts_config s) && _ && _); [by exists s|].
  pose proof (checkRateLimit_cache (te_rate env) ip s) as [Hrc Hrcfg].
  destruct (sc_EnableDDoSProtection (ts_config s)); cbn [andb].
  - destruct (TCPServer_checkRateLimit (te_rate env) ip s) as [s0 ok]. cbn [fst snd] in *.
    exists s0. rewrite Hrc, Hrcfg. split_and!; [done|done|]. destruct ok; cbn [negb]; [|done].
    rewrite Hidem. cbn [andb]. destruct (String.eqb key "") eqn:Hk; cbn [negb]; [done|].
    unfold TCPServer_checkIdempotency. cbn [msg_IdempotencyKey]. rewrite Hrc, Hc, Hk.
    by destruct (Cache_Get (te_get env) key c) as [c' [r|]].
  - exists s. split_and!; [done|done|]. cbn [negb].
    rewrite Hidem. cbn [andb]. destruct (String.eqb key "") eqn:Hk; cbn [negb]; [done|].
    unfold TCPServer_checkIdempotency. cbn [msg_IdempotencyKey]. rewrite Hc, Hk.
    by destruct (Cache_Get (te_get env) key c) as [c' [r|]].
Qed.

(** The dispatch stores at most one response, under the message's key. *)
Lemma dispatch_cache fuel env ctx msg s rt w s' rt' w' out c :
  ts_idempotencyCache s = Some c ->
  TCPServer_dispatch fuel env ctx msg s rt w = Some (Ret (s', rt', w', out)) ->
  ts_config s' = ts_config s /\
  (ts_idempotencyCache s' = Some c \/
   msg_IdempotencyKey msg <> "" /\ exists resp, ts_idempotencyCache s' =
     Some (Cache_Set (te_set env) (msg_IdempotencyKey msg) resp (300 * Second) c).1).
Proof.
  intros Hc.
  assert (Hfs : forall h, finish_stored env msg s h = (s', rt', w', out) -> ts_config s' = ts_config s /\
    (ts_idempotencyCache s' = Some c \/
     msg_IdempotencyKey msg <> "" /\ exists resp, ts_idempotencyCache s' =
       Some (Cache_Set (te_set env) (msg_IdempotencyKey msg) resp (300 * Second) c).1)).
  { intros [[[rt0 w0] out0] r0]. unfold finish_stored, TCPServer_storeIdempotency. rewrite Hc.
    destruct (_ && _); [|intros [= <- _ _ _]; auto].
    destruct r0 as [resp|]; [|intros [= <- _ _ _]; auto].
    destruct (String.eqb_spec (msg_IdempotencyKey msg) ""); intros [= <- _ _ _]; [by auto|].
    destruct s. split; [done|]. right. split; [done|]. by eexists. }
  assert (Hf : forall h, finish s h = (s', rt', w', out) -> ts_config s' = ts_config s /\
    (ts_idempotencyCache s' = Some c \/
     msg_IdempotencyKey msg <> "" /\ exists resp, ts_idempotencyCache s' =
       Some (Cache_Set (te_set env) (msg_IdempotencyKey msg) resp (300 * Second) c).1)).
  { intros [[[rt0 w0] out0] r0] [= <- _ _ _]. auto. }
  assert (Hret : forall x y : served, Some (Ret x) = Some (Ret y) -> x = y) by (by intros x y [=]).
  unfold TCPServer_dispatch.
  destruct (String.eqb _ MessageTypePing); [by intros H%Hret%Hf|].
  destruct (String.eqb _ MessageTypeExec).
  { destruct (TCPServer_handleExec _ _ _ _ _) as [[h|m]|]; [|done..]. by intros H%Hret%Hfs. }
  destruct (String.eqb _ MessageTypeQuery).
  { destruct (TCPServer_handleQuery _ _ _ _ _ _) as [[h|m]|]; [|done..]. by intros H%Hret%Hfs. }
  destruct (String.eqb _ MessageTypeStats); [by intros H%Hret%Hf|].
  destruct (String.eqb _ MessageTypeMetrics); [by intros H%Hret%Hf|].
  intros [= <- _ _ _]. auto.
Qed.

(** A dispatched EXEC that is answered with a success has its answer stored. *)
Lemma dispatch_exec_stored fuel env ctx msg s rt w s' rt' w' resp c :
  ts_idempotencyCache s = Some c -> sc_EnableIdempotency (ts_config s) = true ->
  msg_Type msg = MessageTypeExec -> msg_IdempotencyKey msg <> "" ->
  TCPServer_dispatch fuel env ctx msg s rt w = Some (Ret (s', rt', w', [resp])) -> resp_Success resp = true ->
  ts_idempotencyCache s' = Some (Cache_Set (te_set env) (msg_IdempotencyKey msg) resp (300 * Second) c).1 /\
  resp_ID resp = msg_ID msg.
Proof.
  intros Hc Hidem Hty Hkey Hd Hok. apply String.eqb_neq in Hkey. revert Hd.
  unfold TCPServer_dispatch. rewrite Hty. change (String.eqb MessageTypeExec MessageTypePing) with false.
  change (String.eqb MessageTypeExec MessageTypeExec) with true. cbv iota. unfold TCPServer_handleExec.
  destruct (DBRuntime_Exec _ _ _ _ _ _ _) as [[[[rt0 w0] [res|e]]|m]|]; [| |done..].
  - unfold reply. destruct (NewSuccessResponse time_text (msg_ID msg) _) as [r|e] eqn:Hr; cbn [outcome_bind finish_stored].
    + rewrite Hidem, Hkey. cbn [andb negb]. unfold TCPServer_storeIdempotency. rewrite Hc, Hkey.
      intros [= <- _ _ <-]. split; [by destruct s|]. unfold NewSuccessResponse in Hr.
      destruct (json_Marshal time_text _); by simplify_eq.
    + intros [= _ _ _ <-]. discriminate Hok.
  - cbn [outcome_bind finish_stored]. intros [= _ _ _ <-]. discriminate Hok.
Qed.

End Messages.

(** ** Replays, over the cache the server is made with *)
Section Replay.
Context (oor : float64 -> Z).
Context (time_text : Z -> option string).
Context `{Sql : SqlDB W Ctx Arg Res Rows Row Tx}.
Context `{Pool : SqlPool W Ctx DB Conn}.
Context `{RowsOps : !SqlRows W Rows}.
Context `{ResOps : !SqlResult Res}.
Context {RC : Type}.
Context (ctx : Ctx).
Implicit Types s : TCPServer (InMemoryCache TCPResponse).
Implicit Types rt : DBRuntime DB RC.

(** What happens to a server between two moments: connections come and go, and messages
    are handled, one after the other, each on whatever the runtime and the database have
    become by then. *)
Inductive traffic : Type :=
  | Connection (e : conn_event)
  | Message (fuel : nat) (env : msg_env) (clientIP : string) (msg : TCPMessage Arg)
      (rt : DBRuntime DB RC) (w : W).

(** The server after the traffic; [None] if a handler panics or never returns. *)
Fixpoint after (ts : list traffic) (s : TCPServer (InMemoryCache TCPResponse))
    : option (TCPServer (InMemoryCache TCPResponse)) :=
  match ts with
  | [] => Some s
  | Connection e :: ts => after ts (server_event e s).1
  | Message fuel env clientIP msg rt w :: ts =>
      match TCPServer_handleMessage oor time_text fuel env ctx clientIP msg s rt w with
      | Some (Ret (s, _, _, _)) => after ts s
      | _ => None
      end
  end.

(** The messages of the traffic, and those with a key that look for it by [deadline]. *)
Definition messages (ts : list traffic) : list (msg_env * TCPMessage Arg) :=
  omap (fun t => match t with Message _ env _ msg _ _ => Some (env, msg) | Connection _ => None end) ts.

Definition in_window (key : string) (deadline : Z) (m : msg_env * TCPMessage Arg) : Prop :=
  msg_IdempotencyKey m.2 = key -> te_get m.1 <= deadline.

(** The server keeps its configuration and its cache, sound and of one capacity. *)
Definition keeps_cache (config : TCPServerConfig) (capacity : Z) s (c : InMemoryCache TCPResponse) : Prop :=
  ts_config s = config /\ ts_idempotencyCache s = Some c /\ cache_wf c /\ c_capacity c = capacity.

Lemma server_event_keeps config capacity s c e :
  keeps_cache config capacity s c -> keeps_cache config capacity (server_event e s).1 c.
Proof.
  destruct s as [cfg lst sh cl cc ipc ipr bl wl ic]. unfold keeps_cache. destruct e; cbn; [|done].
  unfold TCPServer_allowConnection. cbn. by split_matches.
Qed.

(** The calls a message makes to the cache. *)
Lemma handleMessage_calls config capacity fuel env ip msg s rt (w : W) s' rt' w' out c :
  sc_EnableIdempotency config = true -> keeps_cache config capacity s c ->
  TCPServer_handleMessage oor time_text fuel env ctx ip msg s rt w = Some (Ret (s', rt', w', out)) ->
  let key := msg_IdempotencyKey msg in
  exists os, keeps_cache config capacity s' (cache_run os c) /\
    (os = [] \/ os = [CallGet (te_get env) key] \/
     (InMemoryCache_Get (te_get env) key c).2 = None /\
     exists resp, os = [CallGet (te_get env) key; CallSet (te_set env) key resp (300 * Second)]).
Proof.
  intros Hidem (<- & Hc & Hwf & <-) Hm key.
  destruct (handleMessage_guards oor time_text fuel env ctx ip msg s rt w c Hc Hidem) as (s0 & Hc0 & Hcfg & Heq).
  rewrite Heq in Hm. clear Heq.
  assert (Hkeeps : forall s1 os, ts_config s1 = ts_config s -> ts_idempotencyCache s1 = Some (cache_run os c) ->
    keeps_cache (ts_config s) (c_capacity c) s1 (cache_run os c)).
  { intros s1 os H1 H2. destruct (cache_run_refines os c Hwf) as (? & _ & _ & ? & _). by split_and!. }
  destruct (turned_away env ip msg s) as [err|]; [injection Hm as <- _ _ _; exists []; auto|].
  change (Cache_Get (te_get env) (msg_IdempotencyKey msg) c) with (InMemoryCache_Get (te_get env) key c) in Hm.
  assert (Hkey : msg_IdempotencyKey (msg{{msg_ClientIP := ip}}) = key) by (by destruct msg).
  destruct (String.eqb_spec (msg_IdempotencyKey msg) "") as [Hk|Hk].
  { apply (dispatch_cache _ _ _ _ _ _ _ _ _ _ _ _ _ _ Hc0) in Hm as [Hcfg' [Hc'|[Hne _]]]; [|by rewrite Hkey in Hne].
    exists []. rewrite Hcfg in Hcfg'. auto. }
  destruct (InMemoryCache_Get (te_get env) key c) as [c' cached] eqn:Hg.
  assert (Hget : cache_run [CallGet (te_get env) key] c = c') by (cbn; by rewrite Hg).
  destruct cached as [resp|].
  { injection Hm as <- _ _ _. exists [CallGet (te_get env) key]. split; [|auto]. destruct s0.
    apply Hkeeps; [exact Hcfg|cbn -[InMemoryCache_Get]; by rewrite <- Hget]. }
  assert (Hc1 : ts_idempotencyCache (s0{{ts_idempotencyCache := Some c'}}) = Some c') by (by destruct s0).
  apply (dispatch_cache _ _ _ _ _ _ _ _ _ _ _ _ _ _ Hc1) in Hm as [Hcfg' [Hc'|(_ & resp & Hc')]].
  - exists [CallGet (te_get env) key]. split; [|auto]. apply Hkeeps; [by destruct s0; rewrite Hcfg'|by rewrite Hget].
  - rewrite Hkey in Hc'. exists [CallGet (te_get env) key; CallSet (te_set env) key resp (300 * Second)].
    split; [|right; right; split; [done|by exists resp]].
    apply Hkeeps; [by destruct s0; rewrite Hcfg'|]. rewrite Hc'. unfold cache_run. rewrite !run_cons, run_nil.
    cbn [cache_step fst]. by rewrite Hg.
Qed.

Lemma traffic_keeps config capacity ts : forall s c s',
  sc_EnableIdempotency config = true -> keeps_cache config capacity s c -> after ts s = Some s' ->
  exists c', keeps_cache config capacity s' c'.
Proof.
  induction ts as [|[e|fuel env ip msg rt w] ts IH]; intros s c s' Hidem Hs Hafter; cbn [after] in Hafter.
  - injection Hafter as <-. by exists c.
  - eapply IH; [done|by apply server_event_keeps|exact Hafter].
  - destruct (TCPServer_handleMessage _ _ _ _ _ _ _ _ _ _) as [[[[[s1 rt1] w1] out]|m]|] eqn:Hm; [|done..].
    apply (handleMessage_calls config capacity _ _ _ _ _ _ _ _ _ _ _ c) in Hm as (os & Hs1 & _); [|done..].
    by eapply IH.
Qed.

(** A stored response is pushed back by at most two entries a message. *)
Lemma handleMessage_held config capacity fuel env ip msg s rt (w : W) s' rt' w' out c key resp d n :
  sc_EnableIdempotency config = true -> keeps_cache config capacity s c ->
  held key resp d n (cache_abs c) -> Z.of_nat (n + 2) < capacity ->
  in_window key d (env, msg) ->
  TCPServer_handleMessage oor time_text fuel env ctx ip msg s rt w = Some (Ret (s', rt', w', out)) ->
  exists c', keeps_cache config capacity s' c' /\ held key resp d (n + 2) (cache_abs c').
Proof.
  intros Hidem Hs Hheld Hroom Hwin Hm.
  destruct (handleMessage_calls config capacity _ _ _ _ _ _ _ _ _ _ _ c Hidem Hs Hm) as (os & Hs' & Hos).
  destruct Hs as (_ & _ & Hwf & Hcap). exists (cache_run os c). split; [done|].
  unfold in_window in Hwin. cbn [fst snd] in Hwin.
  assert (Hspare : Forall (spares key d) os /\ (total_touches key os <= 2)%nat).
  { unfold total_touches.
    destruct Hos as [->|[->|[Hmiss [r ->]]]]; rewrite ?Forall_cons, ?Forall_nil; cbn [spares touches sum_list_with].
    - split; [done|lia].
    - split; [split; [intros Hk; right; by apply Hwin|done]|]. destruct (String.eqb _ _); lia.
    - destruct (String.eqb_spec (msg_IdempotencyKey msg) key) as [Hk|Hk]; [|split; [by split_and!|lia]].
      exfalso. pose proof (InMemoryCache_Get_refines (te_get env) (msg_IdempotencyKey msg) c Hwf) as Hr.
      destruct (InMemoryCache_Get (te_get env) (msg_IdempotencyKey msg) c) as [c1 v]. destruct Hr as [_ Hr].
      cbn in Hmiss. subst v. unfold lru_get in Hr. rewrite Hk, (held_find _ _ _ _ _ Hheld) in Hr.
      rewrite (proj2 (en_expired_live (te_get env) (mkEntry key resp d))) in Hr; [done|]. right. by apply Hwin. }
  destruct Hspare as [Hspare Htouch].
  apply (held_weaken _ _ _ (total_touches key os + n)); [lia|]. apply cache_run_held; try done. rewrite Hcap. lia.
Qed.

Lemma traffic_held config capacity key resp d ts : forall s c s' n,
  sc_EnableIdempotency config = true -> keeps_cache config capacity s c ->
  held key resp d n (cache_abs c) -> Z.of_nat (n + 2 * length (messages ts)) < capacity ->
  Forall (in_window key d) (messages ts) -> after ts s = Some s' ->
  exists c', keeps_cache config capacity s' c' /\ held key resp d (n + 2 * length (messages ts)) (cache_abs c').
Proof.
  induction ts as [|[e|fuel env ip msg rt w] ts IH]; intros s c s' n Hidem Hs Hheld Hroom Hwin Hafter;
    cbn [after messages omap list_omap length] in *.
  - injection Hafter as <-. exists c. by rewrite Nat.add_0_r.
  - by eapply IH; [|apply server_event_keeps| | | |].
  - destruct (TCPServer_handleMessage _ _ _ _ _ _ _ _ _ _) as [[[[[s1 rt1] w1] out]|m]|] eqn:Hm; [|done..].
    apply Forall_cons in Hwin as [Hwin1 Hwin].
    destruct (handleMessage_held config capacity _ _ _ _ _ _ _ _ _ _ _ c key resp d n Hidem Hs Hheld
      ltac:(lia) Hwin1 Hm) as (c1 & Hs1 & Hheld1).
    fold (messages ts) in *.
    destruct (IH s1 c1 s' (n + 2)%nat) as (c' & Hs' & Hheld'); [done..|lia|done|done|].
    exists c'. split; [done|]. replace (n + 2 * S (length (messages ts)))%nat
      with (n + 2 + 2 * length (messages ts))%nat by lia. done.
Qed.

(** The answer to a first message with a key is stored. *)
Lemma first_stored config capacity fuel env ip msg s rt (w : W) s1 rt1 w1 resp c :
  sc_EnableIdempotency config = true -> keeps_cache config capacity s c ->
  msg_Type msg = MessageTypeExec -> msg_IdempotencyKey msg <> "" ->
  (TCPServer_checkIdempotency (te_get env) msg s).2 = None ->
  TCPServer_handleMessage oor time_text fuel env ctx ip msg s rt w = Some (Ret (s1, rt1, w1, [resp])) ->
  resp_Success resp = true ->
  exists c1, keeps_cache config capacity s1 c1 /\
    held (msg_IdempotencyKey msg) resp (te_set env + 300 * Second) 0 (cache_abs c1) /\
    resp_ID resp = msg_ID msg.
Proof.
  intros Hidem (Hcfg & Hc & Hwf & Hcap) Hty Hkey Hmiss Hrun Hok.
  set (key := msg_IdempotencyKey msg) in *.
  rewrite <- Hcfg in Hidem.
  destruct (handleMessage_guards oor time_text fuel env ctx ip msg s rt w c Hc Hidem) as (s0 & Hc0 & Hcfg0 & Heq).
  rewrite Heq in Hrun. clear Heq.
  destruct (turned_away env ip msg s) as [err|]; [injection Hrun as _ _ _ <-; discriminate Hok|].
  fold key in Hrun. apply String.eqb_neq in Hkey as Hkey2. rewrite Hkey2 in Hrun.
  unfold TCPServer_checkIdempotency in Hmiss. fold key in Hmiss. rewrite Hc, Hkey2 in Hmiss.
  pose proof (InMemoryCache_Get_refines (te_get env) key c Hwf) as Hwf'.
  change (Cache_Get (te_get env) key c) with (InMemoryCache_Get (te_get env) key c) in *.
  pose proof (cache_run_refines [CallGet (te_get env) key] c Hwf) as (_ & _ & _ & Hcap' & _).
  unfold cache_run in Hcap'. rewrite run_cons, run_nil in Hcap'. cbn [cache_step] in Hcap'.
  destruct (InMemoryCache_Get (te_get env) key c) as [c' cached]. cbn [snd fst] in *. subst cached.
  destruct Hwf' as [Hwf' _].
  assert (Hc1 : ts_idempotencyCache (s0{{ts_idempotencyCache := Some c'}}) = Some c') by (by destruct s0).
  assert (Hkeep : msg_Type (msg{{msg_ClientIP := ip}}) = MessageTypeExec /\
    msg_IdempotencyKey (msg{{msg_ClientIP := ip}}) = key /\ msg_ID (msg{{msg_ClientIP := ip}}) = msg_ID msg)
    by (by destruct msg).
  destruct Hkeep as (Hty' & Hk' & Hid').
  destruct (dispatch_cache oor time_text _ _ _ _ _ _ _ _ _ _ _ _ Hc1 Hrun) as [Hcfg1 _].
  apply (dispatch_exec_stored oor time_text _ _ _ _ _ _ _ _ _ _ _ c') in Hrun as [Hst Hid];
    [|done|by destruct s0; cbn in *; rewrite Hcfg0|done|by rewrite Hk'|done].
  rewrite Hk' in Hst. rewrite Hid' in Hid.
  change (Cache_Set (te_set env) key resp (300 * Second) c') with (InMemoryCache_Set (te_set env) key resp (300 * Second) c') in Hst.
  pose proof (cache_step_refines (CallSet (te_set env) key resp (300 * Second)) c' Hwf') as Hset.
  cbn [cache_step lru_step] in Hset. destruct Hset as (Hwf1 & Habs & Hcap1 & _). injection Habs as Habs.
  exists (InMemoryCache_Set (te_set env) key resp (300 * Second) c').1.
  split; [|split; [|exact Hid]].
  - split_and!; [by destruct s0; cbn in *; rewrite Hcfg1, Hcfg0|done|done|by rewrite Hcap1, Hcap', Hcap].
  - rewrite Habs. apply held_set. rewrite cache_abs_keys. apply Hwf'.
Qed.

(** C12: A keyed request runs once in its window, as long as messages are handled one
    after another. On a server that checks keys, after any traffic: when an EXEC with a
    key the cache does not know is answered with a success, then within 300 seconds and fewer
    than 5000 messages, whatever they are, whatever connections come and go and whatever
    becomes of the runtime and the database in between, every message with that key is
    handled without touching the runtime or the database and is answered, unless the
    size or rate guard turns it away, with the first response, under the first message's
    ID. (Messages of two connections are not kept apart by a lock: two with the same key
    can both miss the cache and both run.) *)
Theorem TCPServer_idempotent_replay config earlier s fuel env ip msg rt w s1 rt1 w1 resp
    later s2 fuel' env' ip' msg' rt2 w2 :
  sc_EnableIdempotency config = true ->
  after earlier (NewTCPServer NewInMemoryCache config) = Some s ->
  msg_Type msg = MessageTypeExec -> msg_IdempotencyKey msg <> "" ->
  (TCPServer_checkIdempotency (te_get env) msg s).2 = None ->
  TCPServer_handleMessage oor time_text fuel env ctx ip msg s rt w = Some (Ret (s1, rt1, w1, [resp])) ->
  resp_Success resp = true ->
  let deadline := te_set env + 300 * Second in
  after later s1 = Some s2 ->
  Forall (in_window (msg_IdempotencyKey msg) deadline) (messages later) ->
  2 * Z.of_nat (length (messages later)) < 10000 ->
  msg_IdempotencyKey msg' = msg_IdempotencyKey msg -> te_get env' <= deadline ->
  resp_ID resp = msg_ID msg /\
  exists s3, TCPServer_handleMessage oor time_text fuel' env' ctx ip' msg' s2 rt2 w2 =
    Some (Ret (s3, rt2, w2,
      [match turned_away env' ip' msg' s2 with
       | Some err => NewErrorResponse (msg_ID msg') err
       | None => resp
       end])).
Proof.
  intros Hidem Hs Hty Hkey Hmiss Hrun Hok deadline Hlater Hwin Hroom Hkey' Hnow.
  assert (Hnew : keeps_cache config 10000 (NewTCPServer NewInMemoryCache config) (NewInMemoryCache 10000 (300 * Second))).
  { unfold keeps_cache, NewTCPServer. cbn. rewrite Hidem. split_and!; try done. apply NewInMemoryCache_wf. }
  destruct (traffic_keeps _ _ _ _ _ _ Hidem Hnew Hs) as (c & Hcfg & Hc & Hwf & Hcap).
  set (key := msg_IdempotencyKey msg) in *.
  destruct (first_stored config 10000 fuel env ip msg s rt w s1 rt1 w1 resp c Hidem
    (conj Hcfg (conj Hc (conj Hwf Hcap))) Hty Hkey Hmiss Hrun Hok) as (c1 & Hs1 & Hheld & Hid).
  split; [exact Hid|]. fold key deadline in Hheld.
  assert (Hroom' : Z.of_nat (0 + 2 * length (messages later)) < 10000) by lia.
  destruct (traffic_held _ _ _ _ _ _ _ _ _ _ Hidem Hs1 Hheld Hroom' Hwin Hlater) as (c2 & Hs2 & Hheld2).
  destruct Hs2 as (Hcfg2 & Hc2 & Hwf2 & _). rewrite <- Hcfg2 in Hidem.
  destruct (handleMessage_guards oor time_text fuel' env' ctx ip' msg' s2 rt2 w2 c2 Hc2 Hidem) as (s0 & _ & _ & ->).
  destruct (turned_away env' ip' msg' s2) as [err|]; [by exists s0|].
  rewrite Hkey'. apply String.eqb_neq in Hkey. rewrite Hkey.
  change (Cache_Get (te_get env') key c2) with (InMemoryCache_Get (te_get env') key c2).
  pose proof (InMemoryCache_Get_refines (te_get env') key c2 Hwf2) as Hr.
  destruct (InMemoryCache_Get (te_get env') key c2) as [c3 cached]. destruct Hr as [_ Hr].
  unfold lru_get in Hr. rewrite (held_find _ _ _ _ _ Hheld2) in Hr.
  rewrite (proj2 (en_expired_live (te_get env') (mkEntry key resp deadline))) in Hr by (by right).
  injection Hr as _ ->. by eexists.
Qed.

End Replay.

(** ** The hypotheses can hold *)
Section Witnesses.
Import OneCell CellRuntime.

#[local] Instance cell_result : SqlResult Z := {
  res_RowsAffected n := n;
  res_LastInsertId _ := 0;
}.

Definition server_example_config : TCPServerConfig :=
  mkTCPServerConfig "127.0.0.1:9000" true true 0 2 10 ["6.6.6.6"] [].

Lemma server_example_listed : listed_ok "1.2.3.4" server_example_config.
Proof.
  split; [|left; reflexivity]. apply (bool_decide_unpack _). vm_compute. exact I.
Qed.

(** Four visits, each gone before the next: two are let in. *)
Definition server_example_events : list conn_event :=
  [Connect "1.2.3.4"; Disconnected 1; Connect "1.2.3.4"; Disconnected 2; Connect "1.2.3.4";
   Connect "1.2.3.4"].

Lemma TCPServer_connections_for_life_witness :
  (server_run "1.2.3.4" server_example_events
     (NewTCPServer (C := InMemoryCache TCPResponse) NewInMemoryCache server_example_config)).2 = 2.
Proof.
  apply (TCPServer_connections_for_life NewInMemoryCache server_example_config "1.2.3.4"
    server_example_events eq_refl).
  - split; vm_compute; [reflexivity|discriminate].
  - apply server_example_listed.
Defined.

(** Ten a second are configured; three in one second give one. *)
Lemma TCPServer_rate_is_one_per_second_witness :
  rate_run "1.2.3.4" [5; 6; 7]
    (NewTCPServer (C := InMemoryCache TCPResponse) NewInMemoryCache server_example_config) = [5] /\
  rate_run "1.2.3.4" [5; 6; 7]
    (NewTCPServer (C := InMemoryCache TCPResponse) NewInMemoryCache
       (server_example_config{{sc_RateLimitPerIP := 1}})) = [5].
Proof.
  split; [reflexivity|].
  refine (eq_trans (proj2 (TCPServer_rate_is_one_per_second NewInMemoryCache server_example_config 1
    "1.2.3.4" [5; 6; 7] eq_refl eq_refl)) _). reflexivity.
Defined.

Definition msg_example_env (t : Z) : msg_env := mkMsgEnv t t (env t) t.

Definition msg_example (id : string) (v : Z) : TCPMessage Z :=
  mkTCPMessage MessageTypeExec id "UPDATE" [v] "" "key" "" 10.

Definition server_example : TCPServer (InMemoryCache TCPResponse) :=
  NewTCPServer NewInMemoryCache (server_example_config{{sc_EnableDDoSProtection := false}}).

Definition line_example : list (line (Arg := Z)) :=
  [(msg_example_env 10, 10, Ok (msg_example "1" 7));
   (msg_example_env 11, 3, Err (External 6 "unexpected end of JSON input"));
   (msg_example_env 12, 10, Ok (mkTCPMessage MessageTypeClose "2" "" [] "" "" "" 10));
   (msg_example_env 13, 10, Ok (msg_example "3" 8))].

Lemma TCPServer_clientLoop_answers_witness :
  match TCPServer_clientLoop (fun _ => 0) (fun _ => None) 5 0%nat "1.2.3.4" line_example server_example
          runtime.1 runtime.2 with
  | Some (Ret (_, _, w', out)) => length out = 3%nat /\ ow_value w' = 7
  | _ => False
  end.
Proof.
  destruct (TCPServer_clientLoop (fun _ => 0) (fun _ => None) 5 0%nat "1.2.3.4" line_example server_example
              runtime.1 runtime.2) as [[[[[s' rt'] w'] out]|m]|] eqn:Hr;
    [|vm_compute in Hr; discriminate Hr..].
  split; [apply (TCPServer_clientLoop_answers (fun _ => 0) (fun _ => None) 5 0%nat "1.2.3.4" line_example
                   server_example _ _ _ _ _ _ eq_refl Hr)|].
  vm_compute in Hr. injection Hr as _ _ <- _. reflexivity.
Defined.

(** The same key a minute later, from a request of its own: the first answer, under the
    first ID, and the cell still holds 7. In between another client connects and writes
    under a key of its own. *)
Definition replay_earlier : list (traffic (W := world) (Arg := Z) (DB := unit) (RC := InMemoryCache cached_value)) :=
  [Connection (Connect "1.2.3.4")].

Definition replay_later : list (traffic (W := world) (Arg := Z) (DB := unit) (RC := InMemoryCache cached_value)) :=
  [Connection (Connect "5.6.7.8");
   Message 5 (msg_example_env (20 * Second)) "5.6.7.8" (mkTCPMessage MessageTypeExec "1" "UPDATE" [9] "" "other" "" 10)
     runtime.1 runtime.2;
   Connection (Disconnected 2)].

Lemma TCPServer_idempotent_replay_witness :
  exists s s1 rt1 w1 resp s2 s3,
    after (fun _ => 0) (fun _ => None) 0%nat replay_earlier
      (NewTCPServer NewInMemoryCache server_example_config) = Some s /\
    TCPServer_handleMessage (fun _ => 0) (fun _ => None) 5 (msg_example_env 10) 0%nat "1.2.3.4"
      (msg_example "1" 7) s runtime.1 runtime.2 = Some (Ret (s1, rt1, w1, [resp])) /\
    after (fun _ => 0) (fun _ => None) 0%nat replay_later s1 = Some s2 /\
    TCPServer_handleMessage (fun _ => 0) (fun _ => None) 5 (msg_example_env (60 * Second)) 0%nat "1.2.3.4"
      (msg_example "2" 8) s2 rt1 w1 = Some (Ret (s3, rt1, w1, [resp])) /\
    resp_ID resp = "1" /\ ow_value w1 = 7.
Proof.
  set (s := (server_event (Connect "1.2.3.4")
    (NewTCPServer (C := InMemoryCache TCPResponse) NewInMemoryCache server_example_config)).1).
  destruct (TCPServer_handleMessage (fun _ => 0) (fun _ => None) 5 (msg_example_env 10) 0%nat "1.2.3.4"
    (msg_example "1" 7) s runtime.1 runtime.2) as [[[[[s1 rt1] w1] out1]|m]|] eqn:Hr;
    [|vm_compute in Hr; discriminate Hr..].
  assert (Hone : exists resp, out1 = [resp] /\ resp_Success resp = true)
    by (vm_compute in Hr; injection Hr as _ _ _ <-; eexists; split; reflexivity).
  destruct Hone as (resp & -> & Hok).
  destruct (after (fun _ => 0) (fun _ => None) 0%nat replay_later s1) as [s2|] eqn:Hl;
    [|vm_compute in Hr; injection Hr as <- _ _ _; vm_compute in Hl; discriminate Hl].
  destruct (TCPServer_idempotent_replay (fun _ => 0) (fun _ => None) 0%nat server_example_config
    replay_earlier s 5 (msg_example_env 10) "1.2.3.4" (msg_example "1" 7) runtime.1 runtime.2
    s1 rt1 w1 resp replay_later s2 5 (msg_example_env (60 * Second)) "1.2.3.4" (msg_example "2" 8) rt1 w1)
    as (Hid & s3 & Hout).
  - reflexivity.
  - reflexivity.
  - reflexivity.
  - discriminate.
  - reflexivity.
  - exact Hr.
  - exact Hok.
  - exact Hl.
  - repeat constructor. intros H. discriminate H.
  - reflexivity.
  - reflexivity.
  - vm_compute. discriminate.
  - exists s, s1, rt1, w1, resp, s2, s3. split; [reflexivity|]. split; [exact Hr|]. split; [exact Hl|].
    vm_compute in Hr. injection Hr as <- <- <- <-. vm_compute in Hl. injection Hl as <-.
    split; [exact Hout|split; reflexivity].
Defined.

(** A CLOSE is answered as an unknown message. *)
Example close_is_unknown :
  match TCPServer_handleMessage (fun _ => 0) (fun _ => None) 5 (msg_example_env 10) 0%nat "1.2.3.4"
    (mkTCPMessage MessageTypeClose "9" "" [] "" "" "" 10) server_example runtime.1 runtime.2 with
  | Some (Ret (_, _, _, out)) => map resp_Error out = ["unknown message type: CLOSE"]
  | _ => False
  end.
Proof. vm_compute. reflexivity. Qed.

End Witnesses.
