(* ===== verification/TcpShutdown.v ===== *)
(** * Stopping the TCP server (tcp_server.go: [Stop], [acceptLoop], [handleClient])

    [Stop] takes the server's mutex, closes the shutdown channel, the listener and the
    registered connections, and waits, still holding the mutex, for the accept loop and
    every client goroutine to end.  The goroutines are a step relation: [Stop] is at a
    line, the accept loop is at a line, and so is the handler of every connection
    accepted so far.  The boolean of a step says that it needs the peer of a connection
    (to connect, to send a line, to close). *)
From S2P Require Import Prelude.
From S2P Require Import TcpServer.
Local Open Scope Z_scope.

(** Where [handleClient] is: before [allowConnection], in [scanner.Scan], with a line
    read and the shutdown channel still to be looked at, before [checkRateLimit] in
    [handleMessage], in the rest of [handleMessage], in the deferred calls, done. *)
Inductive handler_pc : Type := HGuard | HScan | HLine | HLimit | HWork | HExit | HGone.

#[export] Instance handler_pc_eq_dec : EqDecision handler_pc.
Proof. solve_decision. Defined.

(** A connection: its handler's line and whether this side has closed it. *)
Record handler : Type := mkHandler { h_pc : handler_pc; h_closed : bool }.

(** Where [acceptLoop] is: at the select, in [Accept], with a connection, done. *)
Inductive accept_pc : Type := ACheck | AAccept | AGot | AGone.

(** Where [Stop] is: not called, holding the mutex, the channel closed, the listener
    closed, in [clients.Range] with the connections it has still to visit, in
    [wg.Wait], returned. *)
Inductive stop_pc : Type :=
  | SIdle | SLocked | SShut | SListener | SRange (todo : list nat) | SWait | SReturned.

Record server_sys : Type := mkServerSys {
  sy_stop : stop_pc;
  sy_accept : accept_pc;
  sy_handlers : list handler;
}.

(** [Stop] holds [s.mu] from its first line to its last. *)
Definition sy_locked (p : stop_pc) : bool :=
  match p with SIdle | SReturned => false | _ => true end.

Definition sy_shutdown (p : stop_pc) : bool :=
  match p with SIdle | SLocked => false | _ => true end.

Definition sy_listening (p : stop_pc) : bool :=
  match p with SIdle | SLocked | SShut => true | _ => false end.

(** The connections [clients.Range] is sure to visit: those registered when it starts. *)
Definition sy_registered (hs : list handler) : list nat :=
  List.filter (fun i => match hs !! i with
                        | Some h => match h_pc h with HGone => false | _ => true end
                        | None => false
                        end) (seq 0 (length hs)).

Definition sy_close (i : nat) (hs : list handler) : list handler :=
  alter (fun h => h{{h_closed := true}}) i hs.

Definition is_gone (h : handler) : Prop := h_pc h = HGone.

#[export] Instance is_gone_dec h : Decision (is_gone h) := handler_pc_eq_dec (h_pc h) HGone.

Section Steps.
Variable config : TCPServerConfig.

Definition ddos : bool := sc_EnableDDoSProtection config.
Definition rated : bool := ddos && (0 <? sc_RateLimitPerIP config).

(** One step of a handler, with the mutex free or not and the channel closed or not.
    [allowConnection] and [checkRateLimit] hold the mutex throughout: one step each,
    possible when it is free. *)
Inductive handler_step (locked shutdown : bool) : bool -> handler -> handler -> Prop :=
  | hs_guard c : (ddos = true -> locked = false) ->
      handler_step locked shutdown false (mkHandler HGuard c) (mkHandler HScan c)
  | hs_refused c : ddos = true -> locked = false ->
      handler_step locked shutdown false (mkHandler HGuard c) (mkHandler HExit c)
  | hs_line c : handler_step locked shutdown true (mkHandler HScan c) (mkHandler HLine c)
  | hs_eof c : handler_step locked shutdown (negb c) (mkHandler HScan c) (mkHandler HExit c)
  | hs_stop c : shutdown = true ->
      handler_step locked shutdown false (mkHandler HLine c) (mkHandler HExit c)
  (** a line that does not decode, a message that is too large, any other message *)
  | hs_undecodable c : shutdown = false ->
      handler_step locked shutdown false (mkHandler HLine c) (mkHandler HScan c)
  | hs_too_large c : shutdown = false ->
      handler_step locked shutdown false (mkHandler HLine c) (mkHandler HWork c)
  | hs_message c : shutdown = false ->
      handler_step locked shutdown false (mkHandler HLine c) (mkHandler HLimit c)
  | hs_limit c : (rated = true -> locked = false) ->
      handler_step locked shutdown false (mkHandler HLimit c) (mkHandler HWork c)
  | hs_next c : handler_step locked shutdown false (mkHandler HWork c) (mkHandler HScan c)
  | hs_close c : handler_step locked shutdown false (mkHandler HWork c) (mkHandler HExit c)
  | hs_deferred c : handler_step locked shutdown false (mkHandler HExit c) (mkHandler HGone true).

Inductive server_step : bool -> server_sys -> server_sys -> Prop :=
  | ss_handler p a hs i peer h h' :
      hs !! i = Some h -> handler_step (sy_locked p) (sy_shutdown p) peer h h' ->
      server_step peer (mkServerSys p a hs) (mkServerSys p a (<[i := h']> hs))
  (** acceptLoop *)
  | ss_check_stop p hs : sy_shutdown p = true ->
      server_step false (mkServerSys p ACheck hs) (mkServerSys p AGone hs)
  | ss_check p hs : sy_shutdown p = false ->
      server_step false (mkServerSys p ACheck hs) (mkServerSys p AAccept hs)
  | ss_deadline p hs : server_step false (mkServerSys p AAccept hs) (mkServerSys p ACheck hs)
  | ss_accept p hs : sy_listening p = true ->
      server_step true (mkServerSys p AAccept hs) (mkServerSys p AGot hs)
  | ss_accept_error p hs : sy_listening p = false ->
      server_step false (mkServerSys p AAccept hs) (mkServerSys p AGone hs)
  | ss_register p hs :
      server_step false (mkServerSys p AGot hs)
        (mkServerSys p ACheck (hs ++ [mkHandler HGuard false]))
  (** Stop *)
  | ss_lock a hs : server_step false (mkServerSys SIdle a hs) (mkServerSys SLocked a hs)
  | ss_close_shutdown a hs : server_step false (mkServerSys SLocked a hs) (mkServerSys SShut a hs)
  | ss_close_listener a hs : server_step false (mkServerSys SShut a hs) (mkServerSys SListener a hs)
  | ss_range a hs :
      server_step false (mkServerSys SListener a hs) (mkServerSys (SRange (sy_registered hs)) a hs)
  | ss_range_close i todo a hs :
      server_step false (mkServerSys (SRange (i :: todo)) a hs) (mkServerSys (SRange todo) a (sy_close i hs))
  (** Range may also visit a connection stored while it runs *)
  | ss_range_late i h todo a hs :
      hs !! i = Some h -> h_closed h = false ->
      server_step false (mkServerSys (SRange todo) a hs) (mkServerSys (SRange todo) a (sy_close i hs))
  | ss_range_end a hs : server_step false (mkServerSys (SRange []) a hs) (mkServerSys SWait a hs)
  | ss_wait hs : Forall is_gone hs ->
      server_step false (mkServerSys SWait AGone hs) (mkServerSys SReturned AGone hs).

(** A step of anyone, peers included. *)
Definition any_step (s s' : server_sys) : Prop := exists peer, server_step peer s s'.

(** Nothing moves unless a peer does. *)
Definition quiescent (s : server_sys) : Prop := forall s', ~ server_step false s s'.

(** A handler in front of a call that takes the mutex. *)
Definition wants_mutex (h : handler) : Prop :=
  (h_pc h = HGuard /\ ddos = true) \/ (h_pc h = HLimit /\ rated = true).

(** A handler reading a connection that this side has not closed. *)
Definition reads_open (h : handler) : Prop := h_pc h = HScan /\ h_closed h = false.
End Steps.

(** A server with its accept loop running. *)
Definition running (hs : list handler) : server_sys := mkServerSys SIdle ACheck hs.

(** ** The measure that every step after [close(s.shutdown)] decreases *)
Definition pc_rank (p : handler_pc) : nat :=
  match p with
  | HGuard => 6 | HLimit => 5 | HWork => 4 | HScan => 3 | HLine => 2 | HExit => 1 | HGone => 0
  end.

Definition handler_weight (h : handler) : nat :=
  pc_rank (h_pc h) + if h_closed h then 0 else 1.

Definition accept_weight (a : accept_pc) : nat :=
  match a with ACheck => 1 | AAccept => 11 | AGot => 10 | AGone => 0 end.

Definition stop_weight (p : stop_pc) (n : nat) : nat :=
  match p with
  | SIdle | SLocked => 0
  | SShut => 5 + n
  | SListener => 4 + n
  | SRange todo => 2 + length todo
  | SWait => 1
  | SReturned => 0
  end.

Definition sys_weight (s : server_sys) : nat :=
  stop_weight (sy_stop s) (length (sy_handlers s)) + accept_weight (sy_accept s) +
  sum_list_with handler_weight (sy_handlers s).

(** ** Lemmas *)
Lemma sum_list_with_insert {A} (f : A -> nat) l i x y :
  l !! i = Some x -> (sum_list_with f (<[i := y]> l) + f x = sum_list_with f l + f y)%nat.
Proof.
  revert i. induction l as [|z l IH]; intros [|i] Hi; try done; cbn in *.
  - simplify_eq. lia.
  - rewrite <- !Nat.add_assoc. f_equal. by apply IH.
Qed.

Lemma sy_close_insert i h hs : hs !! i = Some h -> sy_close i hs = <[i := mkHandler (h_pc h) true]> hs.
Proof.
  intros Hi. unfold sy_close. apply list_eq. intros j. rewrite list_lookup_alter.
  destruct (decide (i = j)) as [->|Hne].
  - rewrite Hi, list_lookup_insert_eq by (by eapply lookup_lt_Some). by destruct h.
  - by rewrite list_lookup_insert_ne.
Qed.

Lemma sy_close_lookup i j hs :
  sy_close i hs !! j = (if decide (i = j) then (fun h => mkHandler (h_pc h) true) <$> hs !! j else hs !! j).
Proof.
  unfold sy_close. rewrite list_lookup_alter. destruct (decide (i = j)) as [->|]; [|done].
  by destruct (hs !! j) as [[]|].
Qed.

Lemma sy_close_length i hs : length (sy_close i hs) = length hs.
Proof. apply length_alter. Qed.

Lemma sy_registered_length hs : (length (sy_registered hs) <= length hs)%nat.
Proof.
  unfold sy_registered. etransitivity; [apply List.filter_length_le|]. by rewrite length_seq.
Qed.

Section Lemmas.
Context {config : TCPServerConfig}.

Lemma handler_step_weight locked peer h h' :
  handler_step config locked true peer h h' -> (handler_weight h' < handler_weight h)%nat.
Proof. unfold handler_weight. destruct 1; cbn; try done; destruct c; lia. Qed.

Lemma server_step_weight peer s s' :
  server_step config peer s s' -> sy_shutdown (sy_stop s) = true ->
  sy_shutdown (sy_stop s') = true /\ (sys_weight s' < sys_weight s)%nat.
Proof.
  unfold sys_weight. destruct 1 as [p a hs i peer h h' Hi Hs|p hs Hp|p hs Hp|p hs|p hs Hp|p hs Hp|p hs|
    a hs|a hs|a hs|a hs|i todo a hs|i h todo a hs Hi Hc|a hs|hs Hg]; cbn; intros Hd; try congruence;
    (split; [done|]); try lia.
  - rewrite Hd in Hs. apply handler_step_weight in Hs.
    pose proof (sum_list_with_insert handler_weight hs i h h' Hi). rewrite length_insert. lia.
  - rewrite sum_list_with_app, length_app. cbn. unfold handler_weight. cbn.
    destruct p; cbn in *; lia.
  - pose proof (sy_registered_length hs). lia.
  - enough (sum_list_with handler_weight (sy_close i hs) <= sum_list_with handler_weight hs)%nat by lia.
    destruct (hs !! i) as [h|] eqn:Hi.
    + rewrite (sy_close_insert _ _ _ Hi).
      pose proof (sum_list_with_insert handler_weight hs i h (mkHandler (h_pc h) true) Hi) as Hw.
      unfold handler_weight in Hw at 2 4. cbn in Hw. destruct (h_closed h); lia.
    + enough (sy_close i hs = hs) as -> by done. apply list_eq. intros j.
      rewrite sy_close_lookup. case_decide as Hij; [|done]. subst j. by rewrite Hi.
  - rewrite (sy_close_insert _ _ _ Hi).
    pose proof (sum_list_with_insert handler_weight hs i h (mkHandler (h_pc h) true) Hi) as Hw.
    unfold handler_weight in Hw at 2 4. cbn in Hw. rewrite Hc in Hw. lia.
Qed.

(** No run goes on for ever once the channel is closed. *)
Lemma shutdown_sn s : sy_shutdown (sy_stop s) = true -> sn (any_step config) s.
Proof.
  induction s as [s IH] using (induction_ltof1 _ sys_weight). unfold ltof in IH.
  intros Hd. constructor. intros s' [peer Hs].
  destruct (server_step_weight _ _ _ Hs Hd) as [Hd' Hw]. by apply IH.
Qed.

(** What holds of every reachable state. *)
Record sys_inv (s : server_sys) : Prop := mk_sys_inv {
  inv_gone_closed : forall i h, sy_handlers s !! i = Some h -> is_gone h -> h_closed h = true;
  inv_returned : sy_stop s = SReturned -> sy_accept s = AGone /\ Forall is_gone (sy_handlers s);
}.

Lemma handler_step_gone locked shutdown peer h h' :
  handler_step config locked shutdown peer h h' -> ~ is_gone h /\ (is_gone h' -> h_closed h' = true).
Proof. unfold is_gone. by destruct 1; cbn. Qed.

Lemma server_step_inv peer s s' : server_step config peer s s' -> sys_inv s -> sys_inv s'.
Proof.
  destruct 1 as [p a hs i peer h h' Hi Hs|p hs Hp|p hs Hp|p hs|p hs Hp|p hs Hp|p hs|
    a hs|a hs|a hs|a hs|i todo a hs|i h todo a hs Hi Hc|a hs|hs Hg]; intros [Hgc Hret]; cbn in *;
    split; cbn; try done; try (intros ->; by destruct (Hret eq_refl)).
  - intros j x. destruct (decide (i = j)) as [->|Hne].
    + rewrite list_lookup_insert_eq by (by eapply lookup_lt_Some). intros [= <-].
      exact (proj2 (handler_step_gone _ _ _ _ _ Hs)).
    + rewrite list_lookup_insert_ne by done. eauto.
  - intros ->. destruct (Hret eq_refl) as [_ Hall]. apply handler_step_gone in Hs as [Hng _].
    by eapply Forall_lookup_1 in Hall.
  - intros j x [Hj|[_ Hj]]%lookup_app_Some; [eauto|].
    apply list_lookup_singleton_Some in Hj as [_ <-]. done.
  - intros j x. rewrite sy_close_lookup. case_decide; [|eauto].
    destruct (hs !! j); cbn; [|done]. by intros [= <-].
  - intros j x. rewrite sy_close_lookup. case_decide; [|eauto].
    destruct (hs !! j); cbn; [|done]. by intros [= <-].
Qed.

Lemma reachable_inv s : rtc (any_step config) (running []) s -> sys_inv s.
Proof.
  intros Hr. assert (sys_inv (running [])) as Hi by (by split).
  induction Hr as [|x y z [peer Hs] _ IH]; [done|]. by eapply IH, server_step_inv.
Qed.

(** What keeps a handler from moving by itself. *)
Lemma quiescent_handler s i h :
  quiescent config s -> sy_shutdown (sy_stop s) = true -> sy_handlers s !! i = Some h ->
  is_gone h \/ wants_mutex config h \/ reads_open h.
Proof.
  intros Hq Hd Hi. destruct s as [p a hs]. cbn in *.
  assert (forall h', ~ handler_step config (sy_locked p) true false h h') as Hno.
  { intros h' Hs. eapply Hq. eapply ss_handler; [done|]. by rewrite Hd. }
  destruct h as [pc c]. unfold wants_mutex, reads_open, is_gone. cbn. destruct pc; [| | | | | |by left].
  - destruct (ddos config) eqn:Hdd; [by auto|]. destruct (Hno (mkHandler HScan c)). constructor. congruence.
  - destruct c; [|by auto]. edestruct Hno. apply (hs_eof config _ _ true).
  - edestruct Hno. by apply hs_stop.
  - destruct (rated config) eqn:Hr; [by auto|]. destruct (Hno (mkHandler HWork c)). constructor. congruence.
  - edestruct Hno. apply hs_next.
  - edestruct Hno. apply hs_deferred.
Qed.

Lemma Forall_or_Exists {A} (P Q : A -> Prop) l :
  (forall i x, l !! i = Some x -> P x \/ Q x) -> Forall P l \/ Exists Q l.
Proof.
  induction l as [|x l IH]; intros H; [by left; constructor|].
  destruct (H 0%nat x eq_refl); [|by right; constructor].
  destruct IH as [|]; [intros i y; apply (H (S i))|by left; constructor|by right; constructor].
Qed.

(** A server with every handler gone whose [Stop] cannot move has stopped. *)
Lemma quiescent_stopped s :
  quiescent config s -> sy_shutdown (sy_stop s) = true -> Forall is_gone (sy_handlers s) ->
  sy_accept s = AGone /\ sy_stop s = SReturned.
Proof.
  intros Hq Hd Hall. destruct s as [p a hs]. cbn in *.
  assert (a = AGone) as ->.
  { destruct a; [| | |done]; edestruct Hq; [by apply ss_check_stop|apply ss_deadline|apply ss_register]. }
  split; [done|]. destruct p as [| | | |todo| |]; try done.
  - edestruct Hq. apply ss_close_listener.
  - edestruct Hq. apply ss_range.
  - destruct todo; edestruct Hq; [apply ss_range_end|apply ss_range_close].
  - edestruct Hq. by apply ss_wait.
Qed.

(** The connections that [clients.Range] is sure to close: from the moment it starts,
    each is closed or still to be visited. *)
Definition covered (n : nat) (s : server_sys) : Prop :=
  sy_shutdown (sy_stop s) = true /\ sy_stop s <> SShut /\
  (n <= length (sy_handlers s))%nat /\
  forall i h, (i < n)%nat -> sy_handlers s !! i = Some h ->
    h_closed h = true \/ sy_stop s = SListener \/ exists todo, sy_stop s = SRange todo /\ i ∈ todo.

Lemma handler_step_closed locked shutdown peer h h' :
  handler_step config locked shutdown peer h h' -> h_closed h = true -> h_closed h' = true.
Proof. by destruct 1. Qed.

Lemma elem_of_registered hs i h : hs !! i = Some h -> ~ is_gone h -> i ∈ sy_registered hs.
Proof.
  intros Hi Hg. unfold sy_registered. apply elem_of_bfilter. split.
  - apply elem_of_seq. apply lookup_lt_Some in Hi. lia.
  - rewrite Hi. unfold is_gone in Hg. by destruct (h_pc h).
Qed.

Lemma covered_step n s s' : any_step config s s' -> sys_inv s -> covered n s -> covered n s'.
Proof.
  intros [peer Hs] Hinv (Hd & Hne & Hlen & Hc).
  destruct Hs as [p a hs i peer h h' Hi Hs|p hs Hp|p hs Hp|p hs|p hs Hp|p hs Hp|p hs|
    a hs|a hs|a hs|a hs|i todo a hs|i h todo a hs Hi Hcl|a hs|hs Hg]; unfold covered in *; cbn in *; try done;
    (split_and!; [done|done|..]).
  - by rewrite length_insert.
  - intros j x Hj. destruct (decide (i = j)) as [->|Hij].
    + rewrite list_lookup_insert_eq by (by eapply lookup_lt_Some). intros [= <-].
      destruct (Hc j h Hj Hi) as [Hx|Hx]; [left|by right]. by eapply handler_step_closed.
    + rewrite list_lookup_insert_ne by done. eauto.
  - rewrite length_app. lia.
  - intros j x Hj Hx. rewrite lookup_app_l in Hx by lia. eauto.
  - done.
  - intros j x Hj Hx. destruct (decide (is_gone x)) as [Hg|Hg]; [left; by eapply Hinv|].
    right; right. eexists. split; [done|]. by eapply elem_of_registered.
  - by rewrite sy_close_length.
  - intros j x Hj. rewrite sy_close_lookup. case_decide as Hij.
    + destruct (hs !! j); cbn; [|done]. intros [= <-]. by left.
    + intros Hx. destruct (Hc j x Hj Hx) as [|[|(todo' & [= <-] & Hin)]]; [by left|done|].
      right; right. exists todo. split; [done|]. apply elem_of_cons in Hin as [|]; congruence.
  - by rewrite sy_close_length.
  - intros j x Hj. rewrite sy_close_lookup. case_decide as Hij; [|eauto].
    destruct (hs !! j); cbn; [|done]. intros [= <-]. by left.
  - done.
  - intros j x Hj Hx. destruct (Hc j x Hj Hx) as [|[|(todo' & [= <-] & Hin)]]; [by left|done|].
    by apply elem_of_nil in Hin.
  - done.
  - intros j x Hj Hx. destruct (Hc j x Hj Hx) as [|[|(todo' & ? & _)]]; [by left|done|done].
Qed.

Lemma covered_steps n s s' : rtc (any_step config) s s' -> sys_inv s -> covered n s -> covered n s'.
Proof.
  induction 1 as [|x y z Hxy _ IH]; [done|]. intros Hx Hc.
  apply IH; [|by eapply covered_step]. destruct Hxy. by eapply server_step_inv.
Qed.

(** A handler waiting for the mutex that [Stop] holds waits for ever, and so does
    [Stop]. *)
Lemma waiting_forever s s' i h :
  rtc (any_step config) s s' ->
  sy_locked (sy_stop s) = true -> sy_handlers s !! i = Some h -> wants_mutex config h ->
  sy_locked (sy_stop s') = true /\ exists h', sy_handlers s' !! i = Some h' /\ wants_mutex config h'.
Proof.
  intros Hr. revert h. induction Hr as [|x y z [peer Hs] _ IH]; intros h Hl Hi Hw; [by eauto|].
  assert (sy_locked (sy_stop y) = true /\ exists h', sy_handlers y !! i = Some h' /\ wants_mutex config h')
    as (Hl' & h' & Hi' & Hw'); [|by eapply IH].
  destruct Hs as [p a hs j peer g g' Hj Hs|p hs Hp|p hs Hp|p hs|p hs Hp|p hs Hp|p hs|
    a hs|a hs|a hs|a hs|j todo a hs|j g todo a hs Hj Hcl|a hs|hs Hg]; cbn in *; try done;
    try (split; [done|]); try by eauto.
  - destruct (decide (j = i)) as [->|Hne]; [|exists h; by rewrite list_lookup_insert_ne].
    assert (g = h) as -> by congruence. exfalso. rewrite Hl in Hs.
    destruct Hw as [[Hpc Hc]|[Hpc Hc]]; destruct Hs; cbn in Hpc; try done;
      match goal with Hb : _ = true -> true = false |- _ => by specialize (Hb Hc) end.
  - exists h. split; [|done]. by apply lookup_app_l_Some.
  - rewrite sy_close_lookup. case_decide; [|by eauto]. subst j. rewrite Hi. by eexists.
  - rewrite sy_close_lookup. case_decide; [|by eauto]. subst j. rewrite Hi. by eexists.
  - exfalso. rewrite Forall_lookup in Hg. specialize (Hg i h Hi). unfold is_gone in Hg.
    destruct Hw as [[Hpc _]|[Hpc _]]; congruence.
Qed.
End Lemmas.

(** ** Properties *)
Section Properties.
Context {config : TCPServerConfig}.

(** C22: Once [Stop] has closed the shutdown channel the server winds down: no run goes
    on for ever, whatever the peers send, and when nothing moves by itself any more
    either Stop has returned with the accept loop and every handler gone and every
    connection that the accept loop registered closed, or a handler is waiting for the mutex Stop holds, or a handler
    is reading a connection this side did not close, which is then one registered after
    Stop began to go through the connections. *)
Theorem TCPServer_Stop_winds_down s1 s :
  rtc (any_step config) (running []) s1 -> sy_stop s1 = SListener -> rtc (any_step config) s1 s ->
  sn (any_step config) s /\
  (quiescent config s ->
     (sy_stop s = SReturned /\ sy_accept s = AGone /\
        Forall (fun h => is_gone h /\ h_closed h = true) (sy_handlers s)) \/
     Exists (wants_mutex config) (sy_handlers s) \/
     (exists i h, sy_handlers s !! i = Some h /\ reads_open h /\ (length (sy_handlers s1) <= i)%nat)).
Proof.
  intros Hr1 Hs1 Hr. apply reachable_inv in Hr1 as Hinv1.
  assert (covered (length (sy_handlers s1)) s1) as Hcov1.
  { unfold covered. rewrite Hs1. split_and!; [done|done|done|]. intros. right. by left. }
  assert (sys_inv s) as Hinv by (eapply reachable_inv; by etransitivity).
  pose proof (covered_steps _ _ _ Hr Hinv1 Hcov1) as (Hd & _ & _ & Hcov).
  split; [by apply shutdown_sn|]. intros Hq.
  destruct (Forall_or_Exists is_gone (fun h => wants_mutex config h \/ reads_open h) (sy_handlers s))
    as [Hg|He]; [intros i h Hi; by eapply quiescent_handler| |].
  - left. destruct (quiescent_stopped s Hq Hd Hg) as [-> ->]. split_and!; [done|done|].
    apply Forall_lookup. intros i h Hi. split; [by eapply Forall_lookup_1|].
    eapply Hinv; [done|]. by eapply Forall_lookup_1.
  - right. apply Exists_exists in He as (h & Hin & [Hw|[Hpc Hcl]]); [left; apply Exists_exists; by eauto|].
    right. apply list_elem_of_lookup in Hin as [i Hi]. exists i, h. split_and!; [done|done|]. apply Nat.nlt_ge. intros Hlt.
    destruct (Hcov i h Hlt Hi) as [|[Hp|(todo & Hp & _)]]; [congruence|..];
      destruct s as [p a hs]; cbn in *; subst p; [edestruct Hq; apply ss_range|].
    destruct todo; edestruct Hq; [apply ss_range_end|apply ss_range_close].
Qed.

(** C36: With the connection guard on, Stop can deadlock: a connection accepted just
    before Stop takes the mutex puts the server in a state from which, whatever anyone
    does, Stop never returns and the mutex is never free again. *)
Theorem TCPServer_Stop_deadlocks :
  sc_EnableDDoSProtection config = true ->
  exists s, rtc (any_step config) (running []) s /\ sy_stop s = SLocked /\
    forall s', rtc (any_step config) s s' -> sy_stop s' <> SReturned /\ sy_locked (sy_stop s') = true.
Proof.
  intros Hdd. exists (mkServerSys SLocked ACheck [mkHandler HGuard false]). split_and!; [|done|].
  - eapply rtc_l; [exists false; by apply ss_check|].
    eapply rtc_l; [exists true; by apply ss_accept|].
    eapply rtc_l; [exists false; apply ss_register|].
    eapply rtc_l; [exists false; apply ss_lock|]. apply rtc_refl.
  - intros s' Hr.
    destruct (waiting_forever (config := config) _ s' 0 (mkHandler HGuard false) Hr eq_refl eq_refl)
      as [Hl _]; [by left|].
    split; [|done]. intros Hp. by rewrite Hp in Hl.
Qed.
End Properties.

(** ** Witnesses *)
Section Witnesses.

(** No guard: nothing takes the mutex but [Stop]. *)
Definition unguarded_config : TCPServerConfig := mkTCPServerConfig ""%string false false 0 0 0 [] [].

Definition stopping_example : server_sys :=
  mkServerSys SListener ACheck [mkHandler HScan false].

Definition stopped_example : server_sys := mkServerSys SReturned AGone [mkHandler HGone true].

Ltac server_step_with rule := eapply rtc_l; [eexists; rule|].

Lemma stopping_example_reachable : rtc (any_step unguarded_config) (running []) stopping_example.
Proof.
  server_step_with ltac:(by apply ss_check). server_step_with ltac:(by apply ss_accept).
  server_step_with ltac:(apply ss_register).
  server_step_with ltac:(eapply (ss_handler _ _ _ _ 0%nat); [done|by apply hs_guard]).
  server_step_with ltac:(apply ss_lock). server_step_with ltac:(apply ss_close_shutdown).
  server_step_with ltac:(apply ss_close_listener). apply rtc_refl.
Qed.

Lemma stopped_example_reachable : rtc (any_step unguarded_config) stopping_example stopped_example.
Proof.
  server_step_with ltac:(apply ss_range). server_step_with ltac:(apply ss_range_close).
  server_step_with ltac:(apply ss_range_end). server_step_with ltac:(by apply ss_check_stop).
  server_step_with ltac:(eapply (ss_handler _ _ _ _ 0%nat); [done|apply hs_eof]).
  server_step_with ltac:(eapply (ss_handler _ _ _ _ 0%nat); [done|apply hs_deferred]).
  eapply rtc_l; [eexists; apply ss_wait; by repeat constructor|]. apply rtc_refl.
Qed.

Lemma TCPServer_Stop_winds_down_witness :
  sn (any_step unguarded_config) stopped_example /\
  (quiescent unguarded_config stopped_example ->
     (sy_stop stopped_example = SReturned /\ sy_accept stopped_example = AGone /\
        Forall (fun h => is_gone h /\ h_closed h = true) (sy_handlers stopped_example)) \/
     Exists (wants_mutex unguarded_config) (sy_handlers stopped_example) \/
     (exists i h, sy_handlers stopped_example !! i = Some h /\ reads_open h /\ (1 <= i)%nat)).
Proof.
  exact (TCPServer_Stop_winds_down stopping_example stopped_example stopping_example_reachable eq_refl
           stopped_example_reachable).
Defined.

Lemma TCPServer_Stop_deadlocks_witness :
  exists s, rtc (any_step (mkTCPServerConfig ""%string false true 0 10 0 [] [])) (running []) s /\ sy_stop s = SLocked /\
    forall s', rtc (any_step (mkTCPServerConfig ""%string false true 0 10 0 [] [])) s s' ->
      sy_stop s' <> SReturned /\ sy_locked (sy_stop s') = true.
Proof. apply (TCPServer_Stop_deadlocks (config := mkTCPServerConfig ""%string false true 0 10 0 [] [])). reflexivity. Defined.

End Witnesses.
