(* ===== verification/TcpClient.v ===== *)
(** * The TCP client (tcp_client.go)

    Go's mutexes are not reentrant: a goroutine that asks for a lock it holds itself
    waits forever. The client's two locks are part of its state, and an operation that
    would wait for its own lock is [Blocked]. The connection is a parameter: what its
    deadlines, a write of some bytes and one call of a new scanner do to the world [W]. *)
From S2P Require Import Prelude.
From S2P Require Import Errors.
From S2P Require Import GoFloat.
From S2P Require Import GoStrings.
From S2P Require Import JsonString.
From S2P Require Import JsonValue.
From S2P Require Import Runtime.
From S2P Require Import TcpProtocol.
From S2P Require Import Scanner.
Local Open Scope string_scope.
Local Open Scope list_scope.
Local Open Scope Z_scope.

(** The result of an operation of one goroutine that started with no lock held. *)
Inductive locked (T : Type) : Type :=
  | Done (v : T)
  | Blocked.
Arguments Done {T} v.
Arguments Blocked {T}.

Definition locked_bind {A B} (o : locked A) (k : A -> locked B) : locked B :=
  match o with Done v => k v | Blocked => Blocked end.

(** [tcl_conn]: whether [conn] is non-nil; [tcl_mu]: whether [mu] is held;
    [tcl_connMu]: [None] when free, else whether it is held for writing. *)
Record TCPClient : Type := mkTCPClient {
  tcl_address : string;
  tcl_conn : bool;
  tcl_messageID : Z;
  tcl_timeout : Z;
  tcl_connected : bool;
  tcl_mu : bool;
  tcl_connMu : option bool;
}.

Definition NewTCPClient (address : string) (timeout : Z) : TCPClient :=
  let t := if 0 <? timeout then timeout else 30 * Second in
  mkTCPClient address false 0 t false false None.

(** ** The locks *)
Definition connMu_Lock (c : TCPClient) : locked TCPClient :=
  match tcl_connMu c with
  | None => Done (c{{tcl_connMu := Some true}})
  | Some _ => Blocked
  end.

Definition connMu_RLock (c : TCPClient) : locked TCPClient :=
  match tcl_connMu c with
  | None => Done (c{{tcl_connMu := Some false}})
  | Some _ => Blocked
  end.

Definition connMu_Unlock (c : TCPClient) : TCPClient := c{{tcl_connMu := None}}.

Definition mu_Lock (c : TCPClient) : locked TCPClient :=
  if tcl_mu c then Blocked else Done (c{{tcl_mu := true}}).

Definition mu_Unlock (c : TCPClient) : TCPClient := c{{tcl_mu := false}}.

Definition free (c : TCPClient) : Prop := tcl_mu c = false /\ tcl_connMu c = None.

Definition TCPClient_GetAddress (c : TCPClient) : string := tcl_address c.

Definition TCPClient_SetTimeout (timeout : Z) (c : TCPClient) : TCPClient :=
  c{{tcl_timeout := timeout}}.

(** net.Conn, and the scanner [sendAndReceive] makes on it for one line. *)
Class NetConn (W : Type) : Type := {
  net_Dial : W -> W * option error;
  net_SetWriteDeadline : W -> option error;
  net_SetReadDeadline : W -> option error;
  net_Write : string -> W -> W * option error;
  net_Scan : W -> W * scanned;
  net_Close : W -> W;
}.

(** The error of an answer to another message. *)
Definition ID_mismatch (expected got : string) : error :=
  Errorf ("response ID mismatch: expected " +:+ expected +:+ ", got " +:+ got).

Section Client.
Context `{NetOps : NetConn W}.
(** The text of a [time.Time] among the arguments. *)
Context (time_text : Z -> option string).

Definition TCPClient_Connect (c : TCPClient) (w : W) : locked (TCPClient * W * option error) :=
  locked_bind (connMu_Lock c) (fun c =>
    if tcl_connected c then Done (connMu_Unlock c, w, Some (Errorf "already connected"))
    else
      let '(w, err) := net_Dial w in
      match err with
      | Some e => Done (connMu_Unlock c, w,
                        Some (Wrapf ("failed to connect to " +:+ tcl_address c +:+ ": ") e ""))
      | None => Done (connMu_Unlock (c{{tcl_conn := true; tcl_connected := true}}), w, None)
      end).

Definition TCPClient_IsConnected (c : TCPClient) : locked (TCPClient * bool) :=
  locked_bind (connMu_RLock c) (fun c => Done (connMu_Unlock c, tcl_connected c)).

(** [nextID]: the atomic counter and the ID in decimal. *)
Definition TCPClient_nextID (c : TCPClient) : TCPClient * string :=
  let id := wrapu64 (tcl_messageID c + 1) in
  (c{{tcl_messageID := id}}, pretty id).

Definition TCPClient_sendMessage (msg : TCPMessage sql_value) (c : TCPClient) (w : W)
    : locked (TCPClient * W * option error) :=
  locked_bind (mu_Lock c) (fun c =>
  locked_bind (TCPClient_IsConnected c) (fun '(c, connected) =>
    if negb connected then Done (mu_Unlock c, w, Some (Errorf "not connected"))
    else
      match EncodeTCPMessage time_text msg with
      | Err err => Done (mu_Unlock c, w, Some err)
      | Ok data =>
          let '(w, err) := net_Write data w in
          Done (mu_Unlock c, w, match err with
                                | Some e => Some (Wrapf "failed to send message: " e "")
                                | None => None
                                end)
      end)).

Definition TCPClient_Disconnect (c : TCPClient) (w : W) : locked (TCPClient * W * option error) :=
  locked_bind (connMu_Lock c) (fun c =>
    if negb (tcl_connected c) then Done (connMu_Unlock c, w, Some (Errorf "not connected"))
    else
      let '(c, id) := TCPClient_nextID c in
      let msg := mkTCPMessage MessageTypeClose id "" [] "" "" "" 0 in
      locked_bind (TCPClient_sendMessage msg c w) (fun '(c, w, _) =>
        let '(c, w) := if tcl_conn c then (c{{tcl_conn := false}}, net_Close w) else (c, w) in
        Done (connMu_Unlock (c{{tcl_connected := false}}), w, None))).

(** What [sendAndReceive] does between its two locks: one message out, one line in. *)
Definition TCPClient_exchange (msg : TCPMessage sql_value) (w : W) : W * result error TCPResponse :=
  match net_SetWriteDeadline w with
  | Some e => (w, Err (Wrapf "failed to set write deadline: " e ""))
  | None =>
      match EncodeTCPMessage time_text msg with
      | Err err => (w, Err err)
      | Ok data =>
          let '(w, err) := net_Write data w in
          match err with
          | Some e => (w, Err (Wrapf "failed to send message: " e ""))
          | None =>
              match net_SetReadDeadline w with
              | Some e => (w, Err (Wrapf "failed to set read deadline: " e ""))
              | None =>
                  let '(w, r) := net_Scan w in
                  match r with
                  | ScanErr e => (w, Err (Wrapf "failed to read response: " e ""))
                  | ScanEOF => (w, Err (Errorf "connection closed"))
                  | Line line =>
                      match DecodeTCPResponse line with
                      | Err err => (w, Err err)
                      | Ok resp =>
                          (w, if String.eqb (resp_ID resp) (msg_ID msg) then Ok resp
                              else Err (Errorf ("response ID mismatch: expected " +:+ msg_ID msg +:+
                                                ", got " +:+ resp_ID resp)))
                      end
                  end
              end
          end
      end
  end.

Definition TCPClient_sendAndReceive (msg : TCPMessage sql_value) (c : TCPClient) (w : W)
    : locked (TCPClient * W * result error TCPResponse) :=
  locked_bind (mu_Lock c) (fun c =>
  locked_bind (TCPClient_IsConnected c) (fun '(c, connected) =>
    if negb connected then Done (mu_Unlock c, w, Err (Errorf "not connected"))
    else let '(w, r) := TCPClient_exchange msg w in Done (mu_Unlock c, w, r))).

(** The calls share this shape: a fresh ID, one exchange, and the answer's data. *)
Definition TCPClient_call {T} (ty query key verb : string) (args : list sql_value)
    (parse : string -> result error T) (c : TCPClient) (w : W)
    : locked (TCPClient * W * result error T) :=
  let '(c, id) := TCPClient_nextID c in
  let msg := mkTCPMessage ty id query args "" key "" 0 in
  locked_bind (TCPClient_sendAndReceive msg c w) (fun '(c, w, r) =>
    match r with
    | Err e => Done (c, w, Err e)
    | Ok resp =>
        if negb (resp_Success resp)
        then Done (c, w, Err (Errorf (verb +:+ " failed: " +:+ resp_Error resp)))
        else Done (c, w, parse (resp_Data resp))
    end).

Definition TCPClient_Ping (c : TCPClient) (w : W) : locked (TCPClient * W * result error unit) :=
  TCPClient_call MessageTypePing "" "" "ping" [] (fun _ => Ok tt) c w.

Definition TCPClient_ExecWithIdempotency (query key : string) (args : list sql_value) (c : TCPClient) (w : W)
    : locked (TCPClient * W * result error ExecResult) :=
  TCPClient_call MessageTypeExec query key "exec" args ParseExecResult c w.

Definition TCPClient_Exec (query : string) (args : list sql_value) (c : TCPClient) (w : W)
    : locked (TCPClient * W * result error ExecResult) :=
  TCPClient_ExecWithIdempotency query "" args c w.

Definition TCPClient_QueryWithIdempotency (query key : string) (args : list sql_value) (c : TCPClient) (w : W)
    : locked (TCPClient * W * result error (QueryResult any)) :=
  TCPClient_call MessageTypeQuery query key "query" args ParseQueryResult c w.

Definition TCPClient_Query (query : string) (args : list sql_value) (c : TCPClient) (w : W)
    : locked (TCPClient * W * result error (QueryResult any)) :=
  TCPClient_QueryWithIdempotency query "" args c w.

Definition TCPClient_Stats (c : TCPClient) (w : W) : locked (TCPClient * W * result error StatsResult) :=
  TCPClient_call MessageTypeStats "" "" "stats" [] ParseStatsResult c w.

Definition TCPClient_Metrics (c : TCPClient) (w : W)
    : locked (TCPClient * W * result error MetricsResult) :=
  TCPClient_call MessageTypeMetrics "" "" "metrics" [] ParseMetricsResult c w.

(** ** Properties *)

(** Disconnect never returns on a connected client: it holds the connection lock
    and the message it sends asks for that lock again. On a client that is not
    connected it reports so and leaves the client as it was. *)
Theorem TCPClient_Disconnect_deadlocks c w :
  free c ->
  TCPClient_Disconnect c w =
    (if tcl_connected c then Blocked else Done (c, w, Some (Errorf "not connected"))).
Proof.
  intros [Hmu Hconn]. destruct c as [addr conn id tmo connected mu cmu]. cbn in *. subst mu cmu.
  by destruct connected.
Qed.

(** Every other operation gives both locks back. *)
Lemma TCPClient_sendAndReceive_returns msg c w :
  free c ->
  TCPClient_sendAndReceive msg c w =
    (if tcl_connected c then Done (c, (TCPClient_exchange msg w).1, (TCPClient_exchange msg w).2)
     else Done (c, w, Err (Errorf "not connected"))).
Proof.
  intros [Hmu Hconn]. destruct c as [addr conn id tmo connected mu cmu]. cbn in *. subst mu cmu.
  unfold TCPClient_sendAndReceive. cbn. destruct connected; cbn; [|done].
  by destruct (TCPClient_exchange msg w) as [w1 r].
Qed.

(** A call gives both locks back too, and does not end the connection. *)
Lemma TCPClient_call_returns {T} ty query key verb args (parse : string -> result error T) c w :
  free c -> exists w' r,
    TCPClient_call ty query key verb args parse c w = Done ((TCPClient_nextID c).1, w', r) /\
    (tcl_connected c = false -> r = Err (Errorf "not connected")).
Proof.
  intros Hf. unfold TCPClient_call. destruct (TCPClient_nextID c) as [c1 id] eqn:Hn.
  assert (Hf1 : free c1 /\ tcl_connected c1 = tcl_connected c).
  { unfold TCPClient_nextID in Hn. injection Hn as <- _. by destruct c. }
  destruct Hf1 as [Hf1 Hc1]. rewrite TCPClient_sendAndReceive_returns by done. rewrite Hc1. cbn [fst locked_bind].
  destruct (tcl_connected c); [|by do 2 eexists].
  cbn [locked_bind]. destruct (TCPClient_exchange _ w) as [w1 [resp|e]]; cbn [fst snd].
  - destruct (negb (resp_Success resp)); do 2 eexists; by split.
  - do 2 eexists. by split.
Qed.

(** ** Message IDs *)
Fixpoint nextIDs (n : nat) (c : TCPClient) : list string :=
  match n with
  | O => []
  | S n => let '(c, id) := TCPClient_nextID c in id :: nextIDs n c
  end.

Lemma nextIDs_spec n c :
  nextIDs n c = map (fun i => pretty (wrapu64 (tcl_messageID c + Z.of_nat i + 1))) (seq 0 n).
Proof.
  revert c. induction n as [|n IH]; intros c; [done|]. cbn [nextIDs TCPClient_nextID seq map].
  rewrite IH, <- seq_shift, List.map_map. f_equal; [do 2 f_equal; lia|].
  apply map_ext. intros i. destruct c. cbn. f_equal. unfold wrapu64.
  rewrite <- (Z.add_assoc _ (Z.of_nat i)), Zplus_mod_idemp_l. f_equal. lia.
Qed.

(** A client's message IDs do not repeat: any 2^64 consecutive ones are pairwise
    different, so an answer with the expected ID belongs to the request that waits
    for it. *)
Theorem TCPClient_nextID_unique c n :
  Z.of_nat n <= 2 ^ 64 -> NoDup (nextIDs n c).
Proof.
  intros Hn. rewrite nextIDs_spec. apply NoDup_fmap_2_strong; [|apply NoDup_seq].
  intros i j Hi%elem_of_seq Hj%elem_of_seq Heq%(inj pretty). unfold wrapu64 in Heq.
  set (a := tcl_messageID c + 1) in *.
  replace (tcl_messageID c + Z.of_nat i + 1) with (a + Z.of_nat i) in Heq by lia.
  replace (tcl_messageID c + Z.of_nat j + 1) with (a + Z.of_nat j) in Heq by lia.
  assert (Hd : (Z.of_nat i - Z.of_nat j) mod 2 ^ 64 = 0).
  { replace (Z.of_nat i - Z.of_nat j) with ((a + Z.of_nat i) - (a + Z.of_nat j)) by lia.
    rewrite Zminus_mod, Heq, Z.sub_diag. done. }
  apply Z.mod_divide in Hd as [q Hq]; [|lia]. nia.
Qed.

(** Two in a row, in particular. *)
Lemma TCPClient_nextIDs_differ c : (TCPClient_nextID c).2 <> (TCPClient_nextID (TCPClient_nextID c).1).2.
Proof.
  intros Heq. cbn in Heq. apply (inj pretty) in Heq. unfold wrapu64 in Heq. destruct c as [a k n t b m d].
  cbn in Heq. rewrite Zplus_mod_idemp_l in Heq.
  pose proof (Z.div_mod (n + 1) (2 ^ 64) ltac:(lia)). pose proof (Z.div_mod (n + 1 + 1) (2 ^ 64) ltac:(lia)).
  lia.
Qed.

End Client.

(** ** A client and a server that answers in order *)
Section Desync.
Context (time_text : Z -> option string).
(** The line the server answers to what a write brings it. *)
Context (answer : string -> string).

(** The connection: the answers on their way, oldest first, each arriving in a read of
    its own. *)
Local Instance pipe : NetConn (list arrival) := {
  net_Dial w := (w, None);
  net_SetWriteDeadline _ := None;
  net_SetReadDeadline _ := None;
  net_Write data w := (w ++ [Bytes (answer data +:+ new_line)], None);
  net_Scan w := let '(r, (_, _, w)) := Scan "" None w in (w, r);
  net_Close w := w;
}.

(** An answer with some ID on one line. *)
Definition answers (id line : string) : Prop :=
  one_line line /\ exists resp, DecodeTCPResponse line = Ok resp /\ resp_ID resp = id.

(** The server answers a message with its ID. *)
Definition answered (msg : TCPMessage sql_value) : Prop :=
  exists data, EncodeTCPMessage time_text msg = Ok data /\ answers (msg_ID msg) (answer data).

(** What a call asks for: the message but for its ID, and the verb of its errors. *)
Record request : Type := mkRequest {
  rq_Type : string;
  rq_Query : string;
  rq_Key : string;
  rq_Verb : string;
  rq_Args : list sql_value;
}.

Definition request_message (q : request) (id : string) : TCPMessage sql_value :=
  mkTCPMessage (rq_Type q) id (rq_Query q) (rq_Args q) "" (rq_Key q) "" 0.

(** Calls one after the other, and what each returns (the data before it is parsed). *)
Fixpoint calls (qs : list request) (c : TCPClient) (w : list arrival) : list (result error string) :=
  match qs with
  | [] => []
  | q :: qs =>
      match TCPClient_call time_text (rq_Type q) (rq_Query q) (rq_Key q) (rq_Verb q) (rq_Args q) Ok c w with
      | Done (c, w, r) => r :: calls qs c w
      | Blocked => []
      end
  end.

(** What the call of a request with an ID ought to return: what the server's answer to
    its own message says. *)
Definition own_answer (q : request) (id : string) : result error string :=
  match EncodeTCPMessage time_text (request_message q id) with
  | Err err => Err err
  | Ok data =>
      match DecodeTCPResponse (answer data) with
      | Err err => Err err
      | Ok resp => if resp_Success resp then Ok (resp_Data resp)
                   else Err (Errorf (rq_Verb q +:+ " failed: " +:+ resp_Error resp))
      end
  end.

Lemma Scan_one_line line ar :
  one_line line -> Scan "" None (Bytes (line +:+ new_line) :: ar) = (Line line, ("", None, ar)).
Proof.
  intros (Hs & Hd & Hl). cbn [Scan Cut]. change (too_long "") with false. cbv iota.
  change ("" +:+ (line +:+ new_line)) with (line +:+ String newline "").
  destruct ar as [|[b|e] ar]; cbn [Scan]; rewrite Cut_app by done; by rewrite Hl, Hd.
Qed.

(** A call writes its message and reads the oldest line. *)
Lemma call_oldest q c w :
  free c -> tcl_connected c = true ->
  let id := (TCPClient_nextID c).2 in
  answered (request_message q id) ->
  exists data, EncodeTCPMessage time_text (request_message q id) = Ok data /\
    answers id (answer data) /\
    TCPClient_call time_text (rq_Type q) (rq_Query q) (rq_Key q) (rq_Verb q) (rq_Args q) Ok c w =
      let '(r, (_, _, w')) := Scan "" None (w ++ [Bytes (answer data +:+ new_line)]) in
      Done ((TCPClient_nextID c).1, w',
        match r with
        | ScanErr e => Err (Wrapf "failed to read response: " e "")
        | ScanEOF => Err (Errorf "connection closed")
        | Line line =>
            match DecodeTCPResponse line with
            | Err err => Err err
            | Ok resp => if negb (String.eqb (resp_ID resp) id) then Err (ID_mismatch id (resp_ID resp))
                         else if resp_Success resp then Ok (resp_Data resp)
                         else Err (Errorf (rq_Verb q +:+ " failed: " +:+ resp_Error resp))
            end
        end).
Proof.
  intros Hf Hc id (data & He & Ha). exists data. split; [done|]. split; [done|].
  assert (Hfree1 : free (TCPClient_nextID c).1) by (by destruct c, Hf; split).
  assert (Hconn1 : tcl_connected (TCPClient_nextID c).1 = true) by (by destruct c).
  unfold TCPClient_call. subst id. destruct (TCPClient_nextID c) as [c1 id]. cbn [fst snd] in *.
  rewrite TCPClient_sendAndReceive_returns, Hconn1 by done. unfold TCPClient_exchange.
  fold (request_message q id). rewrite He.
  cbn [net_SetWriteDeadline net_SetReadDeadline net_Write net_Scan pipe app].
  destruct (Scan "" None _) as [[line|e|] [[buf err] w']]; cbn [fst snd locked_bind]; [|done..].
  destruct (DecodeTCPResponse line) as [resp|e]; [|done].
  cbn [request_message msg_ID]. destruct (String.eqb (resp_ID resp) id); [|done].
  cbn [negb fst snd]. by destruct (resp_Success resp).
Qed.

(** The requests with the IDs a client will give them. *)
Definition issued (qs : list request) (c : TCPClient) : list (request * string) :=
  zip qs (nextIDs (length qs) c).

Definition all_answered (qs : list request) (c : TCPClient) : Prop :=
  Forall (fun '(q, id) => answered (request_message q id)) (issued qs c).

Lemma all_answered_cons q qs c :
  all_answered (q :: qs) c ->
  answered (request_message q (TCPClient_nextID c).2) /\ all_answered qs (TCPClient_nextID c).1.
Proof.
  unfold all_answered, issued. cbn [length nextIDs]. destruct (TCPClient_nextID c) as [c1 id].
  cbn [zip zip_with fst snd]. by rewrite Forall_cons.
Qed.

Lemma nextID_ready c :
  free c -> tcl_connected c = true ->
  free (TCPClient_nextID c).1 /\ tcl_connected (TCPClient_nextID c).1 = true.
Proof. by destruct c. Qed.

Lemma calls_in_step qs : forall c,
  free c -> tcl_connected c = true -> all_answered qs c ->
  calls qs c [] = map (fun '(q, id) => own_answer q id) (issued qs c).
Proof.
  induction qs as [|q qs IH]; intros c Hf Hc Ha; [done|].
  apply all_answered_cons in Ha as [Hq Ha]. destruct (nextID_ready c Hf Hc) as [Hf1 Hc1].
  cbn [calls]. destruct (call_oldest q c [] Hf Hc Hq) as (data & He & (Hl & resp & Hd & Hid) & ->).
  cbn [app]. rewrite Scan_one_line, Hd by done. rewrite IH by done.
  unfold issued. cbn [length nextIDs]. unfold own_answer.
  destruct (TCPClient_nextID c) as [c1 id]. cbn [fst snd zip zip_with map] in *.
  by rewrite He, Hd, Hid, String.eqb_refl.
Qed.

(** With the answer to [got] ahead of its own, each call takes that of the one before. *)
Fixpoint mismatches (got : string) (ids : list string) : list (result error string) :=
  match ids with
  | [] => []
  | id :: ids => Err (ID_mismatch id got) :: mismatches id ids
  end.

Lemma calls_stale qs : forall got line c,
  free c -> tcl_connected c = true -> all_answered qs c -> answers got line ->
  NoDup (got :: nextIDs (length qs) c) ->
  calls qs c [Bytes (line +:+ new_line)] = mismatches got (nextIDs (length qs) c).
Proof.
  induction qs as [|q qs IH]; intros got line c Hf Hc Ha (Hl & resp & Hd & Hid) Hnd; [done|].
  apply all_answered_cons in Ha as [Hq Ha]. destruct (nextID_ready c Hf Hc) as [Hf1 Hc1].
  cbn [calls length nextIDs] in *.
  destruct (call_oldest q c [Bytes (line +:+ new_line)] Hf Hc Hq) as (data & He & Hans & ->).
  cbn [app]. rewrite Scan_one_line, Hd by done.
  destruct (TCPClient_nextID c) as [c1 id]. cbn [fst snd mismatches] in *.
  apply NoDup_cons in Hnd as [Hin Hnd].
  assert (Hne : String.eqb (resp_ID resp) id = false).
  { apply String.eqb_neq. rewrite Hid. intros ->. apply Hin, elem_of_cons. by left. }
  rewrite Hne, Hid. cbn [negb]. f_equal. by apply IH.
Qed.

(** C35: One missed answer spoils the connection. Against a server that answers every
    message in order with the message's ID, each answer arriving in a read of its own,
    the calls of a connected client return each the answer to its own message; but when
    the read of the first one times out, that call fails with the timeout and every later
    one, for as long as the connection is used (and message IDs do not repeat, so up to
    2^64 calls), with an ID mismatch between the ID it expects and that of the call
    before it, whose answer it has read. *)
Theorem TCPClient_desync q qs timeout c :
  free c -> tcl_connected c = true -> all_answered (q :: qs) c -> Z.of_nat (length (q :: qs)) <= 2 ^ 64 ->
  calls (q :: qs) c [] = map (fun '(q, id) => own_answer q id) (issued (q :: qs) c) /\
  calls (q :: qs) c [ReadErr timeout] =
    Err (Wrapf "failed to read response: " timeout "") ::
    mismatches (TCPClient_nextID c).2 (nextIDs (length qs) (TCPClient_nextID c).1).
Proof.
  intros Hf Hc Ha Hlen. split; [by apply calls_in_step|].
  pose proof (TCPClient_nextID_unique c _ Hlen) as Hnd. cbn [length nextIDs] in Hnd.
  apply all_answered_cons in Ha as [Hq Ha]. destruct (nextID_ready c Hf Hc) as [Hf1 Hc1].
  cbn [calls]. destruct (call_oldest q c [ReadErr timeout] Hf Hc Hq) as (data & He & Hans & ->).
  cbn [app Scan Cut]. change (too_long "") with false. cbn [last_line]. cbv iota. f_equal.
  destruct (TCPClient_nextID c) as [c1 id]. cbn [fst snd] in *. by apply calls_stale.
Qed.

(** When two answers arrive in one read the second is lost with the scanner that
    buffered it: the call takes the first and nothing is left for the next. *)
Lemma TCPClient_read_ahead_lost msg data line line' :
  EncodeTCPMessage time_text msg = Ok data -> answers (msg_ID msg) line ->
  exists r, TCPClient_exchange time_text msg [Bytes (line +:+ new_line +:+ line' +:+ new_line)] =
      ([Bytes (answer data +:+ new_line)], r) /\ is_Ok r = true.
Proof.
  intros He ((Hs & Hdr & Htl) & resp & Hd & Hid). unfold TCPClient_exchange. rewrite He. cbn [net_SetWriteDeadline net_SetReadDeadline net_Write net_Scan pipe app].
  cbn [Scan Cut]. change (too_long "") with false. cbv iota.
  change ("" +:+ (line +:+ new_line +:+ line' +:+ new_line)) with (line +:+ String newline (line' +:+ new_line)).
  cbn [Scan]. rewrite Cut_app, Htl, Hdr, Hd by done. eexists. split; [done|]. by rewrite Hid, String.eqb_refl.
Qed.

End Desync.

(** ** The hypotheses can hold *)
Definition client_example : TCPClient := mkTCPClient "127.0.0.1:9000" true 3 (30 * Second) true false None.

Lemma TCPClient_Disconnect_deadlocks_witness :
  TCPClient_Disconnect (NetOps := pipe (fun s => s)) (fun _ => None) client_example [] = Blocked.
Proof.
  refine (TCPClient_Disconnect_deadlocks (NetOps := pipe (fun s => s)) (fun _ => None) client_example [] _).
  split; reflexivity.
Defined.

Lemma TCPClient_nextID_unique_witness : NoDup (nextIDs 3 client_example).
Proof. apply (TCPClient_nextID_unique client_example 3). vm_compute. discriminate. Defined.

Definition ping_request : request := mkRequest MessageTypePing "" "" "ping" [].

(** A server that answers every message with a success. *)
Definition server_answer (data : string) : string :=
  match DecodeTCPMessage data with
  | Ok msg =>
      match EncodeTCPResponse (mkTCPResponse (msg_ID msg) true "" "") with
      | Ok line => String.substring 0 (String.length line - 1) line
      | Err _ => ""
      end
  | Err _ => ""
  end.

Lemma ping_answered : all_answered (fun _ => None) server_answer (replicate 3 ping_request) client_example.
Proof.
  repeat (apply Forall_cons; split); [..|constructor];
    (eexists; split; [vm_compute; reflexivity|]; split; [split; [|split]; vm_compute; reflexivity|];
     eexists; split; [vm_compute; reflexivity|reflexivity]).
Qed.

(** The second and the third ping read the answers to the first and the second. *)
Lemma TCPClient_desync_witness :
  calls (fun _ => None) server_answer (replicate 3 ping_request) client_example [] = [Ok ""; Ok ""; Ok ""] /\
  calls (fun _ => None) server_answer (replicate 3 ping_request) client_example [ReadErr (External 8 "i/o timeout")] =
    [Err (Wrapf "failed to read response: " (External 8 "i/o timeout") "");
     Err (Errorf "response ID mismatch: expected 5, got 4");
     Err (Errorf "response ID mismatch: expected 6, got 5")].
Proof.
  destruct (TCPClient_desync (fun _ => None) server_answer ping_request (replicate 2 ping_request)
    (External 8 "i/o timeout") client_example) as [H1 H2].
  - split; reflexivity.
  - reflexivity.
  - exact ping_answered.
  - vm_compute. discriminate.
  - split; [etransitivity; [exact H1|vm_compute; reflexivity]|exact H2].
Defined.
