(* ===== verification/TcpWire.v ===== *)
(** * The protocol end to end (tcp_protocol.go, tcp_server.go, tcp_client.go)

    The bytes of a connection between the codec, the scanners and the two ends: what the
    client sends is what the server's loop handles, in order and one for one; a line over
    the megabyte ends the connection unread; and a call of the client over a connection
    to the server returns what the server's runtime returned. *)
From Stdlib Require Import Ascii.
From S2P Require Import Prelude.
From S2P Require Import Errors.
From S2P Require Import GoFloat.
From S2P Require Import GoStrings.
From S2P Require Import JsonString.
From S2P Require Import Json.
From S2P Require Import JsonText.
From S2P Require Import GoDecimal.
From S2P Require Import JsonValue.
From S2P Require Import Gate.
From S2P Require Import Cache.
From S2P Require Import Sql.
From S2P Require Import Db.
From S2P Require Import Open.
From S2P Require Import Config.
From S2P Require Import Runtime.
From S2P Require Import Rows.
From S2P Require Import TcpProtocol.
From S2P Require Import Scanner.
From S2P Require Import TcpServer.
From S2P Require Import TcpClient.
Local Open Scope string_scope.
Local Open Scope list_scope.
Local Open Scope Z_scope.

(** ** Encoded text is one line *)
Section OneLine.

Lemma plain_no_newline s : plain_text s = true -> Split newline s = [s].
Proof.
  unfold plain_text. induction s as [|c s IH]; [done|]. cbn [String.list_ascii_of_string forallb Split].
  intros [Hc Hs]%andb_prop. destruct (Ascii.eqb_spec c newline) as [->|_]; [done|]. by rewrite IH.
Qed.

Lemma substring_last s c : String.substring (String.length s) 1 (s +:+ String c "") = String c "".
Proof. induction s as [|d s IH]; [done|]. exact IH. Qed.

Lemma plain_drop_cr s : plain_text s = true -> drop_cr s = s.
Proof.
  intros Hp. assert (Hs : s = "" \/ exists t c, s = t +:+ String c "").
  { clear Hp. induction s as [|c s IH]; [by left|right]. destruct IH as [->|(t & d & ->)].
    - by exists "", c.
    - by exists (String c t), d. }
  destruct Hs as [->|(t & c & ->)]; [done|]. unfold drop_cr.
  rewrite String_length_app, Nat.add_1_r, substring_last.
  rewrite plain_text_app in Hp. apply andb_prop in Hp as [_ Hp].
  destruct (String.eqb_spec (String c "") (String "013" "")) as [[= ->]|_]; [discriminate Hp|done].
Qed.

(** [line]: a text and its line end, that fit the scanner's buffer. *)
Definition fits (line : string) : Prop := bytes_len line <= maxTokenSize.

Lemma plain_one_line text : plain_text text = true -> fits (text +:+ new_line) -> one_line text.
Proof.
  intros Hp Hf. split; [by apply plain_no_newline|]. split; [by apply plain_drop_cr|].
  unfold fits, bytes_len in Hf. rewrite String_length_app in Hf. cbn [String.length new_line] in Hf.
  unfold too_long, bytes_len. apply Z.leb_gt. lia.
Qed.

Lemma unfit_too_long text : ~ fits (text +:+ new_line) -> too_long text = true.
Proof.
  unfold fits, too_long, bytes_len. rewrite String_length_app. cbn [String.length new_line].
  intros Hf. apply Z.leb_le. lia.
Qed.

End OneLine.

(** ** A client's messages on the server's side *)
Section Session.
Context (time_text : Z -> option string).

(** A message as the client makes it: no raw payload, and 64-bit integers. *)
Definition sendable (msg : TCPMessage sql_value) : Prop :=
  msg_Payload msg = "" /\ Forall value_in_range (msg_Args msg) /\ in_int64 (msg_RequestSize msg).

(** Its line. *)
Definition encodes (msg : TCPMessage sql_value) (line : string) : Prop :=
  EncodeTCPMessage time_text msg = Ok line /\ sendable msg.

Lemma encodes_text msg line :
  encodes msg line -> exists text, line = text +:+ new_line /\ plain_text text = true /\
    DecodeTCPMessage text = Ok (received_message time_text msg).
Proof. intros (He & Hp & Hr & Hs). by apply message_crosses. Qed.

Lemma encoded_lines msgs lines :
  Forall2 encodes msgs lines -> Forall fits lines ->
  exists texts, concat_bytes lines = sent_lines texts /\ Forall one_line texts /\
    Forall2 (fun msg text => DecodeTCPMessage text = Ok (received_message time_text msg)) msgs texts.
Proof.
  intros Hm Hf. induction Hm as [|msg line msgs lines He Hm IH]; [by exists []|].
  apply Forall_cons in Hf as [Hf Hfs]. destruct (IH Hfs) as (texts & Hc & Ho & Hd).
  destruct (encodes_text msg line He) as (text & -> & Hp & Hdec).
  exists (text :: texts). split; [|split; [constructor|by constructor]].
  - cbn [concat_bytes foldr sent_lines] in *. change (foldr String.append "" lines) with (concat_bytes lines).
    rewrite Hc. unfold new_line. by rewrite String_app_assoc.
  - by apply plain_one_line.
  - done.
Qed.

(** C11: What the client sends is what the server decodes: the lines the server's scanner
    finds in the bytes of any number of messages of at most a megabyte, however the
    connection cuts them into reads, decode to those messages in order, one for one, whatever their strings hold;
    and the scan ends. Only the values have changed as [received_message] says. *)
Theorem messages_delivered msgs lines chunks :
  Forall2 encodes msgs lines -> Forall fits lines -> concat_bytes chunks = concat_bytes lines ->
  exists texts,
    scan_all (S (String.length (concat_bytes chunks))) "" None (map Bytes chunks) = Some (texts, None) /\
    map DecodeTCPMessage texts = map (fun msg => Ok (received_message time_text msg)) msgs.
Proof.
  intros Hm Hf Hc. destruct (encoded_lines msgs lines Hm Hf) as (texts & Hl & Ho & Hd).
  exists texts. split.
  - rewrite (scan_all_stream _ "" chunks) by (change ("" +:+ ?x) with x; lia).
    change ("" +:+ concat_bytes chunks) with (concat_bytes chunks). rewrite Hc, Hl.
    rewrite <- (String_app_nil (sent_lines texts)), lines_of_sent by done. cbn. by rewrite app_nil_r.
  - clear -Hd. induction Hd as [|msg text msgs texts Hd _ IH]; [done|]. cbn [map]. by rewrite Hd, IH.
Qed.

(** C27: A message over a megabyte ends its connection: the messages before it are
    delivered, the scanner stops with its error, and neither the message nor any after
    it is seen by the server. *)
Theorem oversized_message_ends msgs lines msg line after chunks :
  Forall2 encodes msgs lines -> Forall fits lines -> encodes msg line -> ~ fits line ->
  concat_bytes chunks = concat_bytes (lines ++ line :: after) ->
  exists texts,
    scan_all (S (String.length (concat_bytes chunks))) "" None (map Bytes chunks) =
      Some (texts, Some ErrTooLong) /\
    map DecodeTCPMessage texts = map (fun msg => Ok (received_message time_text msg)) msgs.
Proof.
  intros Hm Hf He Hbig Hc. destruct (encoded_lines msgs lines Hm Hf) as (texts & Hl & Ho & Hd).
  destruct (encodes_text msg line He) as (text & -> & Hp & _). exists texts. split.
  - rewrite (scan_all_stream _ "" chunks) by (change ("" +:+ ?x) with x; lia).
    change ("" +:+ concat_bytes chunks) with (concat_bytes chunks). rewrite Hc.
    assert (Happ : concat_bytes (lines ++ (text +:+ new_line) :: after) =
      sent_lines texts +:+ text +:+ String newline (concat_bytes after)).
    { rewrite <- Hl. clear. unfold concat_bytes. induction lines as [|l ls IH]; cbn [app foldr].
      - unfold new_line. rewrite String_app_assoc. done.
      - by rewrite IH, String_app_assoc. }
    rewrite Happ, lines_of_sent by done. unfold lines_of.
    rewrite Split_app by (by apply plain_no_newline). cbn [stream_lines].
    rewrite unfit_too_long by done. cbn. by rewrite app_nil_r.
  - clear -Hd. induction Hd as [|m t msgs texts Hd _ IH]; [done|]. cbn [map]. by rewrite Hd, IH.
Qed.

End Session.

(** ** A client connected to the server *)
Section EndToEnd.
Context (oor : float64 -> Z) (time_text : Z -> option string).
(** The server's database takes the arguments as they were decoded. *)
Context `{Sql : SqlDB W Ctx any Res Rows Row Tx}.
Context `{Pool : SqlPool W Ctx DB Conn}.
Context `{RowsOps : !SqlRows W Rows}.
Context `{ResOps : !SqlResult Res}.
Context {RC : Type}.
Context `{IdemCache : Cache C TCPResponse}.
(** The readings of the clock, and the connection's address and context. *)
Context (fuel : nat) (env : msg_env) (ctx : Ctx) (ip : string).

(** The server's side of the connection and what is on its way to the client. *)
Record link : Type := mkLink {
  ln_server : TCPServer C;
  ln_rt : DBRuntime DB RC;
  ln_w : W;
  ln_arrivals : list arrival;
}.

(** [sendResponse]: the response's line; one that cannot be encoded is only logged. *)
Definition TCPServer_sendResponse (resp : TCPResponse) : list arrival :=
  match EncodeTCPResponse resp with Ok line => [Bytes line] | Err _ => [] end.

(** What a write of the client has the server do: its loop runs over the lines. A server
    that does not answer leaves the client to its deadline. *)
Definition serve (data : string) (l : link) : link :=
  let lines := map (fun d => (env, bytes_len d, DecodeTCPMessage d)) (lines_of data).1 in
  match TCPServer_clientLoop oor time_text fuel ctx ip lines (ln_server l) (ln_rt l) (ln_w l) with
  | Some (Ret (s, rt, w, out)) =>
      mkLink s rt w (ln_arrivals l ++ flat_map TCPServer_sendResponse out)
  | _ => mkLink (ln_server l) (ln_rt l) (ln_w l)
           (ln_arrivals l ++ [ReadErr (External 8 "i/o timeout")])
  end.

#[local] Instance link_conn : NetConn link := {
  net_Dial l := (l, None);
  net_SetWriteDeadline _ := None;
  net_SetReadDeadline _ := None;
  net_Write data l := (serve data l, None);
  net_Scan l :=
    let '(r, (_, _, ar)) := Scan "" None (ln_arrivals l) in
    (mkLink (ln_server l) (ln_rt l) (ln_w l) ar, r);
  net_Close l := l;
}.

(** The message as the server's loop hands it on. *)
Definition handed (msg : TCPMessage sql_value) (text : string) : TCPMessage any :=
  (received_message time_text msg){{msg_RequestSize := bytes_len text; msg_ClientIP := ip}}.

Lemma serve_one msg text l s' rt' w' resp :
  DecodeTCPMessage text = Ok (received_message time_text msg) -> one_line text ->
  ts_shutdown (ln_server l) = false -> ln_arrivals l = [] ->
  TCPServer_handleMessage oor time_text fuel env ctx ip (handed msg text) (ln_server l) (ln_rt l) (ln_w l) =
    Some (Ret (s', rt', w', [resp])) ->
  serve (text +:+ new_line) l = mkLink s' rt' w' (TCPServer_sendResponse resp).
Proof.
  intros Hd Ho Hsh Har Hh. unfold serve.
  pose proof (lines_of_sent [text] "" ltac:(by constructor)) as Hl.
  cbn [sent_lines] in Hl. rewrite String_app_nil in Hl.
  change (text +:+ String newline "") with (text +:+ new_line) in Hl. rewrite Hl.
  cbn [app lines_of Split stream_lines fst map]. rewrite Hd.
  cbn [TCPServer_clientLoop]. rewrite Hsh. fold (handed msg text). rewrite Hh.
  cbn [TCPServer_clientLoop]. rewrite Har.
  destruct (String.eqb _ MessageTypeClose); cbn [flat_map app]; f_equal; apply app_nil_r.
Qed.

(** An exchange over the link is the server's handling of the message; an answer with
    another ID is not taken. *)
Lemma link_exchange msg line l s' rt' w' resp data :
  encodes time_text msg line -> fits line ->
  ts_shutdown (ln_server l) = false -> ln_arrivals l = [] ->
  (forall text, line = text +:+ new_line ->
     TCPServer_handleMessage oor time_text fuel env ctx ip (handed msg text) (ln_server l) (ln_rt l) (ln_w l) =
       Some (Ret (s', rt', w', [resp]))) ->
  response_carries resp data -> (forall answer, EncodeTCPResponse resp = Ok answer -> fits answer) ->
  TCPClient_exchange time_text msg l =
    (mkLink s' rt' w' [],
     if String.eqb (to_valid (resp_ID resp)) (msg_ID msg) then Ok (received_response resp)
     else Err (ID_mismatch (msg_ID msg) (to_valid (resp_ID resp)))).
Proof.
  intros He Hf Hsh Har Hh Hc Hfit. destruct (encodes_text time_text msg line He) as (text & -> & Hp & Hd).
  destruct (response_crosses resp data Hc) as (answer & Hans & Hpa & Hda).
  unfold TCPClient_exchange. cbn [net_SetWriteDeadline net_SetReadDeadline net_Write net_Scan link_conn].
  destruct He as [He _]. rewrite He.
  rewrite (serve_one msg text l s' rt' w' resp Hd (plain_one_line text Hp Hf) Hsh Har (Hh text eq_refl)).
  unfold TCPServer_sendResponse. rewrite Hans. cbn [ln_arrivals].
  rewrite Scan_one_line by (apply plain_one_line; [done|by apply Hfit]). by rewrite Hda.
Qed.

(** A call over the link, from what the server's handler answers. *)
Lemma link_call {T} ty query key verb args (parse : string -> result error T) c line l s' rt' w' resp data :
  free c -> tcl_connected c = true ->
  ts_shutdown (ln_server l) = false -> ln_arrivals l = [] ->
  let msg := mkTCPMessage ty (TCPClient_nextID c).2 query args "" key "" 0 in
  encodes time_text msg line -> fits line ->
  (forall text, line = text +:+ new_line ->
     TCPServer_handleMessage oor time_text fuel env ctx ip (handed msg text) (ln_server l) (ln_rt l) (ln_w l) =
       Some (Ret (s', rt', w', [resp]))) ->
  response_carries resp data -> (forall answer, EncodeTCPResponse resp = Ok answer -> fits answer) ->
  TCPClient_call time_text ty query key verb args parse c l =
    Done ((TCPClient_nextID c).1, mkLink s' rt' w' [],
      if String.eqb (to_valid (resp_ID resp)) (msg_ID msg) then
        if resp_Success resp then parse (resp_Data (received_response resp))
        else Err (Errorf (verb +:+ " failed: " +:+ resp_Error (received_response resp)))
      else Err (ID_mismatch (msg_ID msg) (to_valid (resp_ID resp)))).
Proof.
  intros Hfree Hconn Hsh Har msg He Hf Hh Hc Hfit.
  assert (Hfree1 : free (TCPClient_nextID c).1) by (by destruct c, Hfree; split).
  assert (Hconn1 : tcl_connected (TCPClient_nextID c).1 = true) by (by destruct c).
  unfold TCPClient_call.
  destruct (TCPClient_nextID c) as [c1 id]. cbn [fst snd] in *. fold msg.
  rewrite TCPClient_sendAndReceive_returns, Hconn1 by done.
  rewrite (link_exchange msg line l s' rt' w' resp data) by done.
  cbn [fst snd locked_bind]. destruct (String.eqb _ _); [|done].
  change (resp_Success (received_response resp)) with (resp_Success resp). by destruct (resp_Success resp).
Qed.

(** The answer to an EXEC, from what the runtime returned. *)
Definition exec_response (id : string) (r : result error Res) : TCPResponse :=
  match r with
  | Ok res =>
      mkTCPResponse id true ""
        (print compact 0 (JObj [("rows_affected", JInt (res_RowsAffected res));
                                ("last_insert_id", JInt (res_LastInsertId res))]))
  | Err err => NewErrorResponse id err
  end.

Lemma to_valid_digits s : all_digits s -> to_valid s = s.
Proof.
  unfold all_digits. induction s as [|c s IH]; [done|]. cbn [String.list_ascii_of_string forallb].
  intros [Hc Hs]%andb_prop. rewrite to_valid_cons, IH; [done..|].
  unfold is_digit, between in Hc. bool_to_prop. lia.
Qed.

Lemma nextID_valid c : to_valid (TCPClient_nextID c).2 = (TCPClient_nextID c).2.
Proof.
  unfold TCPClient_nextID. cbn [snd]. pose proof (wrapu64_in (tcl_messageID c + 1)) as [H0 _].
  assert (Hp : forall z : Z, 0 <= z -> to_valid (pretty z) = pretty z).
  { intros z Hz. destruct z as [|p|p]; [done| |lia]. rewrite pretty_pos. apply to_valid_digits, pretty_N_digits. }
  by apply Hp.
Qed.

(** The handler of an EXEC without a key, behind guards that are off. *)
Lemma handle_exec id query args text (s : TCPServer C) (rt : DBRuntime DB RC) (w : W)
    (rt' : DBRuntime DB RC) (w' : W) (r : result error Res) :
  sc_EnableDDoSProtection (ts_config s) = false -> to_valid id = id ->
  DBRuntime_Exec oor (te_db env) ctx (to_valid query) (map (received time_text) args) rt w =
    Some (Ret (rt', w', r)) ->
  TCPServer_handleMessage oor time_text fuel env ctx ip
    (handed (mkTCPMessage MessageTypeExec id query args "" "" "" 0) text) s rt w =
    Some (Ret (s, rt', w', [exec_response id r])).
Proof.
  intros Hg Hid Hx. unfold TCPServer_handleMessage.
  change ((handed (mkTCPMessage MessageTypeExec id query args "" "" "" 0) text){{msg_ClientIP := ip}})
    with (mkTCPMessage MessageTypeExec (to_valid id) (to_valid query) (map (received time_text) args)
            "" "" ip (bytes_len text)).
  rewrite Hid, Hg. cbn [andb negb msg_IdempotencyKey String.eqb]. rewrite andb_false_r.
  unfold TCPServer_dispatch. cbn [msg_Type]. change (String.eqb MessageTypeExec MessageTypePing) with false.
  change (String.eqb MessageTypeExec MessageTypeExec) with true. cbv iota.
  unfold TCPServer_handleExec. cbn [msg_Query msg_Args msg_ID]. rewrite Hx.
  destruct r as [res|err]; cbn [outcome_bind finish_stored reply NewSuccessResponse json_Marshal json_payload
    msg_IdempotencyKey String.eqb negb]; rewrite ?andb_false_r; done.
Qed.

(** The data of an EXEC's answer. *)
Definition exec_data (r : result error Res) : option json :=
  match r with
  | Ok res => Some (JObj [("rows_affected", JInt (res_RowsAffected res));
                          ("last_insert_id", JInt (res_LastInsertId res))])
  | Err _ => None
  end.

Lemma exec_response_carries id r : response_carries (exec_response id r) (exec_data r).
Proof.
  destruct r as [res|err]; [|done]. split; [done|]. unfold JInt. split.
  - cbn [json_ok forallb snd]. by rewrite !pretty_number_ok.
  - cbn [depth foldr snd]. pose proof (max_depth_ge 2 ltac:(lia)). lia.
Qed.

(** What the client makes of it. *)
Lemma exec_response_parsed id r :
  match r with
  | Ok res => in_int64 (res_RowsAffected res) /\ in_int64 (res_LastInsertId res)
  | Err _ => True
  end ->
  (if resp_Success (exec_response id r)
   then ParseExecResult (resp_Data (received_response (exec_response id r)))
   else Err (Errorf ("exec" +:+ " failed: " +:+ resp_Error (received_response (exec_response id r))))) =
  match r with
  | Ok res => Ok (mkExecResult (res_RowsAffected res) (res_LastInsertId res))
  | Err err => Err (Errorf ("exec failed: " +:+ to_valid (Error_text err)))
  end.
Proof.
  destruct r as [res|err]; [|done]. intros [H1 H2]. cbn [exec_response resp_Success].
  by rewrite (ParseExecResult_Marshal time_text
    (PExec (mkExecResult (res_RowsAffected res) (res_LastInsertId res)))).
Qed.

(** C6: A call over the wire returns what the runtime returned. With the server's guard
    off and the two lines within the scanners' megabyte, Exec on a client whose
    connection leads to a running server gives the caller the rows affected and the last
    insert ID of the result, or its error's text after "exec failed: ", and leaves the
    server's runtime and database where the call left them, with nothing on the way
    back. The database saw the query with its UTF-8 repaired and each argument as
    [received] says: an integer has become the nearest float64. *)
Theorem TCPClient_Exec_end_to_end query args c line l rt' w' r :
  free c -> tcl_connected c = true ->
  ts_shutdown (ln_server l) = false -> ln_arrivals l = [] ->
  sc_EnableDDoSProtection (ts_config (ln_server l)) = false ->
  let msg := mkTCPMessage MessageTypeExec (TCPClient_nextID c).2 query args "" "" "" 0 in
  encodes time_text msg line -> fits line ->
  DBRuntime_Exec oor (te_db env) ctx (to_valid query) (map (received time_text) args) (ln_rt l) (ln_w l) =
    Some (Ret (rt', w', r)) ->
  (forall answer, EncodeTCPResponse (exec_response (msg_ID msg) r) = Ok answer -> fits answer) ->
  match r with
  | Ok res => in_int64 (res_RowsAffected res) /\ in_int64 (res_LastInsertId res)
  | Err _ => True
  end ->
  TCPClient_Exec time_text query args c l =
    Done ((TCPClient_nextID c).1, mkLink (ln_server l) rt' w' [],
          match r with
          | Ok res => Ok (mkExecResult (res_RowsAffected res) (res_LastInsertId res))
          | Err err => Err (Errorf ("exec failed: " +:+ to_valid (Error_text err)))
          end).
Proof.
  intros Hfree Hconn Hsh Har Hg msg He Hf Hx Hfit Hr. unfold TCPClient_Exec, TCPClient_ExecWithIdempotency.
  rewrite (link_call MessageTypeExec query "" "exec" args ParseExecResult c line l (ln_server l) rt' w' (exec_response (msg_ID msg) r) (exec_data r)) by
    (first [done | intros text _; apply handle_exec; [done|apply nextID_valid|done] | apply exec_response_carries]).
  rewrite <- (exec_response_parsed (msg_ID msg) r Hr).
  replace (resp_ID (exec_response (msg_ID msg) r)) with (msg_ID msg) by (by destruct r).
  cbn [msg msg_ID]. by rewrite nextID_valid, String.eqb_refl.
Qed.

Context `{LawfulR : !LawfulRows W Rows}.

(** What the handler of a QUERY makes of the rows: their columns and every row, or the
    error that reading them met. *)
Definition rows_read (rows : Rows) (w w'' : W) (r : result error (list string)) : Prop :=
  match r with
  | Ok columns => rows_Columns rows w = Ok columns /\ rows_Err rows w'' = None
  | Err err => rows_Columns rows w = Err err \/ rows_failed rows w'' err
  end.

(** The answer, from the data of the result or the error. *)
Definition query_response (id : string) (r : result error json) : TCPResponse :=
  match r with
  | Ok data => mkTCPResponse id true "" (print compact 0 data)
  | Err err => NewErrorResponse id err
  end.

(** The handler of a QUERY without a key, behind guards that are off. *)
Lemma handle_query id query args (s : TCPServer C) (rt : DBRuntime DB RC) (w : W)
    (rt' : DBRuntime DB RC) (w' : W) (rows : Rows) (data : list string -> json) :
  sc_EnableDDoSProtection (ts_config s) = false -> to_valid id = id ->
  DBRuntime_Query oor (te_db env) ctx (to_valid query) (map (received time_text) args) rt w =
    Some (Ret (rt', w', Ok rows)) ->
  (length (rows_rest rows w') < fuel)%nat ->
  (forall columns, rows_Columns rows w' = Ok columns ->
     json_payload time_text (PQuery (mkQueryResult columns (map (map bytes_to_string) (rows_rest rows w')))) =
       Some (data columns)) ->
  exists w'' r, rows_read rows w' w'' r /\
    forall text, TCPServer_handleMessage oor time_text fuel env ctx ip
      (handed (mkTCPMessage MessageTypeQuery id query args "" "" "" 0) text) s rt w =
    Some (Ret (s, rt', rows_Close rows w'',
      [query_response id (match r with Ok columns => Ok (data columns) | Err err => Err err end)])).
Proof.
  intros Hg Hid Hx Hfuel Hdata.
  assert (Hh : exists w'' r, rows_read rows w' w'' r /\
    forall msg, msg_Query msg = to_valid query -> msg_Args msg = map (received time_text) args -> msg_ID msg = id ->
    TCPServer_handleQuery oor time_text fuel env ctx msg rt w = Some (Ret (rt', rows_Close rows w'',
      [query_response id (match r with Ok columns => Ok (data columns) | Err err => Err err end)],
      match r with
      | Ok columns => Some (query_response id (Ok (data columns)))
      | Err _ => None
      end))).
  { destruct (rows_Columns rows w') as [columns|err] eqn:Hcols.
    - destruct (scan_rows_all fuel rows [] w' Hfuel) as (w'' & [all|err] & Hscan & Hend); exists w''.
      + destruct Hend as [-> Hend]. exists (Ok columns). split; [by split|]. intros msg Hq Ha <-.
        unfold TCPServer_handleQuery, reply, NewSuccessResponse, json_Marshal. rewrite Hq, Ha, Hx, Hcols, Hscan.
        cbn [app]. by rewrite Hdata.
      + exists (Err err). split; [by right|]. intros msg Hq Ha <-.
        unfold TCPServer_handleQuery. by rewrite Hq, Ha, Hx, Hcols, Hscan.
    - exists w', (Err err). split; [by left|]. intros msg Hq Ha <-.
      unfold TCPServer_handleQuery. by rewrite Hq, Ha, Hx, Hcols. }
  destruct Hh as (w'' & r & Hread & Hh). exists w'', r. split; [exact Hread|]. intros text.
  unfold TCPServer_handleMessage.
  change ((handed (mkTCPMessage MessageTypeQuery id query args "" "" "" 0) text){{msg_ClientIP := ip}})
    with (mkTCPMessage MessageTypeQuery (to_valid id) (to_valid query) (map (received time_text) args)
            "" "" ip (bytes_len text)).
  rewrite Hid, Hg. cbn [andb negb msg_IdempotencyKey String.eqb]. rewrite andb_false_r.
  unfold TCPServer_dispatch. cbn [msg_Type]. change (String.eqb MessageTypeQuery MessageTypePing) with false.
  change (String.eqb MessageTypeQuery MessageTypeExec) with false.
  change (String.eqb MessageTypeQuery MessageTypeQuery) with true. cbv iota.
  rewrite Hh by done. destruct r; cbn [outcome_bind finish_stored msg_IdempotencyKey String.eqb negb];
    by rewrite andb_false_r.
Qed.

(** C7: A query over the wire returns the whole result set or an error, never a part.
    On a client whose connection leads to a running server with its guard off, for a
    query the runtime accepts, whose request and answer lines keep within the scanners'
    megabyte and whose values JSON can carry: Query gives the caller the columns and every
    row the driver delivers, in order, each value as [received] says (an integer has
    become the nearest float64, a time its text), when the rows were read to their end
    without an error; or, after "query failed: ", the text of the error that reading the
    columns, a row or the end of the rows met. The context of the rows is cancelled by
    then, so the driver may have closed them. The server's runtime and database are left
    where the query left them, with the rows closed and nothing on the way back. *)
Theorem TCPClient_Query_end_to_end query args c line l rt' w' rows data :
  free c -> tcl_connected c = true ->
  ts_shutdown (ln_server l) = false -> ln_arrivals l = [] ->
  sc_EnableDDoSProtection (ts_config (ln_server l)) = false ->
  let msg := mkTCPMessage MessageTypeQuery (TCPClient_nextID c).2 query args "" "" "" 0 in
  encodes time_text msg line -> fits line ->
  DBRuntime_Query oor (te_db env) ctx (to_valid query) (map (received time_text) args) (ln_rt l) (ln_w l) =
    Some (Ret (rt', w', Ok rows)) ->
  (length (rows_rest rows w') < fuel)%nat ->
  let all := map (map bytes_to_string) (rows_rest rows w') in
  Forall (Forall value_in_range) all ->
  (forall columns, rows_Columns rows w' = Ok columns ->
     json_payload time_text (PQuery (mkQueryResult columns all)) = Some (data columns)) ->
  (forall w'' r answer, rows_read rows w' w'' r ->
     EncodeTCPResponse (query_response (msg_ID msg)
       (match r with Ok columns => Ok (data columns) | Err err => Err err end)) = Ok answer ->
     fits answer) ->
  exists w'' r, rows_read rows w' w'' r /\
    TCPClient_Query time_text query args c l =
      Done ((TCPClient_nextID c).1, mkLink (ln_server l) rt' (rows_Close rows w'') [],
            match r with
            | Ok columns => Ok (received_query time_text (mkQueryResult columns all))
            | Err err => Err (Errorf ("query failed: " +:+ to_valid (Error_text err)))
            end).
Proof.
  intros Hfree Hconn Hsh Har Hg msg He Hf Hx Hfuel all Hrange Hdata Hfit.
  destruct (handle_query (msg_ID msg) query args (ln_server l) (ln_rt l) (ln_w l) rt' w' rows data
    Hg (nextID_valid c) Hx Hfuel Hdata) as (w'' & r & Hread & Hh).
  exists w'', r. split; [exact Hread|].
  unfold TCPClient_Query, TCPClient_QueryWithIdempotency.
  rewrite (link_call MessageTypeQuery query "" "query" args ParseQueryResult c line l (ln_server l) rt'
    (rows_Close rows w'') (query_response (msg_ID msg) (match r with Ok columns => Ok (data columns) | Err err => Err err end))
    (match r with Ok columns => Some (data columns) | Err _ => None end)); try done.
  - destruct r as [columns|err].
    + cbn [query_response resp_ID resp_Success received_response resp_Data]. cbn [msg msg_ID].
      rewrite nextID_valid, String.eqb_refl.
      destruct Hread as [Hcols _]. destruct (json_payload_ok time_text _ _ (Hdata _ Hcols) Hrange) as [Hok Hdepth].
      rewrite (ParseQueryResult_Marshal time_text (PQuery (mkQueryResult columns all))); [done| |done].
      unfold json_Marshal. by rewrite Hdata.
    + cbn [query_response NewErrorResponse resp_ID msg msg_ID]. by rewrite nextID_valid, String.eqb_refl.
  - destruct r as [columns|err]; [|done]. destruct Hread as [Hcols _].
    destruct (json_payload_ok time_text _ _ (Hdata _ Hcols) Hrange) as [Hok Hdepth].
    cbn [query_response response_carries resp_Data]. split; [done|]. split; [done|].
    pose proof (max_depth_ge 4 ltac:(lia)). lia.
  - intros answer. by apply Hfit with w''.
Qed.

(** A keyed Exec whose key the server does not know runs, and its answer is stored. *)
Lemma keyed_exec query key args c line l ic ic' rt' w' res :
  free c -> tcl_connected c = true ->
  ts_shutdown (ln_server l) = false -> ln_arrivals l = [] ->
  sc_EnableDDoSProtection (ts_config (ln_server l)) = false ->
  sc_EnableIdempotency (ts_config (ln_server l)) = true ->
  ts_idempotencyCache (ln_server l) = Some ic -> to_valid key <> "" ->
  Cache_Get (te_get env) (to_valid key) ic = (ic', None) ->
  let msg := mkTCPMessage MessageTypeExec (TCPClient_nextID c).2 query args "" key "" 0 in
  encodes time_text msg line -> fits line ->
  DBRuntime_Exec oor (te_db env) ctx (to_valid query) (map (received time_text) args) (ln_rt l) (ln_w l) =
    Some (Ret (rt', w', Ok res)) ->
  let resp := exec_response (msg_ID msg) (Ok res) in
  (forall answer, EncodeTCPResponse resp = Ok answer -> fits answer) ->
  in_int64 (res_RowsAffected res) -> in_int64 (res_LastInsertId res) ->
  TCPClient_ExecWithIdempotency time_text query key args c l =
    Done ((TCPClient_nextID c).1,
      mkLink ((ln_server l){{ts_idempotencyCache :=
                Some (Cache_Set (te_set env) (to_valid key) resp (300 * Second) ic').1}}) rt' w' [],
      Ok (mkExecResult (res_RowsAffected res) (res_LastInsertId res))).
Proof.
  intros Hfree Hconn Hsh Har Hg Hidem Hic Hkey Hget msg He Hf Hx resp Hfit H1 H2. unfold TCPClient_ExecWithIdempotency.
  rewrite (link_call MessageTypeExec query key "exec" args ParseExecResult c line l
    ((ln_server l){{ts_idempotencyCache :=
       Some (Cache_Set (te_set env) (to_valid key) resp (300 * Second) ic').1}})
    rt' w' resp (exec_data (Ok res))); try done.
  - pose proof (exec_response_parsed (msg_ID msg) (Ok res) (conj H1 H2)) as Hp. fold resp in Hp. rewrite Hp.
    change (resp_ID resp) with (msg_ID msg). cbn [msg msg_ID]. by rewrite nextID_valid, String.eqb_refl.
  - intros text _.
    refine (handle_exec_stored oor time_text fuel env ctx ip (handed msg text) (ln_server l) (ln_rt l) (ln_w l)
      ic ic' rt' w' res resp Hidem Hg Hic Hkey eq_refl Hget Hx _).
    unfold resp. cbn [msg msg_ID handed]. change (msg_ID (handed msg text)) with (to_valid (TCPClient_nextID c).2).
    by rewrite nextID_valid.
  - apply exec_response_carries.
Qed.

(** One whose key the server knows is answered with the stored response, which the client
    does not take for its own. *)
Lemma keyed_exec_again query key args c line l ic ic' id r :
  free c -> tcl_connected c = true ->
  ts_shutdown (ln_server l) = false -> ln_arrivals l = [] ->
  sc_EnableDDoSProtection (ts_config (ln_server l)) = false ->
  sc_EnableIdempotency (ts_config (ln_server l)) = true ->
  ts_idempotencyCache (ln_server l) = Some ic -> to_valid key <> "" ->
  Cache_Get (te_get env) (to_valid key) ic = (ic', Some (exec_response id r)) ->
  let msg := mkTCPMessage MessageTypeExec (TCPClient_nextID c).2 query args "" key "" 0 in
  encodes time_text msg line -> fits line ->
  (forall answer, EncodeTCPResponse (exec_response id r) = Ok answer -> fits answer) ->
  to_valid id = id -> id <> msg_ID msg ->
  TCPClient_ExecWithIdempotency time_text query key args c l =
    Done ((TCPClient_nextID c).1,
      mkLink ((ln_server l){{ts_idempotencyCache := Some ic'}}) (ln_rt l) (ln_w l) [],
      Err (ID_mismatch (msg_ID msg) id)).
Proof.
  intros Hfree Hconn Hsh Har Hg Hidem Hic Hkey Hget msg He Hf Hfit Hid Hne.
  unfold TCPClient_ExecWithIdempotency.
  rewrite (link_call MessageTypeExec query key "exec" args ParseExecResult c line l ((ln_server l){{ts_idempotencyCache := Some ic'}})
    (ln_rt l) (ln_w l) (exec_response id r) (exec_data r)); try done.
  - replace (resp_ID (exec_response id r)) with id by (by destruct r).
    by rewrite Hid, (proj2 (String.eqb_neq _ _)).
  - intros text _.
    by apply (handle_replay oor time_text fuel env ctx ip (handed msg text) (ln_server l) (ln_rt l) (ln_w l) ic).
  - apply exec_response_carries.
Qed.

End EndToEnd.

(** ** The same request twice *)
Section Twice.
Context (oor : float64 -> Z) (time_text : Z -> option string).
Context `{Sql : SqlDB W Ctx any Res Rows Row Tx}.
Context `{Pool : SqlPool W Ctx DB Conn}.
Context `{RowsOps : !SqlRows W Rows}.
Context `{ResOps : !SqlResult Res}.
Context {RC : Type}.
Context `{IdemCache : Cache C TCPResponse}.
Context `{Lawful : !LawfulCache C TCPResponse}.
Context (fuel : nat) (ctx : Ctx) (ip : string).

Definition exec_with_key (env : msg_env) (query key : string) (args : list sql_value) (c : TCPClient)
    (l : link (W := W) (DB := DB) (RC := RC) (C := C)) :=
  TCPClient_ExecWithIdempotency (NetOps := link_conn oor time_text fuel env ctx ip)
    time_text query key args c l.

(** C13: An idempotency key pays once, and its retry does not succeed: a keyed Exec that
    a server with its guard off ran for the client is answered, when the client sends it
    again as its next call, within 300 seconds and in lines of at most a megabyte, without touching the runtime or the database, but with the first answer's
    ID, so that the second call of the client fails with an ID mismatch although its
    request had been carried out. *)
Theorem ExecWithIdempotency_retry_fails env1 env2 query key args c line1 line2 l ic rt' w' res :
  free c -> tcl_connected c = true ->
  ts_shutdown (ln_server l) = false -> ln_arrivals l = [] ->
  sc_EnableDDoSProtection (ts_config (ln_server l)) = false ->
  sc_EnableIdempotency (ts_config (ln_server l)) = true ->
  ts_idempotencyCache (ln_server l) = Some ic -> cache_inv ic ->
  to_valid key <> "" -> (Cache_Get (te_get env1) (to_valid key) ic).2 = None ->
  te_get env2 <= te_set env1 + 300 * Second ->
  let c1 := (TCPClient_nextID c).1 in
  let id1 := (TCPClient_nextID c).2 in let id2 := (TCPClient_nextID c1).2 in
  encodes time_text (mkTCPMessage MessageTypeExec id1 query args "" key "" 0) line1 -> fits line1 ->
  encodes time_text (mkTCPMessage MessageTypeExec id2 query args "" key "" 0) line2 -> fits line2 ->
  DBRuntime_Exec oor (te_db env1) ctx (to_valid query) (map (received time_text) args) (ln_rt l) (ln_w l) =
    Some (Ret (rt', w', Ok res)) ->
  (forall answer, EncodeTCPResponse (exec_response id1 (Ok res)) = Ok answer -> fits answer) ->
  in_int64 (res_RowsAffected res) -> in_int64 (res_LastInsertId res) ->
  exists s1 s2,
    exec_with_key env1 query key args c l =
      Done (c1, mkLink s1 rt' w' [], Ok (mkExecResult (res_RowsAffected res) (res_LastInsertId res))) /\
    exec_with_key env2 query key args c1 (mkLink s1 rt' w' []) =
      Done ((TCPClient_nextID c1).1, mkLink s2 rt' w' [], Err (ID_mismatch id2 id1)).
Proof.
  intros Hfree Hconn Hsh Har Hg Hidem Hic Hinv Hkey Hmiss Hwin c1 id1 id2 He1 Hf1 He2 Hf2 Hx Hfit H1 H2.
  pose proof (law_Get_inv (te_get env1) (to_valid key) ic Hinv) as Hinv1.
  destruct (Cache_Get (te_get env1) (to_valid key) ic) as [ic1 v] eqn:Hget. cbn in Hmiss, Hinv1. subst v.
  set (resp := exec_response id1 (Ok res)) in *.
  pose proof (law_Set_Get (te_set env1) (to_valid key) resp (300 * Second) ic1 (te_get env2) Hinv1
    ltac:(done) Hwin) as Hget2.
  set (ic2 := (Cache_Set (te_set env1) (to_valid key) resp (300 * Second) ic1).1) in *.
  destruct (Cache_Get (te_get env2) (to_valid key) ic2) as [ic3 v] eqn:Hg2. cbn in Hget2. subst v.
  eexists _, _. split.
  - unfold exec_with_key. by rewrite (keyed_exec oor time_text fuel env1 ctx ip query key args c line1 l ic ic1 rt' w' res).
  - unfold exec_with_key.
    rewrite (keyed_exec_again oor time_text fuel env2 ctx ip query key args c1 line2 _ ic2 ic3 id1 (Ok res));
      try done; try (by destruct (ln_server l)).
    + exact (nextID_valid c).
    + exact (TCPClient_nextIDs_differ c).
Qed.
End Twice.

(** ** The hypotheses can hold *)
Section Witnesses.
Import OneCell CellRuntime.

Definition exec_example (id query : string) (v : Z) : TCPMessage sql_value :=
  mkTCPMessage MessageTypeExec id query [VInt v] "" "" "" 0.

Definition no_times : Z -> option string := fun _ => None.

Definition line_of (msg : TCPMessage sql_value) : string :=
  match EncodeTCPMessage no_times msg with Ok line => line | Err _ => "" end.

Lemma exec_example_encodes id v :
  in_int64 v -> encodes no_times (exec_example id "UPDATE" v) (line_of (exec_example id "UPDATE" v)).
Proof. intros Hv. split; [reflexivity|]. split; [reflexivity|]. split; [by constructor|done]. Qed.

(** Two messages in three reads. *)
Definition lines_example : list string :=
  [line_of (exec_example "1" "UPDATE" 7); line_of (exec_example "2" "UPDATE" 8)].

Definition reads_example : list string :=
  let bytes := concat_bytes lines_example in
  [String.substring 0 10 bytes; String.substring 10 60 bytes;
   String.substring 70 (String.length bytes - 70) bytes].

Lemma messages_delivered_witness :
  exists texts, map DecodeTCPMessage texts =
    [Ok (mkTCPMessage "EXEC" "1" "UPDATE" [AFloat (f64_of_Z 7)] "" "" "" 0);
     Ok (mkTCPMessage "EXEC" "2" "UPDATE" [AFloat (f64_of_Z 8)] "" "" "" 0)].
Proof.
  destruct (messages_delivered no_times [exec_example "1" "UPDATE" 7; exec_example "2" "UPDATE" 8]
    lines_example reads_example) as (texts & _ & Hd).
  - constructor; [apply exec_example_encodes; solve_int64|].
    constructor; [apply exec_example_encodes; solve_int64|constructor].
  - constructor; [vm_compute; discriminate|]. constructor; [vm_compute; discriminate|constructor].
  - vm_compute. reflexivity.
  - exists texts. exact Hd.
Defined.

(** A query of a megabyte. *)
Definition big_message : TCPMessage sql_value :=
  exec_example "2" (repeat_string (Z.to_nat maxTokenSize) "x") 8.

Lemma enc_chars_repeat n : enc_chars (repeat_string n "x") = repeat_string n "x".
Proof.
  unfold enc_chars. induction n as [|n IH]; [done|]. cbn [repeat_string].
  change ("x" +:+ repeat_string n "x") with (String "x" (repeat_string n "x")).
  change (runes (String "x" (repeat_string n "x"))) with (Byte "x" :: runes (repeat_string n "x")).
  cbn [flatten]. by rewrite IH.
Qed.

Lemma repeat_string_length n : String.length (repeat_string n "x") = n.
Proof. induction n as [|n IH]; [done|]. cbn [repeat_string]. rewrite String_length_app, IH. done. Qed.

Lemma big_message_unfit : ~ fits (line_of big_message).
Proof.
  unfold big_message. assert (Hn : (0 < Z.to_nat maxTokenSize)%nat) by (unfold maxTokenSize; lia).
  assert (Hlen : Z.of_nat (Z.to_nat maxTokenSize) = maxTokenSize) by (unfold maxTokenSize; lia).
  generalize dependent (Z.to_nat maxTokenSize). intros n Hn Hlen.
  unfold line_of, EncodeTCPMessage, exec_example.
  cbn [msg_Type msg_ID msg_Query msg_Args msg_Payload msg_IdempotencyKey msg_ClientIP msg_RequestSize].
  cbn [json_values all_Some map json_value raw_text String.eqb].
  unfold nonempty_string at 1. rewrite (proj2 (String.eqb_neq (repeat_string n "x") "")).
  2:{ intros He. apply (f_equal String.length) in He. rewrite repeat_string_length in He. cbn in He. lia. }
  cbn [struct_text omap list_omap snd fst bracket map strings_Join nonempty_string String.eqb Z.eqb].
  unfold member_text, enc_string at 6. rewrite enc_chars_repeat.
  unfold fits, bytes_len. rewrite !String_length_app. cbn [String.length].
  rewrite ?String_length_app, repeat_string_length, <- Hlen. cbn [String.length new_line]. lia.
Qed.

Lemma oversized_message_ends_witness :
  exists texts, scan_all (S (String.length (concat_bytes
      ([line_of (exec_example "1" "UPDATE" 7)] ++ line_of big_message :: lines_example)))) "" None
      (map Bytes ([line_of (exec_example "1" "UPDATE" 7)] ++ line_of big_message :: lines_example)) =
        Some (texts, Some ErrTooLong) /\
    map DecodeTCPMessage texts =
      [Ok (mkTCPMessage "EXEC" "1" "UPDATE" [AFloat (f64_of_Z 7)] "" "" "" 0)].
Proof.
  refine (oversized_message_ends no_times [exec_example "1" "UPDATE" 7] [line_of (exec_example "1" "UPDATE" 7)]
    big_message (line_of big_message) lines_example _ _ _ _ big_message_unfit eq_refl).
  - constructor; [apply exec_example_encodes; solve_int64|constructor].
  - constructor; [vm_compute; discriminate|constructor].
  - split; [reflexivity|]. split; [reflexivity|]. split; [constructor; [cbn; solve_int64|constructor]|cbn; solve_int64].
Defined.

(** The one-cell database with arguments as they come off the wire. *)
Definition any_ints (args : list any) : list Z :=
  omap (fun a => match a with AFloat x => f64_trunc x | _ => None end) args.

#[local] Instance any_db : SqlDB world nat any Z (list Z) Z tx := sql_with_args any_ints.

#[local] Instance cell_rows_affected : SqlResult Z := {
  res_RowsAffected n := n;
  res_LastInsertId _ := 0;
}.

Definition link_example : link (W := world) (DB := unit) (RC := InMemoryCache cached_value)
    (C := InMemoryCache TCPResponse) :=
  mkLink (NewTCPServer NewInMemoryCache (server_example_config{{sc_EnableDDoSProtection := false}}))
    runtime.1 runtime.2 [].

(** The largest integer a float64 holds exactly and one more, written to the cell: the
    second arrives as the first. *)
Definition exec_over_link (v : Z) :=
  TCPClient_Exec (NetOps := link_conn (fun _ => 0) no_times 5 (msg_example_env 10) 0%nat "1.2.3.4")
    no_times "UPDATE" [VInt v] client_example link_example.

Example exec_over_link_rounds :
  match exec_over_link (2 ^ 53 + 1) with
  | Done (_, l, Ok r) => er_RowsAffected r = 1 /\ ow_value (ln_w l) = 2 ^ 53
  | _ => False
  end.
Proof. vm_compute. split; reflexivity. Qed.

Lemma TCPClient_Exec_end_to_end_witness :
  match exec_over_link 7 with
  | Done (_, l, Ok r) => r = mkExecResult 1 0 /\ ow_value (ln_w l) = 7 /\ ln_arrivals l = []
  | _ => False
  end.
Proof.
  destruct (DBRuntime_Exec (fun _ => 0) (te_db (msg_example_env 10)) 0%nat "UPDATE" [AFloat (f64_of_Z 7)]
              runtime.1 runtime.2) as [[[[rt' w'] [n|e]]|m]|] eqn:Hx; [|vm_compute in Hx; discriminate Hx..].
  assert (Hn : n = 1 /\ ow_value w' = 7) by (vm_compute in Hx; injection Hx as _ <- <-; split; reflexivity).
  destruct Hn as [-> Hv]. unfold exec_over_link.
  rewrite (TCPClient_Exec_end_to_end (fun _ => 0) no_times 5 (msg_example_env 10) 0%nat "1.2.3.4"
    "UPDATE" [VInt 7] client_example (line_of (exec_example "4" "UPDATE" 7)) link_example rt' w' (Ok 1)).
  - split; [reflexivity|]. split; [exact Hv|reflexivity].
  - split; reflexivity.
  - reflexivity.
  - reflexivity.
  - reflexivity.
  - reflexivity.
  - apply exec_example_encodes. solve_int64.
  - vm_compute. discriminate.
  - exact Hx.
  - intros answer Ha. vm_compute in Ha. injection Ha as <-. vm_compute. discriminate.
  - split; vm_compute; split; discriminate.
Defined.

(** The cell read over the link. *)
Definition query_over_link :=
  TCPClient_Query (NetOps := link_conn (fun _ => 0) no_times 5 (msg_example_env 10) 0%nat "1.2.3.4")
    no_times "SELECT v" [] client_example link_example.

Definition query_example (id : string) : TCPMessage sql_value :=
  mkTCPMessage MessageTypeQuery id "SELECT v" [] "" "" "" 0.

Lemma TCPClient_Query_end_to_end_witness :
  match query_over_link with
  | Done (_, l, Ok r) => r = mkQueryResult ["value"] [[AFloat (f64_of_Z 0)]] /\ ln_arrivals l = []
  | _ => False
  end.
Proof.
  destruct (DBRuntime_Query (fun _ => 0) (te_db (msg_example_env 10)) 0%nat "SELECT v" []
              runtime.1 runtime.2) as [[[[rt' w'] [rows|e]]|m]|] eqn:Hx; [|vm_compute in Hx; discriminate Hx..].
  assert (Hr : rows = [0] /\ ow_read w' = 0%nat) by (vm_compute in Hx; injection Hx as _ <- <-; split; reflexivity).
  destruct Hr as [-> Hr].
  assert (Hall : map (map bytes_to_string) (rows_rest (LawfulRows := cell_lawful_rows) [0] w') = [[VInt 0]])
    by (cbn; rewrite Hr; reflexivity).
  destruct (TCPClient_Query_end_to_end (LawfulR := cell_lawful_rows) (fun _ => 0) no_times 5 (msg_example_env 10)
    0%nat "1.2.3.4" "SELECT v" [] client_example (line_of (query_example "4")) link_example rt' w' [0]
    (fun columns => JObj [("columns", JArr (map JStr columns)); ("rows", JArr [JArr [JInt 0]])]))
    as (w'' & r & Hread & H).
  - split; reflexivity.
  - reflexivity.
  - reflexivity.
  - reflexivity.
  - reflexivity.
  - split; [reflexivity|]. split; [reflexivity|]. split; [constructor|cbn; solve_int64].
  - vm_compute. discriminate.
  - exact Hx.
  - cbn. rewrite Hr. cbn. lia.
  - rewrite Hall. constructor; [constructor; [cbn; solve_int64|constructor]|constructor].
  - intros columns Hcols. injection Hcols as <-. rewrite Hall. vm_compute. reflexivity.
  - intros w [columns|err] answer Hread Ha.
    + destruct Hread as [Hcols _]. injection Hcols as <-. vm_compute in Ha. injection Ha as <-. vm_compute. discriminate.
    + exfalso. destruct Hread as [Hcols|Hfail]; [discriminate Hcols|exact (cell_rows_never_fail _ _ _ Hfail)].
  - destruct r as [columns|err].
    + destruct Hread as [Hcols _]. injection Hcols as <-. unfold query_over_link. rewrite H, Hall.
      split; [vm_compute; reflexivity|reflexivity].
    + exfalso. destruct Hread as [Hcols|Hfail]; [discriminate Hcols|exact (cell_rows_never_fail _ _ _ Hfail)].
Defined.

(** The same keyed write sent twice: the cell is written once, and the second call fails. *)
Definition keyed_example (id : string) : TCPMessage sql_value :=
  mkTCPMessage MessageTypeExec id "UPDATE" [VInt 7] "" "pay-1" "" 0.

Lemma keyed_example_encodes id : encodes no_times (keyed_example id) (line_of (keyed_example id)).
Proof. split; [reflexivity|]. split; [reflexivity|]. split; [constructor; [cbn; solve_int64|constructor]|cbn; solve_int64]. Qed.

Lemma ExecWithIdempotency_retry_fails_witness :
  exists c1 l1 c2 l2,
    exec_with_key (fun _ => 0) no_times 5 0%nat "1.2.3.4" (msg_example_env 10) "UPDATE" "pay-1" [VInt 7]
      client_example link_example = Done (c1, l1, Ok (mkExecResult 1 0)) /\
    exec_with_key (fun _ => 0) no_times 5 0%nat "1.2.3.4" (msg_example_env 20) "UPDATE" "pay-1" [VInt 7]
      c1 l1 = Done (c2, l2, Err (Errorf "response ID mismatch: expected 5, got 4")) /\
    ow_value (ln_w l1) = 7 /\ ln_w l2 = ln_w l1.
Proof.
  destruct (DBRuntime_Exec (fun _ => 0) (te_db (msg_example_env 10)) 0%nat "UPDATE" [AFloat (f64_of_Z 7)]
              runtime.1 runtime.2) as [[[[rt' w'] [n|e]]|m]|] eqn:Hx; [|vm_compute in Hx; discriminate Hx..].
  assert (Hn : n = 1 /\ ow_value w' = 7) by (vm_compute in Hx; injection Hx as _ <- <-; split; reflexivity).
  destruct Hn as [-> Hv].
  destruct (ExecWithIdempotency_retry_fails (fun _ => 0) no_times 5 0%nat "1.2.3.4" (msg_example_env 10)
    (msg_example_env 20) "UPDATE" "pay-1" [VInt 7] client_example (line_of (keyed_example "4"))
    (line_of (keyed_example "5")) link_example (NewInMemoryCache 10000 (300 * Second)) rt' w' 1) as (s1 & s2 & H1 & H2).
  - split; reflexivity.
  - reflexivity.
  - reflexivity.
  - reflexivity.
  - reflexivity.
  - reflexivity.
  - reflexivity.
  - apply NewInMemoryCache_wf.
  - discriminate.
  - reflexivity.
  - vm_compute. discriminate.
  - apply keyed_example_encodes.
  - vm_compute. discriminate.
  - apply keyed_example_encodes.
  - vm_compute. discriminate.
  - exact Hx.
  - intros answer Ha. vm_compute in Ha. injection Ha as <-. vm_compute. discriminate.
  - split; vm_compute; discriminate.
  - split; vm_compute; discriminate.
  - do 4 eexists. split; [exact H1|]. split; [exact H2|]. split; [exact Hv|reflexivity].
Defined.

End Witnesses.
