(* ===== verification/Md5.v ===== *)
(** * MD5 (crypto/md5, as blob.go uses it)

    [md5.Sum] of a byte string, printed with [%x]: the algorithm of RFC 1321 on 32-bit
    words in [Z], executable, with the test vectors of the RFC as examples. *)
From Stdlib Require Import Ascii.
From S2P Require Import Prelude.
Local Open Scope Z_scope.

Definition word32 (z : Z) : Z := z mod 2 ^ 32.

Definition rotate_left (c x : Z) : Z := word32 (Z.lor (Z.shiftl x c) (Z.shiftr x (32 - c))).

Definition md5_K : list Z :=
  [3614090360; 3905402710; 606105819; 3250441966; 4118548399; 1200080426;
   2821735955; 4249261313; 1770035416; 2336552879; 4294925233; 2304563134;
   1804603682; 4254626195; 2792965006; 1236535329; 4129170786; 3225465664;
   643717713; 3921069994; 3593408605; 38016083; 3634488961; 3889429448;
   568446438; 3275163606; 4107603335; 1163531501; 2850285829; 4243563512;
   1735328473; 2368359562; 4294588738; 2272392833; 1839030562; 4259657740;
   2763975236; 1272893353; 4139469664; 3200236656; 681279174; 3936430074;
   3572445317; 76029189; 3654602809; 3873151461; 530742520; 3299628645;
   4096336452; 1126891415; 2878612391; 4237533241; 1700485571; 2399980690;
   4293915773; 2240044497; 1873313359; 4264355552; 2734768916; 1309151649;
   4149444226; 3174756917; 718787259; 3951481745].

Definition md5_shift : list Z :=
  [7; 12; 17; 22; 7; 12; 17; 22; 7; 12; 17; 22; 7; 12; 17; 22;
   5; 9; 14; 20; 5; 9; 14; 20; 5; 9; 14; 20; 5; 9; 14; 20;
   4; 11; 16; 23; 4; 11; 16; 23; 4; 11; 16; 23; 4; 11; 16; 23;
   6; 10; 15; 21; 6; 10; 15; 21; 6; 10; 15; 21; 6; 10; 15; 21].

Definition bytes_of (s : string) : list Z :=
  map (fun c => Z.of_nat (nat_of_ascii c)) (String.list_ascii_of_string s).

(** The [n] low bytes of [z], the lowest first. *)
Fixpoint little_endian (n : nat) (z : Z) : list Z :=
  match n with O => [] | S n => z mod 256 :: little_endian n (z / 256) end.

Definition of_little_endian (bs : list Z) : Z := foldr (fun b z => b + 256 * z) 0 bs.

Definition md5_pad (bs : list Z) : list Z :=
  let len := Z.of_nat (length bs) in
  bs ++ [128] ++ replicate (Z.to_nat ((55 - len) mod 64)) 0 ++ little_endian 8 (8 * len).

(** The list cut into pieces of [n]. *)
Fixpoint chunks {A} (fuel n : nat) (l : list A) : list (list A) :=
  match fuel, l with
  | O, _ | _, [] => []
  | S fuel, _ => take n l :: chunks fuel n (drop n l)
  end.

Definition digest : Type := Z * Z * Z * Z.

Definition md5_round (M : list Z) (x : digest) (i : nat) : digest :=
  let '(a, b, c, d) := x in
  let not32 z := 2 ^ 32 - 1 - z in
  let '(f, g) :=
    if (i <? 16)%nat then (Z.lor (Z.land b c) (Z.land (not32 b) d), i)
    else if (i <? 32)%nat then (Z.lor (Z.land d b) (Z.land (not32 d) c), (5 * i + 1) mod 16)%nat
    else if (i <? 48)%nat then (Z.lxor (Z.lxor b c) d, (3 * i + 5) mod 16)%nat
    else (Z.lxor c (Z.lor b (not32 d)), (7 * i) mod 16)%nat in
  let f := word32 (f + a + nth i md5_K 0 + nth g M 0) in
  (d, word32 (b + rotate_left (nth i md5_shift 0) f), b, c).

Definition md5_chunk (x : digest) (chunk : list Z) : digest :=
  let M := map of_little_endian (chunks 16 4 chunk) in
  let '(a, b, c, d) := foldl (md5_round M) x (seq 0 64) in
  let '(a0, b0, c0, d0) := x in
  (word32 (a0 + a), word32 (b0 + b), word32 (c0 + c), word32 (d0 + d)).

Definition md5_init : digest := (1732584193, 4023233417, 2562383102, 271733878).

Definition md5_Sum (s : string) : list Z :=
  let bs := md5_pad (bytes_of s) in
  let '(a, b, c, d) := foldl md5_chunk md5_init (chunks (length bs) 64 bs) in
  flat_map (little_endian 4) [a; b; c; d].

Definition hex_digit (z : Z) : ascii :=
  ascii_of_nat (Z.to_nat (if z <? 10 then 48 + z else 87 + z)).

(** [fmt.Sprintf] of bytes with [%x]. *)
Definition hex (bs : list Z) : string :=
  foldr (fun b s => String (hex_digit (b / 16)) (String (hex_digit (b mod 16)) s)) EmptyString bs.

Definition md5_hex (s : string) : string := hex (md5_Sum s).

Example md5_empty : md5_hex "" = "d41d8cd98f00b204e9800998ecf8427e".
Proof. vm_compute. reflexivity. Qed.

Example md5_message_digest : md5_hex "message digest" = "f96b697d7cb7938d525a2f31aaf161d0".
Proof. vm_compute. reflexivity. Qed.

Example md5_two_blocks :
  md5_hex "12345678901234567890123456789012345678901234567890123456789012345678901234567890" =
  "57edf4a22be3c955ac49da2e2107b67a".
Proof. vm_compute. reflexivity. Qed.

(** A checksum as printed always has 32 characters. *)
Lemma hex_length bs : String.length (hex bs) = (2 * length bs)%nat.
Proof.
  induction bs as [|b bs IH]; [done|]. cbn [length].
  change (String.length (hex (b :: bs))) with (S (S (String.length (hex bs)))). rewrite IH. lia.
Qed.

Lemma little_endian_length n z : length (little_endian n z) = n.
Proof. revert z. induction n as [|n IH]; intros z; cbn; [done|]. by rewrite IH. Qed.

Lemma md5_hex_length s : String.length (md5_hex s) = 32%nat.
Proof.
  unfold md5_hex, md5_Sum. destruct (foldl _ _ _) as [[[a b] c] d].
  rewrite hex_length. cbn [flat_map]. rewrite !length_app, !little_endian_length. done.
Qed.
