(* ===== verification/FileSystem.v ===== *)
(** * Paths and files: what blob.go uses of path/filepath and os

    A path is the list of the components of a cleaned absolute path; [filepath.Join] on
    it does the lexical cleaning of [filepath.Clean].  The file system is a finite map
    from paths to directories and files, without symbolic links, permissions or a
    limit on space: the failures left are those of paths that name the wrong thing, and
    their errors have the texts Linux gives, with the operation and the path. *)
From Stdlib Require Import Ascii.
From stdpp Require Import sorting.
From S2P Require Import Prelude.
From S2P Require Import Errors.
From S2P Require Import GoStrings.
Local Open Scope string_scope.
Local Open Scope list_scope.

Abbreviation path := (list string) (only parsing).

(** ** path/filepath *)
Definition slash : ascii := "/".

(** [Clean] of a rooted path: the components so far, the last first, and those to come. *)
Fixpoint Clean (out : path) (cs : list string) : path :=
  match cs with
  | [] => reverse out
  | c :: cs =>
      if String.eqb c "" || String.eqb c "." then Clean out cs
      else if String.eqb c ".." then Clean (tail out) cs
      else Clean (c :: out) cs
  end.

(** [filepath.Join(root, key)] for a rooted [root]. *)
Definition Join (root : path) (key : string) : path := Clean (reverse root) (Split slash key).

Definition Dir_of (p : path) : path := removelast p.

(** The text of a path below another one, as [filepath.Rel] gives it. *)
Definition path_text (p : path) : string :=
  match p with [] => "." | _ => strings_Join "/" p end.

(** The path whose text is that of [p] followed by [suf]. *)
Definition path_append (p : path) (suf : string) : path :=
  match last p with
  | Some c => removelast p ++ [c +:+ suf]
  | None => [suf]
  end.

(** Does the text of [p] end with [suf] (which has no slash)? *)
Definition path_HasSuffix (p : path) (suf : string) : bool :=
  match last p with Some c => HasSuffix c suf | None => false end.

(** ** os *)
Inductive node : Type :=
  | Directory
  | File (data : string) (modTime : Z).

Abbreviation files := (gmap (list string) node) (only parsing).

Definition ENOENT : error := External 10 "no such file or directory".
Definition ENOTDIR : error := External 11 "not a directory".
Definition EISDIR : error := External 12 "is a directory".
Definition ENOTEMPTY : error := External 13 "directory not empty".

(** The text of an absolute path, and *fs.PathError. *)
Definition rooted_text (p : path) : string := "/" +:+ strings_Join "/" p.

Definition PathError (op : string) (p : path) (err : error) : error :=
  Wrapf (op +:+ " " +:+ rooted_text p +:+ ": ") err "".

Definition is_directory (fs : files) (p : path) : bool :=
  match p with
  | [] => true
  | _ => match fs !! p with Some Directory => true | _ => false end
  end.

(** Why nothing is at [p]: a component above it is a file, or is missing itself. *)
Definition under_file (fs : files) (p : path) : bool :=
  existsb (fun n => match fs !! take n p with Some (File _ _) => true | _ => false end) (seq 1 (length p - 1)).

Definition missing (fs : files) (p : path) : error := if under_file fs p then ENOTDIR else ENOENT.

(** [os.MkdirAll]: the missing directories from the top, below [done]. *)
Fixpoint mkdirs (done todo : path) (fs : files) : files * option error :=
  match todo with
  | [] => (fs, None)
  | c :: todo =>
      let p := done ++ [c] in
      match fs !! p with
      | Some Directory => mkdirs p todo fs
      | Some (File _ _) => (fs, Some (PathError "mkdir" p ENOTDIR))
      | None => mkdirs p todo (<[p := Directory]> fs)
      end
  end.

Definition MkdirAll (p : path) (fs : files) : files * option error := mkdirs [] p fs.

Definition WriteFile (now : Z) (p : path) (data : string) (fs : files) : files * option error :=
  if is_directory fs p then (fs, Some (PathError "open" p EISDIR))
  else if negb (is_directory fs (Dir_of p)) then (fs, Some (PathError "open" p (missing fs p)))
  else (<[p := File data now]> fs, None).

Definition ReadFile (p : path) (fs : files) : result error string :=
  if is_directory fs p then Err (PathError "read" p EISDIR)
  else match fs !! p with Some (File data _) => Ok data | _ => Err (PathError "open" p (missing fs p)) end.

(** The path of [q] below [p], when it is below it. *)
Fixpoint below (p q : path) : option path :=
  match p, q with
  | [], _ => Some q
  | c :: p, d :: q => if String.eqb c d then below p q else None
  | _ :: _, [] => None
  end.

Definition has_child (fs : files) (p : path) : bool :=
  existsb (fun '(q, _) => match below p q with Some (_ :: _) => true | _ => false end) (map_to_list fs).

Definition Remove (p : path) (fs : files) : files * option error :=
  if is_directory fs p then
    if has_child fs p || bool_decide (p = []) then (fs, Some (PathError "remove" p ENOTEMPTY)) else (delete p fs, None)
  else match fs !! p with
       | Some _ => (delete p fs, None)
       | None => (fs, Some (PathError "remove" p (missing fs p)))
       end.

(** [os.Stat] without the error's text: is anything there? *)
Definition Stat (p : path) (fs : files) : bool :=
  match p with [] => true | _ => bool_decide (is_Some (fs !! p)) end.

(** [filepath.Walk]: what is at [root] and below it, with its path from [root], in
    lexical order. *)
Fixpoint path_le (p q : path) : Prop :=
  match p, q with
  | [], _ => True
  | _ :: _, [] => False
  | c :: p, d :: q =>
      match String.compare c d with Lt => True | Eq => path_le p q | Gt => False end
  end.

#[export] Instance path_le_dec : RelDecision path_le.
Proof.
  intros p. induction p as [|c p IH]; intros [|d q]; cbn; try (left; exact I); try (right; tauto).
  destruct (String.compare c d); [apply IH|left; exact I|right; tauto].
Defined.

Definition entry_le (x y : path * node) : Prop := path_le x.1 y.1.

#[export] Instance entry_le_dec : RelDecision entry_le := fun x y => path_le_dec x.1 y.1.

Definition Walk (root : path) (fs : files) : list (path * node) :=
  merge_sort entry_le
    (omap (fun '(p, n) => (fun rel => (rel, n)) <$> below root p) (map_to_list fs)).

(** ** Lemmas: paths *)

(** A component that cleaning keeps. *)
Definition normal (c : string) : Prop :=
  c <> "" /\ c <> "." /\ c <> ".." /\ Split slash c = [c].

Lemma normal_Split ks : Forall normal ks -> Forall (fun k => Split slash k = [k]) ks.
Proof. intros H. eapply Forall_impl; [done|]. by intros k (_ & _ & _ & Hk). Qed.

Lemma Clean_normal out cs : Forall normal cs -> Clean out cs = reverse out ++ cs.
Proof.
  intros Hcs. revert out. induction Hcs as [|c cs (H1 & H2 & H3 & _) _ IH]; intros out; cbn.
  - by rewrite app_nil_r.
  - apply String.eqb_neq in H1, H2, H3. rewrite H1, H2, H3. cbn.
    by rewrite IH, reverse_cons, <- app_assoc.
Qed.

Lemma Join_key root ks :
  ks <> [] -> Forall normal ks -> Join root (strings_Join "/" ks) = root ++ ks.
Proof.
  intros Hne Hks. unfold Join. rewrite Split_strings_Join by (done || by apply normal_Split).
  by rewrite Clean_normal, reverse_involutive.
Qed.

(** Every path is reached from every other one by going up first. *)
Definition up_to (root p : path) : string :=
  strings_Join "/" (replicate (length root) ".." ++ p).

Lemma Clean_up n out cs : (length out <= n)%nat -> Clean out (replicate n ".." ++ cs) = Clean [] cs.
Proof.
  revert out. induction n as [|n IH]; intros out Hn; [by destruct out; [|cbn in Hn; lia]|].
  change (Clean (tail out) (replicate n ".." ++ cs) = Clean [] cs). apply IH.
  destruct out; cbn in *; lia.
Qed.

Lemma Join_up_to root p : Forall normal p -> p <> [] -> Join root (up_to root p) = p.
Proof.
  intros Hp Hne. unfold Join, up_to. rewrite Split_strings_Join.
  - rewrite Clean_up by (by rewrite length_reverse). by rewrite Clean_normal.
  - by destruct p, (length root).
  - apply Forall_app. split; [|by apply normal_Split]. apply Forall_replicate. reflexivity.
Qed.

Lemma below_Some p q r : below p q = Some r <-> q = p ++ r.
Proof.
  revert q. induction p as [|c p IH]; intros [|d q]; cbn; try (split; congruence).
  destruct (String.eqb_spec c d) as [->|Hne]; [rewrite IH|]; split; congruence.
Qed.

Lemma below_app p r : below p (p ++ r) = Some r.
Proof. by apply below_Some. Qed.

Lemma last_nonempty {A} (l : list A) : l <> [] -> exists l' x, l = l' ++ [x].
Proof. intros Hl. destruct (exists_last Hl) as (l' & x & ->). by eauto. Qed.

Lemma path_append_snoc p c suf : path_append (p ++ [c]) suf = p ++ [c +:+ suf].
Proof. unfold path_append. by rewrite last_snoc, removelast_last. Qed.

Lemma path_append_app root ks suf :
  ks <> [] -> path_append (root ++ ks) suf = root ++ path_append ks suf.
Proof.
  intros (ks' & c & ->)%last_nonempty. rewrite app_assoc, !path_append_snoc. by rewrite <- app_assoc.
Qed.

Lemma Dir_of_snoc p c : Dir_of (p ++ [c]) = p.
Proof. apply removelast_last. Qed.

Lemma Dir_of_app root ks : ks <> [] -> Dir_of (root ++ ks) = root ++ Dir_of ks.
Proof. intros (ks' & c & ->)%last_nonempty. by rewrite app_assoc, !Dir_of_snoc. Qed.

Lemma Dir_of_append ks suf : ks <> [] -> Dir_of (path_append ks suf) = Dir_of ks.
Proof. intros (ks' & c & ->)%last_nonempty. by rewrite path_append_snoc, !Dir_of_snoc. Qed.

Lemma path_append_inj ks ks' suf :
  ks <> [] -> ks' <> [] -> path_append ks suf = path_append ks' suf -> ks = ks'.
Proof.
  intros (p & c & ->)%last_nonempty (p' & c' & ->)%last_nonempty.
  rewrite !path_append_snoc. intros [-> [= Hc]]%app_inj_tail. by rewrite (String_app_inj_l _ _ _ Hc).
Qed.

Lemma path_HasSuffix_append root ks suf :
  ks <> [] -> path_HasSuffix (root ++ path_append ks suf) suf = true.
Proof.
  intros (p & c & ->)%last_nonempty. unfold path_HasSuffix.
  rewrite path_append_snoc, app_assoc, last_snoc. apply HasSuffix_app.
Qed.

Lemma path_HasSuffix_app root ks suf :
  ks <> [] -> path_HasSuffix (root ++ ks) suf = path_HasSuffix ks suf.
Proof. intros (p & c & ->)%last_nonempty. unfold path_HasSuffix. by rewrite app_assoc, !last_snoc. Qed.

(** ** Lemmas: files *)
Lemma is_directory_lookup fs p : is_directory fs p = true -> p = [] \/ fs !! p = Some Directory.
Proof. destruct p; [by left|]. cbn. destruct (fs !! _) as [[]|]; by auto. Qed.

Lemma not_directory fs p n :
  p <> [] -> fs !! p = n -> n <> Some Directory -> is_directory fs p = false.
Proof. intros Hp <-. destruct p; [done|]. cbn. by destruct (fs !! _) as [[]|]. Qed.

Lemma is_directory_insert_ne fs p q n : p <> q -> is_directory (<[q := n]> fs) p = is_directory fs p.
Proof. intros Hne. destruct p as [|c p]; [done|]. cbn. by rewrite lookup_insert_ne. Qed.

(** [MkdirAll] when no file is in the way: the missing directories are there and nothing
    else has changed. *)
Lemma mkdirs_ok todo : forall dir fs,
  (forall q r, todo = q ++ r -> q <> [] -> forall data t, fs !! (dir ++ q) <> Some (File data t)) ->
  exists fs', mkdirs dir todo fs = (fs', None) /\
    (forall q r, todo = q ++ r -> q <> [] -> fs' !! (dir ++ q) = Some Directory) /\
    (forall p n, fs !! p = Some n -> fs' !! p = Some n) /\
    (forall p n, fs' !! p = Some n ->
       fs !! p = Some n \/ n = Directory /\ exists q r, todo = q ++ r /\ q <> [] /\ p = dir ++ q).
Proof.
  induction todo as [|c todo IH]; intros dir fs Hfree; cbn.
  { exists fs. split_and!; [done| |done|by left]. intros q r [-> ->]%symmetry%app_eq_nil. done. }
  set (fs1 := match fs !! (dir ++ [c]) with Some Directory => fs | _ => <[dir ++ [c] := Directory]> fs end).
  assert (Hc : forall data t, fs !! (dir ++ [c]) <> Some (File data t)) by (by apply (Hfree [c] todo)).
  assert (H1 : fs1 !! (dir ++ [c]) = Some Directory).
  { unfold fs1. destruct (fs !! (dir ++ [c])) as [[|data t]|] eqn:Hl; [done|by edestruct Hc|].
    apply lookup_insert_eq. }
  assert (H2 : forall p, p <> dir ++ [c] -> fs1 !! p = fs !! p).
  { intros p Hp. unfold fs1. destruct (fs !! (dir ++ [c])) as [[]|]; [done|..]; by apply lookup_insert_ne. }
  destruct (IH (dir ++ [c]) fs1) as (fs' & Hm & Hdir & Hold & Hnew).
  { intros q r -> Hq data t. rewrite <- app_assoc, H2.
    - apply (Hfree (c :: q) r); done.
    - intros [= ->]%app_inv_head. done. }
  exists fs'. split_and!.
  - unfold fs1 in *. destruct (fs !! (dir ++ [c])) as [[|data t]|] eqn:Hl; [done|by edestruct Hc|done].
  - intros [|c' q] r Heq Hq; [done|]. injection Heq as <- ->. destruct q as [|d q].
    + by apply Hold.
    + replace (dir ++ c :: d :: q) with ((dir ++ [c]) ++ d :: q) by (by rewrite <- app_assoc).
      by apply (Hdir (d :: q) r).
  - intros p n Hp. apply Hold. destruct (decide (p = dir ++ [c])) as [->|Hne]; [|by rewrite H2].
    rewrite H1. destruct n as [|data t]; [done|]. by apply Hc in Hp.
  - intros p n Hp. destruct (Hnew p n Hp) as [Hp1|(-> & q & r & -> & Hq & ->)].
    + destruct (decide (p = dir ++ [c])) as [->|Hne]; [|left; by rewrite <- H2].
      rewrite H1 in Hp1. injection Hp1 as <-. right. split; [done|]. by exists [c], todo.
    + right. split; [done|]. exists (c :: q), r. by rewrite <- app_assoc.
Qed.

(** [MkdirAll] succeeds only if no file is in the way. *)
Lemma mkdirs_free todo : forall dir fs fs',
  mkdirs dir todo fs = (fs', None) ->
  forall q r, todo = q ++ r -> q <> [] -> forall data t, fs !! (dir ++ q) <> Some (File data t).
Proof.
  induction todo as [|c todo IH]; intros dir fs fs' Hm q r Hq Hne data t.
  { by apply symmetry, app_eq_nil in Hq as [-> _]. }
  destruct q as [|c' q]; [done|]. injection Hq as <- ->. cbn in Hm.
  destruct (fs !! (dir ++ [c])) as [[|]|] eqn:Hl; [|done|].
  - destruct q as [|d q]; [congruence|]. replace (dir ++ c :: d :: q) with ((dir ++ [c]) ++ d :: q) by (by rewrite <- app_assoc).
    by eapply IH.
  - destruct q as [|d q]; [congruence|]. replace (dir ++ c :: d :: q) with ((dir ++ [c]) ++ d :: q) by (by rewrite <- app_assoc).
    pose proof (IH _ _ _ Hm (d :: q) r eq_refl ltac:(done) data t) as Hf.
    rewrite lookup_insert_ne in Hf; [done|]. intros He%(f_equal length). rewrite !length_app in He. cbn in He. lia.
Qed.

(** What a call that succeeds leaves of the directories. *)
Definition keeps_directories (fs fs' : files) : Prop :=
  forall p, fs !! p = Some Directory -> fs' !! p = Some Directory.

#[export] Instance keeps_directories_preorder : PreOrder keeps_directories.
Proof. split; [by intros fs p|]. intros fs1 fs2 fs3 H1 H2 p Hp. by apply H2, H1. Qed.

Lemma MkdirAll_done p fs fs' :
  MkdirAll p fs = (fs', None) ->
  fs ⊆ fs' /\ (forall q r, p = q ++ r -> q <> [] -> fs' !! q = Some Directory).
Proof.
  intros Hm. destruct (mkdirs_ok p [] fs (mkdirs_free _ _ _ _ Hm)) as (fs1 & Hm1 & Hdir & Hold & _).
  unfold MkdirAll in Hm. rewrite Hm in Hm1. injection Hm1 as <-.
  split; [by apply map_subseteq_spec|exact Hdir].
Qed.

Lemma subseteq_keeps (fs fs' : files) : fs ⊆ fs' -> keeps_directories fs fs'.
Proof. intros H p Hp. by eapply lookup_weaken. Qed.

Lemma delete_file_keeps (p : path) (data : string) (t : Z) (fs : files) :
  fs !! p = Some (File data t) -> keeps_directories fs (delete p fs).
Proof. intros Hp q Hq. rewrite lookup_delete_ne; congruence. Qed.

Lemma mkdirs_again todo : forall dir fs,
  (forall q r, todo = q ++ r -> q <> [] -> fs !! (dir ++ q) = Some Directory) ->
  mkdirs dir todo fs = (fs, None).
Proof.
  induction todo as [|c todo IH]; intros dir fs Hd; [done|]. cbn [mkdirs].
  rewrite (Hd [c] todo) by done. apply IH. intros q r -> Hq. rewrite <- app_assoc.
  by apply (Hd (c :: q) r).
Qed.

Lemma MkdirAll_again p fs fs1 fs2 :
  MkdirAll p fs = (fs1, None) -> keeps_directories fs1 fs2 -> MkdirAll p fs2 = (fs2, None).
Proof.
  intros [_ Hd]%MkdirAll_done Hk. apply mkdirs_again. intros q r Hq Hne. by eapply Hk, Hd.
Qed.

Lemma WriteFile_done now p data fs fs' :
  WriteFile now p data fs = (fs', None) ->
  p <> [] /\ fs' = <[p := File data now]> fs /\ keeps_directories fs fs'.
Proof.
  unfold WriteFile. destruct (is_directory fs p) eqn:Hd; [done|].
  destruct (negb (is_directory fs (Dir_of p))); [done|]. intros [= <-].
  assert (Hp : p <> []) by (by intros ->). split_and!; [done..|].
  intros q Hq. rewrite lookup_insert_ne; [done|]. intros <-.
  destruct p; [done|]. cbn in Hd. by rewrite Hq in Hd.
Qed.

Lemma path_append_neq p suf : p <> [] -> suf <> "" -> path_append p suf <> p.
Proof.
  intros (q & c & ->)%last_nonempty Hs. rewrite path_append_snoc. intros [_ [= He]]%app_inj_tail.
  apply (f_equal String.length) in He. rewrite String_length_app in He. destruct suf; cbn in *; [done|lia].
Qed.

Lemma path_append_nonempty p suf : path_append p suf <> [].
Proof. unfold path_append. destruct (last p); [|done]. by destruct (removelast p). Qed.

Lemma WriteFile_ok now p data fs :
  is_directory fs p = false -> is_directory fs (Dir_of p) = true ->
  WriteFile now p data fs = (<[p := File data now]> fs, None).
Proof. unfold WriteFile. by intros -> ->. Qed.

Lemma ReadFile_ok p fs data t : p <> [] -> fs !! p = Some (File data t) -> ReadFile p fs = Ok data.
Proof.
  intros Hp Hf. unfold ReadFile. erewrite not_directory by (done || congruence). by rewrite Hf.
Qed.

Lemma ReadFile_subseteq (p : path) (fs fs' : files) (data : string) :
  fs ⊆ fs' -> ReadFile p fs = Ok data -> ReadFile p fs' = Ok data.
Proof.
  intros Hs. unfold ReadFile. destruct (is_directory fs p) eqn:Hd; [done|].
  destruct (fs !! p) as [[|d t]|] eqn:Hp; [done| |done]. intros [= ->].
  eapply ReadFile_ok; [by intros ->|by eapply lookup_weaken].
Qed.

Lemma missing_ENOENT (p : path) (fs : files) :
  (forall q r data t, p = q ++ r -> q <> [] -> r <> [] -> fs !! q <> Some (File data t)) -> missing fs p = ENOENT.
Proof.
  intros Hno. unfold missing, under_file.
  destruct (existsb _ _) eqn:He; [|done]. apply existsb_exists in He as (n & Hn%in_seq & Hf).
  destruct (fs !! take n p) as [[|data t]|] eqn:Hp; try done. exfalso.
  apply (Hno (take n p) (drop n p) data t); [by rewrite take_drop| | |done].
  - intros H%(f_equal length). rewrite length_take in H. cbn in H. lia.
  - intros H%(f_equal length). rewrite length_drop in H. cbn in H. lia.
Qed.

Lemma ReadFile_absent p fs : p <> [] -> fs !! p = None -> ReadFile p fs = Err (PathError "open" p (missing fs p)).
Proof.
  intros Hp Hf. unfold ReadFile. erewrite not_directory by (done || congruence). by rewrite Hf.
Qed.

Lemma Remove_file p fs data t : p <> [] -> fs !! p = Some (File data t) -> Remove p fs = (delete p fs, None).
Proof.
  intros Hp Hf. unfold Remove. erewrite not_directory by (done || congruence). by rewrite Hf.
Qed.

Lemma Remove_absent p fs : p <> [] -> fs !! p = None -> Remove p fs = (fs, Some (PathError "remove" p (missing fs p))).
Proof.
  intros Hp Hf. unfold Remove. erewrite not_directory by (done || congruence). by rewrite Hf.
Qed.

Lemma elem_of_Walk root fs rel n : (rel, n) ∈ Walk root fs <-> fs !! (root ++ rel) = Some n.
Proof.
  unfold Walk. rewrite merge_sort_Permutation, list_elem_of_omap. split.
  - intros ([p n'] & Hin%elem_of_map_to_list & Hb). destruct (below root p) as [r|] eqn:Hr; [|done].
    apply below_Some in Hr as ->. by injection Hb as -> ->.
  - intros Hl. exists (root ++ rel, n). split; [by apply elem_of_map_to_list|]. by rewrite below_app.
Qed.

Lemma Walk_NoDup root fs : NoDup (Walk root fs).*1.
Proof.
  unfold Walk. rewrite merge_sort_Permutation.
  pose proof (NoDup_fst_map_to_list fs) as Hnd. revert Hnd. generalize (map_to_list fs).
  intros l Hnd. induction l as [|[p n] l IH]; [constructor|].
  cbn in *. apply NoDup_cons in Hnd as [Hp Hnd]. destruct (below root p) as [r|] eqn:Hr; cbn; [|by apply IH].
  apply below_Some in Hr as ->. constructor; [|by apply IH].
  intros ([r' n'] & -> & Hin)%list_elem_of_fmap. apply Hp. apply list_elem_of_omap in Hin as ([p' n''] & Hin & Hb).
  destruct (below root p') as [r''|] eqn:Hr; [|done]. apply below_Some in Hr as ->.
  injection Hb as -> _. apply list_elem_of_fmap. by exists (root ++ r', n'').
Qed.
