(* ===== verification/Blob.v ===== *)
(** * Blobs: the data (blob.go)

    The records of the blob stores, shared by the file-system store ([BlobFs]) and the
    database store ([BlobDb]). The bytes of a blob are a [string]. *)
From S2P Require Import Prelude.
Local Open Scope Z_scope.

Record BlobMetadata : Type := mkBlobMetadata {
  bm_ContentType : string;
  bm_Filename : string;
  bm_Size : Z;
  bm_Checksum : string;
  bm_Tags : gmap string string;
  bm_CreatedAt : Z;
  bm_UpdatedAt : Z;
}.

Definition BlobMetadata_zero : BlobMetadata := mkBlobMetadata "" "" 0 "" ∅ 0 0.

Record BlobData : Type := mkBlobData {
  bd_Key : string;
  bd_Data : string;
  bd_Metadata : BlobMetadata;
}.

Record BlobInfo : Type := mkBlobInfo {
  bi_Key : string;
  bi_Metadata : BlobMetadata;
}.

Record BlobStats : Type := mkBlobStats {
  bs_TotalBlobs : Z;
  bs_TotalSize : Z;
  bs_UsedSpace : Z;
}.

Record BlobStorageConfig : Type := mkBlobStorageConfig {
  bc_Backend : string;
  bc_RootPath : string;
  bc_TableName : string;
  bc_MaxSize : Z;
  bc_Compression : bool;
}.

Definition len (data : string) : Z := Z.of_nat (String.length data).

(** The limit of both constructors: 100 MB unless configured. *)
Definition config_maxSize (config : BlobStorageConfig) : Z :=
  if 0 <? bc_MaxSize config then bc_MaxSize config else 100 * 1024 * 1024.
