(* ===== verification/BlobFs.v ===== *)
(** * The file-system blob store (blob.go, [FilesystemBlobStorage])

    A blob is a file below the root and a [.meta] file beside it. The store is refined
    to a map from keys to blobs, for keys that keep out of each other's way; for others
    it is not one, as the last properties show. *)
From Stdlib Require Import Ascii.
From stdpp Require Import sorting.
From S2P Require Import Prelude.
From S2P Require Import Errors.
From S2P Require Import GoStrings.
From S2P Require Import FileSystem.
From S2P Require Import Md5.
From S2P Require Import Blob.
Local Open Scope string_scope.
Local Open Scope list_scope.
Local Open Scope Z_scope.

Record FilesystemBlobStorage : Type := mkFilesystemBlobStorage {
  fb_rootPath : path;
  fb_maxSize : Z;
}.

(** The clock readings of a [Store]: of the two writes, and of the two [time.Now]. *)
Record store_times : Type := mkStoreTimes {
  t_data : Z;
  t_meta : Z;
  t_created : Z;
  t_updated : Z;
}.

Section BlobFs.
(** [t.Format(time.RFC3339)], which depends on the time zone of the machine. *)
Variable rfc3339 : Z -> string.

(** [cwd]: the working directory, for a root that is not absolute. *)
Definition NewFilesystemBlobStorage (cwd : path) (config : BlobStorageConfig) (fs : files)
    : files * result error FilesystemBlobStorage :=
  if String.eqb (bc_RootPath config) "" then
    (fs, Err (Errorf "root path is required for filesystem blob storage"))
  else
    let root := if HasPrefix (bc_RootPath config) "/" then Join [] (bc_RootPath config)
                else Join cwd (bc_RootPath config) in
    let '(fs, err) := MkdirAll root fs in
    match err with
    | Some e => (fs, Err (Wrapf "failed to create root directory: " e ""))
    | None => (fs, Ok (mkFilesystemBlobStorage root (config_maxSize config)))
    end.

(** The text of the metadata file: the quoted name, a colon and the value, per line. *)
Definition quote (s : string) : string := String "034" s +:+ String "034" "".
Definition new_line : string := String "010" (String "009" "").

Definition metadata_JSON (metadata : BlobMetadata) (data : string) (times : store_times) : string :=
  "{" +:+
  strings_Join ","
    (map (fun '(name, value) => new_line +:+ String "009" "" +:+ quote name +:+ ": " +:+ value)
       [("content_type", quote (bm_ContentType metadata));
        ("filename", quote (bm_Filename metadata));
        ("size", pretty (len data));
        ("checksum", quote (md5_hex data));
        ("created_at", quote (rfc3339 (t_created times)));
        ("updated_at", quote (rfc3339 (t_updated times)))]) +:+
  new_line +:+ "}".

Definition FilesystemBlobStorage_Store (key data : string) (metadata : BlobMetadata)
    (times : store_times) (fbs : FilesystemBlobStorage) (fs : files) : files * option error :=
  if fb_maxSize fbs <? len data then
    (fs, Some (Errorf ("blob size " +:+ pretty (len data) +:+ " exceeds maximum " +:+
                       pretty (fb_maxSize fbs))))
  else
    let filePath := Join (fb_rootPath fbs) key in
    let dir := Dir_of filePath in
    let '(fs, err) := MkdirAll dir fs in
    match err with
    | Some e => (fs, Some (Wrapf "failed to create directory: " e ""))
    | None =>
        let '(fs, err) := WriteFile (t_data times) filePath data fs in
        match err with
        | Some e => (fs, Some (Wrapf "failed to write blob: " e ""))
        | None =>
            let metadataPath := path_append filePath ".meta" in
            WriteFile (t_meta times) metadataPath (metadata_JSON metadata data times) fs
        end
    end.

(** What [Retrieve] reads out of the text of a metadata file. *)
Definition content_type_in (metaStr : string) : string :=
  if Contains metaStr "image/" then
    if Contains metaStr "png" then "image/png"
    else if Contains metaStr "gif" then "image/gif"
    else "image/jpeg"
  else "".

(** [t1], [t2]: the clock readings for CreatedAt and UpdatedAt. *)
Definition FilesystemBlobStorage_Retrieve (key : string) (t1 t2 : Z) (fbs : FilesystemBlobStorage)
    (fs : files) : result error BlobData :=
  let filePath := Join (fb_rootPath fbs) key in
  match ReadFile filePath fs with
  | Err e => Err (Wrapf "blob not found: " e "")
  | Ok data =>
      let contentType :=
        match ReadFile (path_append filePath ".meta") fs with
        | Ok metaStr => content_type_in metaStr
        | Err _ => ""
        end in
      Ok (mkBlobData key data (mkBlobMetadata contentType "" (len data) (md5_hex data) ∅ t1 t2))
  end.

Definition FilesystemBlobStorage_Delete (key : string) (fbs : FilesystemBlobStorage) (fs : files)
    : files * option error :=
  let filePath := Join (fb_rootPath fbs) key in
  let '(fs, _) := Remove (path_append filePath ".meta") fs in
  Remove filePath fs.

Definition FilesystemBlobStorage_Exists (key : string) (fbs : FilesystemBlobStorage) (fs : files)
    : bool := Stat (Join (fb_rootPath fbs) key) fs.

(** The walk function of [List] and [Stats]: the files it counts, with their size and
    time. *)
Definition walk_visits (root : path) (x : path * node) : option (path * string * Z) :=
  let '(rel, n) := x in
  match n with
  | Directory => None
  | File data modTime =>
      if path_HasSuffix (root ++ rel) ".meta" then None else Some (rel, data, modTime)
  end.

Definition FilesystemBlobStorage_List (prefix : string) (fbs : FilesystemBlobStorage) (fs : files)
    : list BlobInfo :=
  omap (fun x =>
    '(rel, data, modTime) ← walk_visits (fb_rootPath fbs) x;
    let relPath := path_text rel in
    if String.eqb prefix "" || HasPrefix relPath prefix then
      Some (mkBlobInfo relPath (mkBlobMetadata "" "" (len data) "" ∅ modTime modTime))
    else None) (Walk (fb_rootPath fbs) fs).

Definition FilesystemBlobStorage_Stats (fbs : FilesystemBlobStorage) (fs : files) : BlobStats :=
  let '(totalBlobs, totalSize) :=
    foldl (fun '(totalBlobs, totalSize) x =>
      match walk_visits (fb_rootPath fbs) x with
      | None => (totalBlobs, totalSize)
      | Some (_, data, _) => (wrap64 (totalBlobs + 1), wrap64 (totalSize + len data))
      end) (0, 0) (Walk (fb_rootPath fbs) fs) in
  mkBlobStats totalBlobs totalSize totalSize.

End BlobFs.

(** ** The specification: a map from keys to blobs *)
Record blob : Type := mkBlob { b_data : string; b_type : string; b_time : Z }.

Abbreviation blobs := (gmap (list string) blob) (only parsing).

(** The calls, with a key given by its components. *)
Inductive fb_call : Type :=
  | FbStore (ks : path) (data : string) (metadata : BlobMetadata) (times : store_times)
  | FbRetrieve (ks : path) (t1 t2 : Z)
  | FbDelete (ks : path)
  | FbExists (ks : path)
  | FbList (prefix : string)
  | FbStats.

Inductive fb_answer : Type :=
  | AnsError (err : option error)
  | AnsData (r : result error BlobData)
  | AnsBool (b : bool)
  | AnsList (infos : list BlobInfo)
  | AnsStats (stats : BlobStats).

(** The keys of a schedule: relative, clean, no component ending in [.meta], and none
    below another one. *)
Definition plain (c : string) : Prop := normal c /\ HasSuffix c ".meta" = false.

Record separate (K : path -> Prop) : Prop := mk_separate {
  sep_nonempty ks : K ks -> ks <> [];
  sep_plain ks : K ks -> Forall plain ks;
  sep_free ks r : K ks -> K (ks ++ r) -> r = [];
}.

Definition call_key (o : fb_call) : option path :=
  match o with
  | FbStore ks _ _ _ | FbRetrieve ks _ _ | FbDelete ks | FbExists ks => Some ks
  | FbList _ | FbStats => None
  end.

(** The answers agree; [List] in any order. *)
Inductive same_answer : fb_answer -> fb_answer -> Prop :=
  | same_refl a : same_answer a a
  | same_list l l' : l ≡ₚ l' -> same_answer (AnsList l) (AnsList l').

Section Spec.
Variable rfc3339 : Z -> string.

Definition fb_step (fbs : FilesystemBlobStorage) (o : fb_call) (fs : files) : files * fb_answer :=
  match o with
  | FbStore ks data metadata times =>
      let '(fs, err) := FilesystemBlobStorage_Store rfc3339 (path_text ks) data metadata times fbs fs in
      (fs, AnsError err)
  | FbRetrieve ks t1 t2 => (fs, AnsData (FilesystemBlobStorage_Retrieve (path_text ks) t1 t2 fbs fs))
  | FbDelete ks =>
      let '(fs, err) := FilesystemBlobStorage_Delete (path_text ks) fbs fs in (fs, AnsError err)
  | FbExists ks => (fs, AnsBool (FilesystemBlobStorage_Exists (path_text ks) fbs fs))
  | FbList prefix => (fs, AnsList (FilesystemBlobStorage_List prefix fbs fs))
  | FbStats => (fs, AnsStats (FilesystemBlobStorage_Stats fbs fs))
  end.

Fixpoint fb_answers (fbs : FilesystemBlobStorage) (os : list fb_call) (fs : files) : list fb_answer :=
  match os with
  | [] => []
  | o :: os => let '(fs, a) := fb_step fbs o fs in a :: fb_answers fbs os fs
  end.

Definition blob_info (prefix : string) (x : path * blob) : option BlobInfo :=
  if String.eqb prefix "" || HasPrefix (path_text x.1) prefix then
    Some (mkBlobInfo (path_text x.1)
            (mkBlobMetadata "" "" (len (b_data x.2)) "" ∅ (b_time x.2) (b_time x.2)))
  else None.

Definition total_size (m : blobs) : Z := foldr (fun x t => len (b_data x.2) + t) 0 (map_to_list m).

(** [root]: for the path in the texts of errors. *)
Definition blob_step (root : path) (maxSize : Z) (o : fb_call) (m : blobs) : blobs * fb_answer :=
  match o with
  | FbStore ks data metadata times =>
      if maxSize <? len data then
        (m, AnsError (Some (Errorf ("blob size " +:+ pretty (len data) +:+ " exceeds maximum " +:+
                                    pretty maxSize))))
      else
        (<[ks := mkBlob data (content_type_in (metadata_JSON rfc3339 metadata data times)) (t_data times)]> m,
         AnsError None)
  | FbRetrieve ks t1 t2 =>
      (m, AnsData match m !! ks with
                  | Some b => Ok (mkBlobData (path_text ks) (b_data b)
                                    (mkBlobMetadata (b_type b) "" (len (b_data b)) (md5_hex (b_data b)) ∅ t1 t2))
                  | None => Err (Wrapf "blob not found: " (PathError "open" (root ++ ks) ENOENT) "")
                  end)
  | FbDelete ks =>
      (delete ks m, AnsError (match m !! ks with
                              | Some _ => None
                              | None => Some (PathError "remove" (root ++ ks) ENOENT)
                              end))
  | FbExists ks => (m, AnsBool (bool_decide (is_Some (m !! ks))))
  | FbList prefix => (m, AnsList (omap (blob_info prefix) (map_to_list m)))
  | FbStats =>
      (m, AnsStats (mkBlobStats (wrap64 (Z.of_nat (size m))) (wrap64 (total_size m)) (wrap64 (total_size m))))
  end.

Fixpoint blob_answers (root : path) (maxSize : Z) (os : list fb_call) (m : blobs) : list fb_answer :=
  match os with
  | [] => []
  | o :: os => let '(m, a) := blob_step root maxSize o m in a :: blob_answers root maxSize os m
  end.
End Spec.

(** ** What the files look like *)
Section Invariant.
Context {K : path -> Prop} (HK : separate K).
Variable root : path.

Abbreviation meta ks := (path_append ks ".meta").

Record blob_inv (fs : files) (m : blobs) : Prop := mk_blob_inv {
  bi_top : fs !! [] = None;
  bi_root p r : root = p ++ r -> p <> [] -> fs !! p = Some Directory;
  bi_blob ks b : m !! ks = Some b ->
    K ks /\ fs !! (root ++ ks) = Some (File (b_data b) (b_time b)) /\
    exists text t, fs !! (root ++ meta ks) = Some (File text t) /\ content_type_in text = b_type b;
  bi_only rel n : rel <> [] -> fs !! (root ++ rel) = Some n ->
    (n = Directory /\ exists r, r <> [] /\ K (rel ++ r)) \/
    (exists b, m !! rel = Some b /\ n = File (b_data b) (b_time b)) \/
    (exists ks b text t, m !! ks = Some b /\ rel = meta ks /\ n = File text t);
}.

Lemma meta_not_prefix ks ks' r : K ks -> ks' <> [] -> ks <> meta ks' ++ r.
Proof.
  intros Hk (p & c & ->)%last_nonempty ->. rewrite path_append_snoc in Hk.
  apply (sep_plain _ HK) in Hk. rewrite !Forall_app, Forall_singleton in Hk.
  destruct Hk as [[_ [_ Hs]] _]. by rewrite HasSuffix_app in Hs.
Qed.

Lemma meta_nonempty ks : meta ks <> [].
Proof.
  intros H%(f_equal length). unfold path_append in H. destruct (last ks); [|done].
  rewrite length_app in H. cbn in H. lia.
Qed.

Lemma key_lookup fs m ks :
  blob_inv fs m -> K ks ->
  fs !! (root ++ ks) = match m !! ks with Some b => Some (File (b_data b) (b_time b)) | None => None end.
Proof.
  intros [_ _ Hblob Honly] Hk. destruct (m !! ks) as [b|] eqn:Hm; [by apply Hblob|].
  destruct (fs !! (root ++ ks)) as [n|] eqn:Hl; [|done]. exfalso.
  destruct (Honly _ _ (sep_nonempty _ HK _ Hk) Hl) as [(-> & r & Hr & Hkr)|[(b & Hb & _)|(ks' & b & x & t & Hb & -> & _)]].
  - by apply (sep_free _ HK) in Hkr.
  - congruence.
  - destruct (Hblob _ _ Hb) as [Hk' _]. eapply (meta_not_prefix _ ks' [] Hk); [by eapply sep_nonempty|].
    by rewrite app_nil_r.
Qed.

Lemma meta_lookup fs m ks :
  blob_inv fs m -> K ks ->
  match m !! ks with
  | Some b => exists text t, fs !! (root ++ meta ks) = Some (File text t) /\ content_type_in text = b_type b
  | None => fs !! (root ++ meta ks) = None
  end.
Proof.
  intros [_ _ Hblob Honly] Hk. destruct (m !! ks) as [b|] eqn:Hm; [by apply Hblob|].
  destruct (fs !! (root ++ meta ks)) as [n|] eqn:Hl; [|done]. exfalso.
  pose proof (sep_nonempty _ HK _ Hk) as Hne.
  destruct (Honly _ _ (meta_nonempty ks) Hl) as [(-> & r & Hr & Hkr)|[(b & Hb & _)|(ks' & b & x & t & Hb & Heq & _)]].
  - by eapply (meta_not_prefix _ ks r Hkr).
  - destruct (Hblob _ _ Hb) as [Hk' _]. eapply (meta_not_prefix _ ks [] Hk'); [done|]. by rewrite app_nil_r.
  - destruct (Hblob _ _ Hb) as [Hk' _]. apply path_append_inj in Heq as ->; [congruence|done|].
    by eapply sep_nonempty.
Qed.

(** A key's directory can be made. *)
Lemma key_dir_free fs m ks q r data t :
  blob_inv fs m -> K ks -> root ++ Dir_of ks = q ++ r -> q <> [] -> fs !! q <> Some (File data t).
Proof.
  intros Hinv Hk Heq Hq Hf. pose proof Hinv as [_ Hroot Hblob Honly].
  apply app_eq_app in Heq as [l [[Hq1 Hr1]|[Hq1 Hr1]]].
  - assert (root = q ++ l) as He by done. by rewrite (Hroot q l He Hq) in Hf.
  - subst q. destruct l as [|c l]; [rewrite app_nil_r in *; by rewrite (Hroot root []) in Hf by (by rewrite ?app_nil_r)|].
    destruct (last_nonempty ks (sep_nonempty _ HK _ Hk)) as (p & d & ->). rewrite Dir_of_snoc in Hr1. subst p.
    destruct (Honly (c :: l) _ ltac:(done) Hf) as [[? _]|[(b & Hb & _)|(ks' & b & x & t' & Hb & He & _)]]; [done|..].
    + destruct (Hblob _ _ Hb) as [Hk' _]. rewrite <- app_assoc in Hk. apply (sep_free _ HK _ _ Hk') in Hk.
      by destruct r.
    + destruct (Hblob _ _ Hb) as [Hk' _]. rewrite He, <- app_assoc in Hk.
      by eapply (meta_not_prefix _ ks' _ Hk); [eapply sep_nonempty|].
Qed.

Lemma key_missing fs m ks : blob_inv fs m -> K ks -> missing fs (root ++ ks) = ENOENT.
Proof.
  intros Hinv Hk. apply missing_ENOENT. intros q r data t Heq Hq Hr.
  destruct (last_nonempty r Hr) as (r' & c & ->). eapply (key_dir_free fs m ks q r'); try done.
  destruct (last_nonempty ks (sep_nonempty _ HK _ Hk)) as (p & d & ->). rewrite Dir_of_snoc.
  rewrite !app_assoc in Heq. by apply app_inj_tail in Heq as [Heq _].
Qed.

Lemma Join_path_text ks : K ks -> Join root (path_text ks) = root ++ ks.
Proof.
  intros Hk. pose proof (sep_nonempty _ HK _ Hk) as Hne.
  replace (path_text ks) with (strings_Join "/" ks) by (by destruct ks).
  apply Join_key; [done|]. eapply Forall_impl; [by eapply sep_plain|]. by intros c [Hc _].
Qed.

(** [MkdirAll] of a key's directory succeeds and adds directories only, each above the
    key. *)
Lemma key_MkdirAll fs m ks :
  blob_inv fs m -> K ks ->
  exists fs', MkdirAll (root ++ Dir_of ks) fs = (fs', None) /\
    is_directory fs' (root ++ Dir_of ks) = true /\
    (forall p n, fs !! p = Some n -> fs' !! p = Some n) /\
    (forall p n, fs' !! p = Some n ->
       fs !! p = Some n \/ n = Directory /\ p <> [] /\ exists r, root ++ Dir_of ks = p ++ r).
Proof.
  intros Hinv Hk.
  destruct (mkdirs_ok (root ++ Dir_of ks) [] fs) as (fs' & Hm & Hdir & Hold & Hnew).
  { intros q r He Hq data t. by eapply key_dir_free. }
  exists fs'. split_and!; [done| |done|].
  - destruct (root ++ Dir_of ks) as [|c p] eqn:He; [done|]. cbn.
    specialize (Hdir (c :: p) [] ltac:(by rewrite app_nil_r) ltac:(done)). cbn in Hdir. by rewrite Hdir.
  - intros p n Hp. destruct (Hnew p n Hp) as [|(-> & q & r & He & Hq & ->)]; [by left|].
    right. split_and!; [done|done|]. by exists r.
Qed.

Lemma length_Dir_of ks : ks <> [] -> length ks = S (length (Dir_of ks)).
Proof. intros (p & c & ->)%last_nonempty. rewrite Dir_of_snoc, length_app. cbn. lia. Qed.

Lemma meta_length ks : ks <> [] -> length (meta ks) = length ks.
Proof. intros (p & c & ->)%last_nonempty. by rewrite path_append_snoc, !length_app. Qed.

Lemma meta_neq ks ks' : K ks -> ks' <> [] -> ks <> meta ks'.
Proof. intros Hk Hne He. eapply (meta_not_prefix ks ks' [] Hk Hne). by rewrite app_nil_r. Qed.

(** The two files of a key, written over a file system that has its directory. *)
Lemma blob_inv_put fs fs1 m ks data text t t' :
  blob_inv fs m -> K ks ->
  (forall p n, fs !! p = Some n -> fs1 !! p = Some n) ->
  (forall p n, fs1 !! p = Some n -> fs !! p = Some n \/ n = Directory /\ p <> [] /\ exists r, root ++ Dir_of ks = p ++ r) ->
  blob_inv (<[root ++ meta ks := File text t']> (<[root ++ ks := File data t]> fs1))
    (<[ks := mkBlob data (content_type_in text) t]> m).
Proof.
  intros [Htop Hroot Hblob Honly] Hk Hold Hnew. pose proof (sep_nonempty _ HK _ Hk) as Hne.
  pose proof (meta_neq _ _ Hk Hne) as Hself. split.
  - rewrite !lookup_insert_ne.
    + destruct (fs1 !! []) as [n|] eqn:Hn; [|done]. destruct (Hnew _ _ Hn) as [|(_ & ? & _)]; [congruence|done].
    + by destruct root, ks.
    + pose proof (meta_nonempty ks). by destruct root, (meta ks).
  - intros p r He Hp. pose proof (length_Dir_of ks Hne). pose proof (meta_length ks Hne).
    rewrite !lookup_insert_ne; [by eapply Hold, Hroot|..];
      intros <-; apply (f_equal length) in He; rewrite !length_app in He; lia.
  - intros ks' b. destruct (decide (ks = ks')) as [<-|Hkk].
    { rewrite lookup_insert_eq. intros [= <-]. cbn. split; [done|].
      rewrite lookup_insert_ne, lookup_insert_eq by (intros He%app_inv_head; congruence).
      split; [done|]. exists text, t'. by rewrite lookup_insert_eq. }
    rewrite lookup_insert_ne by done. intros Hb. destruct (Hblob _ _ Hb) as (Hk' & Hf & x & tx & Hx & Hc).
    pose proof (sep_nonempty _ HK _ Hk') as Hne'. split; [done|]. split.
    + rewrite !lookup_insert_ne; [by apply Hold|..]; intros He%app_inv_head; [done|].
      by eapply (meta_neq ks' ks).
    + exists x, tx. split; [|done]. rewrite !lookup_insert_ne; [by apply Hold|..]; intros He%app_inv_head.
      * by eapply (meta_neq ks ks').
      * by apply path_append_inj in He.
  - intros rel n Hrel. destruct (decide (rel = meta ks)) as [->|Hm].
    { rewrite lookup_insert_eq. intros [= <-]. right; right. eexists ks, _, text, t'.
      by rewrite lookup_insert_eq. }
    rewrite lookup_insert_ne by (intros He%app_inv_head; congruence).
    destruct (decide (rel = ks)) as [->|Hr].
    { rewrite lookup_insert_eq. intros [= <-]. right; left. eexists. by rewrite lookup_insert_eq. }
    rewrite !lookup_insert_ne by (try intros He%app_inv_head; congruence).
    intros [Hf|(-> & _ & r & He)]%Hnew.
    + destruct (Honly _ _ Hrel Hf) as [Hd|[(b & Hb & ->)|(ks' & b & x & tx & Hb & -> & ->)]]; [by left|..].
      * right; left. by exists b.
      * right; right. exists ks', b, x, tx. split_and!; [|done..]. rewrite lookup_insert_ne; [done|congruence].
    + left. split; [done|]. rewrite <- app_assoc in He. apply app_inv_head in He.
      destruct (last_nonempty ks Hne) as (p & c & ->). rewrite Dir_of_snoc in He. subst p.
      exists (r ++ [c]). rewrite <- app_assoc in Hk. split; [by destruct r|done].
Qed.

(** What [Store] leaves behind. *)
Lemma Store_files fs m ks data text t t' :
  blob_inv fs m -> K ks ->
  exists fs1, MkdirAll (root ++ Dir_of ks) fs = (fs1, None) /\
    let fs2 := <[root ++ ks := File data t]> fs1 in
    WriteFile t (root ++ ks) data fs1 = (fs2, None) /\
    WriteFile t' (root ++ meta ks) text fs2 = (<[root ++ meta ks := File text t']> fs2, None) /\
    blob_inv (<[root ++ meta ks := File text t']> fs2) (<[ks := mkBlob data (content_type_in text) t]> m).
Proof.
  intros Hinv Hk. destruct (key_MkdirAll _ _ _ Hinv Hk) as (fs1 & Hm & Hdir & Hold & Hnew).
  pose proof (sep_nonempty _ HK _ Hk) as Hne. pose proof (length_Dir_of ks Hne) as Hlen.
  pose proof (meta_length ks Hne) as Hmlen.
  exists fs1. split; [done|]. cbn zeta.
  assert (Hnodir : forall p, length p = length (root ++ ks) -> fs !! p <> Some Directory ->
            fs1 !! p <> Some Directory).
  { intros p Hp Hf [Hf'|(_ & _ & r & He)]%Hnew; [done|].
    apply (f_equal length) in He. rewrite !length_app in *. lia. }
  split_and!.
  - apply WriteFile_ok; [|by rewrite Dir_of_app].
    eapply not_directory; [by destruct root, ks|done|]. apply Hnodir; [done|].
    rewrite (key_lookup _ _ _ Hinv Hk). by destruct (m !! ks).
  - pose proof (meta_neq _ _ Hk Hne). apply WriteFile_ok.
    + rewrite is_directory_insert_ne by (intros He%app_inv_head; congruence).
      eapply not_directory; [|done|apply Hnodir; [by rewrite !length_app, Hmlen|]].
      { pose proof (meta_nonempty ks). by destruct root, (meta ks). }
      pose proof (meta_lookup _ _ _ Hinv Hk) as Hml. destruct (m !! ks); [|by rewrite Hml].
      destruct Hml as (? & ? & -> & _). done.
    + rewrite Dir_of_app, Dir_of_append by (done || apply meta_nonempty).
      rewrite is_directory_insert_ne; [done|]. intros He%app_inv_head.
      apply (f_equal length) in He. lia.
  - by eapply blob_inv_put.
Qed.

Lemma root_key_nonempty ks : ks <> [] -> root ++ ks <> [].
Proof. by destruct root, ks. Qed.

(** What [Delete] leaves behind. *)
Lemma blob_inv_delete fs m ks :
  blob_inv fs m -> K ks -> is_Some (m !! ks) ->
  blob_inv (delete (root ++ ks) (delete (root ++ meta ks) fs)) (delete ks m).
Proof.
  intros [Htop Hroot Hblob Honly] Hk [b0 Hb0]. pose proof (sep_nonempty _ HK _ Hk) as Hne.
  pose proof (length_Dir_of ks Hne). pose proof (meta_length ks Hne). split.
  - rewrite !lookup_delete_ne; [done|..].
    + apply root_key_nonempty, meta_nonempty.
    + by apply root_key_nonempty.
  - intros p r He Hp. rewrite !lookup_delete_ne; [by eapply Hroot|..];
      intros <-; apply (f_equal length) in He; rewrite !length_app in He; lia.
  - intros ks' b [Hkk Hb]%lookup_delete_Some. destruct (Hblob _ _ Hb) as (Hk' & Hf & x & tx & Hx & Hc).
    pose proof (sep_nonempty _ HK _ Hk') as Hne'. split; [done|]. split.
    + rewrite !lookup_delete_ne; [done|..]; intros He%app_inv_head; [|done].
      by eapply (meta_neq ks' ks).
    + exists x, tx. split; [|done]. rewrite !lookup_delete_ne; [done|..]; intros He%app_inv_head.
      * by apply path_append_inj in He.
      * by eapply (meta_neq ks ks').
  - intros rel n Hrel [Hn1 [Hn2 Hf]%lookup_delete_Some]%lookup_delete_Some.
    destruct (Honly _ _ Hrel Hf) as [Hd|[(b & Hb & ->)|(ks' & b & x & tx & Hb & -> & ->)]]; [by left|..].
    + right; left. exists b. rewrite lookup_delete_ne by congruence. done.
    + right; right. exists ks', b, x, tx. rewrite lookup_delete_ne by congruence. done.
Qed.

(** ** The walk *)
Definition visits (fs : files) : list (path * string * Z) := omap (walk_visits root) (Walk root fs).

Definition blob_visit (x : path * blob) : path * string * Z := (x.1, b_data x.2, b_time x.2).

Lemma visits_NoDup fs : NoDup (visits fs).
Proof.
  unfold visits. pose proof (Walk_NoDup root fs) as Hnd. revert Hnd. generalize (Walk root fs).
  intros l Hnd. induction l as [|[rel n] l IH]; [constructor|]. cbn in Hnd.
  apply NoDup_cons in Hnd as [Hin Hnd]. cbn. destruct n as [|data t]; [by apply IH|].
  destruct (path_HasSuffix _ _); [by apply IH|]. constructor; [|by apply IH].
  intros ([rel' n'] & Hin' & Hv)%list_elem_of_omap. apply Hin. apply list_elem_of_fmap.
  exists (rel', n'). split; [|done]. cbn in *. destruct n'; [done|]. destruct (path_HasSuffix _ _); [done|].
  by injection Hv as -> _ _.
Qed.

Lemma plain_no_suffix ks : K ks -> path_HasSuffix (root ++ ks) ".meta" = false.
Proof.
  intros Hk. pose proof (sep_plain _ HK _ Hk) as Hp.
  destruct (last_nonempty ks (sep_nonempty _ HK _ Hk)) as (p & c & ->).
  unfold path_HasSuffix. rewrite app_assoc, last_snoc. rewrite Forall_app, Forall_singleton in Hp.
  by destruct Hp as [_ [_ ->]].
Qed.

Lemma visits_blobs fs m : blob_inv fs m -> visits fs ≡ₚ map blob_visit (map_to_list m).
Proof.
  intros Hinv. apply NoDup_Permutation; [apply visits_NoDup| |].
  { apply NoDup_fmap_2_strong; [|apply NoDup_map_to_list].
    intros [k [d y t]] [k' [d' y' t']] H1%elem_of_map_to_list H2%elem_of_map_to_list He.
    unfold blob_visit in He. cbn in He. injection He as -> -> ->. congruence. }
  intros [[rel data] t]. unfold visits. rewrite list_elem_of_omap, list_elem_of_fmap. split.
  - intros ([rel' n] & Hin%elem_of_Walk & Hv). cbn in Hv. destruct n as [|data' t']; [done|].
    destruct (path_HasSuffix _ _) eqn:Hs; [done|]. injection Hv as -> -> ->.
    destruct (decide (rel = [])) as [->|Hrel].
    { rewrite app_nil_r in Hin. exfalso. destruct (decide (root = [])) as [Hr|Hr].
      - rewrite Hr, (bi_top _ _ Hinv) in Hin. done.
      - rewrite (bi_root _ _ Hinv root []) in Hin; [done|by rewrite app_nil_r|done]. }
    destruct (bi_only _ _ Hinv _ _ Hrel Hin) as [[? _]|[(b & Hb & [= -> ->])|(ks & b & x & tx & Hb & -> & _)]];
      [done|..].
    + exists (rel, b). split; [done|]. by apply elem_of_map_to_list.
    + exfalso. destruct (bi_blob _ _ Hinv _ _ Hb) as [Hk _].
      rewrite path_HasSuffix_append in Hs; [done|]. by eapply sep_nonempty.
  - intros ([ks b] & He & Hin%elem_of_map_to_list). unfold blob_visit in He. cbn in He. injection He as -> -> ->.
    destruct (bi_blob _ _ Hinv _ _ Hin) as (Hk & Hf & _).
    exists (ks, File (b_data b) (b_time b)). split; [by apply elem_of_Walk|]. cbn.
    by rewrite plain_no_suffix.
Qed.

(** [omap] in two stages. *)
Lemma omap_stages {X Y Z'} (l : list X) (p : X -> option Y) (q : Y -> option Z') :
  omap (fun x => p x ≫= q) l = omap q (omap p l).
Proof.
  induction l as [|x l Hl]; [done|]. cbn. destruct (p x) as [y|]; [|done]. cbn.
  rewrite Hl. by destruct (q y).
Qed.

Lemma omap_after_map {X Y Z'} (l : list X) (h : X -> Y) (q : Y -> option Z') :
  omap q (map h l) = omap (fun x => q (h x)) l.
Proof. induction l as [|x l Hl]; [done|]. cbn. destruct (q (h x)); by rewrite Hl. Qed.

Lemma List_blobs prefix fbs fs m :
  fb_rootPath fbs = root -> blob_inv fs m ->
  FilesystemBlobStorage_List prefix fbs fs ≡ₚ omap (blob_info prefix) (map_to_list m).
Proof.
  intros Hroot Hinv. unfold FilesystemBlobStorage_List. rewrite Hroot, omap_stages.
  change (omap (walk_visits root) (Walk root fs)) with (visits fs).
  rewrite (visits_blobs _ _ Hinv), omap_after_map. reflexivity.
Qed.

(** The counters of [Stats], whatever the order of the walk. *)
Lemma Stats_fold (l : list (path * node)) n s :
  foldl (fun '(totalBlobs, totalSize) x =>
      match walk_visits root x with
      | None => (totalBlobs, totalSize)
      | Some (_, data, _) => (wrap64 (totalBlobs + 1), wrap64 (totalSize + len data))
      end) (wrap64 n, wrap64 s) l =
  (wrap64 (n + Z.of_nat (length (omap (walk_visits root) l))),
   wrap64 (s + foldr (fun x t => len x.1.2 + t) 0 (omap (walk_visits root) l))).
Proof.
  revert n s. induction l as [|x l IH]; intros n s.
  { cbn. by rewrite !Z.add_0_r. }
  cbn [foldl omap list_omap]. destruct (walk_visits root x) as [[[rel data] t]|]; [|apply IH].
  rewrite !wrap64_wrap_l, IH. cbn. f_equal; f_equal; lia.
Qed.

Lemma foldr_permutation (f : path * string * Z -> Z) l l' :
  l ≡ₚ l' -> foldr (fun x t => f x + t) 0 l = foldr (fun x t => f x + t) 0 l'.
Proof. induction 1; cbn; lia. Qed.

Lemma Stats_blobs fbs fs m :
  fb_rootPath fbs = root -> blob_inv fs m ->
  FilesystemBlobStorage_Stats fbs fs =
  mkBlobStats (wrap64 (Z.of_nat (size m))) (wrap64 (total_size m)) (wrap64 (total_size m)).
Proof.
  intros Hroot Hinv. unfold FilesystemBlobStorage_Stats. rewrite Hroot.
  change (0, 0) with (wrap64 0, wrap64 0). rewrite Stats_fold, !Z.add_0_l.
  change (omap (walk_visits root) (Walk root fs)) with (visits fs).
  pose proof (visits_blobs _ _ Hinv) as Hp.
  rewrite (foldr_permutation (fun x => len x.1.2) _ _ Hp), Hp, length_map.
  assert (foldr (fun x t => len x.1.2 + t) 0 (map blob_visit (map_to_list m)) = total_size m) as ->.
  { clear Hp. unfold total_size. induction (map_to_list m) as [|x l IH]; cbn; [done|]. by rewrite IH. }
  by rewrite length_map_to_list.
Qed.

Lemma fb_step_refines rfc3339 maxSize o fs m :
  (forall ks, call_key o = Some ks -> K ks) -> blob_inv fs m ->
  let '(fs', a) := fb_step rfc3339 (mkFilesystemBlobStorage root maxSize) o fs in
  let '(m', a') := blob_step rfc3339 root maxSize o m in
  blob_inv fs' m' /\ same_answer a a'.
Proof.
  intros Hks Hinv. destruct o as [ks data metadata times|ks t1 t2|ks|ks|prefix|]; cbn [fb_step blob_step call_key] in *;
    try specialize (Hks _ eq_refl).
  - unfold FilesystemBlobStorage_Store. cbn [fb_rootPath fb_maxSize].
    destruct (maxSize <? len data); [by split; [|constructor]|].
    rewrite (Join_path_text _ Hks). pose proof (sep_nonempty _ HK _ Hks) as Hne.
    rewrite Dir_of_app, path_append_app by done.
    destruct (Store_files fs m ks data (metadata_JSON rfc3339 metadata data times) (t_data times) (t_meta times)
                Hinv Hks) as (fs1 & -> & H1 & H2 & H3).
    rewrite H1, H2. by split; [|constructor].
  - split; [done|]. unfold FilesystemBlobStorage_Retrieve. cbn [fb_rootPath].
    rewrite (Join_path_text _ Hks). pose proof (sep_nonempty _ HK _ Hks) as Hne.
    pose proof (key_lookup _ _ _ Hinv Hks) as Hk. pose proof (meta_lookup _ _ _ Hinv Hks) as Hm.
    pose proof (root_key_nonempty _ Hne). destruct (m !! ks) as [b|].
    + destruct Hm as (text & t & Hm & Hc). rewrite (ReadFile_ok _ _ _ _ ltac:(done) Hk).
      rewrite path_append_app, (ReadFile_ok _ _ _ _ (root_key_nonempty _ (meta_nonempty ks)) Hm) by done.
      rewrite Hc. constructor.
    + rewrite (ReadFile_absent _ _ ltac:(done) Hk), (key_missing fs m) by done. constructor.
  - unfold FilesystemBlobStorage_Delete. cbn [fb_rootPath].
    rewrite (Join_path_text _ Hks). pose proof (sep_nonempty _ HK _ Hks) as Hne.
    rewrite path_append_app by done. pose proof (root_key_nonempty _ (meta_nonempty ks)) as Hmne.
    pose proof (key_lookup _ _ _ Hinv Hks) as Hk. pose proof (meta_lookup _ _ _ Hinv Hks) as Hm.
    destruct (m !! ks) as [b|] eqn:Hb.
    + destruct Hm as (text & t & Hm & _). rewrite (Remove_file _ _ _ _ Hmne Hm).
      rewrite (Remove_file _ _ (b_data b) (b_time b)).
      * split; [|constructor]. by apply blob_inv_delete.
      * by apply root_key_nonempty.
      * rewrite lookup_delete_ne; [done|]. intros He%app_inv_head. by eapply (meta_neq ks ks).
    + rewrite (Remove_absent _ _ Hmne Hm), (Remove_absent _ _ (root_key_nonempty _ Hne) Hk), (key_missing fs m) by done.
      rewrite delete_id by done. by split; [|constructor].
  - split; [done|]. unfold FilesystemBlobStorage_Exists. cbn [fb_rootPath].
    rewrite (Join_path_text _ Hks). pose proof (key_lookup _ _ _ Hinv Hks) as Hk.
    assert (Stat (root ++ ks) fs = bool_decide (is_Some (m !! ks))) as ->; [|constructor].
    pose proof (root_key_nonempty _ (sep_nonempty _ HK _ Hks)) as Hne. unfold Stat.
    destruct (root ++ ks) as [|c p]; [done|]. rewrite Hk. apply bool_decide_ext.
    destruct (m !! ks); by rewrite ?is_Some_alt.
  - split; [done|]. apply same_list. by apply List_blobs.
  - split; [done|]. rewrite (Stats_blobs (mkFilesystemBlobStorage root maxSize) fs m eq_refl Hinv). constructor.
Qed.

Lemma fb_answers_refine rfc3339 maxSize os : forall fs m,
  (forall o ks, o ∈ os -> call_key o = Some ks -> K ks) -> blob_inv fs m ->
  Forall2 same_answer (fb_answers rfc3339 (mkFilesystemBlobStorage root maxSize) os fs)
    (blob_answers rfc3339 root maxSize os m).
Proof.
  induction os as [|o os IH]; intros fs m Hos Hinv; [constructor|]. cbn.
  pose proof (fb_step_refines rfc3339 maxSize o fs m (fun ks => Hos o ks ltac:(left)) Hinv) as Hs.
  destruct (fb_step _ _ o fs) as [fs' a], (blob_step _ _ _ o m) as [m' a']. destruct Hs as [Hinv' Ha].
  constructor; [done|]. apply IH; [|done]. intros o' ks Ho. apply Hos. by right.
Qed.
End Invariant.

(** An empty root. *)
Lemma New_blob_inv K cwd config fs fs0 fbs :
  NewFilesystemBlobStorage cwd config fs = (fs0, Ok fbs) -> fs !! [] = None ->
  (forall rel, rel <> [] -> fs0 !! (fb_rootPath fbs ++ rel) = None) ->
  blob_inv (K := K) (fb_rootPath fbs) fs0 ∅.
Proof.
  unfold NewFilesystemBlobStorage. destruct (String.eqb _ _); [done|]. set (root := if HasPrefix _ _ then _ else _).
  destruct (MkdirAll root fs) as [fs1 [e|]] eqn:Hm; [done|]. intros [= <- <-] Htop Hempty. cbn in *.
  destruct (mkdirs_ok root [] fs (mkdirs_free _ _ _ _ Hm)) as (fs' & Hm' & Hdir & _ & Hnew).
  unfold MkdirAll in Hm. rewrite Hm in Hm'. injection Hm' as <-. split.
  - destruct (fs1 !! []) as [n|] eqn:Hn; [|done].
    destruct (Hnew _ _ Hn) as [|(_ & q & r & _ & Hq & He)]; [congruence|by destruct q].
  - intros p r He Hp. by apply (Hdir p r).
  - intros ks b. by rewrite lookup_empty.
  - intros rel n Hrel Hf. rewrite Hempty in Hf by done. done.
Qed.

(** ** Properties *)

(** C20: The store is a map: from an empty root, and for keys that are clean relative
    paths, none below another and none with a component ending in [.meta], every
    schedule of Store, Retrieve, Delete, Exists, List and Stats is answered as a finite
    map from keys to blobs answers it (List in some order), errors included. Of the
    metadata only the content type comes back, as the class [content_type_in] finds. *)
Theorem FilesystemBlobStorage_refines_map rfc3339 K cwd config fs fs0 fbs os :
  separate K ->
  NewFilesystemBlobStorage cwd config fs = (fs0, Ok fbs) -> fs !! [] = None ->
  (forall rel, rel <> [] -> fs0 !! (fb_rootPath fbs ++ rel) = None) ->
  (forall o ks, o ∈ os -> call_key o = Some ks -> K ks) ->
  Forall2 same_answer (fb_answers rfc3339 fbs os fs0) (blob_answers rfc3339 (fb_rootPath fbs) (fb_maxSize fbs) os ∅).
Proof.
  intros HK Hnew Htop Hempty Hos. pose proof (New_blob_inv K _ _ _ _ _ Hnew Htop Hempty) as Hinv.
  destruct fbs as [root maxSize]. by eapply fb_answers_refine.
Qed.

(** What [Store] does when its directory can be made and no directory is in the way. *)
Lemma Store_writes rfc3339 key data metadata times fbs fs fs1 :
  let p := Join (fb_rootPath fbs) key in
  p <> [] -> len data <= fb_maxSize fbs -> MkdirAll (Dir_of p) fs = (fs1, None) ->
  is_directory fs1 p = false ->
  let fs2 := <[p := File data (t_data times)]> fs1 in
  WriteFile (t_data times) p data fs1 = (fs2, None) /\
  FilesystemBlobStorage_Store rfc3339 key data metadata times fbs fs =
  WriteFile (t_meta times) (path_append p ".meta") (metadata_JSON rfc3339 metadata data times) fs2.
Proof.
  intros p Hp Hlen Hm Hd fs2.
  assert (Hw : WriteFile (t_data times) p data fs1 = (fs2, None)).
  { apply WriteFile_ok; [done|].
    destruct (mkdirs_ok (Dir_of p) [] fs (mkdirs_free _ _ _ _ Hm)) as (fs' & Hm' & Hdir & _).
    unfold MkdirAll in Hm. rewrite Hm in Hm'. injection Hm' as <-.
    destruct (Dir_of p) as [|c d] eqn:He; [done|]. cbn.
    specialize (Hdir (c :: d) [] ltac:(by rewrite app_nil_r) ltac:(done)). cbn in Hdir. by rewrite Hdir. }
  split; [done|]. unfold FilesystemBlobStorage_Store. fold p.
  destruct (Z.ltb_spec (fb_maxSize fbs) (len data)); [lia|]. by rewrite Hm, Hw.
Qed.

Lemma WriteFile_other now p q data fs : p <> q -> (WriteFile now p data fs).1 !! q = fs !! q.
Proof.
  intros Hne. unfold WriteFile. destruct (is_directory fs p); [done|]. destruct (negb _); [done|].
  cbn. by rewrite lookup_insert_ne.
Qed.

(** The root does not confine the store: for every path of the machine there is a
    key (one that climbs out with [..]) under which Store writes the caller's bytes at
    that path, and Retrieve reads whatever file is there. *)
Theorem FilesystemBlobStorage_reaches_any_path rfc3339 root p :
  Forall normal p -> p <> [] ->
  exists key, forall maxSize data metadata times t1 t2 fs fs1,
    let fbs := mkFilesystemBlobStorage root maxSize in
    (len data <= maxSize -> MkdirAll (Dir_of p) fs = (fs1, None) -> is_directory fs1 p = false ->
       (FilesystemBlobStorage_Store rfc3339 key data metadata times fbs fs).1 !! p =
       Some (File data (t_data times))) /\
    (forall content t, fs !! p = Some (File content t) ->
       exists b, FilesystemBlobStorage_Retrieve key t1 t2 fbs fs = Ok b /\ bd_Data b = content).
Proof.
  intros Hp Hne. exists (up_to root p). intros maxSize data metadata times t1 t2 fs fs1 fbs.
  pose proof (Join_up_to root p Hp Hne) as Hj. split.
  - intros Hlen Hm Hd.
    pose proof (Store_writes rfc3339 (up_to root p) data metadata times fbs fs fs1) as Hs. cbn in Hs.
    rewrite Hj in Hs. destruct (Hs Hne Hlen Hm Hd) as [_ ->].
    rewrite WriteFile_other by (by apply path_append_neq). apply lookup_insert_eq.
  - intros content t Hf. unfold FilesystemBlobStorage_Retrieve. cbn. rewrite Hj.
    rewrite (ReadFile_ok _ _ _ _ Hne Hf). by eexists.
Qed.

Lemma normal_meta c : normal c -> normal (c +:+ ".meta").
Proof.
  intros (_ & _ & _ & Hs).
  assert (forall s, (String.length s < 5)%nat -> c +:+ ".meta" <> s) as Hl.
  { intros s Hl <-. rewrite String_length_app in Hl. cbn in Hl. lia. }
  split_and!; [apply Hl; cbn; lia..|]. by apply Split_snoc.
Qed.

Lemma Join_meta root ks :
  ks <> [] -> Forall normal ks ->
  Join root (path_text ks) = root ++ ks /\
  Join root (path_text (path_append ks ".meta")) = path_append (root ++ ks) ".meta".
Proof.
  intros Hne Hks. split.
  - replace (path_text ks) with (strings_Join "/" ks) by (by destruct ks). by apply Join_key.
  - rewrite path_append_app by done. destruct (last_nonempty ks Hne) as (p & c & ->).
    rewrite path_append_snoc in *. apply Forall_app in Hks as [Hp Hc]. rewrite Forall_singleton in Hc.
    replace (path_text (p ++ [c +:+ ".meta"])) with (strings_Join "/" (p ++ [c +:+ ".meta"])) by (by destruct p).
    apply Join_key; [by destruct p|]. apply Forall_app. split; [done|].
    apply Forall_singleton. by apply normal_meta.
Qed.

(** The visits decide [List] and [Stats]. *)
Lemma List_visits prefix fbs fs fs' :
  visits (fb_rootPath fbs) fs ≡ₚ visits (fb_rootPath fbs) fs' ->
  FilesystemBlobStorage_List prefix fbs fs ≡ₚ FilesystemBlobStorage_List prefix fbs fs' /\
  FilesystemBlobStorage_Stats fbs fs = FilesystemBlobStorage_Stats fbs fs'.
Proof.
  intros Hv. split.
  - unfold FilesystemBlobStorage_List. rewrite !omap_stages. unfold visits in Hv. by rewrite Hv.
  - unfold FilesystemBlobStorage_Stats. change (0, 0) with (wrap64 0, wrap64 0). rewrite !Stats_fold.
    change (omap (walk_visits ?r) (Walk ?r ?f)) with (visits r f).
    by rewrite (foldr_permutation (fun x => len x.1.2) _ _ Hv), Hv.
Qed.

Lemma visits_delete_meta root ks fs :
  ks <> [] -> visits root (delete (root ++ path_append ks ".meta") fs) ≡ₚ visits root fs.
Proof.
  intros Hne. apply NoDup_Permutation; [apply visits_NoDup..|]. intros x. unfold visits.
  rewrite !list_elem_of_omap. split; intros ([rel n] & Hin%elem_of_Walk & Hv); exists (rel, n).
  - apply lookup_delete_Some in Hin as [_ Hin]. split; [by apply elem_of_Walk|done].
  - split; [|done]. apply elem_of_Walk. rewrite lookup_delete_ne; [done|]. intros <-%app_inv_head.
    cbn in Hv. destruct n; [done|]. by rewrite path_HasSuffix_append in Hv.
Qed.

(** Keys collide with the metadata files: a Store of key [k] that succeeds makes the
    bytes of key [k.meta] the text of its metadata, whatever was stored there before;
    and whatever is stored under [k.meta], List and Stats are as if it were not there. *)
Theorem FilesystemBlobStorage_meta_collision rfc3339 root maxSize ks data metadata times fs fs' t1 t2 :
  let fbs := mkFilesystemBlobStorage root maxSize in
  let key' := path_text (path_append ks ".meta") in
  ks <> [] -> Forall normal ks ->
  FilesystemBlobStorage_Store rfc3339 (path_text ks) data metadata times fbs fs = (fs', None) ->
  (exists b, FilesystemBlobStorage_Retrieve key' t1 t2 fbs fs' = Ok b /\
             bd_Data b = metadata_JSON rfc3339 metadata data times) /\
  forall any prefix, let without := delete (Join root key') any in
    FilesystemBlobStorage_List prefix fbs without ≡ₚ FilesystemBlobStorage_List prefix fbs any /\
    FilesystemBlobStorage_Stats fbs without = FilesystemBlobStorage_Stats fbs any.
Proof.
  intros fbs key' Hne Hks Hs. destruct (Join_meta root ks Hne Hks) as [Hj Hj']. split.
  - unfold FilesystemBlobStorage_Store in Hs. cbn [fb_rootPath fb_maxSize fbs] in Hs. rewrite Hj in Hs.
    destruct (maxSize <? len data); [done|]. destruct (MkdirAll _ fs) as [fs1 [e|]]; [done|].
    destruct (WriteFile _ (root ++ ks) data fs1) as [fs2 [e|]]; [done|].
    unfold WriteFile in Hs. destruct (is_directory fs2 _) eqn:Hd; [done|].
    destruct (negb _); [done|]. injection Hs as <-.
    unfold FilesystemBlobStorage_Retrieve. cbn [fb_rootPath fbs]. unfold key'. rewrite Hj'.
    erewrite ReadFile_ok; [by eexists| |apply lookup_insert_eq].
    rewrite path_append_app by done. apply root_key_nonempty, meta_nonempty.
  - intros any prefix without. apply List_visits. cbn. unfold without, key'.
    rewrite Hj', path_append_app by done. by apply visits_delete_meta.
Qed.

(** ** Witnesses *)
Section Witnesses.

Definition example_rfc3339 (t : Z) : string := "2024-01-01T00:00:00Z".

Definition blob_example_config : BlobStorageConfig := mkBlobStorageConfig "filesystem" "/data" "" 8 false.

Definition blob_example_root : path := ["data"].

Definition blob_example_fs : files := {[ ["data"] := Directory ]}.

Definition blob_example_store : FilesystemBlobStorage := mkFilesystemBlobStorage blob_example_root 8.

Definition blob_example_keys : list path := [["img"; "1"]; ["b"]].

Definition webp : BlobMetadata := mkBlobMetadata "image/webp" "cat" 0 "" ∅ 0 0.

Definition times_example : store_times := mkStoreTimes 7 8 5 6.

Definition blob_example_calls : list fb_call :=
  [FbStore ["img"; "1"] "abc" webp times_example; FbStore ["b"] "too many bytes" webp times_example;
   FbRetrieve ["img"; "1"] 9 9; FbExists ["b"]; FbList "im"; FbStats; FbDelete ["img"; "1"];
   FbRetrieve ["img"; "1"] 9 9].

Lemma normal_example : Forall (Forall plain) blob_example_keys.
Proof. repeat (constructor; [repeat constructor; try discriminate|]); constructor. Qed.

Lemma separate_example : separate (fun ks => ks ∈ blob_example_keys).
Proof.
  split.
  - intros ks Hk ->. unfold blob_example_keys in Hk. rewrite !elem_of_cons, elem_of_nil in Hk.
    by destruct Hk as [|[|]].
  - intros ks Hk. by eapply (Forall_forall (Forall plain)); [apply normal_example|].
  - intros ks r Hk Hkr. unfold blob_example_keys in *. rewrite !elem_of_cons, elem_of_nil in Hk, Hkr.
    destruct Hk as [->|[->|[]]], Hkr as [Hr|[Hr|[]]]; cbn in Hr; simplify_eq; done.
Qed.

Lemma FilesystemBlobStorage_refines_map_witness :
  Forall2 same_answer (fb_answers example_rfc3339 blob_example_store blob_example_calls blob_example_fs)
    (blob_answers example_rfc3339 blob_example_root 8 blob_example_calls ∅).
Proof.
  apply (FilesystemBlobStorage_refines_map example_rfc3339 (fun ks => ks ∈ blob_example_keys) []
           blob_example_config ∅ blob_example_fs blob_example_store).
  - exact separate_example.
  - reflexivity.
  - reflexivity.
  - intros rel Hrel. cbn. apply lookup_singleton_ne. congruence.
  - intros o ks Ho Hk. unfold blob_example_calls in Ho. rewrite !elem_of_cons, elem_of_nil in Ho.
    unfold blob_example_keys. rewrite !elem_of_cons.
    repeat (destruct Ho as [->|Ho]; [cbn in Hk; simplify_eq; tauto|]). destruct Ho.
Defined.

(** The store of the example holds [/data]; this key leaves it. *)
Lemma FilesystemBlobStorage_reaches_any_path_witness :
  exists key, forall maxSize data metadata times t1 t2 fs fs1,
    let fbs := mkFilesystemBlobStorage ["data"; "blobs"] maxSize in
    (len data <= maxSize -> MkdirAll (Dir_of ["etc"; "passwd"]) fs = (fs1, None) ->
       is_directory fs1 ["etc"; "passwd"] = false ->
       (FilesystemBlobStorage_Store example_rfc3339 key data metadata times fbs fs).1 !! ["etc"; "passwd"] =
       Some (File data (t_data times))) /\
    (forall content t, fs !! ["etc"; "passwd"] = Some (File content t) ->
       exists b, FilesystemBlobStorage_Retrieve key t1 t2 fbs fs = Ok b /\ bd_Data b = content).
Proof.
  apply (FilesystemBlobStorage_reaches_any_path example_rfc3339 ["data"; "blobs"] ["etc"; "passwd"]).
  - repeat constructor; discriminate.
  - discriminate.
Defined.

Definition blob_example_stored : files :=
  (FilesystemBlobStorage_Store example_rfc3339 "b" "abc" webp times_example blob_example_store
     blob_example_fs).1.

Lemma FilesystemBlobStorage_meta_collision_witness :
  (exists b, FilesystemBlobStorage_Retrieve "b.meta" 9 9 blob_example_store blob_example_stored = Ok b /\
             bd_Data b = metadata_JSON example_rfc3339 webp "abc" times_example) /\
  forall any prefix, let without := delete (Join blob_example_root "b.meta") any in
    FilesystemBlobStorage_List prefix blob_example_store without ≡ₚ
      FilesystemBlobStorage_List prefix blob_example_store any /\
    FilesystemBlobStorage_Stats blob_example_store without = FilesystemBlobStorage_Stats blob_example_store any.
Proof.
  apply (FilesystemBlobStorage_meta_collision example_rfc3339 blob_example_root 8 ["b"] "abc" webp
           times_example blob_example_fs blob_example_stored).
  - discriminate.
  - repeat constructor; discriminate.
  - vm_compute. reflexivity.
Defined.

(** The content type comes back as one of three, the file name not at all. *)
Example webp_becomes_jpeg :
  match FilesystemBlobStorage_Retrieve "b" 9 9 blob_example_store blob_example_stored with
  | Ok b => bm_ContentType (bd_Metadata b) = "image/jpeg" /\ bm_Filename (bd_Metadata b) = ""
  | Err _ => False
  end.
Proof. vm_compute. done. Qed.

(** A directory of blobs exists as a blob and cannot be read as one. *)
Example directory_exists :
  let fs := (FilesystemBlobStorage_Store example_rfc3339 "img/1" "abc" webp times_example blob_example_store
               blob_example_fs).1 in
  FilesystemBlobStorage_Exists "img" blob_example_store fs = true /\
  FilesystemBlobStorage_Retrieve "img" 9 9 blob_example_store fs = Err (Wrapf "blob not found: " (PathError "read" (blob_example_root ++ ["img"]) EISDIR) "").
Proof. vm_compute. done. Qed.

End Witnesses.
