(* ===== verification/BlobDb.v ===== *)
(** * The database blob store (blob.go, [DatabaseBlobStorage])

    A row per blob, through the runtime's Exec, QueryRow and Query. The tags of a blob
    are written as JSON by hand and read back by splitting. *)
From Stdlib Require Import Ascii.
From S2P Require Import Prelude.
From S2P Require Import Errors.
From S2P Require Import GoFloat.
From S2P Require Import GoStrings.
From S2P Require Import Gate.
From S2P Require Import Cache.
From S2P Require Import Retry.
From S2P Require Import Sql.
From S2P Require Import Db.
From S2P Require Import Open.
From S2P Require Import Config.
From S2P Require Import Runtime.
From S2P Require Import Md5.
From S2P Require Import Blob.
Local Open Scope string_scope.
Local Open Scope list_scope.
Local Open Scope Z_scope.

(** ** Tags *)
Definition double_quote : ascii := "034".

Definition quoted (s : string) : string := String double_quote (s +:+ String double_quote "").

(** One tag, and all of them in the order the map iteration gives. *)
Definition tag_JSON (kv : string * string) : string := quoted kv.1 +:+ ":" +:+ quoted kv.2.

Definition tags_JSON (tags : list (string * string)) : string :=
  match tags with
  | [] => ""
  | _ => "{" +:+ strings_Join "," (map tag_JSON tags) +:+ "}"
  end.

Definition parse_pair (pair : string) (tags : gmap string string) : gmap string string :=
  match Cut ":" pair with
  | Some (k, v) =>
      let key := Trim k (String double_quote "") in
      let value := Trim v (String double_quote "") in
      <[key := value]> tags
  | None => tags
  end.

Definition parse_tags (tagsJSON : string) : gmap string string :=
  if String.eqb tagsJSON "" then ∅
  else
    let tagsJSON := Trim tagsJSON "{}" in
    if String.eqb tagsJSON "" then ∅
    else foldl (fun tags pair => parse_pair pair tags) ∅ (Split "," tagsJSON).

(** ** The store *)

(** Arguments of a statement, and [Scan] into the variables the code declares. *)
Class BlobSql (W Arg Row Rows : Type) : Type := {
  arg_string : string -> Arg;
  arg_bytes : string -> Arg;
  arg_int : Z -> Arg;
  arg_time : Z -> Arg;
  (** data, content type, filename, size, checksum, tags, created, updated *)
  row_ScanBlob : Row -> W -> W * result error (string * string * string * Z * string * string * Z * Z);
  row_ScanInt : Row -> W -> W * result error Z;
  row_ScanCounts : Row -> W -> W * result error (Z * Z);
  (** key, content type, filename, size, checksum, tags, created, updated *)
  rows_ScanInfo : Rows -> W -> W * result error (string * string * string * Z * string * string * Z * Z);
}.

(** The runtime, one object shared with other users, is passed to each call. *)
Record DatabaseBlobStorage : Type := mkDatabaseBlobStorage {
  db_tableName : string;
  db_maxSize : Z;
}.

Definition create_SQL (dbType tableName : string) : option string :=
  if String.eqb dbType DatabaseTypeSQLite then Some ("
			CREATE TABLE IF NOT EXISTS " +:+ tableName +:+ " (
				key TEXT PRIMARY KEY,
				data BLOB NOT NULL,
				content_type TEXT NOT NULL,
				filename TEXT,
				size INTEGER NOT NULL,
				checksum TEXT NOT NULL,
				tags TEXT, -- JSON
				created_at DATETIME DEFAULT CURRENT_TIMESTAMP,
				updated_at DATETIME DEFAULT CURRENT_TIMESTAMP
			)")
  else if String.eqb dbType DatabaseTypePostgreSQL then Some ("
			CREATE TABLE IF NOT EXISTS " +:+ tableName +:+ " (
				key TEXT PRIMARY KEY,
				data BYTEA NOT NULL,
				content_type TEXT NOT NULL,
				filename TEXT,
				size BIGINT NOT NULL,
				checksum TEXT NOT NULL,
				tags JSONB,
				created_at TIMESTAMP DEFAULT NOW(),
				updated_at TIMESTAMP DEFAULT NOW()
			)")
  else if String.eqb dbType DatabaseTypeMySQL then Some ("
			CREATE TABLE IF NOT EXISTS " +:+ tableName +:+ " (
				`key` VARCHAR(255) PRIMARY KEY,
				data LONGBLOB NOT NULL,
				content_type VARCHAR(255) NOT NULL,
				filename VARCHAR(255),
				size BIGINT NOT NULL,
				checksum VARCHAR(64) NOT NULL,
				tags JSON,
				created_at TIMESTAMP DEFAULT CURRENT_TIMESTAMP,
				updated_at TIMESTAMP DEFAULT CURRENT_TIMESTAMP ON UPDATE CURRENT_TIMESTAMP
			)")
  else None.

Definition upsert_SQL (dbType tableName : string) : string :=
  if String.eqb dbType DatabaseTypeMySQL then "
			REPLACE INTO " +:+ tableName +:+ " (`key`, data, content_type, filename, size, checksum, tags, created_at, updated_at)
			VALUES (?, ?, ?, ?, ?, ?, ?, ?, ?)
		"
  else "
			INSERT OR REPLACE INTO " +:+ tableName +:+ " (key, data, content_type, filename, size, checksum, tags, created_at, updated_at)
			VALUES (?, ?, ?, ?, ?, ?, ?, ?, ?)
		".

Definition select_SQL (tableName : string) : string := "
		SELECT data, content_type, filename, size, checksum, tags, created_at, updated_at
		FROM " +:+ tableName +:+ " WHERE key = ?
	".

Definition delete_SQL (tableName : string) : string := "DELETE FROM " +:+ tableName +:+ " WHERE key = ?".

Definition exists_SQL (tableName : string) : string := "SELECT 1 FROM " +:+ tableName +:+ " WHERE key = ?".

Definition stats_SQL (tableName : string) : string :=
  "SELECT COUNT(*), COALESCE(SUM(size), 0) FROM " +:+ tableName.

Definition list_SQL (dbType tableName prefix : string) : string :=
  let query := "SELECT key, content_type, filename, size, checksum, tags, created_at, updated_at FROM " +:+
               tableName in
  if String.eqb prefix "" then query
  else if String.eqb dbType DatabaseTypePostgreSQL then query +:+ " WHERE key LIKE $1"
  else query +:+ " WHERE key LIKE ?".

Definition nil_dereference : string := "invalid memory address or nil pointer dereference".

Section BlobDb.
Context (oor : float64 -> Z).
Context `{Sql : SqlDB W Ctx Arg Res Rows Row Tx}.
Context `{Pool : SqlPool W Ctx DB Conn}.
Context `{RowsOps : !SqlRows W Rows}.
Context `{CacheOps : Cache C cached_value}.
Context `{BlobOps : !BlobSql W Arg Row Rows}.
(** The order in which a range over the tags visits them. *)
Context (tag_order : gmap string string -> list (string * string)).
Implicit Types rt : DBRuntime DB C.

(** A call that runs a statement and keeps its error. *)
Definition exec_error (env : db_env) (ctx : Ctx) (query : string) (args : list Arg)
    (rt : DBRuntime DB C) (w : W) : option (outcome (DBRuntime DB C * W * option error)) :=
  match DBRuntime_Exec oor env ctx query args rt w with
  | None => None
  | Some (Panic m) => Some (Panic m)
  | Some (Ret (rt, w, r)) => Some (Ret (rt, w, result_error r))
  end.

(** [row := runtime.QueryRow(...)] and a scan of it: a nil row is dereferenced. *)
Definition query_scan {T} (env : db_env) (ctx : Ctx) (query : string) (args : list Arg)
    (scan : Row -> W -> W * result error T) (rt : DBRuntime DB C) (w : W)
    : option (outcome (DBRuntime DB C * W * result error T)) :=
  match DBRuntime_QueryRow env ctx query args rt w with
  | None => None
  | Some (Panic m) => Some (Panic m)
  | Some (Ret (_, _, None)) => Some (Panic nil_dereference)
  | Some (Ret (rt, w, Some row)) => let '(w, r) := scan row w in Some (Ret (rt, w, r))
  end.

Definition database_type (rt : DBRuntime DB C) : string := rc_DatabaseType (rt_config rt).

Definition DatabaseBlobStorage_createTable (env : db_env) (ctx : Ctx) (dbs : DatabaseBlobStorage)
    (rt : DBRuntime DB C) (w : W) : option (outcome (DBRuntime DB C * W * option error)) :=
  match create_SQL (database_type rt) (db_tableName dbs) with
  | None =>
      Some (Ret (rt, w, Some (Errorf ("unsupported database type for blob storage: " +:+ database_type rt))))
  | Some createSQL => exec_error env ctx createSQL [] rt w
  end.

Definition NewDatabaseBlobStorage (env : db_env) (ctx : Ctx) (config : BlobStorageConfig)
    (rt : DBRuntime DB C) (w : W)
    : option (outcome (DBRuntime DB C * W * result error DatabaseBlobStorage)) :=
  let tableName := if String.eqb (bc_TableName config) "" then "blobs" else bc_TableName config in
  let storage := mkDatabaseBlobStorage tableName (config_maxSize config) in
  match DatabaseBlobStorage_createTable env ctx storage rt w with
  | None => None
  | Some (Panic m) => Some (Panic m)
  | Some (Ret (rt, w, Some e)) => Some (Ret (rt, w, Err (Wrapf "failed to create blob table: " e "")))
  | Some (Ret (rt, w, None)) => Some (Ret (rt, w, Ok storage))
  end.

(** [now]: the clock for UpdatedAt. *)
Definition DatabaseBlobStorage_Store (env : db_env) (now : Z) (ctx : Ctx) (key data : string)
    (metadata : BlobMetadata) (dbs : DatabaseBlobStorage) (rt : DBRuntime DB C) (w : W)
    : option (outcome (DBRuntime DB C * W * option error)) :=
  if db_maxSize dbs <? len data then
    Some (Ret (rt, w, Some (Errorf ("blob size " +:+ pretty (len data) +:+ " exceeds maximum " +:+
                                    pretty (db_maxSize dbs)))))
  else
    let checksum := md5_hex data in
    if negb (String.eqb (bm_Checksum metadata) "") && negb (String.eqb (bm_Checksum metadata) checksum) then
      Some (Ret (rt, w, Some (Errorf ("checksum mismatch: expected " +:+ bm_Checksum metadata +:+ ", got " +:+
                                      checksum))))
    else
      let createdAt := if Time_IsZero (bm_CreatedAt metadata) then now else bm_CreatedAt metadata in
      let tagsJSON := tags_JSON (tag_order (bm_Tags metadata)) in
      exec_error env ctx (upsert_SQL (database_type rt) (db_tableName dbs))
        [arg_string key; arg_bytes data; arg_string (bm_ContentType metadata);
         arg_string (bm_Filename metadata); arg_int (len data); arg_string checksum;
         arg_string tagsJSON; arg_time createdAt; arg_time now] rt w.

Definition DatabaseBlobStorage_Retrieve (env : db_env) (ctx : Ctx) (key : string)
    (dbs : DatabaseBlobStorage) (rt : DBRuntime DB C) (w : W)
    : option (outcome (DBRuntime DB C * W * result error BlobData)) :=
  match query_scan env ctx (select_SQL (db_tableName dbs)) [arg_string key] row_ScanBlob rt w with
  | None => None
  | Some (Panic m) => Some (Panic m)
  | Some (Ret (rt, w, Err e)) => Some (Ret (rt, w, Err (Wrapf "blob not found: " e "")))
  | Some (Ret (rt, w, Ok (data, contentType, filename, size, checksum, tagsJSON, createdAt, updatedAt))) =>
      Some (Ret (rt, w, Ok (mkBlobData key data
        (mkBlobMetadata contentType filename size checksum (parse_tags tagsJSON) createdAt updatedAt))))
  end.

Definition DatabaseBlobStorage_Delete (env : db_env) (ctx : Ctx) (key : string)
    (dbs : DatabaseBlobStorage) (rt : DBRuntime DB C) (w : W)
    : option (outcome (DBRuntime DB C * W * option error)) :=
  exec_error env ctx (delete_SQL (db_tableName dbs)) [arg_string key] rt w.

(** Every error of the scan is "not found". *)
Definition DatabaseBlobStorage_Exists (env : db_env) (ctx : Ctx) (key : string)
    (dbs : DatabaseBlobStorage) (rt : DBRuntime DB C) (w : W)
    : option (outcome (DBRuntime DB C * W * result error bool)) :=
  match query_scan env ctx (exists_SQL (db_tableName dbs)) [arg_string key]
          row_ScanInt rt w with
  | None => None
  | Some (Panic m) => Some (Panic m)
  | Some (Ret (rt, w, r)) => Some (Ret (rt, w, Ok (is_Ok r)))
  end.

(** The loop of [List]: a row that does not scan is skipped; [None] when the fuel ends
    before the rows do. *)
Fixpoint info_loop (fuel : nat) (rows : Rows) (infos : list BlobInfo) (w : W) : option (W * list BlobInfo) :=
  match fuel with
  | O => None
  | S fuel =>
      let '(w, more) := rows_Next rows w in
      if more then
        let '(w, r) := rows_ScanInfo rows w in
        match r with
        | Err _ => info_loop fuel rows infos w
        | Ok (key, contentType, filename, size, checksum, tagsJSON, createdAt, updatedAt) =>
            info_loop fuel rows (infos ++ [mkBlobInfo key
              (mkBlobMetadata contentType filename size checksum (parse_tags tagsJSON) createdAt updatedAt)]) w
        end
      else Some (w, infos)
  end.

Definition DatabaseBlobStorage_List (fuel : nat) (env : db_env) (ctx : Ctx) (prefix : string)
    (dbs : DatabaseBlobStorage) (rt : DBRuntime DB C) (w : W)
    : option (outcome (DBRuntime DB C * W * result error (list BlobInfo))) :=
  let args := if String.eqb prefix "" then [] else [arg_string (prefix +:+ "%")] in
  match DBRuntime_Query oor env ctx (list_SQL (database_type rt) (db_tableName dbs) prefix) args rt w with
  | None => None
  | Some (Panic m) => Some (Panic m)
  | Some (Ret (rt, w, Err e)) => Some (Ret (rt, w, Err e))
  | Some (Ret (rt, w, Ok rows)) =>
      match info_loop fuel rows [] w with
      | None => None
      | Some (w, infos) => Some (Ret (rt, rows_Close rows w, Ok infos))
      end
  end.

Definition DatabaseBlobStorage_Stats (env : db_env) (ctx : Ctx) (dbs : DatabaseBlobStorage)
    (rt : DBRuntime DB C) (w : W) : option (outcome (DBRuntime DB C * W * result error BlobStats)) :=
  match query_scan env ctx (stats_SQL (db_tableName dbs)) []
          row_ScanCounts rt w with
  | None => None
  | Some (Panic m) => Some (Panic m)
  | Some (Ret (rt, w, Err e)) => Some (Ret (rt, w, Err e))
  | Some (Ret (rt, w, Ok (totalBlobs, totalSize))) =>
      Some (Ret (rt, w, Ok (mkBlobStats totalBlobs totalSize totalSize)))
  end.

(** ** Properties of the store *)

(** On a runtime that is not connected, the calls that return rows' errors do so,
    but Retrieve, Exists and Stats scan the nil row QueryRow gave them and panic. *)
Theorem DatabaseBlobStorage_disconnected env now ctx key data prefix fuel dbs rt w :
  DBRuntime_IsConnected rt = false -> len data <= db_maxSize dbs ->
  DatabaseBlobStorage_Store env now ctx key data BlobMetadata_zero dbs rt w =
    Some (Ret (rt, w, Some not_connected)) /\
  DatabaseBlobStorage_Delete env ctx key dbs rt w = Some (Ret (rt, w, Some not_connected)) /\
  DatabaseBlobStorage_List fuel env ctx prefix dbs rt w = Some (Ret (rt, w, Err not_connected)) /\
  DatabaseBlobStorage_Retrieve env ctx key dbs rt w = Some (Panic nil_dereference) /\
  DatabaseBlobStorage_Exists env ctx key dbs rt w = Some (Panic nil_dereference) /\
  DatabaseBlobStorage_Stats env ctx dbs rt w = Some (Panic nil_dereference).
Proof.
  intros Hc Hlen.
  assert (He : forall q args, DBRuntime_Exec oor env ctx q args rt w = Some (Ret (rt, w, Err not_connected)))
    by (intros; unfold DBRuntime_Exec; by rewrite Hc).
  assert (Hr : forall q args, DBRuntime_QueryRow env ctx q args rt w = Some (Ret (rt, w, None)))
    by (intros; unfold DBRuntime_QueryRow; by rewrite Hc).
  assert (Hq : forall q args, DBRuntime_Query oor env ctx q args rt w = Some (Ret (rt, w, Err not_connected)))
    by (intros; unfold DBRuntime_Query; by rewrite Hc).
  split_and!.
  - unfold DatabaseBlobStorage_Store. destruct (Z.ltb_spec (db_maxSize dbs) (len data)); [lia|].
    cbn [bm_Checksum BlobMetadata_zero]. unfold exec_error. by rewrite He.
  - unfold DatabaseBlobStorage_Delete, exec_error. by rewrite He.
  - unfold DatabaseBlobStorage_List. by rewrite Hq.
  - unfold DatabaseBlobStorage_Retrieve, query_scan. by rewrite Hr.
  - unfold DatabaseBlobStorage_Exists, query_scan. by rewrite Hr.
  - unfold DatabaseBlobStorage_Stats, query_scan. by rewrite Hr.
Qed.
End BlobDb.

(** ** Tags that come back *)

(** A key without comma or colon, a value without comma, neither with a quote at an
    end. *)
Definition tag_ok (kv : string * string) : Prop :=
  Split "," kv.1 = [kv.1] /\ Split ":" kv.1 = [kv.1] /\ Split "," kv.2 = [kv.2] /\
  forall s, s = kv.1 \/ s = kv.2 ->
    TrimLeft (String double_quote "") s = s /\ TrimRight (String double_quote "") s = s.

Lemma tag_JSON_Split kv : tag_ok kv -> Split "," (tag_JSON kv) = [tag_JSON kv].
Proof.
  destruct kv as [k v]. intros (Hk & _ & Hv & _). cbn in *. unfold tag_JSON, quoted.
  change (Split "," (String double_quote "" +:+ (k +:+ String double_quote "") +:+ ":" +:+
                     String double_quote "" +:+ (v +:+ String double_quote "")) =
          [String double_quote "" +:+ (k +:+ String double_quote "") +:+ ":" +:+
                     String double_quote "" +:+ (v +:+ String double_quote "")]).
  apply Split_snoc; [reflexivity|]. apply Split_snoc; [by apply Split_snoc|].
  apply Split_snoc; [reflexivity|]. apply Split_snoc; [reflexivity|]. by apply Split_snoc.
Qed.

Lemma Trim_quoted s :
  TrimLeft (String double_quote "") s = s -> TrimRight (String double_quote "") s = s ->
  Trim (quoted s) (String double_quote "") = s.
Proof. intros Hl Hr. by apply (Trim_wrapped (String double_quote "") double_quote s double_quote). Qed.

Lemma parse_tag_JSON kv tags : tag_ok kv -> parse_pair (tag_JSON kv) tags = <[kv.1 := kv.2]> tags.
Proof.
  destruct kv as [k v]. intros (_ & Hc & _ & Hq). cbn in *. unfold parse_pair, tag_JSON. cbn [fst snd].
  assert (Hs : Split ":" (quoted k) = [quoted k]).
  { change (Split ":" (String double_quote "" +:+ (k +:+ String double_quote "")) =
            [String double_quote "" +:+ (k +:+ String double_quote "")]).
    apply Split_snoc; [reflexivity|]. by apply Split_snoc. }
  change (quoted k +:+ ":" +:+ quoted v) with (quoted k +:+ String ":" (quoted v)).
  rewrite Cut_app by done. destruct (Hq k), (Hq v); [by auto..|]. by rewrite !Trim_quoted.
Qed.

(** The text of some tags starts and ends with a quote. *)
Lemma tag_JSON_ends kv :
  exists s, tag_JSON kv = String double_quote s /\ exists t, tag_JSON kv = t +:+ String double_quote "".
Proof.
  destruct kv as [k v]. unfold tag_JSON, quoted. cbn [fst snd]. eexists. split; [reflexivity|].
  exists (quoted k +:+ ":" +:+ String double_quote v). unfold quoted.
  rewrite !String_app_assoc. reflexivity.
Qed.

Lemma tags_Join_ends kv kvs :
  exists s, strings_Join "," (map tag_JSON (kv :: kvs)) = String double_quote s /\
  exists t, strings_Join "," (map tag_JSON (kv :: kvs)) = t +:+ String double_quote "".
Proof.
  revert kv. induction kvs as [|kv' kvs IH]; intros kv; destruct (tag_JSON_ends kv) as (s & Hs & t & Ht).
  { exists s. split; [done|]. by exists t. }
  destruct (IH kv') as (s' & _ & t' & Ht').
  change (strings_Join "," (map tag_JSON (kv :: kv' :: kvs))) with
    (tag_JSON kv +:+ "," +:+ strings_Join "," (map tag_JSON (kv' :: kvs))).
  eexists. split; [rewrite Hs; reflexivity|].
  exists (tag_JSON kv +:+ "," +:+ t'). rewrite Ht', !String_app_assoc. reflexivity.
Qed.

Lemma parse_tags_text kvs :
  Forall tag_ok kvs ->
  parse_tags (tags_JSON kvs) = foldl (fun tags kv => <[kv.1 := kv.2]> tags) ∅ kvs.
Proof.
  intros Hok. destruct kvs as [|kv kvs]; [done|].
  destruct (tags_Join_ends kv kvs) as (s & Hs & t & Ht).
  unfold parse_tags, tags_JSON. set (joined := strings_Join "," _) in *.
  change (String.eqb ("{" +:+ joined +:+ "}") "") with false. cbn iota.
  assert (Htrim : Trim ("{" +:+ joined +:+ "}") "{}" = joined).
  { apply (Trim_wrapped "{}" "{" joined "}"); [done|done| |].
    - rewrite Hs. reflexivity.
    - rewrite Ht. by apply TrimRight_last. }
  rewrite Htrim. assert (String.eqb joined "" = false) as -> by (by rewrite Hs).
  unfold joined. change "," with (String "," ""). rewrite Split_strings_Join; [|done|].
  - clear -Hok. generalize (∅ : gmap string string).
    induction Hok as [|x l Hx _ IH]; intros m; [done|]. cbn [map foldl].
    rewrite <- IH. by rewrite parse_tag_JSON.
  - clear -Hok. induction Hok as [|x l Hx _ IH]; constructor; [by apply tag_JSON_Split|done].
Qed.

Lemma foldl_insert_list_to_map (kvs : list (string * string)) :
  foldl (fun (tags : gmap string string) kv => <[kv.1 := kv.2]> tags) ∅ kvs = list_to_map (reverse kvs).
Proof.
  induction kvs as [|kv kvs IH] using rev_ind; [done|].
  rewrite foldl_app, reverse_app, IH. by destruct kv.
Qed.

(** Tags survive: whatever the order of the map iteration, the text Store writes for
    some tags is read back by Retrieve and List as the same tags, provided no key or
    value has a comma, no key a colon, and none starts or ends with a quote; braces,
    and colons and inner quotes in values, are no obstacle. *)
Theorem tags_round_trip order tags :
  order ≡ₚ map_to_list tags -> Forall tag_ok order -> parse_tags (tags_JSON order) = tags.
Proof.
  intros Hp Hok. rewrite parse_tags_text, foldl_insert_list_to_map by done.
  rewrite <- (list_to_map_to_list tags). apply list_to_map_proper.
  - rewrite reverse_Permutation, Hp. apply NoDup_fst_map_to_list.
  - by rewrite reverse_Permutation.
Qed.

(** ** Witnesses *)
Section Witnesses.
Import OneCell CellRuntime.

Definition tags_example : gmap string string := {["{team}" := "a:b"; "env" := "it's {1}"]}.

Lemma tags_round_trip_witness :
  parse_tags (tags_JSON (reverse (map_to_list tags_example))) = tags_example.
Proof.
  apply (tags_round_trip (reverse (map_to_list tags_example)) tags_example).
  - apply reverse_Permutation.
  - assert (Forall tag_ok [("{team}", "a:b"); ("env", "it's {1}")]) as Hok.
    { repeat (constructor; [split_and!; try reflexivity; intros s [->| ->]; split; reflexivity|]). constructor. }
    apply Forall_forall. intros kv Hin%elem_of_reverse.
    rewrite Forall_forall in Hok. apply Hok. vm_compute in Hin |- *. set_solver.
Defined.

(** The one-cell database knows no texts. *)
#[local] Instance cell_blob : BlobSql world Z Z (list Z) := {
  arg_string _ := 0;
  arg_bytes _ := 0;
  arg_int z := z;
  arg_time t := t;
  row_ScanBlob _ w := (w, Err (Errorf "no such column"));
  row_ScanInt row w := (w, Ok row);
  row_ScanCounts row w := (w, Ok (row, row));
  rows_ScanInfo _ w := (w, Err (Errorf "no such column"));
}.

Lemma DatabaseBlobStorage_disconnected_witness :
  DatabaseBlobStorage_Retrieve (env 5) 0%nat "k" (mkDatabaseBlobStorage "blobs" 8)
    runtime0 start = Some (Panic nil_dereference).
Proof.
  refine (proj1 (proj2 (proj2 (proj2 (DatabaseBlobStorage_disconnected (fun _ => 0) map_to_list
    (env 5) 6 0%nat "k" "abc" "" 3 (mkDatabaseBlobStorage "blobs" 8)
    runtime0 start _ _))))).
  - reflexivity.
  - vm_compute. discriminate.
Defined.

(** A comma in a value cuts it, and the rest is lost. *)
Example comma_cuts_a_tag :
  parse_tags (tags_JSON [("colours", "red,blue")]) !! "colours" = Some "red".
Proof. reflexivity. Qed.

End Witnesses.
