(* ===== verification/BlobTable.v ===== *)
(** * The database blob store as a map (blob.go, [DatabaseBlobStorage])

    What the store promises, over any database whose statements do what SQL says: it is
    a map from keys to blobs, but one whose writes and listings each take a slot of the
    gate for good, and where an error leaves open whether the write was made. *)
From Stdlib Require Import Ascii.
From S2P Require Import Prelude.
From S2P Require Import Errors.
From S2P Require Import GoFloat.
From S2P Require Import GoStrings.
From S2P Require Import CircuitBreaker.
From S2P Require Import RateLimiter.
From S2P Require Import ConnectionLimiter.
From S2P Require Import Gate.
From S2P Require Import Cache.
From S2P Require Import StmtCache.
From S2P Require Import Metrics.
From S2P Require Import Retry.
From S2P Require Import Sql.
From S2P Require Import Db.
From S2P Require Import Open.
From S2P Require Import Config.
From S2P Require Import Runtime.
From S2P Require Import Md5.
From S2P Require Import Blob.
From S2P Require Import BlobDb.
Local Open Scope string_scope.
Local Open Scope list_scope.
Local Open Scope Z_scope.

(** ** The specification *)

(** A blob without its key. *)
Definition blob : Type := string * BlobMetadata.

(** What the keys are bound to, and how many of the gate's slots are left. *)
Record blob_map : Type := mkBlobMap {
  bm_blobs : gmap string blob;
  bm_slots_left : Z;
}.

(** A call of the store; [now]: the clock of [Store]. *)
Inductive blob_call : Type :=
  | Store (now : Z) (key data : string) (metadata : BlobMetadata)
  | Retrieve (key : string)
  | Delete (key : string)
  | Exists (key : string)
  | List (prefix : string)
  | Stats.

Inductive blob_answer : Type :=
  | Written (err : option error)
  | Retrieved (r : result error BlobData)
  | Existed (r : result error bool)
  | Listed (r : result error (list BlobInfo))
  | Counted (r : result error BlobStats).

(** The blob of a Store: size, checksum and update time are the store's own. *)
Definition stored_blob (now : Z) (data : string) (metadata : BlobMetadata) : blob :=
  (data, mkBlobMetadata (bm_ContentType metadata) (bm_Filename metadata) (len data) (md5_hex data)
           (bm_Tags metadata) (if Time_IsZero (bm_CreatedAt metadata) then now else bm_CreatedAt metadata) now).

(** Small enough, and with the checksum the caller gave if any. *)
Definition acceptable (maxSize : Z) (data : string) (metadata : BlobMetadata) : Prop :=
  len data <= maxSize /\ (bm_Checksum metadata = "" \/ bm_Checksum metadata = md5_hex data).

(** What a call would write. *)
Definition change (maxSize : Z) (call : blob_call) : option (gmap string blob -> gmap string blob) :=
  match call with
  | Store now key data metadata =>
      if decide (acceptable maxSize data metadata) then Some (insert key (stored_blob now data metadata)) else None
  | Delete key => Some (delete key)
  | _ => None
  end.

Definition is_write (call : blob_call) : bool :=
  match call with Store _ _ _ _ | Delete _ => true | _ => false end.

Definition total_size (m : gmap string blob) : Z := map_fold (fun _ b n => bm_Size b.2 + n) 0 m.

Section Spec.
(** LIKE: whether a key matches a pattern. *)
Context (like : string -> string -> bool).
Context (maxSize : Z).

(** The keys [List] asks for. *)
Definition listed (prefix : string) (kb : string * blob) : bool :=
  String.eqb prefix "" || like (prefix +:+ "%") kb.1.

Definition listing (prefix : string) (m : gmap string blob) : list BlobInfo :=
  map (fun kb => mkBlobInfo kb.1 kb.2.2) (List.filter (listed prefix) (map_to_list m)).

(** Whether the database may fail and the gate may turn calls away. *)
Context (faulty : bool).

(** An error nobody is to blame for: of a fault, or because no slot is left. *)
Definition excused (s : blob_map) : Prop := faulty = true \/ bm_slots_left s <= 0.

(** A write that reports success has been made and has taken a slot. Without faults, and
    while there are slots, every acceptable write succeeds, a key is retrieved exactly
    when it is bound, and a listing is complete. A fault can make any call fail; a write
    may then have been made or not, and a listing lack some blobs. *)
Inductive blob_spec : blob_map -> blob_call -> blob_answer -> blob_map -> Prop :=
  | spec_written m left call f :
      change maxSize call = Some f -> 0 < left ->
      blob_spec (mkBlobMap m left) call (Written None) (mkBlobMap (f m) (left - 1))
  | spec_refused s call e :
      is_write call = true -> change maxSize call = None -> blob_spec s call (Written (Some e)) s
  | spec_write_failed s call e :
      is_write call = true -> excused s -> blob_spec s call (Written (Some e)) s
  | spec_write_unknown m left call f e :
      change maxSize call = Some f -> 0 < left -> faulty = true ->
      blob_spec (mkBlobMap m left) call (Written (Some e)) (mkBlobMap (f m) left)
  | spec_retrieved s key data metadata :
      bm_blobs s !! key = Some (data, metadata) ->
      blob_spec s (Retrieve key) (Retrieved (Ok (mkBlobData key data metadata))) s
  | spec_not_retrieved s key e :
      faulty = true \/ bm_blobs s !! key = None -> blob_spec s (Retrieve key) (Retrieved (Err e)) s
  | spec_exists s key : is_Some (bm_blobs s !! key) -> blob_spec s (Exists key) (Existed (Ok true)) s
  | spec_not_found s key :
      faulty = true \/ bm_blobs s !! key = None -> blob_spec s (Exists key) (Existed (Ok false)) s
  | spec_listed m left prefix infos :
      infos ⊆+ listing prefix m -> (faulty = false -> infos ≡ₚ listing prefix m) -> 0 < left ->
      blob_spec (mkBlobMap m left) (List prefix) (Listed (Ok infos)) (mkBlobMap m (left - 1))
  | spec_not_listed s prefix e : excused s -> blob_spec s (List prefix) (Listed (Err e)) s
  | spec_counted s :
      let total := total_size (bm_blobs s) in
      blob_spec s Stats (Counted (Ok (mkBlobStats (Z.of_nat (size (bm_blobs s))) total total))) s
  | spec_not_counted s e : faulty = true -> blob_spec s Stats (Counted (Err e)) s.

(** One call after another. *)
Inductive blob_specs : blob_map -> list blob_call -> list blob_answer -> blob_map -> Prop :=
  | specs_done s : blob_specs s [] [] s
  | specs_call s call calls a answers s1 s2 :
      blob_spec s call a s1 -> blob_specs s1 calls answers s2 ->
      blob_specs s (call :: calls) (a :: answers) s2.

(** A call adds one key at most. *)
Lemma blob_spec_size s call a s' :
  blob_spec s call a s' -> (size (bm_blobs s') <= S (size (bm_blobs s)))%nat.
Proof.
  assert (Hf : forall call f m, change maxSize call = Some f -> (size (f m) <= S (size m))%nat).
  { intros [now key data metadata| |key| | |] f m; try done; cbn [change].
    - destruct (decide _); [|done]. intros [= <-]. rewrite map_size_insert. case_match; unfold id; lia.
    - intros [= <-]. rewrite map_size_delete. case_match; unfold id; lia. }
  intros []; cbn; first [by eapply Hf|lia].
Qed.

(** How many writes and listings reported success. *)
Definition takes_slot (a : blob_answer) : bool :=
  match a with Written None | Listed (Ok _) => true | _ => false end.

Lemma blob_spec_slots s call a s' :
  blob_spec s call a s' -> bm_slots_left s' = bm_slots_left s - (if takes_slot a then 1 else 0).
Proof. intros []; cbn; lia. Qed.

Lemma blob_specs_slots s calls answers s' :
  blob_specs s calls answers s' ->
  bm_slots_left s' = bm_slots_left s - Z.of_nat (length (List.filter takes_slot answers)).
Proof.
  induction 1 as [s|s call calls a answers s1 s2 Hs _ IH]; [cbn; lia|].
  apply blob_spec_slots in Hs. cbn [List.filter]. destruct (takes_slot a); cbn [length]; lia.
Qed.
End Spec.

(** ** The database *)

(** data, content type, filename, size, checksum, tags, created, updated *)
Abbreviation blob_row := (string * string * string * Z * string * string * Z * Z)%type.

Definition row_blob (row : blob_row) : blob :=
  let '(data, contentType, filename, size, checksum, tagsJSON, createdAt, updatedAt) := row in
  (data, mkBlobMetadata contentType filename size checksum (parse_tags tagsJSON) createdAt updatedAt).

Definition row_size (row : blob_row) : Z := bm_Size (row_blob row).2.

(** A row of the statement of [List], without the data. *)
Definition row_info (kr : string * blob_row)
    : string * string * string * Z * string * string * Z * Z :=
  let '(_, contentType, filename, size, checksum, tagsJSON, createdAt, updatedAt) := kr.2 in
  (kr.1, contentType, filename, size, checksum, tagsJSON, createdAt, updatedAt).

(** The arguments of the insert. *)
Definition row_args `{BlobSql W Arg Row Rows} (key : string) (row : blob_row) : list Arg :=
  let '(data, contentType, filename, size, checksum, tagsJSON, createdAt, updatedAt) := row in
  [arg_string key; arg_bytes data; arg_string contentType; arg_string filename; arg_int size;
   arg_string checksum; arg_string tagsJSON; arg_time createdAt; arg_time updatedAt].

Definition list_args `{BlobSql W Arg Row Rows} (prefix : string) : list Arg :=
  if String.eqb prefix "" then [] else [arg_string (prefix +:+ "%")].

(** A statement that makes a change, or fails and has made it or not. *)
Definition makes {A B} (f : A -> A) (before after : A) (r : result error B) : Prop :=
  after = f before \/ after = before /\ is_Ok r = false.

(** The table of the store in a database that nobody else writes to. Contexts do not touch
    it; each statement does what SQL says or fails; a row holds what the table held when it
    was selected, and a scan that succeeds gives it ([QueryRow] has cancelled the row's
    context before the scan, which may fail for that). *)
Class LawfulBlobTable {W Ctx Arg Res Rows Row Tx : Type} (dbType tableName : string)
    (like : string -> string -> bool) `{SqlDB W Ctx Arg Res Rows Row Tx} `{!SqlRows W Rows}
    `{!BlobSql W Arg Row Rows} : Type := {
  table_rows : W -> gmap string blob_row;
  (** the rows of a listing not read yet *)
  rows_left : Rows -> W -> list (string * blob_row);
  row_selected : Row -> option blob_row;
  row_counted : Row -> Z * Z;
  law_table_WithTimeout t c w : table_rows (ctx_WithTimeout t c w).1 = table_rows w;
  law_table_cancel c w : table_rows (ctx_cancel c w) = table_rows w;
  law_rows_cancel rows c w : rows_left rows (ctx_cancel c w) = rows_left rows w;
  law_table_wait c d w : table_rows (ctx_wait c d w).1 = table_rows w;
  law_upsert c key row w :
    let '(w', r) := db_ExecContext c (upsert_SQL dbType tableName) (row_args key row) w in
    makes (insert key row) (table_rows w) (table_rows w') r;
  law_delete c key w :
    let '(w', r) := db_ExecContext c (delete_SQL tableName) [arg_string key] w in
    makes (delete key) (table_rows w) (table_rows w') r;
  law_select c key w :
    let '(w', row) := db_QueryRowContext c (select_SQL tableName) [arg_string key] w in
    table_rows w' = table_rows w /\ row_selected row = table_rows w !! key;
  law_select_one c key w :
    let '(w', row) := db_QueryRowContext c (exists_SQL tableName) [arg_string key] w in
    table_rows w' = table_rows w /\ row_selected row = table_rows w !! key;
  law_count c w :
    let '(w', row) := db_QueryRowContext c (stats_SQL tableName) [] w in
    table_rows w' = table_rows w /\
    row_counted row = (Z.of_nat (size (table_rows w)), map_fold (fun _ row n => row_size row + n) 0 (table_rows w));
  law_list c prefix w :
    let '(w', r) := db_QueryContext c (list_SQL dbType tableName prefix) (list_args prefix) w in
    table_rows w' = table_rows w /\
    forall rows, r = Ok rows -> rows_left rows w' ≡ₚ
      List.filter (fun kr => String.eqb prefix "" || like (prefix +:+ "%") kr.1) (map_to_list (table_rows w));
  law_ScanBlob row w :
    let '(w', r) := row_ScanBlob row w in
    table_rows w' = table_rows w /\ forall v, r = Ok v -> row_selected row = Some v;
  law_ScanInt row w :
    let '(w', r) := row_ScanInt row w in
    table_rows w' = table_rows w /\ (is_Ok r = true -> is_Some (row_selected row));
  law_ScanCounts row w :
    let '(w', r) := row_ScanCounts row w in
    table_rows w' = table_rows w /\ forall v, r = Ok v -> row_counted row = v;
  law_NextInfo rows w :
    let '(w', more) := rows_Next rows w in
    table_rows w' = table_rows w /\
    (more = true -> exists kr, rows_left rows w = kr :: rows_left rows w' /\
       let '(w'', r) := rows_ScanInfo rows w' in
       table_rows w'' = table_rows w' /\ rows_left rows w'' = rows_left rows w' /\
       forall v, r = Ok v -> v = row_info kr);
  law_table_Close rows w : table_rows (rows_Close rows w) = table_rows w;
}.

(** Such a database without faults: no statement on the table fails, and a cancelled
    context closes neither row nor rows that are still to be read. *)
Record faultless_table {W Ctx Arg Res Rows Row Tx} (dbType tableName : string) (like : string -> string -> bool)
    `{Table : LawfulBlobTable W Ctx Arg Res Rows Row Tx dbType tableName like} : Prop := {
  no_upsert_fails c key row w :
    is_Ok (db_ExecContext c (upsert_SQL dbType tableName) (row_args key row) w).2 = true;
  no_delete_fails c key w : is_Ok (db_ExecContext c (delete_SQL tableName) [arg_string key] w).2 = true;
  no_list_fails c prefix w :
    is_Ok (db_QueryContext c (list_SQL dbType tableName prefix) (list_args prefix) w).2 = true;
  no_blob_fails row w : is_Some (row_selected row) -> is_Ok (row_ScanBlob row w).2 = true;
  no_one_fails row w : is_Some (row_selected row) -> is_Ok (row_ScanInt row w).2 = true;
  no_count_fails row w : is_Ok (row_ScanCounts row w).2 = true;
  no_row_is_lost rows w : rows_left rows w <> [] ->
    let '(w', more) := rows_Next rows w in more = true /\ is_Ok (rows_ScanInfo rows w').2 = true;
}.

(** ** The store on it *)
Section Refinement.
Context (oor : float64 -> Z).
Context `{Sql : SqlDB W Ctx Arg Res Rows Row Tx}.
Context `{Pool : SqlPool W Ctx DB Conn}.
Context `{RowsOps : !SqlRows W Rows}.
Context `{CacheOps : Cache C cached_value}.
Context `{BlobOps : !BlobSql W Arg Row Rows}.
Context (tag_order : gmap string string -> list (string * string)).
Context (tag_order_all : forall tags, tag_order tags ≡ₚ map_to_list tags).
Context `{Table : !LawfulBlobTable dbType tableName like}.
Context (faulty : bool).
Context (faultless : faulty = false -> faultless_table dbType tableName like).
Implicit Types (rt : DBRuntime DB C) (dbs : DatabaseBlobStorage).

(** *** Calls on a runtime whose gate does not make them wait *)

(** Connected, dropping what is over the limit, and with so many slots left. *)
Record ready rt (left : Z) : Prop := mk_ready {
  ready_connected : DBRuntime_IsConnected rt = true;
  ready_wrapper : is_Some (rt_advancedDB rt);
  ready_drops : gate_drops (rt_gate rt);
  ready_balanced : gate_balanced (rt_gate rt);
  ready_left : gate_limit (rt_gate rt) - gate_slots (rt_gate rt) = left;
  ready_type : database_type rt = dbType;
}.

Lemma ready_nonneg rt left : ready rt left -> 0 <= left.
Proof. intros [_ _ _ (Hb & _) <- _]. unfold gate_limit, gate_slots. lia. Qed.

(** The runtime serves the calls to come, unless there may be faults or no slot is left. *)
Definition serves (nows : list Z) rt : Prop :=
  gate_serves nows (rt_gate rt) /\
  forall adb, rt_advancedDB rt = Some adb -> 0 <= rp_MaxRetries (adb_retryPolicy adb).

Definition serving (nows : list Z) rt (left : Z) : Prop := faulty = true \/ left = 0 \/ serves nows rt.

Lemma serves_skip now nows rt : serves (now :: nows) rt -> serves nows rt.
Proof. intros [[Hst Hb] Hrp]. split; [|done]. split; [done|]. by eapply bucket_serves_skip. Qed.

Lemma serving_skip now nows rt left : serving (now :: nows) rt left -> serving nows rt left.
Proof. intros [H|[H|H]]; unfold serving; eauto using serves_skip. Qed.

(** What the operation sees and leaves, between the two ends of a call's context. *)
Lemma gated_drop {T} env ctx (op : Ctx -> W -> W * result error T) adb w :
  gate_drops (adb_gate adb) -> gate_balanced (adb_gate adb) ->
  exists adb' w1 w2 c r, AdvancedDB_gated oor env ctx op adb w = Some (adb', ctx_cancel c w2, r) /\
    table_rows w1 = table_rows w /\
    gate_drops (adb_gate adb') /\ gate_balanced (adb_gate adb') /\
    gate_limit (adb_gate adb') = gate_limit (adb_gate adb) /\
    gate_slots (adb_gate adb') = gate_slots (adb_gate adb) + (if is_Ok r then 1 else 0) /\
    ((w2, r) = op c w1 /\ gate_slots (adb_gate adb) < gate_limit (adb_gate adb) \/ w2 = w1 /\ is_Ok r = false).
Proof.
  intros Hd Hb. unfold AdvancedDB_gated.
  pose proof (law_table_WithTimeout (adb_queryTimeout adb) ctx w) as Hv.
  destruct (ctx_WithTimeout _ ctx w) as [w1 c]. cbn in Hv.
  destruct (ExecuteWithGate_drop oor (e_gate env) (op c) (adb_gate adb) w1 Hd Hb)
    as (cg & w2 & r & -> & Hd' & Hb' & Hl & Hs & Hop).
  eexists _, w1, w2, c, r. split; [reflexivity|]. by destruct adb.
Qed.

(** A call of the wrapper behind the gate, on the runtime. *)
Lemma with_db_gated {T} env ctx (op : AdvancedDB -> Ctx -> W -> W * result error T) rt w left :
  ready rt left ->
  exists rt' w1 w2 c r,
    with_db (fun adb w => match AdvancedDB_gated oor env ctx (op adb) adb w with
                          | None => None
                          | Some (adb, w, r) => Some (AdvancedDB_record env None adb, w, r)
                          end) rt w = Some (Ret (rt', ctx_cancel c w2, r)) /\
    table_rows w1 = table_rows w /\
    ready rt' (if is_Ok r then left - 1 else left) /\
    ((exists adb, (w2, r) = op adb c w1) /\ 0 < left \/ w2 = w1 /\ is_Ok r = false).
Proof.
  intros [Hc [adb Ha] Hd Hb <- Ht]. unfold with_db. rewrite Ha.
  set (adb1 := adb{{adb_gate := rt_gate rt}}).
  assert (Hg : adb_gate adb1 = rt_gate rt) by (by destruct adb). rewrite <- Hg in Hd, Hb |- *.
  destruct (gated_drop env ctx (op adb1) adb1 w Hd Hb)
    as (adb2 & w1 & w2 & c & r & -> & Hw & Hd' & Hb' & Hl & Hs & Hop).
  eexists _, w1, w2, c, r. split; [reflexivity|]. split; [done|]. split.
  - destruct rt, adb2. constructor; try done. cbn in *. destruct (is_Ok r); lia.
  - destruct Hop as [[Hop Hlt]|Hop]; [left|by right]. split; [by exists adb1|lia].
Qed.

(** On a runtime that serves its calls an operation that cannot fail is not turned away. *)
Lemma with_db_gated_serves {T} env ctx (op : AdvancedDB -> Ctx -> W -> W * result error T) rt w left nows rt' w' r :
  ready rt left -> serving (at_rate (e_gate env) :: nows) rt left ->
  (faulty = false -> forall adb c w, 0 <= rp_MaxRetries (adb_retryPolicy adb) -> is_Ok (op adb c w).2 = true) ->
  with_db (fun adb w => match AdvancedDB_gated oor env ctx (op adb) adb w with
                        | None => None
                        | Some (adb, w, r) => Some (AdvancedDB_record env None adb, w, r)
                        end) rt w = Some (Ret (rt', w', r)) ->
  (is_Ok r = true \/ faulty = true \/ left <= 0) /\ serving nows rt' (if is_Ok r then left - 1 else left).
Proof.
  intros Hready Hserving Hop.
  destruct Hserving as [Hf|[Hl|[Hserve Hrp]]]; [intros _; unfold serving; auto| |].
  { intros He. destruct (with_db_gated env ctx op rt w left Hready) as (rt2 & w1 & w2 & c & r2 & He2 & _ & _ & Hran).
    rewrite He in He2. injection He2 as <- _ <-. destruct Hran as [[_ Hlt]|[_ Hno]]; [lia|].
    rewrite Hno, Hl. split; [right; right; lia|right; by left]. }
  destruct faulty eqn:Hfault; [intros _; unfold serving; auto|]. specialize (Hop eq_refl).
  destruct (Z.leb_spec left 0) as [Hl|Hl].
  { intros He. destruct (with_db_gated env ctx op rt w left Hready) as (rt2 & w1 & w2 & c & r2 & He2 & _ & Hr2 & Hran).
    rewrite He in He2. injection He2 as <- _ <-. destruct Hran as [[_ Hlt]|[_ Hno]]; [lia|].
    rewrite Hno in *. apply ready_nonneg in Hr2. split; [right; right; lia|right; left; lia]. }
  destruct Hready as [Hc [adb Ha] Hd Hb <- Ht]. specialize (Hrp adb Ha). unfold with_db. rewrite Ha.
  unfold AdvancedDB_gated. destruct adb as [gate stmts metrics policy tmo]. cbn in Hrp |- *.
  destruct (ctx_WithTimeout tmo ctx w) as [w1 c].
  destruct (ExecuteWithGate oor (e_gate env) _ (rt_gate rt) w1) as [[[cg w2] r2]|] eqn:He; [|done].
  intros [= <- _ <-].
  apply (ExecuteWithGate_serves oor _ _ _ _ nows) in He as [Hok Hserve']; [|done|lia|done|by apply Hop].
  rewrite Hok. split; [by left|]. right. right. destruct rt. split; [exact Hserve'|]. cbn. by intros adb [= <-].
Qed.

(** A retry loop around an operation that cannot fail. *)
Lemma retry_loop_first {T} verb (op : W -> W * result error T) wait rp w :
  0 <= rp_MaxRetries rp -> is_Ok (op w).2 = true ->
  is_Ok (retry_loop oor op wait verb rp (attempts (rp_MaxRetries rp)) (rp_InitialBackoff rp) None w).2 = true.
Proof.
  intros Hmax Hop. unfold attempts. rewrite seqZ_cons by lia. cbn [retry_loop]. rewrite Z.ltb_irrefl.
  by destruct (op w) as [w1 [v|e]].
Qed.

Lemma DBRuntime_Exec_makes env ctx query args f rt w left nows :
  ready rt left -> serving (at_rate (e_gate env) :: nows) rt left -> (forall m, f (f m) = f m) ->
  (forall c w, let '(w', r) := db_ExecContext c query args w in makes f (table_rows w) (table_rows w') r) ->
  (faulty = false -> forall c w, is_Ok (db_ExecContext c query args w).2 = true) ->
  exists rt' w' r, DBRuntime_Exec oor env ctx query args rt w = Some (Ret (rt', w', r)) /\
    ready rt' (if is_Ok r then left - 1 else left) /\
    serving nows rt' (if is_Ok r then left - 1 else left) /\
    (is_Ok r = true \/ faulty = true \/ left <= 0) /\
    (table_rows w' = f (table_rows w) /\ 0 < left \/ table_rows w' = table_rows w /\ is_Ok r = false).
Proof.
  intros Hr Hserving Hf Hex Hok.
  destruct (with_db_gated env ctx (fun adb c => AdvancedDB_retryExec oor (db_ExecContext c query args)
    (ctx_wait c) (adb_retryPolicy adb)) rt w left Hr) as (rt' & w1 & w2 & c & r & He & Hw1 & Hr' & Hop).
  apply (with_db_gated_serves _ _ _ _ _ left nows) in He as Hserve; [|done..|].
  2: { intros Hfault adb c0 w0 Hmax. apply retry_loop_first; [done|]. by apply Hok. }
  exists rt', (ctx_cancel c w2), r. split.
  { unfold DBRuntime_Exec. rewrite (ready_connected _ _ Hr). exact He. }
  split; [done|]. split; [apply Hserve|]. split; [apply Hserve|]. clear Hserve Hok. rewrite law_table_cancel, <- Hw1. destruct Hop as [[[adb Hop] Hlt]|[-> Hno]]; [|by right].
  pose proof (retry_loop_keeps oor (db_ExecContext c query args) (ctx_wait c)
    (fun w => table_rows w = f (table_rows w1) \/ table_rows w = table_rows w1)
    (fun w _ => table_rows w = f (table_rows w1)) "exec" (adb_retryPolicy adb)
    (attempts (rp_MaxRetries (adb_retryPolicy adb))) (rp_InitialBackoff (adb_retryPolicy adb)) None w1) as Hk.
  unfold AdvancedDB_retryExec in Hop. rewrite <- Hop in Hk. destruct Hk as [Hk Hok].
  - intros w0 Hw0. specialize (Hex c w0). destruct (db_ExecContext c query args w0) as [w0' r0]. cbn.
    destruct Hex as [Hex|[Hex Hno]]; rewrite Hex; destruct Hw0 as [-> | ->]; rewrite ?Hf;
      (split; [auto|]); intros v ->; done.
  - intros d w0 Hw0. by rewrite law_table_wait.
  - by right.
  - destruct Hk as [Hk|Hk]; [by left|]. destruct r as [v|e]; [left; split; [by eapply Hok|done]|by right].
Qed.

Lemma DBRuntime_Query_selects env ctx query args rt w left nows (Q : W -> Rows -> Prop) :
  ready rt left -> serving (at_rate (e_gate env) :: nows) rt left ->
  (faulty = false -> forall c w, is_Ok (db_QueryContext c query args w).2 = true) ->
  (forall c w1, table_rows w1 = table_rows w -> let '(w2, r) := db_QueryContext c query args w1 in
     table_rows w2 = table_rows w1 /\ forall rows, r = Ok rows -> Q w2 rows) ->
  exists rt' w2 c r, DBRuntime_Query oor env ctx query args rt w = Some (Ret (rt', ctx_cancel c w2, r)) /\
    ready rt' (if is_Ok r then left - 1 else left) /\
    serving nows rt' (if is_Ok r then left - 1 else left) /\
    (is_Ok r = true \/ faulty = true \/ left <= 0) /\ table_rows w2 = table_rows w /\
    forall rows, r = Ok rows -> Q w2 rows /\ 0 < left.
Proof.
  intros Hr Hserving Hok Hq.
  destruct (with_db_gated env ctx (fun adb c => AdvancedDB_retryQuery oor (db_QueryContext c query args)
    (ctx_wait c) (adb_retryPolicy adb)) rt w left Hr) as (rt' & w1 & w2 & c & r & He & Hw1 & Hr' & Hop).
  apply (with_db_gated_serves _ _ _ _ _ left nows) in He as Hserve; [|done..|].
  2: { intros Hfault adb c0 w0 Hmax. apply retry_loop_first; [done|]. by apply Hok. }
  exists rt', w2, c, r. split.
  { unfold DBRuntime_Query. rewrite (ready_connected _ _ Hr). exact He. }
  split; [done|]. split; [apply Hserve|]. split; [apply Hserve|]. clear Hserve Hok. destruct Hop as [[[adb Hop] Hlt]|[-> Hno]].
  2: { split; [done|]. by intros rows ->. }
  pose proof (retry_loop_keeps oor (db_QueryContext c query args) (ctx_wait c)
    (fun w0 => table_rows w0 = table_rows w) Q "query" (adb_retryPolicy adb)
    (attempts (rp_MaxRetries (adb_retryPolicy adb))) (rp_InitialBackoff (adb_retryPolicy adb)) None w1) as Hk.
  unfold AdvancedDB_retryQuery in Hop. rewrite <- Hop in Hk. destruct Hk as [Hk Hok].
  - intros w0 Hw0. specialize (Hq c w0 Hw0). destruct (db_QueryContext c query args w0) as [w0' r0]. cbn.
    destruct Hq as [-> Hq]. by split.
  - intros d w0 Hw0. by rewrite law_table_wait.
  - done.
  - split; [done|]. intros rows Hrows. split; [by apply Hok|done].
Qed.

(** [QueryRow] and the scan: not behind the gate. *)
Lemma query_scan_selects {T} env ctx query args (scan : Row -> W -> W * result error T) rt w left now nows (Q : T -> Prop) (P : Prop) :
  ready rt left -> serving (now :: nows) rt left ->
  (forall c w1, table_rows w1 = table_rows w -> let '(w2, row) := db_QueryRowContext c query args w1 in
     table_rows w2 = table_rows w1 /\
     forall w3, let '(w4, r) := scan row w3 in table_rows w4 = table_rows w3 /\
       (forall v, r = Ok v -> Q v) /\ (P -> is_Ok r = true)) ->
  exists rt' w' r, query_scan env ctx query args scan rt w = Some (Ret (rt', w', r)) /\
    ready rt' left /\ serving nows rt' left /\ table_rows w' = table_rows w /\
    (forall v, r = Ok v -> Q v) /\ (P -> is_Ok r = true).
Proof.
  intros Hr Hserving%serving_skip Hq. unfold query_scan, DBRuntime_QueryRow. rewrite (ready_connected _ _ Hr). cbn [negb].
  destruct Hr as [Hc [adb Ha] Hd Hb <- Ht]. unfold with_db. rewrite Ha. unfold AdvancedDB_QueryRow.
  destruct (ctx_WithTimeout _ ctx w) as [w1 c] eqn:Hw1.
  pose proof (law_table_WithTimeout (adb_queryTimeout (adb{{adb_gate := rt_gate rt}})) ctx w) as Hv.
  rewrite Hw1 in Hv. cbn in Hv.
  specialize (Hq c w1 Hv). destruct (db_QueryRowContext c query args w1) as [w2 row]. destruct Hq as [Hw2 Hs].
  specialize (Hs (ctx_cancel c w2)). destruct (scan row (ctx_cancel c w2)) as [w4 r]. destruct Hs as [Hw4 Hs].
  eexists _, w4, r. split; [reflexivity|]. split; [by destruct rt, adb|]. split.
  { destruct Hserving as [H|[H|[Hserve Hrp]]]; [by left|right; by left|]. right. right.
    specialize (Hrp adb Ha). destruct rt, adb. split; [exact Hserve|]. cbn in *. by intros adb' [= <-]. }
  split; [|done].
  by rewrite Hw4, law_table_cancel, Hw2.
Qed.

(** *** The operations *)
Definition blobs (w : W) : gmap string blob := row_blob <$> table_rows w.

Definition answer_as {T} (a : T -> blob_answer) (o : option (outcome (DBRuntime DB C * W * T)))
    : option (outcome (DBRuntime DB C * W * blob_answer)) :=
  match o with
  | None => None
  | Some (Panic m) => Some (Panic m)
  | Some (Ret (rt, w, r)) => Some (Ret (rt, w, a r))
  end.

(** A call of the store; [fuel]: for the rows of a listing. *)
Definition store_call (fuel : nat) (env : db_env) (ctx : Ctx) (call : blob_call) (dbs : DatabaseBlobStorage)
    (rt : DBRuntime DB C) (w : W) : option (outcome (DBRuntime DB C * W * blob_answer)) :=
  match call with
  | Store now key data metadata =>
      answer_as Written (DatabaseBlobStorage_Store oor tag_order env now ctx key data metadata dbs rt w)
  | Retrieve key => answer_as Retrieved (DatabaseBlobStorage_Retrieve env ctx key dbs rt w)
  | Delete key => answer_as Written (DatabaseBlobStorage_Delete oor env ctx key dbs rt w)
  | Exists key => answer_as Existed (DatabaseBlobStorage_Exists env ctx key dbs rt w)
  | List prefix => answer_as Listed (DatabaseBlobStorage_List oor fuel env ctx prefix dbs rt w)
  | Stats => answer_as Counted (DatabaseBlobStorage_Stats env ctx dbs rt w)
  end.

(** One call after another; it stops at one that panics or never returns. *)
Fixpoint store_session (fuel : nat) (calls : list (db_env * Ctx * blob_call)) (dbs : DatabaseBlobStorage)
    (rt : DBRuntime DB C) (w : W) : option (outcome (DBRuntime DB C * W * list blob_answer)) :=
  match calls with
  | [] => Some (Ret (rt, w, []))
  | (env, ctx, call) :: calls =>
      match store_call fuel env ctx call dbs rt w with
      | None => None
      | Some (Panic m) => Some (Panic m)
      | Some (Ret (rt, w, a)) =>
          match store_session fuel calls dbs rt w with
          | Some (Ret (rt, w, answers)) => Some (Ret (rt, w, a :: answers))
          | other => other
          end
      end
  end.

(** The tags of a blob come back when no key or value has a comma, no key a colon, and
    none starts or ends with a quote. *)
Definition clean (call : blob_call) : Prop :=
  match call with Store _ _ _ metadata => Forall tag_ok (tag_order (bm_Tags metadata)) | _ => True end.

(** A statement behind Exec makes its change to the map. *)
Lemma write_refines env ctx query args call f g maxSize rt w left nows :
  ready rt left -> serving (at_rate (e_gate env) :: nows) rt left -> is_write call = true -> change maxSize call = Some g ->
  (forall m, f (f m) = f m) -> (forall m, row_blob <$> f m = g (row_blob <$> m)) ->
  (forall c w, let '(w', r) := db_ExecContext c query args w in makes f (table_rows w) (table_rows w') r) ->
  (faulty = false -> forall c w, is_Ok (db_ExecContext c query args w).2 = true) ->
  exists rt' w' err left',
    answer_as Written (exec_error oor env ctx query args rt w) = Some (Ret (rt', w', Written err)) /\
    ready rt' left' /\ serving nows rt' left' /\
    blob_spec like maxSize faulty (mkBlobMap (blobs w) left) call (Written err) (mkBlobMap (blobs w') left').
Proof.
  intros Hr Hserving Hcall Hchange Hf Hg Hex Hok.
  destruct (DBRuntime_Exec_makes env ctx query args f rt w left nows Hr Hserving Hf Hex Hok)
    as (rt' & w' & r & He & Hr' & Hs' & Hfail & Hw).
  exists rt', w', (result_error r), (if is_Ok r then left - 1 else left).
  split; [unfold answer_as, exec_error; by rewrite He|]. split; [done|]. split; [done|]. unfold blobs.
  destruct Hw as [[-> Hlt]|[-> Hno]].
  - rewrite Hg. destruct r as [v|e]; cbn in Hfail |- *; [by constructor|].
    destruct Hfail as [Hfail|[Hfail|Hfail]]; [done|by constructor|lia].
  - destruct r as [v|e]; [done|]. destruct Hfail as [Hfail|Hfail]; [done|]. by apply spec_write_failed.
Qed.

Lemma Store_refines env ctx now key data metadata dbs rt w left nows :
  ready rt left -> serving (at_rate (e_gate env) :: nows) rt left -> db_tableName dbs = tableName -> clean (Store now key data metadata) ->
  let call := Store now key data metadata in
  exists rt' w' err left',
    answer_as Written (DatabaseBlobStorage_Store oor tag_order env now ctx key data metadata dbs rt w) =
      Some (Ret (rt', w', Written err)) /\
    ready rt' left' /\ serving nows rt' left' /\
    blob_spec like (db_maxSize dbs) faulty (mkBlobMap (blobs w) left) call (Written err) (mkBlobMap (blobs w') left').
Proof.
  intros Hr Hserving Htable Hclean call. unfold DatabaseBlobStorage_Store.
  destruct (Z.ltb_spec (db_maxSize dbs) (len data)) as [Hbig|Hsmall].
  { eexists rt, w, _, left. split; [reflexivity|]. split; [done|]. split; [by eapply serving_skip|].
    apply spec_refused; [done|]. cbn [change call]. apply decide_False. intros [? _]. lia. }
  set (refused := negb (String.eqb (bm_Checksum metadata) "") &&
    negb (String.eqb (bm_Checksum metadata) (md5_hex data))).
  destruct refused eqn:Hsum.
  { eexists rt, w, _, left. split; [reflexivity|]. split; [done|]. split; [by eapply serving_skip|].
    apply spec_refused; [done|]. cbn [change call]. apply decide_False. intros [_ Hsum'].
    apply andb_prop in Hsum as [H1 H2]. apply negb_true_iff in H1, H2. apply String.eqb_neq in H1, H2. tauto. }
  rewrite (ready_type _ _ Hr), Htable.
  pose (created := if Time_IsZero (bm_CreatedAt metadata) then now else bm_CreatedAt metadata).
  apply (write_refines _ _ _ (row_args key (data, bm_ContentType metadata, bm_Filename metadata, len data,
    md5_hex data, tags_JSON (tag_order (bm_Tags metadata)), created, now)) call
    (insert key (data, bm_ContentType metadata, bm_Filename metadata, len data,
      md5_hex data, tags_JSON (tag_order (bm_Tags metadata)), created, now))
    (insert key (stored_blob now data metadata))); try done.
  - cbn [change call]. rewrite decide_True; [done|]. split; [done|].
    apply andb_false_iff in Hsum as [Hs|Hs]; apply negb_false_iff, String.eqb_eq in Hs; auto.
  - intros m. apply insert_insert_eq.
  - intros m. rewrite fmap_insert. unfold row_blob at 1, stored_blob.
    by rewrite (tags_round_trip _ (bm_Tags metadata)) by done.
  - intros c w0. apply law_upsert.
  - intros Hf c w0. by apply (no_upsert_fails _ _ _ (faultless Hf)).
Qed.

Lemma Delete_refines env ctx key maxSize dbs rt w left nows :
  ready rt left -> serving (at_rate (e_gate env) :: nows) rt left -> db_tableName dbs = tableName ->
  exists rt' w' err left',
    answer_as Written (DatabaseBlobStorage_Delete oor env ctx key dbs rt w) = Some (Ret (rt', w', Written err)) /\
    ready rt' left' /\ serving nows rt' left' /\
    blob_spec like maxSize faulty (mkBlobMap (blobs w) left) (Delete key) (Written err) (mkBlobMap (blobs w') left').
Proof.
  intros Hr Hserving Htable. unfold DatabaseBlobStorage_Delete. rewrite Htable.
  apply (write_refines _ _ _ _ (Delete key) (delete key) (delete key)); try done.
  - intros m. apply delete_delete_eq.
  - intros m. apply fmap_delete.
  - intros c w0. apply law_delete.
  - intros Hf c w0. by apply (no_delete_fails _ _ _ (faultless Hf)).
Qed.

(** A read that fails on a database without faults has found nothing. *)
Lemma unbound key (m : gmap string blob_row) {T} (e : error) :
  (faulty = false /\ is_Some (m !! key) -> is_Ok (Err (T := T) e) = true) ->
  faulty = true \/ (row_blob <$> m) !! key = None.
Proof.
  intros H. destruct faulty; [by left|]. right. rewrite lookup_fmap.
  destruct (m !! key) as [row|]; [|done]. by discriminate H.
Qed.

Lemma Retrieve_refines env ctx key maxSize dbs rt w left now nows :
  ready rt left -> serving (now :: nows) rt left -> db_tableName dbs = tableName ->
  exists rt' w' r,
    answer_as Retrieved (DatabaseBlobStorage_Retrieve env ctx key dbs rt w) = Some (Ret (rt', w', Retrieved r)) /\
    ready rt' left /\ serving nows rt' left /\ blobs w' = blobs w /\
    blob_spec like maxSize faulty (mkBlobMap (blobs w) left) (Retrieve key) (Retrieved r) (mkBlobMap (blobs w) left).
Proof.
  intros Hr Hserving Htable. unfold DatabaseBlobStorage_Retrieve. rewrite Htable.
  destruct (query_scan_selects env ctx (select_SQL tableName) [arg_string key] row_ScanBlob rt w left now nows
    (fun row => table_rows w !! key = Some row) (faulty = false /\ is_Some (table_rows w !! key)) Hr Hserving)
    as (rt' & w' & r & -> & Hr' & Hs' & Hw & Hrow & Hok).
  { intros c w1 Hw1. pose proof (law_select c key w1) as Hs.
    destruct (db_QueryRowContext c (select_SQL tableName) [arg_string key] w1) as [w2 row]. destruct Hs as [Hw2 Hs].
    split; [done|]. intros w3. pose proof (law_ScanBlob row w3) as Hscan.
    pose proof (fun Hf => no_blob_fails _ _ _ (faultless Hf) row w3) as Hno. destruct (row_ScanBlob row w3) as [w4 r].
    destruct Hscan as [Hw4 Hscan]. rewrite <- Hw1, <- Hs. split; [done|]. split; [by intros v ->; apply Hscan|].
    intros [Hf Hin]. by apply Hno. }
  destruct r as [[[[[[[[data ct] fn] size] sum] tagsJSON] created] updated]|e].
  - eexists rt', w', _. unfold blobs. rewrite Hw. split_and!; [reflexivity|done..|].
    apply spec_retrieved. cbn [bm_blobs].
    by rewrite lookup_fmap, (Hrow _ eq_refl).
  - eexists rt', w', _. unfold blobs. rewrite Hw. split_and!; [reflexivity|done..|].
    apply spec_not_retrieved. cbn [bm_blobs]. exact (unbound _ _ _ Hok).
Qed.

Lemma Exists_refines env ctx key maxSize dbs rt w left now nows :
  ready rt left -> serving (now :: nows) rt left -> db_tableName dbs = tableName ->
  exists rt' w' r,
    answer_as Existed (DatabaseBlobStorage_Exists env ctx key dbs rt w) = Some (Ret (rt', w', Existed r)) /\
    ready rt' left /\ serving nows rt' left /\ blobs w' = blobs w /\
    blob_spec like maxSize faulty (mkBlobMap (blobs w) left) (Exists key) (Existed r) (mkBlobMap (blobs w) left).
Proof.
  intros Hr Hserving Htable. unfold DatabaseBlobStorage_Exists. rewrite Htable.
  destruct (query_scan_selects env ctx (exists_SQL tableName) [arg_string key] row_ScanInt rt w left now nows
    (fun _ => is_Some (table_rows w !! key)) (faulty = false /\ is_Some (table_rows w !! key)) Hr Hserving)
    as (rt' & w' & r & -> & Hr' & Hs' & Hw & Hrow & Hok).
  { intros c w1 Hw1. pose proof (law_select_one c key w1) as Hs.
    destruct (db_QueryRowContext c (exists_SQL tableName) [arg_string key] w1) as [w2 row]. destruct Hs as [Hw2 Hs].
    split; [done|]. intros w3. pose proof (law_ScanInt row w3) as Hscan.
    pose proof (fun Hf => no_one_fails _ _ _ (faultless Hf) row w3) as Hno. destruct (row_ScanInt row w3) as [w4 r].
    destruct Hscan as [Hw4 Hscan]. rewrite <- Hw1, <- Hs. split; [done|]. split; [by intros v ->; apply Hscan|].
    intros [Hf Hin]. by apply Hno. }
  eexists rt', w', _. unfold blobs. rewrite Hw. split_and!; [reflexivity|done..|].
  destruct r as [v|e]; cbn [is_Ok]; [|apply spec_not_found; cbn [bm_blobs]; exact (unbound _ _ _ Hok)].
  apply spec_exists. cbn [bm_blobs].
  rewrite lookup_fmap. destruct (Hrow v eq_refl) as [row ->]. by eexists.
Qed.

Lemma Stats_refines env ctx maxSize dbs rt w left now nows :
  ready rt left -> serving (now :: nows) rt left -> db_tableName dbs = tableName ->
  exists rt' w' r,
    answer_as Counted (DatabaseBlobStorage_Stats env ctx dbs rt w) = Some (Ret (rt', w', Counted r)) /\
    ready rt' left /\ serving nows rt' left /\ blobs w' = blobs w /\
    blob_spec like maxSize faulty (mkBlobMap (blobs w) left) Stats (Counted r) (mkBlobMap (blobs w) left).
Proof.
  intros Hr Hserving Htable. unfold DatabaseBlobStorage_Stats. rewrite Htable.
  destruct (query_scan_selects env ctx (stats_SQL tableName) [] row_ScanCounts rt w left now nows
    (fun counts => counts = (Z.of_nat (size (table_rows w)),
      map_fold (fun _ row n => row_size row + n) 0 (table_rows w)))
    (faulty = false) Hr Hserving) as (rt' & w' & r & -> & Hr' & Hs' & Hw & Hrow & Hok).
  { intros c w1 Hw1. pose proof (law_count c w1) as Hs.
    destruct (db_QueryRowContext c (stats_SQL tableName) [] w1) as [w2 row]. destruct Hs as [Hw2 Hs].
    split; [done|]. intros w3. pose proof (law_ScanCounts row w3) as Hscan.
    pose proof (fun Hf => no_count_fails _ _ _ (faultless Hf) row w3) as Hno. destruct (row_ScanCounts row w3) as [w4 r].
    destruct Hscan as [Hw4 Hscan]. rewrite <- Hw1, <- Hs. split; [done|]. split; [by intros v ->; rewrite (Hscan v)|].
    exact Hno. }
  destruct r as [[n total]|e].
  - eexists rt', w', _. unfold blobs. rewrite Hw. split_and!; [reflexivity|done..|].
    specialize (Hrow _ eq_refl) as [= -> ->].
    pose proof (spec_counted like maxSize faulty (mkBlobMap (row_blob <$> table_rows w) left)) as Hspec.
    cbn [bm_blobs] in Hspec.
    unfold total_size in Hspec. rewrite map_fold_fmap, map_size_fmap in Hspec.
    exact Hspec.
  - eexists rt', w', _. unfold blobs. rewrite Hw. split_and!; [reflexivity|done..|]. constructor.
    destruct faulty; [done|]. discriminate (Hok eq_refl).
Qed.

(** *** Listings *)
Definition info_of (kr : string * blob_row) : BlobInfo := mkBlobInfo kr.1 (row_blob kr.2).2.

Lemma info_loop_lists fuel rows infos w :
  (length (rows_left rows w) < fuel)%nat ->
  exists w' new, info_loop fuel rows infos w = Some (w', infos ++ new) /\
    table_rows w' = table_rows w /\ new ⊆+ map info_of (rows_left rows w) /\
    (faulty = false -> new = map info_of (rows_left rows w)).
Proof.
  revert infos w. induction fuel as [|fuel IH]; intros infos w Hf; [lia|]. cbn [info_loop].
  pose proof (law_NextInfo rows w) as Hn.
  pose proof (fun Hf => no_row_is_lost _ _ _ (faultless Hf) rows w) as Hno.
  destruct (rows_Next rows w) as [w1 more]. destruct Hn as [Hw1 Hn].
  destruct more.
  2: { exists w1, []. rewrite app_nil_r. split_and!; [done|done|apply submseteq_nil_l|]. intros Hfault.
       destruct (rows_left rows w); [done|]. by destruct (Hno Hfault ltac:(done)). }
  destruct (Hn eq_refl) as (kr & Hl & Hs). rewrite Hl in Hf, Hno |- *. cbn [length map] in Hf |- *.
  specialize (fun Hfault => proj2 (Hno Hfault ltac:(done))) as Hscan. clear Hno.
  destruct (rows_ScanInfo rows w1) as [w2 r]. destruct Hs as (Hw2 & Hl2 & Hs).
  destruct r as [v|e].
  - specialize (Hs v eq_refl). subst v.
    destruct (IH (infos ++ [info_of kr]) w2) as (w' & new & Hloop & Hw' & Hnew & Hall); [rewrite Hl2; lia|].
    exists w', (info_of kr :: new). rewrite <- Hl2.
    split_and!; [|congruence|by constructor|by intros Hfault; rewrite (Hall Hfault)].
    destruct kr as [key [[[[[[[data ct] fn] size] sum] tagsJSON] created] updated]]. cbn [row_info fst snd].
    change (infos ++ info_of (key, (data, ct, fn, size, sum, tagsJSON, created, updated)) :: new)
      with (infos ++ [info_of (key, (data, ct, fn, size, sum, tagsJSON, created, updated))] ++ new).
    rewrite app_assoc. exact Hloop.
  - destruct (IH infos w2) as (w' & new & Hloop & Hw' & Hnew & Hall); [rewrite Hl2; lia|].
    exists w', new. rewrite <- Hl2. split_and!; [done|congruence|by apply submseteq_cons|].
    intros Hfault. discriminate (Hscan Hfault).
Qed.

Lemma filter_map_kv {A B} (p : string * B -> bool) (f : A -> B) (l : list (string * A)) :
  List.filter p (prod_map id f <$> l) = prod_map id f <$> List.filter (fun ka => p (ka.1, f ka.2)) l.
Proof. induction l as [|[k a] l IH]; [done|]. cbn. by destruct (p (k, f a)); cbn; rewrite IH. Qed.

#[local] Instance filter_Permutation {A} (p : A -> bool) : Proper ((≡ₚ) ==> (≡ₚ)) (List.filter p).
Proof.
  intros l l' Hl. induction Hl as [|x l l' _ IH|x y l|l1 l2 l3 _ IH1 _ IH2]; cbn.
  - done.
  - destruct (p x); by rewrite IH.
  - destruct (p x), (p y); done || constructor.
  - by rewrite IH1.
Qed.

Lemma listing_rows prefix (m : gmap string blob_row) :
  map info_of (List.filter (fun kr => String.eqb prefix "" || like (prefix +:+ "%") kr.1) (map_to_list m)) ≡ₚ
  listing like prefix (row_blob <$> m).
Proof.
  unfold listing. rewrite map_to_list_fmap, filter_map_kv. 
  match goal with |- _ ≡ₚ map _ (?f <$> ?l) => change (f <$> l) with (map f l) end.
  by rewrite map_map.
Qed.

Lemma List_refines fuel env ctx prefix maxSize dbs rt w left nows :
  ready rt left -> serving (at_rate (e_gate env) :: nows) rt left -> db_tableName dbs = tableName -> (size (blobs w) < fuel)%nat ->
  exists rt' w' r left',
    answer_as Listed (DatabaseBlobStorage_List oor fuel env ctx prefix dbs rt w) = Some (Ret (rt', w', Listed r)) /\
    ready rt' left' /\ serving nows rt' left' /\ blobs w' = blobs w /\
    blob_spec like maxSize faulty (mkBlobMap (blobs w) left) (List prefix) (Listed r) (mkBlobMap (blobs w) left').
Proof.
  intros Hr Hserving Htable Hfuel. unfold DatabaseBlobStorage_List. rewrite Htable, (ready_type _ _ Hr).
  change (if String.eqb prefix "" then [] else [arg_string (prefix +:+ "%")]) with (list_args (Arg := Arg) prefix).
  destruct (DBRuntime_Query_selects env ctx (list_SQL dbType tableName prefix) (list_args prefix) rt w left nows
    (fun w2 rows => rows_left rows w2 ≡ₚ
      List.filter (fun kr => String.eqb prefix "" || like (prefix +:+ "%") kr.1) (map_to_list (table_rows w))) Hr Hserving)
    as (rt' & w2 & c & r & -> & Hr' & Hs' & Hfail & Hw2 & Hrows).
  { intros Hf c w1. apply (no_list_fails _ _ _ (faultless Hf)). }
  { intros c w1 Hw1. pose proof (law_list c prefix w1) as Hl. rewrite Hw1 in Hl. rewrite Hw1. exact Hl. }
  assert (Hblobs : forall w', table_rows w' = table_rows w2 -> blobs w' = blobs w)
    by (intros w' Hw'; unfold blobs; by rewrite Hw', Hw2).
  destruct r as [rows|e].
  2: { eexists rt', _, _, left. split_and!; [reflexivity|done|done|apply Hblobs, law_table_cancel|].
       apply spec_not_listed. by destruct Hfail. }
  destruct (Hrows rows eq_refl) as [Hleft Hlt]. rewrite <- (law_rows_cancel rows c) in Hleft.
  destruct (info_loop_lists fuel rows [] (ctx_cancel c w2)) as (w3 & infos & -> & Hw3 & Hinfos & Hall).
  { rewrite Hleft. unfold blobs in Hfuel. rewrite map_size_fmap, <- length_map_to_list in Hfuel.
    pose proof (List.filter_length_le (fun kr => String.eqb prefix "" || like (prefix +:+ "%") kr.1)
      (map_to_list (table_rows w))). lia. }
  eexists rt', _, _, (left - 1). split_and!; [reflexivity|done|done| |].
  - apply Hblobs. by rewrite law_table_Close, Hw3, law_table_cancel.
  - constructor; [| |done]; cbn [app].
    + rewrite Hinfos, (Permutation_map _ Hleft), listing_rows. done.
    + intros Hfault. by rewrite (Hall Hfault), (Permutation_map _ Hleft), listing_rows.
Qed.

Lemma store_call_refines fuel env ctx call dbs rt w left nows :
  ready rt left -> serving (at_rate (e_gate env) :: nows) rt left -> db_tableName dbs = tableName -> clean call -> (size (blobs w) < fuel)%nat ->
  exists rt' w' a left',
    store_call fuel env ctx call dbs rt w = Some (Ret (rt', w', a)) /\
    ready rt' left' /\ serving nows rt' left' /\
    blob_spec like (db_maxSize dbs) faulty (mkBlobMap (blobs w) left) call a (mkBlobMap (blobs w') left').
Proof.
  intros Hr Hserving Htable Hclean Hfuel.
  destruct call as [now key data metadata|key|key|key|prefix|]; cbn [store_call].
  - destruct (Store_refines env ctx now key data metadata dbs rt w left nows) as (rt' & w' & err & left' & H); [done..|].
    by exists rt', w', (Written err), left'.
  - destruct (Retrieve_refines env ctx key (db_maxSize dbs) dbs rt w left (at_rate (e_gate env)) nows)
      as (rt' & w' & r & ? & ? & ? & Hw & ?); [done..|].
    exists rt', w', (Retrieved r), left. by rewrite Hw.
  - destruct (Delete_refines env ctx key (db_maxSize dbs) dbs rt w left nows) as (rt' & w' & err & left' & H); [done..|].
    by exists rt', w', (Written err), left'.
  - destruct (Exists_refines env ctx key (db_maxSize dbs) dbs rt w left (at_rate (e_gate env)) nows)
      as (rt' & w' & r & ? & ? & ? & Hw & ?); [done..|].
    exists rt', w', (Existed r), left. by rewrite Hw.
  - destruct (List_refines fuel env ctx prefix (db_maxSize dbs) dbs rt w left nows)
      as (rt' & w' & r & left' & ? & ? & ? & Hw & ?); [done..|].
    exists rt', w', (Listed r), left'. by rewrite Hw.
  - destruct (Stats_refines env ctx (db_maxSize dbs) dbs rt w left (at_rate (e_gate env)) nows)
      as (rt' & w' & r & ? & ? & ? & Hw & ?); [done..|].
    exists rt', w', (Counted r), left. by rewrite Hw.
Qed.

(** The readings of the clock that the rate limiter makes, one a call at most. *)
Definition readings (calls : list (db_env * Ctx * blob_call)) : list Z :=
  map (fun call => at_rate (e_gate call.1.1)) calls.

(** C19: The store is a map with a limited number of writes. Over any database whose
    statements do what SQL says, and on a connected runtime whose gate drops what is over
    its limit, every sequence of calls whose tags are clean (no comma in a key or value,
    no colon in a key, none beginning or ending with a quote) returns, without panic, the
    answers of the map specification ([blob_spec]), and no more writes and listings succeed
    than the gate has slots left. When no statement fails, the cancelled contexts close no
    rows, the circuit is closed and the bucket holds a token a call, that is the map: as
    long as slots are left every acceptable write is made, what was stored is retrieved
    with its data, size, checksum, tags and times, and listings are complete. Otherwise
    ([faulty]) a call may fail, and a write that reports an error was made or not. *)
Theorem DatabaseBlobStorage_refines_map fuel calls dbs rt w left :
  ready rt left -> db_tableName dbs = tableName -> Forall (fun c => clean c.2) calls ->
  (size (blobs w) + length calls < fuel)%nat ->
  (faulty = false -> serves (readings calls) rt) ->
  exists rt' w' answers left',
    store_session fuel calls dbs rt w = Some (Ret (rt', w', answers)) /\
    blob_specs like (db_maxSize dbs) faulty (mkBlobMap (blobs w) left) (map snd calls) answers
      (mkBlobMap (blobs w') left') /\
    left' = left - Z.of_nat (length (List.filter takes_slot answers)) /\ 0 <= left'.
Proof.
  intros Hr Htable Hclean Hfuel Hserves.
  assert (Hserving : serving (readings calls) rt left)
    by (unfold serving; destruct faulty; [by left|right; right; by apply Hserves]). clear Hserves.
  enough (exists rt' w' answers left', store_session fuel calls dbs rt w = Some (Ret (rt', w', answers)) /\
    blob_specs like (db_maxSize dbs) faulty (mkBlobMap (blobs w) left) (map snd calls) answers
      (mkBlobMap (blobs w') left') /\
    ready rt' left') as (rt' & w' & answers & left' & Hrun & Hspec & Hr').
  { exists rt', w', answers, left'. split_and!; [done..| |by eapply ready_nonneg]. by apply blob_specs_slots in Hspec. }
  revert rt w left Hr Hserving Hfuel.
  induction Hclean as [|[[env ctx] call] calls Hcall _ IH]; intros rt w left Hr Hserving Hfuel.
  { exists rt, w, [], left. by split_and!; [|constructor|]. }
  cbn [store_session length map snd readings] in *.
  destruct (store_call_refines fuel env ctx call dbs rt w left (readings calls))
    as (rt1 & w1 & a & left1 & -> & Hr1 & Hserving1 & Hs1); [done..|lia|].
  pose proof (blob_spec_size _ _ _ _ _ _ _ Hs1) as Hsize. cbn in Hsize.
  destruct (IH rt1 w1 left1 Hr1 Hserving1) as (rt2 & w2 & answers & left2 & -> & Hs2 & Hr2); [lia|].
  exists rt2, w2, (a :: answers), left2. by split_and!; [|econstructor|].
Qed.
End Refinement.

(** ** A database with a table *)
Module Table.

(** LIKE: [%] stands for any text and [_] for any character. *)
Fixpoint like (pattern key : string) : bool :=
  match pattern with
  | EmptyString => String.eqb key ""
  | String c pattern =>
      if Ascii.eqb c "%"%char then
        (fix anywhere (key : string) : bool :=
           like pattern key || match key with String _ key => anywhere key | EmptyString => false end) key
      else
        match key with
        | String d key => (Ascii.eqb c "_"%char || Ascii.eqb c d) && like pattern key
        | EmptyString => false
        end
  end.

Inductive arg : Type :=
  | Text (s : string)
  | Int (z : Z).

(** The table, and the rows of the listing being read with the current one first. *)
Record world : Type := mkWorld {
  tw_rows : gmap string blob_row;
  tw_current : option (string * blob_row);
  tw_listing : list (string * blob_row);
}.

Definition tableName : string := "blobs".

Definition not_known : error := External 1 "no such statement".
Definition no_rows : error := External 14 "sql: no rows in result set".

Definition exec (query : string) (args : list arg) (w : world) : world * result error unit :=
  if String.eqb query (upsert_SQL DatabaseTypeSQLite tableName) then
    match args with
    | [Text key; Text data; Text ct; Text fn; Int size; Text sum; Text tagsJSON; Int created; Int updated] =>
        (w{{tw_rows := <[key := (data, ct, fn, size, sum, tagsJSON, created, updated)]> (tw_rows w)}}, Ok tt)
    | _ => (w, Err not_known)
    end
  else if String.eqb query (delete_SQL tableName) then
    match args with
    | [Text key] => (w{{tw_rows := delete key (tw_rows w)}}, Ok tt)
    | _ => (w, Err not_known)
    end
  else (w, Err not_known).

Definition select (args : list arg) (w : world) : list (string * blob_row) :=
  match args with
  | [Text pattern] => List.filter (fun kr => like pattern kr.1) (map_to_list (tw_rows w))
  | _ => map_to_list (tw_rows w)
  end.

Definition row : Type := option blob_row * (Z * Z).

Definition select_row (args : list arg) (w : world) : row :=
  (match args with [Text key] => tw_rows w !! key | _ => None end,
   (Z.of_nat (size (tw_rows w)), map_fold (fun _ row n => row_size row + n) 0 (tw_rows w))).

#[export] Instance table_db : SqlDB world unit arg unit unit row unit := {
  ctx_WithTimeout _ _ w := (w, tt);
  ctx_cancel _ w := w;
  ctx_Err _ _ := None;
  ctx_wait _ _ w := (w, None);
  db_ExecContext _ := exec;
  db_QueryContext _ _ args w := (w{{tw_listing := select args w}}, Ok tt);
  db_QueryRowContext _ _ args w := (w, select_row args w);
  db_PrepareContext _ _ w := (w, Err not_known);
  db_BeginTx _ w := (w, Err not_known);
  db_PingContext _ w := (w, None);
  db_Stats _ := DBStats_zero;
  stmt_Close _ w := w;
  tx_ctx _ := tt;
  tx_ExecContext _ _ _ _ w := (w, Err not_known);
  tx_QueryContext _ _ _ _ w := (w, Err not_known);
  tx_Commit _ w := (w, None);
  tx_Rollback _ w := (w, None);
}.

#[export] Instance table_pool : SqlPool world unit unit unit := {
  sql_Open _ _ w := (w, Ok tt);
  pool_configure _ _ _ _ _ w := w;
  pool_PingContext _ _ w := (w, None);
  pool_Close _ w := (w, None);
  pool_Conn _ _ w := (w, Ok tt);
  conn_Close _ w := w;
  conn_ScanOne _ _ _ w := (w, None);
  ctx_Background := tt;
  pool_WithTimeout _ _ w := (w, tt);
  pool_cancel _ w := w;
  time_Sleep _ w := w;
}.

#[export] Instance table_cursor : SqlRows world unit := {
  rows_Columns _ _ := Ok [];
  rows_Next _ w :=
    match tw_listing w with
    | [] => (w, false)
    | kr :: rest => (w{{tw_current := Some kr; tw_listing := rest}}, true)
    end;
  rows_Scan _ w := (w, Err not_known);
  rows_Err _ _ := None;
  rows_Close _ w := w;
}.

#[export] Instance table_blob : BlobSql world arg row unit := {
  arg_string := Text;
  arg_bytes := Text;
  arg_int := Int;
  arg_time := Int;
  row_ScanBlob row w := (w, match row.1 with Some r => Ok r | None => Err no_rows end);
  row_ScanInt row w := (w, match row.1 with Some _ => Ok 1 | None => Err no_rows end);
  row_ScanCounts row w := (w, Ok row.2);
  rows_ScanInfo _ w := (w, match tw_current w with Some kr => Ok (row_info kr) | None => Err not_known end);
}.

#[refine, export] Instance table_lawful : LawfulBlobTable DatabaseTypeSQLite tableName like := {
  table_rows := tw_rows;
  rows_left _ := tw_listing;
  row_selected := fst;
  row_counted := snd;
}.
Proof.
  all: try done.
  - intros c key [[[[[[[data ct] fn] size] sum] tagsJSON] created] updated] w. left. by destruct w.
  - intros c key w. left. by destruct w.
  - intros c prefix w. destruct w as [rows cur l]. split; [done|]. intros rs _. cbn [db_QueryContext table_db].
    unfold list_args. destruct (String.eqb prefix "") eqn:Hp; [|done].
    cbn. by rewrite List.filter_true.
  - intros [[r|] counts] w; (split; [done|]); [by intros v [= <-]|done].
  - intros [[r|] counts] w; (split; [done|]); [by eexists|done].
  - intros [r counts] w. split; [done|]. by intros v [= <-].
  - intros rs [rows cur [|kr rest]]; (split; [done|]); [done|]. intros _. exists kr. split; [done|].
    split_and!; [done..|]. by intros v [= <-].
Defined.
End Table.

(** ** The hypotheses can hold *)
Section Witnesses.
Import Table CellRuntime.

Definition table_config : RuntimeConfig :=
  (DefaultConfig (fun _ => 0) (fun _ => "")){{rc_DatabaseType := DatabaseTypeSQLite;
     rc_MaxConcurrentConnections := 5}}.

Definition table_start : world := mkWorld ∅ None [].

Definition table_runtime : DBRuntime unit (InMemoryCache cached_value) * world :=
  (DBRuntime_Connect (NewDBRuntime NewInMemoryCache 0 (Some table_config)) table_start).1.

Definition table_store : DatabaseBlobStorage := mkDatabaseBlobStorage tableName 100.

Definition tagged : BlobMetadata := BlobMetadata_zero{{bm_Tags := {["team" := "a:b"]}; bm_ContentType := "text/plain"}}.

Definition at_time (t : Z) (call : blob_call) : db_env * unit * blob_call := (env t, tt, call).

Definition table_calls : list (db_env * unit * blob_call) :=
  [at_time 1 (Store 6 "a_b" "abc" tagged); at_time 2 (Store 7 "axb" "" BlobMetadata_zero);
   at_time 3 (Retrieve "a_b"); at_time 4 (List "a_"); at_time 5 (Delete "axb");
   at_time 6 (Exists "axb"); at_time 7 Stats; at_time 8 (Store 9 "k" "d" BlobMetadata_zero);
   at_time 9 (Delete "k")].

Lemma table_faultless : faultless_table DatabaseTypeSQLite tableName like.
Proof.
  split; try done.
  - by intros c key [[[[[[[data ct] fn] size] sum] tagsJSON] created] updated] w.
  - intros [[r|] counts] w [? Hr]; [done|discriminate Hr].
  - intros [[r|] counts] w [? Hr]; [done|discriminate Hr].
  - intros rs [rows cur [|kr rest]] Hl; [by destruct Hl|done].
Qed.

Lemma table_serves : serves (readings table_calls) table_runtime.1.
Proof.
  split; [split; [reflexivity|]|].
  - split; [vm_compute; by split|vm_compute; discriminate|vm_compute; by split| |].
    + vm_compute. repeat constructor; discriminate.
    + repeat constructor; vm_compute; discriminate.
  - intros adb Ha. vm_compute in Ha. injection Ha as <-. vm_compute. discriminate.
Qed.

Lemma DatabaseBlobStorage_refines_map_witness :
  exists rt' w' answers s',
    store_session (fun _ => 0) map_to_list 12 table_calls table_store table_runtime.1 table_runtime.2 =
      Some (Ret (rt', w', answers)) /\
    blob_specs like 100 false (mkBlobMap ∅ 5) (map snd table_calls) answers s' /\
    bm_slots_left s' = 5 - Z.of_nat (length (List.filter takes_slot answers)) /\ 0 <= bm_slots_left s'.
Proof.
  destruct (DatabaseBlobStorage_refines_map (fun _ => 0) map_to_list (fun _ => reflexivity _) (like := like)
    false (fun _ => table_faultless)
    12 table_calls table_store table_runtime.1 table_runtime.2 5) as (rt' & w' & answers & left' & Hrun & Hspec & Hleft).
  - constructor; try (vm_compute; reflexivity).
    + vm_compute. eexists. reflexivity.
    + vm_compute. repeat split; try discriminate.
  - reflexivity.
  - assert (Htagged : clean map_to_list (Store 6 "a_b" "abc" tagged)).
    { unfold clean. replace (bm_Tags tagged) with ({["team" := "a:b"]} : gmap string string) by reflexivity.
      rewrite map_to_list_singleton. constructor; [|constructor].
      split_and!; try reflexivity. intros s [->| ->]; split; reflexivity. }
    assert (Hplain : forall now key data, clean map_to_list (Store now key data BlobMetadata_zero))
      by (intros; unfold clean; cbn [bm_Tags BlobMetadata_zero]; rewrite map_to_list_empty; constructor).
    apply Forall_cons_2; [exact Htagged|]. apply Forall_cons_2; [apply Hplain|].
    do 5 (apply Forall_cons_2; [exact I|]). apply Forall_cons_2; [apply Hplain|].
    apply Forall_cons_2; [exact I|constructor].
  - vm_compute. repeat constructor.
  - intros _. exact table_serves.
  - exists rt', w', answers, (mkBlobMap (blobs w') left').
    split; [exact Hrun|]. split; [exact Hspec|exact Hleft].
Defined.

(** The same calls, with their answers: the underscore of the prefix stands for any
    character, and after five writes and listings the store only reads. *)
Example table_answers :
  match store_session (fun _ => 0) map_to_list 12 table_calls table_store table_runtime.1 table_runtime.2 with
  | Some (Ret (_, w, answers)) =>
      map (fun kr => kr.1) (map_to_list (tw_rows w)) = ["k"; "a_b"] /\
      answers =
        [Written None; Written None;
         Retrieved (Ok (mkBlobData "a_b" "abc"
           (mkBlobMetadata "text/plain" "" 3 (md5_hex "abc") {["team" := "a:b"]} 6 6)));
         Listed (Ok [mkBlobInfo "a_b" (mkBlobMetadata "text/plain" "" 3 (md5_hex "abc") {["team" := "a:b"]} 6 6);
                     mkBlobInfo "axb" (mkBlobMetadata "" "" 0 (md5_hex "") ∅ 7 7)]);
         Written None; Existed (Ok false); Counted (Ok (mkBlobStats 1 3 3)); Written None;
         Written (Some ErrConnectionLimit)]
  | _ => False
  end.
Proof. vm_compute. split; reflexivity. Qed.
End Witnesses.
