(* ===== verification/BlobOnly.v ===== *)
(** * The blob tool (cmd/blobonly/main.go)

    Its own file-system store, whose metadata files are JSON, and its commands. Keys are
    cleaned before they are joined to the root, so that a rooted key stays below it. The
    records are those of [Blob]: the tool declares the same ones. *)
From Stdlib Require Import Ascii.
From stdpp Require Import sorting.
From S2P Require Import Prelude.
From S2P Require Import Errors.
From S2P Require Import GoStrings.
From S2P Require Import JsonString.
From S2P Require Import Json.
From S2P Require Import JsonText.
From S2P Require Import GoDecimal.
From S2P Require Import JsonValue.
From S2P Require Import Rfc3339.
From S2P Require Import FileSystem.
From S2P Require Import Md5.
From S2P Require Import Blob.
From S2P Require Import BlobFs.
Local Open Scope string_scope.
Local Open Scope list_scope.
Local Open Scope Z_scope.

Module BlobOnly.

(** [filepath.Clean] of a relative path: the dot-dots that lead out of it stay. *)
Fixpoint clean_relative (out cs : path) : path :=
  match cs with
  | [] => reverse out
  | c :: cs =>
      if String.eqb c "" || String.eqb c "." then clean_relative out cs
      else if String.eqb c ".." then
        match out with
        | d :: out' => if String.eqb d ".." then clean_relative (c :: out) cs else clean_relative out' cs
        | [] => clean_relative [c] cs
        end
      else clean_relative (c :: out) cs
  end.

(** [filepath.Join(root, filepath.Clean(key))] *)
Definition key_path (root : path) (key : string) : path :=
  Clean (reverse root)
    (if HasPrefix key "/" then Clean [] (Split slash key) else clean_relative [] (Split slash key)).

Section BlobOnly.
(** The time zone of the machine: seconds east of Greenwich at an instant. *)
Variable zone : Z -> Z.

Definition NewFilesystemBlobStorage (cwd : path) (root : string) (maxSize : Z) (fs : files)
    : files * result error FilesystemBlobStorage :=
  if String.eqb root "" then (fs, Err (Errorf "-root is required"))
  else
    let maxSize := if maxSize <=? 0 then 100 * 1024 * 1024 else maxSize in
    let root := if HasPrefix root "/" then Join [] root else Join cwd root in
    let '(fs, err) := MkdirAll root fs in
    match err with
    | Some e => (fs, Err (Wrapf "create root: " e ""))
    | None => (fs, Ok (mkFilesystemBlobStorage root maxSize))
    end.

(** ** The metadata file *)

(** A map is written in the order of its keys. *)
Definition key_le (x y : string * string) : Prop :=
  match String.compare x.1 y.1 with Gt => False | _ => True end.

#[export] Instance key_le_dec : RelDecision key_le.
Proof. intros x y. unfold key_le, Decision. destruct (String.compare x.1 y.1); [left|left|right]; auto. Defined.

Definition sorted_tags (tags : gmap string string) : list (string * string) :=
  merge_sort key_le (map_to_list tags).

Definition json_time (t : Z) : option json :=
  match time_text (zone t) t with Some s => Some (JStr s) | None => None end.

(** The fields by their tags, the omitted ones left out; [None]: a time that has no
    text. *)
Definition metadata_fields (m : BlobMetadata) : option (list (string * option json)) :=
  match json_time (bm_CreatedAt m), json_time (bm_UpdatedAt m) with
  | Some created, Some updated =>
      Some [("content_type", Some (JStr (bm_ContentType m)));
            ("filename", opt_string (bm_Filename m));
            ("size", Some (JNum (pretty (bm_Size m))));
            ("checksum", Some (JStr (bm_Checksum m)));
            ("tags", match sorted_tags (bm_Tags m) with
                     | [] => None
                     | tags => Some (JObj (map (fun kv => (kv.1, JStr kv.2)) tags))
                     end);
            ("created_at", Some created);
            ("updated_at", Some updated)]
  | _, _ => None
  end.

(** [json.MarshalIndent(meta, "", "  ")] *)
Definition metadata_text (m : BlobMetadata) : result error string :=
  match metadata_fields m with
  | Some fs => Ok (print (indented "  ") 0 (JObj (present fs)))
  | None => Err (External 9 "Time.MarshalJSON: year outside of range [0,9999]")
  end.

Definition metadata_names : list string :=
  ["content_type"; "filename"; "size"; "checksum"; "tags"; "created_at"; "updated_at"].

(** [Time.UnmarshalJSON], on the value's text. *)
Definition decode_time {T} (set : Z -> T) (t : T) (v : json) (text : string) : field_result T :=
  match v with
  | JNull => (t, None)
  | JStr _ =>
      match parse_time (String.substring 1 (String.length text - 2) text) with
      | Some x => (set x, None)
      | None => (t, Some (true, External 9 "parsing time"))
      end
  | _ => (t, Some (true, External 9 "Time.UnmarshalJSON: input is not a JSON string"))
  end.

Definition metadata_field (name : string) (v : json) (text : string) (m : BlobMetadata)
    : field_result BlobMetadata :=
  if String.eqb name "content_type" then
    set_field (fun x => m{{bm_ContentType := x}}) (decode_string (bm_ContentType m) v)
  else if String.eqb name "filename" then
    set_field (fun x => m{{bm_Filename := x}}) (decode_string (bm_Filename m) v)
  else if String.eqb name "size" then
    set_field (fun x => m{{bm_Size := x}}) (decode_int (bm_Size m) v)
  else if String.eqb name "checksum" then
    set_field (fun x => m{{bm_Checksum := x}}) (decode_string (bm_Checksum m) v)
  else if String.eqb name "tags" then
    set_field (fun x => m{{bm_Tags := x}}) (decode_map (bm_Tags m) v)
  else if String.eqb name "created_at" then
    decode_time (fun x => m{{bm_CreatedAt := x}}) m v text
  else decode_time (fun x => m{{bm_UpdatedAt := x}}) m v text.

(** ** The store *)
Definition Store (key data : string) (meta : BlobMetadata) (times : store_times)
    (fbs : FilesystemBlobStorage) (fs : files) : files * option error :=
  if fb_maxSize fbs <? len data then
    (fs, Some (Errorf ("blob size " +:+ pretty (len data) +:+ " exceeds maximum " +:+
                       pretty (fb_maxSize fbs))))
  else
    let filePath := key_path (fb_rootPath fbs) key in
    let '(fs, err) := MkdirAll (Dir_of filePath) fs in
    match err with
    | Some e => (fs, Some (Wrapf "mkdir: " e ""))
    | None =>
        let '(fs, err) := WriteFile (t_data times) filePath data fs in
        match err with
        | Some e => (fs, Some (Wrapf "write blob: " e ""))
        | None =>
            let meta := mkBlobMetadata (bm_ContentType meta) (bm_Filename meta) (len data) (md5_hex data)
              (bm_Tags meta)
              (if Time_IsZero (bm_CreatedAt meta) then t_created times else bm_CreatedAt meta)
              (t_updated times) in
            match metadata_text meta with
            | Err e => (fs, Some (Wrapf "marshal metadata: " e ""))
            | Ok buf => WriteFile (t_meta times) (path_append filePath ".meta") buf fs
            end
        end
    end.

(** A metadata file that cannot be decoded to its end has set the fields before. *)
Definition Retrieve (key : string) (t_updated t_created : Z) (fbs : FilesystemBlobStorage) (fs : files)
    : result error BlobData :=
  let filePath := key_path (fb_rootPath fbs) key in
  match ReadFile filePath fs with
  | Err e => Err (Wrapf "blob not found: " e "")
  | Ok data =>
      let meta := mkBlobMetadata "" "" (len data) (md5_hex data) ∅ t_created t_updated in
      let meta :=
        match ReadFile (path_append filePath ".meta") fs with
        | Ok b => (Unmarshal metadata_names metadata_field b meta).1
        | Err _ => meta
        end in
      Ok (mkBlobData key data meta)
  end.

Definition Delete (key : string) (fbs : FilesystemBlobStorage) (fs : files) : files * option error :=
  let filePath := key_path (fb_rootPath fbs) key in
  let '(fs, _) := Remove (path_append filePath ".meta") fs in
  Remove filePath fs.

Definition Exists (key : string) (fbs : FilesystemBlobStorage) (fs : files) : bool :=
  Stat (key_path (fb_rootPath fbs) key) fs.

Definition BlobList (prefix : string) (fbs : FilesystemBlobStorage) (fs : files) : list BlobInfo :=
  omap (fun x =>
    '(rel, data, modTime) ← walk_visits (fb_rootPath fbs) x;
    if String.eqb prefix "" || HasPrefix (path_text rel) prefix then
      Some (mkBlobInfo (path_text rel) (mkBlobMetadata "" "" (len data) "" ∅ modTime modTime))
    else None) (Walk (fb_rootPath fbs) fs).

Definition Stats (fbs : FilesystemBlobStorage) (fs : files) : BlobStats :=
  let '(totalBlobs, totalSize) :=
    foldl (fun '(totalBlobs, totalSize) x =>
      match walk_visits (fb_rootPath fbs) x with
      | None => (totalBlobs, totalSize)
      | Some (_, data, _) => (wrap64 (totalBlobs + 1), wrap64 (totalSize + len data))
      end) (0, 0) (Walk (fb_rootPath fbs) fs) in
  mkBlobStats totalBlobs totalSize totalSize.

(** ** The commands *)

(** What a run leaves: the files, the exit status, standard output and standard error. *)
Record run : Type := mkRun {
  run_files : files;
  run_status : Z;
  run_stdout : string;
  run_stderr : string;
}.

Definition eol : string := String "010" "".

Definition usage : string :=
  "Usage: blobonly -root <dir> <command> [options]" +:+ eol +:+
  "Commands: put|get|del|list|stat" +:+ eol.

(** [os.Exit(2)] after a usage, [os.Exit(1)] after an error. *)
Definition bad_usage (fs : files) (text : string) : run := mkRun fs 2 "" text.
Definition failed (fs : files) (pre : string) (err : error) : run :=
  mkRun fs 1 "" (pre +:+ " " +:+ Error_text err +:+ eol).

(** The options of [put]: file, content type, file name. An option at the end without
    its value is ignored. *)
Fixpoint put_options (args : list string) (file ct fn : string) : string * string * string :=
  match args with
  | [] => (file, ct, fn)
  | opt :: args =>
      if String.eqb opt "-f" then
        match args with [] => (file, ct, fn) | x :: args => put_options args x ct fn end
      else if String.eqb opt "-ct" then
        match args with [] => (file, ct, fn) | x :: args => put_options args file x fn end
      else if String.eqb opt "-fn" then
        match args with [] => (file, ct, fn) | x :: args => put_options args file ct x end
      else put_options args file ct fn
  end.

Fixpoint get_options (args : list string) (out : string) : string :=
  match args with
  | [] => out
  | opt :: args =>
      if String.eqb opt "-o" then
        match args with [] => out | x :: args => get_options args x end
      else get_options args out
  end.

(** A file named on the command line. *)
Definition file_path (cwd : path) (name : string) : path :=
  if HasPrefix name "/" then Join [] name else Join cwd name.

(** The outside of a run: working directory, standard input, and the clock. *)
Record outside : Type := mkOutside {
  os_cwd : path;
  os_stdin : result error string;
  os_times : store_times;
  os_out : Z;
}.

(** What [put] stores: the file, or standard input. *)
Definition put_input (env : outside) (file : string) (fs : files) : result error string :=
  if String.eqb file "" then os_stdin env else ReadFile (file_path (os_cwd env) file) fs.

Definition put (env : outside) (store : FilesystemBlobStorage) (args : list string) (fs : files) : run :=
  match args with
  | [] => bad_usage fs ("put <key> [-f file] [-ct type] [-fn filename]" +:+ eol)
  | key :: args =>
      let '(file, ct, fn) := put_options args "" "application/octet-stream" "" in
      match put_input env file fs with
      | Err err => failed fs (if String.eqb file "" then "stdin:" else "read file:") err
      | Ok data =>
          let '(fs, err) := Store key data (mkBlobMetadata ct fn 0 "" ∅ 0 0) (os_times env) store fs in
          match err with
          | Some err => failed fs "store:" err
          | None => mkRun fs 0 ("OK" +:+ eol) ""
          end
      end
  end.

Definition get (env : outside) (store : FilesystemBlobStorage) (args : list string) (fs : files) : run :=
  match args with
  | [] => bad_usage fs ("get <key> [-o output]" +:+ eol)
  | key :: args =>
      let out := get_options args "" in
      match Retrieve key (t_updated (os_times env)) (t_created (os_times env)) store fs with
      | Err err => failed fs "retrieve:" err
      | Ok blob =>
          if String.eqb out "" then mkRun fs 0 (bd_Data blob) ""
          else
            let '(fs, err) := WriteFile (os_out env) (file_path (os_cwd env) out) (bd_Data blob) fs in
            match err with
            | Some err => failed fs "write:" err
            | None => mkRun fs 0 "" ""
            end
      end
  end.

Definition del (store : FilesystemBlobStorage) (args : list string) (fs : files) : run :=
  match args with
  | [] => bad_usage fs ("del <key>" +:+ eol)
  | key :: _ =>
      let '(fs, err) := Delete key store fs in
      match err with
      | Some err => failed fs "delete:" err
      | None => mkRun fs 0 ("OK" +:+ eol) ""
      end
  end.

Definition info_line (info : BlobInfo) : string :=
  bi_Key info +:+ String "009" (pretty (bm_Size (bi_Metadata info))) +:+ " bytes" +:+ eol.

Definition list_command (store : FilesystemBlobStorage) (args : list string) (fs : files) : run :=
  let prefix := match args with x :: _ => x | [] => "" end in
  mkRun fs 0 (flatten info_line (BlobList prefix store fs)) "".

Definition stat_command (store : FilesystemBlobStorage) (fs : files) : run :=
  let stats := Stats store fs in
  mkRun fs 0 ("blobs=" +:+ pretty (bs_TotalBlobs stats) +:+ " size=" +:+
              pretty (bs_TotalSize stats) +:+ " bytes" +:+ eol) "".

(** [main], from the root flag and the arguments the flag package leaves. *)
Definition main (env : outside) (root : string) (args : list string) (fs : files) : run :=
  match args with
  | [] => bad_usage fs usage
  | cmd :: args =>
      if String.eqb root "" then bad_usage fs usage
      else
        let '(fs, r) := NewFilesystemBlobStorage (os_cwd env) root 0 fs in
        match r with
        | Err err => failed fs "error:" err
        | Ok store =>
            if String.eqb cmd "put" then put env store args fs
            else if String.eqb cmd "get" then get env store args fs
            else if String.eqb cmd "del" then del store args fs
            else if String.eqb cmd "list" then list_command store args fs
            else if String.eqb cmd "stat" then stat_command store fs
            else bad_usage fs usage
        end
  end.

End BlobOnly.

(** ** Metadata files *)
Section Metadata.
Context (zone : Z -> Z).
(** Zones are whole minutes from Greenwich. *)
Context (Hzone : forall t, Z.rem (zone t) 60 = 0).

(** Characters that are written as they are. *)
Definition safe (c : ascii) : bool := (code c <? 128) && String.eqb (enc_byte c) (String c "").

Definition safe_text (s : string) : Prop := forallb safe (String.list_ascii_of_string s) = true.

Lemma safe_text_app s t : safe_text s -> safe_text t -> safe_text (s +:+ t).
Proof.
  unfold safe_text. intros Hs Ht. induction s as [|c s IH]; [done|]. rewrite String_app_cons.
  cbn [String.list_ascii_of_string forallb] in *. apply andb_prop in Hs as [-> Hs]. by apply IH.
Qed.

Lemma safe_enc_chars s : safe_text s -> enc_chars s = s.
Proof.
  unfold safe_text, enc_chars. induction s as [|c s IH]; [done|].
  cbn [String.list_ascii_of_string forallb]. intros [[Hc He%String.eqb_eq]%andb_prop Hs]%andb_prop.
  cbn [runes]. rewrite Hc. cbn [flatten enc_rune]. rewrite He, IH by done. done.
Qed.

Lemma safe_digits s : all_digits s -> safe_text s.
Proof.
  unfold all_digits, safe_text. rewrite !forallb_forall. intros Hs c Hc. specialize (Hs c Hc).
  destruct c as [[] [] [] [] [] [] [] []]; first [discriminate Hs | reflexivity].
Qed.

Lemma TrimRight_digits s : all_digits s -> all_digits (TrimRight "0" s).
Proof.
  unfold all_digits. induction s as [|c s IH]; [done|]. cbn [String.list_ascii_of_string forallb TrimRight].
  intros [Hc Hs]%andb_prop. specialize (IH Hs). destruct (TrimRight "0" s) as [|d r].
  - destruct (in_cutset "0" c); [done|]. cbn. by rewrite Hc.
  - cbn [String.list_ascii_of_string forallb] in *. by rewrite Hc, IH.
Qed.

Lemma safe_format_time offset t : safe_text (format_time offset t).
Proof.
  unfold format_time. destruct (date_of_day _) as [[y m] d].
  assert (Hp : forall k n, safe_text (padded k n)) by (intros; apply safe_digits, padded_digits).
  repeat (apply safe_text_app; [first [apply Hp|reflexivity]|]). apply safe_text_app.
  - unfold fraction_text. pose proof (TrimRight_digits _ (padded_digits 9 (t mod Second))) as Hf.
    destruct (TrimRight "0" (padded 9 (t mod Second))) as [|c f]; [reflexivity|].
    change (safe_text ("." +:+ String c f)). by apply safe_text_app, safe_digits.
  - unfold zone_text. destruct (offset =? 0); [reflexivity|].
    assert (Hz : forall c s, safe_text (String c "") -> safe_text s -> safe_text (String c s))
      by (intros c s; apply (safe_text_app (String c ""))).
    apply Hz; [by destruct (Z.quot offset 60 <? 0)|]. apply safe_text_app; [apply Hp|].
    apply safe_text_app; [reflexivity|apply Hp].
Qed.

Lemma quoted_inside s : String.substring 1 (String.length (enc_string s) - 2) (enc_string s) = enc_chars s.
Proof.
  unfold enc_string. cbn [String.length]. rewrite String_length_app.
  replace (S (String.length (enc_chars s) + String.length (String quotation "")) - 2)%nat
    with (String.length (enc_chars s)) by (cbn; lia).
  apply substring_app.
Qed.

Lemma decode_time_text {T} (set : Z -> T) x t j :
  json_time zone t = Some j -> 
  decode_time set x (Json.normal j) (print (indented "  ") 1 j) = (set t, None).
Proof.
  unfold json_time. destruct (time_text (zone t) t) as [s|] eqn:Ht; [|done]. intros [= <-].
  pose proof (parse_time_text (zone t) t s (Hzone t) Ht) as Hp.
  cbn [Json.normal print decode_time]. rewrite quoted_inside, safe_enc_chars, Hp; [done|].
  unfold time_text in Ht. destruct (date_of_day _) as [[y m] d]. destruct (_ && _); [|done].
  injection Ht as <-. apply safe_format_time.
Qed.

(** Text that is UTF-8 in every string. *)
Definition valid_metadata (m : BlobMetadata) : Prop :=
  valid_utf8 (bm_ContentType m) = true /\ valid_utf8 (bm_Filename m) = true /\
  Forall (fun kv => valid_utf8 kv.1 = true /\ valid_utf8 kv.2 = true) (map_to_list (bm_Tags m)).

Lemma sorted_tags_perm tags : sorted_tags tags ≡ₚ map_to_list tags.
Proof. apply merge_sort_Permutation. Qed.

Lemma fold_insert (l : list (string * string)) (m : gmap string string) :
  fold_left (fun m kv => <[kv.1 := kv.2]> m) l m = list_to_map (reverse l) ∪ m.
Proof.
  revert m. induction l as [|[k v] l IH]; intros m; [symmetry; apply (left_id_L ∅ (∪))|].
  cbn [fold_left fst snd]. rewrite IH, reverse_cons, list_to_map_app. cbn [list_to_map].
  rewrite <- (assoc_L (∪)). f_equal. cbn. by rewrite insert_empty, insert_union_singleton_l.
Qed.

Lemma fold_tags tags :
  fold_left (fun m kv => <[kv.1 := kv.2]> m) (sorted_tags tags) ∅ = tags.
Proof.
  rewrite fold_insert, (right_id_L ∅ (∪)). rewrite <- (list_to_map_to_list tags) at 2.
  apply list_to_map_proper.
  - rewrite reverse_Permutation, sorted_tags_perm. apply NoDup_fst_map_to_list.
  - by rewrite reverse_Permutation, sorted_tags_perm.
Qed.

Lemma decode_map_tags (l : list (string * string)) m :
  Forall (fun kv => valid_utf8 kv.1 = true /\ valid_utf8 kv.2 = true) l ->
  decode_map m (Json.normal (JObj (map (fun kv => (kv.1, JStr kv.2)) l))) =
    (fold_left (fun m kv => <[kv.1 := kv.2]> m) l m, None).
Proof.
  intros Hl. cbn [Json.normal decode_map]. rewrite List.map_map. cbn [fst snd Json.normal].
  revert m. induction Hl as [|[k v] l [Hk Hv] Hl IH]; intros m; [done|].
  cbn [map fold_left fst snd decode_string]. cbn [fst snd] in Hk, Hv. rewrite !to_valid_valid by done. apply IH.
Qed.
End Metadata.

Section StoreRetrieve.
Context (zone : Z -> Z).
Context (Hzone : forall t, Z.rem (zone t) 60 = 0).

Lemma json_time_ok t j : json_time zone t = Some j -> json_ok j = true /\ depth j = 0%nat.
Proof. unfold json_time. destruct (time_text (zone t) t); [|done]. by intros [= <-]. Qed.

Lemma tags_object_ok (l : list (string * string)) :
  json_ok (JObj (map (fun kv => (kv.1, JStr kv.2)) l)) = true /\
  (depth (JObj (map (fun kv => (kv.1, JStr kv.2)) l)) <= 1)%nat.
Proof. induction l as [|kv l [IH1 IH2]]; [split; [done|cbn; lia]|]. split; [exact IH1|exact IH2]. Qed.

Lemma metadata_fields_ok m fs : metadata_fields zone m = Some fs -> Forall field_ok (present fs).
Proof.
  unfold metadata_fields. destruct (json_time zone (bm_CreatedAt m)) as [jc|] eqn:Hc; [|done].
  destruct (json_time zone (bm_UpdatedAt m)) as [ju|] eqn:Hu; [|done]. intros [= <-].
  destruct (json_time_ok _ _ Hc) as [Hc1 Hc2]. destruct (json_time_ok _ _ Hu) as [Hu1 Hu2].
  assert (Hd : (1 < max_depth)%nat) by (unfold max_depth; lia).
  apply field_ok_some; [done|cbn [depth]; lia|]. apply field_ok_opt_string.
  apply field_ok_some; [apply pretty_number_ok|cbn [depth]; lia|]. apply field_ok_some; [done|cbn [depth]; lia|].
  assert (Hrest : Forall field_ok (present [("created_at", Some jc); ("updated_at", Some ju)])).
  { apply field_ok_some; [done|lia|]. apply field_ok_some; [done|lia|constructor]. }
  destruct (sorted_tags (bm_Tags m)) as [|kv l]; [exact Hrest|].
  destruct (tags_object_ok (kv :: l)) as [H1 H2].
  apply field_ok_some; [exact H1|exact (Nat.le_lt_trans _ _ _ H2 Hd)|exact Hrest].
Qed.

(** What was written as metadata is read as that metadata. *)
Lemma metadata_crosses m text size checksum created updated :
  metadata_text zone m = Ok text -> valid_metadata m -> valid_utf8 (bm_Checksum m) = true ->
  in_int64 (bm_Size m) ->
  Unmarshal metadata_names metadata_field text (mkBlobMetadata "" "" size checksum ∅ created updated) = (m, None).
Proof.
  unfold metadata_text. destruct (metadata_fields zone m) as [fs|] eqn:Hfs; [|done].
  intros Htext (Hct & Hfn & Htags) Hck Hsize.
  assert (Hp : text = print (indented "  ") 0 (JObj (present fs))) by (symmetry; by injection Htext).
  rewrite Hp. clear text Htext Hp.
  rewrite Unmarshal_layout by (by apply indented_ok || by eapply metadata_fields_ok).
  change (object_read (indented "  ") (present fs)) with
    (map (fun f => (to_valid f.1, (Json.normal f.2, print (indented "  ") 1 f.2))) (present fs)).
  change (decode_texts metadata_names metadata_field (print (indented "  ") 1) fs
    (mkBlobMetadata "" "" size checksum ∅ created updated) = (m, None)).
  destruct m as [ct fn sz ck tags cr up]. unfold metadata_fields in Hfs.
  cbn [bm_ContentType bm_Filename bm_Size bm_Checksum bm_Tags bm_CreatedAt bm_UpdatedAt] in *.
  destruct (json_time zone cr) as [jc|] eqn:Hc; [|done]. destruct (json_time zone up) as [ju|] eqn:Hu; [|done].
  injection Hfs as <-.
  erewrite decode_texts_cons; [|vm_compute; reflexivity|reflexivity].
  cbn [set_field decode_string Json.normal fst snd]. rewrite (to_valid_valid ct) by done.
  erewrite decode_texts_cons; [|vm_compute; reflexivity|
    apply (opt_string_field _ _ _ _ (fun x => mkBlobMetadata ct x size checksum ∅ created updated)); done].
  rewrite (to_valid_valid fn) by done.
  rewrite (decode_texts_cons _ _ _ "size" _ _ _ (mkBlobMetadata ct fn sz checksum ∅ created updated));
    [|vm_compute; reflexivity|].
  2:{ cbn [Json.normal]. unfold metadata_field, set_field. cbn [String.eqb Ascii.eqb Bool.eqb].
      by rewrite decode_int_pretty. }
  rewrite (decode_texts_cons _ _ _ "checksum" _ _ _ (mkBlobMetadata ct fn sz ck ∅ created updated));
    [|vm_compute; reflexivity|cbn [Json.normal]; by rewrite (to_valid_valid ck)].
  rewrite (decode_texts_cons _ _ _ "tags" _ _ _ (mkBlobMetadata ct fn sz ck tags created updated));
    [|vm_compute; reflexivity|].
  2:{ pose proof (fold_tags tags) as Hf. pose proof (sorted_tags_perm tags) as Hp.
      destruct (sorted_tags tags) as [|kv l]; [by rewrite <- Hf|].
      assert (Hl : Forall (fun kv => valid_utf8 kv.1 = true /\ valid_utf8 kv.2 = true) (kv :: l))
        by (by rewrite Hp).
      pose proof (decode_map_tags _ ∅ Hl) as Hdec. rewrite Hf in Hdec. cbn [map] in Hdec.
      unfold metadata_field. change (String.eqb "tags" "content_type") with false.
      change (String.eqb "tags" "filename") with false. change (String.eqb "tags" "size") with false.
      change (String.eqb "tags" "checksum") with false. change (String.eqb "tags" "tags") with true.
      cbv iota. unfold set_field. cbn [bm_Tags]. by rewrite Hdec. }
  rewrite (decode_texts_cons _ _ _ "created_at" _ _ _ (mkBlobMetadata ct fn sz ck tags cr updated));
    [|vm_compute; reflexivity|exact (decode_time_text zone Hzone _ _ _ _ Hc)].
  rewrite (decode_texts_cons _ _ _ "updated_at" _ _ _ (mkBlobMetadata ct fn sz ck tags cr up));
    [done|vm_compute; reflexivity|exact (decode_time_text zone Hzone _ _ _ _ Hu)].
Qed.

(** A checksum is ASCII. *)
Lemma valid_cons c s : code c < 128 -> valid_utf8 s = true -> valid_utf8 (String c s) = true.
Proof.
  intros Hc Hs. unfold valid_utf8 in *. cbn [runes]. by rewrite (proj2 (Z.ltb_lt (code c) 128) Hc).
Qed.

Lemma hex_digit_code z : 0 <= z < 16 -> code (hex_digit z) < 128.
Proof.
  intros Hz. assert (Hin : z ∈ [0; 1; 2; 3; 4; 5; 6; 7; 8; 9; 10; 11; 12; 13; 14; 15]) by (rewrite !elem_of_cons; lia).
  rewrite !elem_of_cons, elem_of_nil in Hin.
  by repeat match type of Hin with _ \/ _ => destruct Hin as [->|Hin] end.
Qed.

Lemma hex_valid bs : Forall (fun b => 0 <= b < 256) bs -> valid_utf8 (hex bs) = true.
Proof.
  intros Hbs. induction Hbs as [|b bs Hb Hbs IH]; [done|].
  change (hex (b :: bs)) with (String (Md5.hex_digit (b / 16)) (String (Md5.hex_digit (b mod 16)) (hex bs))).
  apply valid_cons; [apply hex_digit_code; Z.div_mod_to_equations; lia|].
  apply valid_cons; [apply hex_digit_code; Z.div_mod_to_equations; lia|exact IH].
Qed.

Lemma little_endian_bytes n z : Forall (fun b => 0 <= b < 256) (little_endian n z).
Proof. revert z. induction n as [|n IH]; intros z; cbn [little_endian]; constructor; [apply Z.mod_pos_bound; lia|apply IH]. Qed.

Lemma md5_valid s : valid_utf8 (md5_hex s) = true.
Proof.
  apply hex_valid. unfold md5_Sum. destruct (foldl _ _ _) as [[[a b] c] d]. cbn [flat_map].
  rewrite !Forall_app. split_and!; first [apply little_endian_bytes|constructor].
Qed.

(** A Store that reports no error has written the data and the metadata. *)
Lemma Store_done key data meta times fbs fs fs' :
  Store zone key data meta times fbs fs = (fs', None) ->
  let p := key_path (fb_rootPath fbs) key in
  let m := mkBlobMetadata (bm_ContentType meta) (bm_Filename meta) (len data) (md5_hex data)
    (bm_Tags meta) (if Time_IsZero (bm_CreatedAt meta) then t_created times else bm_CreatedAt meta)
    (t_updated times) in
  exists buf, metadata_text zone m = Ok buf /\ p <> [] /\ keeps_directories fs fs' /\
    fs' !! p = Some (File data (t_data times)) /\
    fs' !! path_append p ".meta" = Some (File buf (t_meta times)).
Proof.
  unfold Store. destruct (fb_maxSize fbs <? len data); [done|]. cbv zeta.
  set (p := key_path (fb_rootPath fbs) key).
  destruct (MkdirAll (Dir_of p) fs) as [fs1 [e|]] eqn:Hm; [done|].
  destruct (WriteFile (t_data times) p data fs1) as [fs2 [e|]] eqn:Hw; [done|].
  apply WriteFile_done in Hw as (Hp & Hfs2 & Hk2). destruct (MkdirAll_done _ _ _ Hm) as [Hk1%subseteq_keeps _].
  destruct (metadata_text zone _) as [buf|e]; [|done].
  intros (_ & -> & Hk3)%WriteFile_done. exists buf. split_and!; [done..| | |].
  - by etransitivity; [exact Hk1|]; etransitivity.
  - rewrite lookup_insert_ne by (by apply path_append_neq). rewrite Hfs2. apply lookup_insert_eq.
  - apply lookup_insert_eq.
Qed.

Lemma Retrieve_data key data meta times fbs fs fs' t1 t2 :
  Store zone key data meta times fbs fs = (fs', None) ->
  exists m, Retrieve key t1 t2 fbs fs' = Ok (mkBlobData key data m).
Proof.
  intros (buf & _ & Hp & _ & Hd & _)%Store_done. unfold Retrieve.
  rewrite (ReadFile_ok _ _ _ _ Hp Hd). by eexists.
Qed.

(** C21: The tool gives back what it stored: after a Store that reports no error, whatever
    the key and whatever was there before, Retrieve returns the data and the metadata
    with its content type, file name, tags and creation time, the size and the MD5
    checksum of the data, and the time of the store; as long as the metadata's strings
    are UTF-8. *)
Theorem retrieve_what_was_stored key data meta times fbs fs fs' t1 t2 :
  Store zone key data meta times fbs fs = (fs', None) -> valid_metadata meta -> in_int64 (len data) ->
  Retrieve key t1 t2 fbs fs' =
    Ok (mkBlobData key data (mkBlobMetadata (bm_ContentType meta) (bm_Filename meta) (len data) (md5_hex data)
      (bm_Tags meta) (if Time_IsZero (bm_CreatedAt meta) then t_created times else bm_CreatedAt meta)
      (t_updated times))).
Proof.
  intros Hst Hv Hlen. destruct (Store_done _ _ _ _ _ _ _ Hst) as (buf & Hbuf & Hp & _ & Hd & Hm).
  unfold Retrieve. rewrite (ReadFile_ok _ _ _ _ Hp Hd).
  rewrite (ReadFile_ok _ _ _ _ (path_append_nonempty _ _) Hm).
  by rewrite (metadata_crosses _ _ _ _ _ _ Hbuf) by (done || apply md5_valid).
Qed.

End StoreRetrieve.

(** ** Runs of the tool *)
Section Runs.
Context (zone : Z -> Z).

Lemma Delete_stored key data meta times fbs fs fs' :
  Store zone key data meta times fbs fs = (fs', None) ->
  exists fs2, Delete key fbs fs' = (fs2, None) /\ keeps_directories fs' fs2 /\
    fs2 !! key_path (fb_rootPath fbs) key = None.
Proof.
  intros (buf & _ & Hp & _ & Hd & Hm)%Store_done. unfold Delete.
  rewrite (Remove_file _ _ _ _ (path_append_nonempty _ _) Hm).
  pose proof (delete_file_keeps _ _ _ _ Hm) as Hk1.
  assert (Hd1 : delete (path_append (key_path (fb_rootPath fbs) key) ".meta") fs' !! key_path (fb_rootPath fbs) key =
                  Some (File data (t_data times)))
    by (by rewrite lookup_delete_ne by (by apply path_append_neq)).
  rewrite (Remove_file _ _ _ _ Hp Hd1). eexists. split; [done|]. split; [|apply lookup_delete_eq].
  etransitivity; [exact Hk1|by eapply delete_file_keeps].
Qed.

(** The root made once is there for the next run. *)
Lemma New_again cwd root n fs fs1 store fs2 :
  NewFilesystemBlobStorage cwd root n fs = (fs1, Ok store) -> keeps_directories fs1 fs2 ->
  NewFilesystemBlobStorage cwd root n fs2 = (fs2, Ok store).
Proof.
  unfold NewFilesystemBlobStorage. destruct (String.eqb root ""); [done|].
  set (r := if HasPrefix root "/" then _ else _). destruct (MkdirAll r fs) as [fs' [e|]] eqn:Hm; [done|].
  intros [= <- <-] Hk. by rewrite (MkdirAll_again _ _ _ _ Hm Hk).
Qed.

Lemma New_subseteq cwd root n fs fs1 store :
  NewFilesystemBlobStorage cwd root n fs = (fs1, Ok store) -> fs ⊆ fs1.
Proof.
  unfold NewFilesystemBlobStorage. destruct (String.eqb root ""); [done|].
  set (r := if HasPrefix root "/" then _ else _). destruct (MkdirAll r fs) as [fs' [e|]] eqn:Hm; [done|].
  intros [= <- _]. by apply MkdirAll_done in Hm as [Hs _].
Qed.

(** C15: One run of the tool after another: after a put that exits with status 0, a get of
    the same key from the same directory prints the data put, from the file or standard
    input, and changes nothing; a del then exits with status 0; and a get after it exits
    with status 1 and prints nothing. *)
Theorem put_get_del env root key options fs data fs1 out err env2 env3 env4 :
  put_input env (put_options options "" "application/octet-stream" "").1.1 fs = Ok data ->
  main zone env root ("put" :: key :: options) fs = mkRun fs1 0 out err ->
  os_cwd env2 = os_cwd env -> os_cwd env3 = os_cwd env -> os_cwd env4 = os_cwd env ->
  main zone env2 root ["get"; key] fs1 = mkRun fs1 0 data "" /\
  exists fs2, main zone env3 root ["del"; key] fs1 = mkRun fs2 0 ("OK" +:+ eol) "" /\
    run_status (main zone env4 root ["get"; key] fs2) = 1 /\
    run_stdout (main zone env4 root ["get"; key] fs2) = "".
Proof.
  intros Hin Hput H2 H3 H4. unfold main in *. cbn [String.eqb Ascii.eqb Bool.eqb] in *. rewrite H2, H3, H4.
  destruct (String.eqb root ""); [done|].
  destruct (NewFilesystemBlobStorage (os_cwd env) root 0 fs) as [fs0 [store|e]] eqn:Hnew; [|done].
  unfold put in Hput. destruct (put_options _ _ _ _) as [[file ct] fn]. cbn [fst] in Hin.
  assert (Hin0 : put_input env file fs0 = Ok data).
  { unfold put_input in *. destruct (String.eqb file ""); [done|].
    eapply ReadFile_subseteq; [by eapply New_subseteq|done]. }
  rewrite Hin0 in Hput. destruct (Store _ _ _ _ _ _ _) as [fs1' [e|]] eqn:Hst; [done|].
  injection Hput as -> _ _.
  destruct (Store_done _ _ _ _ _ _ _ _ Hst) as (_ & _ & Hp & Hk & _ & _).
  rewrite (New_again _ _ _ _ _ _ _ Hnew Hk). split.
  { unfold get. cbn [get_options].
    destruct (Retrieve_data _ _ _ _ _ _ _ _ (t_updated (os_times env2)) (t_created (os_times env2)) Hst) as [m ->].
    done. }
  destruct (Delete_stored _ _ _ _ _ _ _ Hst) as (fs2 & Hdel & Hk2 & Hnone).
  exists fs2. unfold del. rewrite Hdel. split; [done|].
  rewrite (New_again _ _ _ _ _ _ _ Hnew) by (by etransitivity). unfold get. cbn [get_options].
  unfold Retrieve. by rewrite (ReadFile_absent _ _ Hp Hnone).
Qed.
End Runs.

(** ** Keys and the root *)
Section Keys.

(** Cleaning components among which no dot-dot is left goes down only. *)
Lemma Clean_down out cs :
  Forall (fun c => c <> "..") cs ->
  exists rel, Clean out cs = reverse out ++ rel /\ Forall (fun c => c <> "..") rel.
Proof.
  intros Hc. revert out. induction Hc as [|c cs Hs Hc IH]; intros out; cbn [Clean].
  { exists []. by rewrite app_nil_r. }
  destruct (String.eqb c "" || String.eqb c "."); [apply IH|].
  destruct (String.eqb_spec c ".."); [done|]. destruct (IH (c :: out)) as (rel & -> & Hrel).
  exists (c :: rel). rewrite reverse_cons, <- app_assoc. split; [done|by constructor].
Qed.

Lemma Clean_no_dots out cs :
  Forall (fun c => c <> "..") out -> Forall (fun c => c <> "..") (Clean out cs).
Proof.
  revert out. induction cs as [|c cs IH]; intros out Ho; cbn [Clean]; [by apply Forall_reverse|].
  destruct (String.eqb c "" || String.eqb c "."); [by apply IH|].
  destruct (String.eqb_spec c ".."); apply IH; [by destruct Ho|by constructor].
Qed.

(** Of a relative path, the dot-dots in front stay. *)
Lemma clean_relative_normal out cs :
  Forall FileSystem.normal cs -> clean_relative out cs = reverse out ++ cs.
Proof.
  intros Hc. revert out. induction Hc as [|c cs (H1 & H2 & H3 & _) Hc IH]; intros out; cbn [clean_relative].
  { by rewrite app_nil_r. }
  apply String.eqb_neq in H1, H2, H3. rewrite H1, H2, H3. cbn [orb].
  by rewrite IH, reverse_cons, <- app_assoc.
Qed.

Lemma clean_relative_ups n m cs :
  Forall FileSystem.normal cs ->
  clean_relative (replicate m "..") (replicate n ".." ++ cs) = replicate (m + n) ".." ++ cs.
Proof.
  intros Hc. revert m. induction n as [|n IH]; intros m.
  - cbn [replicate app]. rewrite clean_relative_normal, reverse_replicate by done. by rewrite Nat.add_0_r.
  - cbn [replicate app clean_relative].
    change (String.eqb ".." "" || String.eqb ".." ".") with false. change (String.eqb ".." "..") with true. cbv iota.
    replace (m + S n)%nat with (S m + n)%nat by lia. rewrite <- IH. destruct m; done.
Qed.

Lemma Join_not_rooted c cs : c <> "" -> Split slash c = [c] -> HasPrefix (strings_Join "/" (c :: cs)) "/" = false.
Proof.
  intros Hne Hs. destruct (strings_Join_head c cs "") as [t Ht]. rewrite String_app_nil in Ht.
  replace (strings_Join "/" (c :: cs)) with (c +:+ match cs with [] => "" | _ => "/" +:+ strings_Join "/" cs end)
    by (destruct cs; [apply String_app_nil|done]).
  destruct c as [|d c]; [done|]. rewrite String_app_cons. unfold HasPrefix. cbn [String.prefix].
  destruct (ascii_dec "/" d) as [<-|]; [|done]. cbn in Hs. by injection Hs.
Qed.

(** C33: What keeps a key below the root is its slash: a key that starts with one stays
    below the root whatever dot-dots it holds, while a relative key that starts with
    enough of them reaches any path of the file system, so that put, get and del work
    outside the root. *)
Theorem keys_and_the_root root :
  (forall key, HasPrefix key "/" = true ->
     exists rel, key_path root key = root ++ rel /\ Forall (fun c => c <> "..") rel) /\
  (root <> [] -> forall p, Forall FileSystem.normal p -> p <> [] -> key_path root (up_to root p) = p).
Proof.
  split.
  - intros key Hk. unfold key_path. rewrite Hk.
    pose proof (Clean_no_dots [] (Split slash key) (List.Forall_nil _)) as Hn.
    destruct (Clean_down (reverse root) _ Hn) as (rel & Hrel & Hdots).
    rewrite reverse_involutive in Hrel. by exists rel.
  - intros Hne p Hp Hpne. unfold key_path, up_to.
    destruct root as [|r root]; [done|]. cbn [length replicate app].
    rewrite Join_not_rooted by done.
    rewrite Split_strings_Join; [|done|].
    2:{ constructor; [done|]. apply Forall_app. split; [by apply Forall_replicate|by apply normal_Split]. }
    change (".." :: replicate (length root) ".." ++ p) with (replicate (length (r :: root)) ".." ++ p).
    rewrite (clean_relative_ups _ 0) by done. cbn [Nat.add].
    rewrite Clean_up by (by rewrite length_reverse). by rewrite Clean_normal.
Qed.

End Keys.

(** ** Witnesses *)
Section Witnesses.
Lemma pair_of_snd {A B} (x : A * B) (b : B) : x.2 = b -> x = (x.1, b).
Proof. destruct x. by intros <-. Qed.

Lemma run_of_rest (x : run) n out err :
  run_status x = n -> run_stdout x = out -> run_stderr x = err -> x = mkRun (run_files x) n out err.
Proof. destruct x. by intros <- <- <-. Qed.

Let times : store_times := mkStoreTimes 3 5 1700000000000000000 1700000000000000007.
Let out : outside := mkOutside ["home"] (Ok "from stdin") times 9.
Let files0 : files := {[ ["home"; "notes"] := File "hello" 1 ]}.
Let store : FilesystemBlobStorage := mkFilesystemBlobStorage ["home"; "blobs"] 4096.
Let text_html : BlobMetadata := mkBlobMetadata "text/html" "a.html" 0 "" {[ "k" := "v"; "a" := "b" ]} 0 0.
Let put_options_example : list string := ["-f"; "notes"; "-ct"; "text/plain"].

Lemma retrieve_what_was_stored_witness :
  exists m, Retrieve "a/b" 8 8 store (Store (fun _ => 3600) "a/b" "hello" text_html times store files0).1 =
    Ok (mkBlobData "a/b" "hello" m).
Proof.
  eexists. refine (retrieve_what_was_stored (fun _ => 3600) _ "a/b" "hello" text_html times store files0 _ 8 8 _ _ _).
  - done.
  - apply pair_of_snd. vm_compute. reflexivity.
  - split_and!; [reflexivity|reflexivity|].
    refine (bool_decide_unpack (Forall _ _) _). vm_compute. reflexivity.
  - vm_compute. split; discriminate.
Defined.

Lemma put_get_del_witness :
  exists fs1, main (fun _ => 0) out "blobs" ["get"; "n"] fs1 = mkRun fs1 0 "hello" "".
Proof.
  exists (run_files (main (fun _ => 0) out "blobs" ("put" :: "n" :: put_options_example) files0)).
  refine (proj1 (put_get_del (fun _ => 0) out "blobs" "n" put_options_example files0 "hello" _
    ("OK" +:+ eol) "" out out out _ _ _ _ _)); [vm_compute; reflexivity| |done|done|done].
  apply run_of_rest; vm_compute; reflexivity.
Defined.

Lemma keys_and_the_root_witness :
  (exists rel, key_path ["srv"] "/../x" = ["srv"] ++ rel) /\ key_path ["srv"] "../etc/passwd" = ["etc"; "passwd"].
Proof.
  split.
  - destruct (proj1 (keys_and_the_root ["srv"]) "/../x" eq_refl) as (rel & H & _). by exists rel.
  - refine (proj2 (keys_and_the_root ["srv"]) _ ["etc"; "passwd"] _ _); [done| |done].
    repeat constructor; discriminate.
Defined.
End Witnesses.
End BlobOnly.
