(* ===== verification/Program.v ===== *)
(** * Programs that use the library (the functions of examples*.go)

    A Go function as a step on a state that prints: how it ends is a value, since a
    [return], [log.Fatal], a panic and a call that never returns part ways at the
    deferred calls. *)
From S2P Require Import Prelude.
From S2P Require Import GoStrings.
Local Open Scope string_scope.
Local Open Scope list_scope.

(** A line on standard output, or one of the log. *)
Inductive printed : Type :=
  | Stdout (text : string)
  | Log (text : string).

Inductive ended (A : Type) : Type :=
  | Going (a : A)          (* the next statement runs *)
  | Returning              (* a [return] *)
  | Exited                 (* [log.Fatal]: the process ends, without the deferred calls *)
  | Panicking (m : string)
  | Stuck.                 (* a call that never returns *)
Arguments Going {A} a.
Arguments Returning {A}.
Arguments Exited {A}.
Arguments Panicking {A} m.
Arguments Stuck {A}.

Declare Scope program_scope.
Delimit Scope program_scope with program.

Section Program.
Context {S : Type}.

Definition program (A : Type) : Type := S -> list printed -> S * list printed * ended A.

Definition ret {A} (a : A) : program A := fun s out => (s, out, Going a).

(** What is left of a function after it has ended. *)
Definition ended_as {A B} (e : ended A) : ended B :=
  match e with
  | Going _ | Returning => Returning
  | Exited => Exited
  | Panicking m => Panicking m
  | Stuck => Stuck
  end.

Definition bind {A B} (p : program A) (k : A -> program B) : program B := fun s out =>
  match p s out with
  | (s, out, Going a) => k a s out
  | (s, out, e) => (s, out, ended_as e)
  end.

Definition return_ {A} : program A := fun s out => (s, out, Returning).
Definition printf (text : string) : program unit := fun s out => (s, out ++ [Stdout text], Going tt).
Definition log_printf (text : string) : program unit := fun s out => (s, out ++ [Log text], Going tt).
Definition log_fatalf {A} (text : string) : program A := fun s out => (s, out ++ [Log text], Exited).
Definition panic {A} (m : string) : program A := fun s out => (s, out, Panicking m).

(** [defer cleanup], and the rest of the function: the deferred call runs when the rest
    has ended, by a panic too. *)
Definition defer (cleanup : program unit) (rest : program unit) : program unit := fun s out =>
  match rest s out with
  | (s, out, Exited) => (s, out, Exited)
  | (s, out, Stuck) => (s, out, Stuck)
  | (s, out, e) =>
      match cleanup s out with
      | (s, out, Exited) => (s, out, Exited)
      | (s, out, Stuck) => (s, out, Stuck)
      | (s, out, Panicking m) => (s, out, Panicking m)
      | (s, out, _) => (s, out, e)
      end
  end.

(** [for _, x := range xs { body }] *)
Fixpoint range {A} (xs : list A) (body : A -> program unit) : program unit :=
  match xs with
  | [] => ret tt
  | x :: xs => bind (body x) (fun _ => range xs body)
  end.

(** The same with [break]: the body says whether to go on. *)
Fixpoint range_until {A} (xs : list A) (body : A -> program bool) : program unit :=
  match xs with
  | [] => ret tt
  | x :: xs => bind (body x) (fun go => if go then range_until xs body else ret tt)
  end.

(** The same with variables the body assigns to. *)
Fixpoint range_with {A V} (xs : list A) (v : V) (body : A -> V -> program V) : program V :=
  match xs with
  | [] => ret v
  | x :: xs => bind (body x v) (fun v => range_with xs v body)
  end.

(** A call of a function: a [return] in it is not one of the caller's. *)
Definition call (p : program unit) : program unit := fun s out =>
  match p s out with
  | (s, out, Returning) => (s, out, Going tt)
  | ended => ended
  end.

(** A goroutine: its next step gives what is left of it; [Hung] in a call that never
    returns. *)
Inductive goroutine : Type :=
  | Finished
  | Hung
  | Next (step : S -> list printed -> S * list printed * ended goroutine).

Definition is_finished (g : goroutine) : bool :=
  match g with Finished => true | _ => false end.

(** The turn of the [i]-th of some goroutines. One that exits or panics ends the process. *)
Definition take_turn (gs : list goroutine) (i : nat) : program (list goroutine) := fun s out =>
  match gs !! i with
  | Some (Next step) =>
      match step s out with
      | (s, out, Going g) => (s, out, Going (<[i := g]> gs))
      | (s, out, Returning) => (s, out, Going (<[i := Finished]> gs))
      | (s, out, Stuck) => (s, out, Going (<[i := Hung]> gs))
      | (s, out, e) => (s, out, ended_as e)
      end
  | _ => (s, out, Going gs)
  end.

(** [main] waits for goroutines that each send it a message at their end: [schedule] says
    whose turn it is; while one is unfinished [main] waits. *)
Fixpoint wait_for (schedule : list nat) (gs : list goroutine) : program unit :=
  match schedule with
  | [] => fun s out => if forallb is_finished gs then (s, out, Going tt) else (s, out, Stuck)
  | i :: schedule => bind (take_turn gs i) (wait_for schedule)
  end.

Lemma bind_Going {A B} (p : program A) (k : A -> program B) s out s' out' a :
  p s out = (s', out', Going a) -> bind p k s out = k a s' out'.
Proof. intros H. unfold bind. by rewrite H. Qed.

Lemma defer_Stuck cleanup rest s out s' out' s2 out2 u :
  rest s out = (s', out', Going u) -> cleanup s' out' = (s2, out2, Stuck) ->
  defer cleanup rest s out = (s2, out2, Stuck).
Proof. intros Hr Hc. unfold defer. by rewrite Hr, Hc. Qed.

Lemma defer_rest_Stuck cleanup rest s out s' out' :
  rest s out = (s', out', Stuck) -> defer cleanup rest s out = (s', out', Stuck).
Proof. intros Hr. unfold defer. by rewrite Hr. Qed.

(** ** Triples

    [triple O R P p Q]: from a state with [P], what [p] prints has [O], where it goes on
    with a value [Q] holds, and where it returns or panics [R] does. A program that exits
    or never returns has kept its promise. *)
Definition triple (O : printed -> Prop) (R P : S -> Prop) {A} (p : program A) (Q : A -> S -> Prop) : Prop :=
  forall s out, P s ->
    let '(s', out', e) := p s out in
    (exists new, out' = out ++ new /\ Forall O new) /\
    match e with
    | Going a => Q a s'
    | Returning | Panicking _ => R s'
    | Exited | Stuck => True
    end.

(** From a state with [P] the program does not return to its caller: it ends the process
    or never ends. *)
Definition never_returns (O : printed -> Prop) (P : S -> Prop) {A} (p : program A) : Prop :=
  triple O (fun _ => False) P p (fun _ _ => False).

Lemma never_returns_ends O P {A} (p : program A) s out :
  never_returns O P p -> P s ->
  ((p s out).2 = Exited \/ (p s out).2 = Stuck) /\ exists new, (p s out).1.2 = out ++ new /\ Forall O new.
Proof.
  intros Hp Hs. specialize (Hp s out Hs). destruct (p s out) as [[s' out'] e]. destruct Hp as [Hout He].
  split; [|done]. destruct e; try done; [by left|by right].
Qed.

Section Triples.
Context (O : printed -> Prop) (R : S -> Prop).
Implicit Types P : S -> Prop.

Lemma output_app (out out1 out2 : list printed) :
  (exists new, out1 = out ++ new /\ Forall O new) -> (exists new, out2 = out1 ++ new /\ Forall O new) ->
  exists new, out2 = out ++ new /\ Forall O new.
Proof.
  intros (n1 & -> & H1) (n2 & -> & H2). exists (n1 ++ n2). rewrite app_assoc. split; [done|]. by apply Forall_app.
Qed.

Lemma output_none (out : list printed) : exists new, out = out ++ new /\ Forall O new.
Proof. exists []. by rewrite app_nil_r. Qed.

Lemma triple_ret P {A} (a : A) (Q : A -> S -> Prop) : (forall s, P s -> Q a s) -> triple O R P (ret a) Q.
Proof. intros HQ s out Hs. split; [apply output_none|by apply HQ]. Qed.

Lemma triple_print P text : O (Stdout text) -> triple O R P (printf text) (fun _ => P).
Proof. intros Ho s out Hs. split; [|done]. exists [Stdout text]. split; [done|]. by constructor. Qed.

Lemma triple_log P text : O (Log text) -> triple O R P (log_printf text) (fun _ => P).
Proof. intros Ho s out Hs. split; [|done]. exists [Log text]. split; [done|]. by constructor. Qed.

Lemma triple_fatal P {A} text (Q : A -> S -> Prop) : O (Log text) -> triple O R P (log_fatalf text) Q.
Proof. intros Ho s out Hs. split; [|done]. exists [Log text]. split; [done|]. by constructor. Qed.

Lemma triple_return P {A} (Q : A -> S -> Prop) : (forall s, P s -> R s) -> triple O R P return_ Q.
Proof. intros Hr s out Hs. split; [apply output_none|]. by apply Hr. Qed.

Lemma triple_bind P {A B} (p : program A) (k : A -> program B) Q' Q :
  triple O R P p Q' -> (forall a, triple O R (Q' a) (k a) Q) -> triple O R P (bind p k) Q.
Proof.
  intros Hp Hk s out Hs. unfold bind. specialize (Hp s out Hs).
  destruct (p s out) as [[s1 out1] e]. destruct Hp as [Ho He]. destruct e as [a| | |m|]; cbn [ended_as]; try done.
  specialize (Hk a s1 out1 He). destruct (k a s1 out1) as [[s2 out2] e2]. destruct Hk as [Ho2 He2].
  split; [by eapply output_app|done].
Qed.

Lemma triple_consequence P P' {A} (p : program A) (Q Q' : A -> S -> Prop) :
  triple O R P' p Q' -> (forall s, P s -> P' s) -> (forall a s, Q' a s -> Q a s) -> triple O R P p Q.
Proof.
  intros Hp HP HQ s out Hs. specialize (Hp s out (HP _ Hs)). destruct (p s out) as [[s1 out1] e].
  destruct Hp as [Ho He]. split; [done|]. destruct e; try done. by apply HQ.
Qed.

(** A precondition that cannot hold. *)
Lemma triple_absurd P {A} (p : program A) Q : (forall s, ~ P s) -> triple O R P p Q.
Proof. intros HP s out Hs. by destruct (HP s). Qed.

(** The invariant of a loop speaks of what is left to visit. *)
Lemma triple_range {A} (I : list A -> S -> Prop) (xs : list A) body :
  (forall x xs, triple O R (I (x :: xs)) (body x) (fun _ => I xs)) ->
  triple O R (I xs) (range xs body) (fun _ => I []).
Proof.
  intros Hb. induction xs as [|x xs IH].
  - by apply triple_ret.
  - by eapply triple_bind; [apply Hb|].
Qed.

Lemma triple_range_until P {A} (xs : list A) body :
  (forall x, triple O R P (body x) (fun _ => P)) -> triple O R P (range_until xs body) (fun _ => P).
Proof.
  intros Hb. induction xs as [|x xs IH].
  - by apply triple_ret.
  - eapply triple_bind; [apply Hb|]. intros []; [done|].
    by apply triple_ret.
Qed.

(** The same for a loop with variables. *)
Lemma triple_range_with {A V} (I : list A -> V -> S -> Prop) (xs : list A) (v : V) body :
  (forall x xs v, triple O R (I (x :: xs) v) (body x v) (I xs)) ->
  triple O R (I xs v) (range_with xs v body) (I []).
Proof.
  intros Hb. revert v. induction xs as [|x xs IH]; intros v.
  - by apply triple_ret.
  - by eapply triple_bind; [apply Hb|].
Qed.
End Triples.

(** A deferred call keeps the function from returning when it never returns from the
    states the rest can leave. *)
Lemma defer_never_returns O P R cleanup rest :
  triple O R P rest (fun _ => R) -> never_returns O R cleanup -> never_returns O P (defer cleanup rest).
Proof.
  intros Hr Hc s out Hs. unfold defer. specialize (Hr s out Hs).
  destruct (rest s out) as [[s1 out1] e]. destruct Hr as [Ho He].
  assert (Hstuck : forall e0 : ended unit, R s1 ->
    let '(s', out', e') :=
      match cleanup s1 out1 with
      | (s, out, Exited) => (s, out, Exited)
      | (s, out, Stuck) => (s, out, Stuck)
      | (s, out, Panicking m) => (s, out, Panicking m)
      | (s, out, _) => (s, out, e0)
      end in
    (exists new, out' = out ++ new /\ Forall O new) /\
    match e' with Going _ | Returning | Panicking _ => False | Exited | Stuck => True end).
  { intros e0 HR. specialize (Hc s1 out1 HR). destruct (cleanup s1 out1) as [[s2 out2] e2].
    destruct Hc as [Ho2 He2]. destruct e2; try done; (split; [by eapply output_app|done]). }
  destruct e as [a| | |m|]; first [by split|by apply Hstuck].
Qed.

Lemma triple_weaken O (R R' P : S -> Prop) {A} (p : program A) Q :
  triple O R' P p Q -> (forall s, R' s -> R s) -> triple O R P p Q.
Proof.
  intros Hp HR s out Hs. specialize (Hp s out Hs). destruct (p s out) as [[s1 out1] e].
  destruct Hp as [Ho He]. split; [done|]. destruct e; try done; by apply HR.
Qed.

Lemma triple_defer O (R P : S -> Prop) cleanup rest :
  triple O R P rest (fun _ => R) -> triple O R R cleanup (fun _ => R) ->
  triple O R P (defer cleanup rest) (fun _ => R).
Proof.
  intros Hr Hc s out Hs. unfold defer. specialize (Hr s out Hs).
  destruct (rest s out) as [[s1 out1] e]. destruct Hr as [Ho He].
  destruct e as [a| | |m|]; try done; specialize (Hc s1 out1 He);
    destruct (cleanup s1 out1) as [[s2 out2] e2]; destruct Hc as [Ho2 He2];
    destruct e2; (split; [by eapply output_app|done]).
Qed.

(** Whatever the deferred call does, a rest that never returns decides. *)
Lemma defer_rest_never_returns O P cleanup rest :
  never_returns O P rest -> never_returns O P (defer cleanup rest).
Proof.
  intros Hr s out Hs. unfold defer. specialize (Hr s out Hs).
  destruct (rest s out) as [[s1 out1] e]. destruct Hr as [Ho He]. by destruct e.
Qed.
End Program.

Arguments program S A : clear implicits.

Notation "x <~ p ; k" := (bind p (fun x => k))
  (at level 100, p at next level, right associativity) : program_scope.
Notation "p ;~ k" := (bind p (fun _ => k))
  (at level 100, k at level 200, right associativity) : program_scope.

#[export] Hint Resolve triple_print triple_log triple_fatal : fluxor.
