(* ===== verification/Machine.v ===== *)
(** * What the example programs do (the calls of examples*.go)

    A program holds clients, a server and runtimes, and its statements are the library's
    operations on them. Everything outside of the program is one class: the databases and
    the network it finds, the clock, the texts fmt gives some values. The goroutines
    of a server do nothing to the program's objects while it runs, except where an example says. *)
From S2P Require Import Prelude.
From S2P Require Import Errors.
From S2P Require Import GoFloat.
From S2P Require Import GoStrings.
From S2P Require Import Cache.
From S2P Require Import StmtCache.
From S2P Require Import Metrics.
From S2P Require Import Sql.
From S2P Require Import Db.
From S2P Require Import Open.
From S2P Require Import Config.
From S2P Require Import Runtime.
From S2P Require Import Utils.
From S2P Require Import Report.
From S2P Require Import JsonValue.
From S2P Require Import TcpProtocol.
From S2P Require Import Scanner.
From S2P Require Import TcpServer.
From S2P Require Import TcpClient.
From S2P Require Import Program.
Local Open Scope string_scope.
Local Open Scope list_scope.
Local Open Scope Z_scope.
Local Open Scope program_scope.

(** The use of a prepared statement that was not closed. *)
Class SqlStmt (W Ctx Arg Rows Row : Type) : Type := {
  stmt_QueryRow : Stmt -> list Arg -> W -> W * Row;
  stmt_QueryContext : Stmt -> Ctx -> list Arg -> W -> W * result error Rows;
  (** row.Scan(&id, &name) *)
  row_Scan2 : Row -> W -> W * result error (Z * string);
  (** rows.Scan(&u.ID, &u.Name, &u.Email) *)
  rows_ScanUser : Rows -> W -> W * result error (Z * string * string);
  (** rows.Scan(&id, &name, &price, &category), its error dropped: what the variables hold *)
  rows_ScanProduct : Rows -> W -> W * (Z * string * float64 * string);
  ErrNoRows : error;
}.

(** [su_network i] and [su_database i]: what the i-th client and the i-th runtime of the
    program find; [su_envs n] and [su_now n]: the clock as the n-th call of a runtime
    reads it; [su_show]: [%v] of a value of a row, [su_show_result] and the next three: [%+v]
    of a struct. No result set has more rows than [su_fuel]; [su_schedule]: whose turn it is
    when goroutines run. *)
Class Surroundings (NW DW Ctx Res Rows Row Tx DB Conn RC C : Type) : Type := {
  su_sql :: SqlDB DW Ctx sql_value Res Rows Row Tx;
  su_pool :: SqlPool DW Ctx DB Conn;
  su_rows :: SqlRows DW Rows;
  su_stmt :: SqlStmt DW Ctx sql_value Rows Row;
  su_result :: SqlResult Res;
  su_cache :: Cache RC cached_value;
  su_net :: NetConn NW;
  su_network : nat -> NW;
  su_database : nat -> DW;
  su_new_rt_cache : Z -> Z -> RC;
  su_new_cache : Z -> Z -> C;
  su_envs : nat -> db_env;
  su_now : nat -> Z;
  su_oor : float64 -> Z;
  su_getenv : string -> string;
  su_first_key : gmap string Stmt -> option string;
  su_listen : option error;
  su_listening : string;
  su_time_text : Z -> option string;
  su_zone : Z -> Z;
  su_show : any -> string;
  su_show_sql : sql_value -> string;
  su_show_result : Res -> string;
  su_show_stats : DBStats -> string;
  su_show_metrics : MetricsStats -> string;
  su_show_health : HealthStatus -> string;
  su_fuel : nat;
  su_schedule : list nat;
}.

(** [mc_calls]: how often the clock was read; [mc_connected]: the variable [clients] that
    the deferred function of Example_ConnectionLimitProtection reads. *)
Record machine (NW DW DB RC C : Type) : Type := mkMachine {
  mc_clients : list (TCPClient * NW);
  mc_server : option (TCPServer C);
  mc_rts : list (DBRuntime DB RC * DW);
  mc_calls : nat;
  mc_connected : list nat;
}.
Arguments mkMachine {NW DW DB RC C}.
Arguments mc_clients {NW DW DB RC C}.
Arguments mc_server {NW DW DB RC C}.
Arguments mc_rts {NW DW DB RC C}.
Arguments mc_calls {NW DW DB RC C}.
Arguments mc_connected {NW DW DB RC C}.

Definition power_on {NW DW DB RC C : Type} : machine NW DW DB RC C := mkMachine [] None [] 0 [].

Definition nil_pointer : string := "nil pointer dereference".

(** The text of [fmt.Println] and of a format that ends in a newline. *)
Definition line (text : string) : string := text +:+ eol.

(** [for i := 0; i < n; i++] *)
Definition upto (n : nat) : list Z := seqZ 0 (Z.of_nat n).

Section Machine.
Context `{Su : Surroundings NW DW Ctx Res Rows Row Tx DB Conn RC C}.

Abbreviation prog := (program (machine NW DW DB RC C)) (only parsing).

(** The clock is read; time passes between two calls as [su_envs] says. *)
Definition tick : prog nat := fun s out =>
  (s{{mc_calls := S (mc_calls s)}}, out, Going (mc_calls s)).

Definition time_Now : prog Z := n <~ tick ; ret (su_now n).
Definition sleep (_ : Z) : prog unit := ret tt.

(** [select {}] *)
Definition block_forever : prog unit := fun s out => (s, out, Stuck).

(** ** Clients *)
Definition new_client (address : string) (timeout : Z) : prog nat := fun s out =>
  let i := length (mc_clients s) in
  (s{{mc_clients := (mc_clients s ++ [(NewTCPClient address timeout, su_network i)])%list}}, out, Going i).

Definition on_client {A} (i : nat) (f : TCPClient -> NW -> locked (TCPClient * NW * A)) : prog A := fun s out =>
  match mc_clients s !! i with
  | None => (s, out, Panicking nil_pointer)
  | Some (c, w) =>
      match f c w with
      | Blocked => (s, out, Stuck)
      | Done (c, w, a) => (s{{mc_clients := <[i := (c, w)]> (mc_clients s)}}, out, Going a)
      end
  end.

Definition connect (i : nat) : prog (option error) := on_client i TCPClient_Connect.
Definition disconnect (i : nat) : prog unit := on_client i (TCPClient_Disconnect su_time_text) ;~ ret tt.
Definition is_connected (i : nat) : prog bool :=
  on_client i (fun c w => locked_bind (TCPClient_IsConnected c) (fun '(c, b) => Done (c, w, b))).
Definition ping (i : nat) : prog (result error unit) := on_client i (TCPClient_Ping su_time_text).
Definition exec (i : nat) (query : string) (args : list sql_value) : prog (result error ExecResult) :=
  on_client i (TCPClient_Exec su_time_text query args).
Definition exec_with_idempotency (i : nat) (query key : string) (args : list sql_value)
    : prog (result error ExecResult) :=
  on_client i (TCPClient_ExecWithIdempotency su_time_text query key args).
Definition query (i : nat) (q : string) (args : list sql_value) : prog (result error (QueryResult any)) :=
  on_client i (TCPClient_Query su_time_text q args).
Definition stats (i : nat) : prog (result error StatsResult) := on_client i (TCPClient_Stats su_time_text).
Definition metrics (i : nat) : prog (result error MetricsResult) := on_client i (TCPClient_Metrics su_time_text).

(** ** The server *)
Definition new_server (config : TCPServerConfig) : prog unit := fun s out =>
  (s{{mc_server := Some (NewTCPServer su_new_cache config)}}, out, Going tt).

Definition on_server {A} (f : TCPServer C -> outcome (TCPServer C * A)) : prog A := fun s out =>
  match mc_server s with
  | None => (s, out, Panicking nil_pointer)
  | Some srv =>
      match f srv with
      | Panic m => (s, out, Panicking m)
      | Ret (srv, a) => (s{{mc_server := Some srv}}, out, Going a)
      end
  end.

Definition start : prog (option error) := on_server (fun srv => Ret (TCPServer_Start su_listen srv)).
Definition stop : prog unit := on_server TCPServer_Stop ;~ ret tt.
Definition get_address : prog string := on_server (fun srv => Ret (srv, TCPServer_GetAddress su_listening srv)).
Definition get_client_count : prog Z := on_server (fun srv => Ret (srv, TCPServer_GetClientCount srv)).

(** ** Runtimes *)
Definition new_runtime (config : RuntimeConfig) : prog nat :=
  now <~ time_Now ;
  fun s out =>
    let i := length (mc_rts s) in
    (s{{mc_rts := (mc_rts s ++ [(NewDBRuntime su_new_rt_cache now (Some config), su_database i)])%list}}, out, Going i).

Definition on_runtime {A} (i : nat)
    (f : DBRuntime DB RC -> DW -> option (outcome (DBRuntime DB RC * DW * A))) : prog A := fun s out =>
  match mc_rts s !! i with
  | None => (s, out, Panicking nil_pointer)
  | Some (rt, w) =>
      match f rt w with
      | None => (s, out, Stuck)
      | Some (Panic m) => (s, out, Panicking m)
      | Some (Ret (rt, w, a)) => (s{{mc_rts := <[i := (rt, w)]> (mc_rts s)}}, out, Going a)
      end
  end.

Definition rt_connect (i : nat) : prog (option error) :=
  on_runtime i (fun rt w => Some (Ret (DBRuntime_Connect rt w))).
Definition rt_disconnect (i : nat) : prog unit :=
  on_runtime i (fun rt w => Some (DBRuntime_Disconnect rt w)) ;~ ret tt.
Definition disconnect_with_log (i : nat) : prog unit :=
  text <~ on_runtime i (fun rt w => Some (DisconnectWithLog rt w)) ;
  if String.eqb text "" then ret tt else log_printf text.
Definition rt_set_cache (i : nat) (c : RC) : prog unit :=
  on_runtime i (fun rt w => Some (Ret (DBRuntime_SetCache (Some c) rt, w, tt))).
Definition rt_exec (i : nat) (q : string) (args : list sql_value) : prog (result error Res) :=
  n <~ tick ; on_runtime i (DBRuntime_Exec su_oor (su_envs n) ctx_Background q args).
Definition rt_query (i : nat) (q : string) (args : list sql_value) : prog (result error Rows) :=
  n <~ tick ; on_runtime i (DBRuntime_Query su_oor (su_envs n) ctx_Background q args).
Definition rt_query_cached (i : nat) (key : string) (ttl : Z) (q : string)
    : prog (result error cached_answer) :=
  n <~ tick ;
  on_runtime i (DBRuntime_QueryCached su_oor su_fuel (mkCachedEnv (su_now n) (su_envs n) (su_now n))
                  ctx_Background key ttl q []).
Definition rt_prepare (i : nat) (q : string) : prog (result error Stmt) :=
  on_runtime i (DBRuntime_Prepare su_first_key ctx_Background q).
Definition rt_health_check (i : nat) : prog (option error) :=
  on_runtime i (fun rt w => let '(w, err) := DBRuntime_HealthCheck ctx_Background rt w in
                            Some (Ret (rt, w, err))).
Definition rt_read {A} (i : nat) (f : DBRuntime DB RC -> DW -> A) : prog A :=
  on_runtime i (fun rt w => Some (Ret (rt, w, f rt w))).
Definition rt_stats (i : nat) : prog DBStats := rt_read i DBRuntime_Stats.
Definition rt_metrics (i : nat) : prog MetricsStats := rt_read i (fun rt _ => DBRuntime_Metrics rt).
Definition rt_state (i : nat) : prog string := rt_read i (fun rt _ => DBRuntime_CircuitBreakerState rt).

(** A transaction: its runtime, and the one [AdvancedTx] that was begun. *)
Definition rt_begin (i : nat) : prog (result error (AdvancedTx Tx)) :=
  n <~ tick ; on_runtime i (DBRuntime_Begin su_oor (su_envs n) ctx_Background).
Definition tx_exec (i : nat) (tx : AdvancedTx Tx) (q : string) (args : list sql_value)
    : prog (result error Res) :=
  n <~ tick ;
  on_runtime i (with_db (fun adb w => Some (AdvancedTx_Exec (su_envs n) ctx_Background q args tx adb w))).
Definition tx_commit (i : nat) (tx : AdvancedTx Tx) : prog (option error) :=
  now <~ time_Now ; on_runtime i (with_db (fun adb w => Some (AdvancedTx_Commit now tx adb w))).
Definition tx_rollback (i : nat) (tx : AdvancedTx Tx) : prog unit :=
  now <~ time_Now ; on_runtime i (with_db (fun adb w => Some (AdvancedTx_Rollback now tx adb w))) ;~ ret tt.

(** What happens to the database alone. *)
Definition rt_world {A} (i : nat) (f : DW -> DW * A) : prog A :=
  on_runtime i (fun rt w => let '(w, a) := f w in Some (Ret (rt, w, a))).

Definition builder : RuntimeConfig := NewConfigBuilder su_oor su_getenv.

(** A call whose error ends the process. *)
Definition or_fatal {A} (failed : string) (call : prog (result error A)) (k : A -> prog unit) : prog unit :=
  r <~ call ;
  match r with
  | Err e => log_fatalf (failed +:+ Error_text e)
  | Ok a => k a
  end.

(** The first lines most examples share: the runtime, connected or the process ends. *)
Definition connected_runtime (config : RuntimeConfig) (failed : string) (body : nat -> prog unit) : prog unit :=
  runtime <~ new_runtime config ;
  err <~ rt_connect runtime ;
  match err with
  | Some e => log_fatalf (failed +:+ Error_text e)
  | None => body runtime
  end.
End Machine.

(** ** Surroundings to run the examples in

    [Lab]: the one-cell database, and a network where every dial goes through and nobody
    answers. [Agreeable]: a database where everything succeeds at once. *)
Module Lab.
Import OneCell CellRuntime.

(** The first integer among the arguments is what is written. *)
Definition ints (args : list sql_value) : list Z :=
  [default 0 (head (omap (fun a => match a with VInt z => Some z | _ => None end) args))].

#[export] Instance lab_db : SqlDB world nat sql_value Z (list Z) Z tx := sql_with_args ints.
#[export] Instance lab_lawful : LawfulSqlDB (H := lab_db) Z := lawful_with_args ints.

#[export] Instance silence : NetConn unit := {
  net_Dial w := (w, None);
  net_SetWriteDeadline _ := None;
  net_SetReadDeadline _ := None;
  net_Write _ w := (w, None);
  net_Scan w := (w, ScanEOF);
  net_Close w := w;
}.

#[export] Instance lab_stmt : SqlStmt world nat sql_value (list Z) Z := {
  stmt_QueryRow _ _ w := (w, ow_value w);
  stmt_QueryContext _ c _ w := (w, match OneCell.err c w with Some e => Err e | None => Ok [ow_value w] end);
  row_Scan2 row w := (w, Ok (row, ""));
  rows_ScanUser rows w :=
    (w, match rows !! Nat.pred (ow_read w) with
        | Some z => Ok (z, "", "")
        | None => Err (External 3 "no row")
        end);
  rows_ScanProduct rows w := (w, (default 0 (rows !! Nat.pred (ow_read w)), "", f64_of_Z 0, ""));
  ErrNoRows := External 14 "sql: no rows in result set";
}.

#[export] Instance lab_result : SqlResult Z := { res_RowsAffected n := n; res_LastInsertId _ := 0 }.

Definition show_value (v : sql_value) : string := match v with VInt z => pretty z | _ => "?" end.

(** A second passes between two calls. *)
#[export] Instance lab : Surroundings unit world nat Z (list Z) Z tx unit unit
    (InMemoryCache cached_value) (InMemoryCache TCPResponse) := {
  su_network _ := tt;
  su_database _ := OneCell.start;
  su_new_rt_cache := NewInMemoryCache;
  su_new_cache := NewInMemoryCache;
  su_envs n := env (Z.of_nat n * Second);
  su_now n := Z.of_nat n * Second;
  su_oor _ := 0;
  su_getenv _ := "";
  su_first_key := first_key_example;
  su_listen := None;
  su_listening := "127.0.0.1:9090";
  su_time_text _ := None;
  su_zone _ := 0;
  su_show _ := "?";
  su_show_sql := show_value;
  su_show_result n := pretty (n : Z);
  su_show_stats _ := "{}";
  su_show_metrics _ := "{}";
  su_show_health _ := "{}";
  su_fuel := 5;
  su_schedule := concat (replicate 3 (seq 0 15));
}.
End Lab.

Module Agreeable.
Import CellRuntime.

#[export] Instance yes_db : SqlDB unit unit sql_value Z unit unit unit := {
  ctx_WithTimeout _ _ w := (w, tt);
  ctx_cancel _ w := w;
  ctx_Err _ _ := None;
  ctx_wait _ _ w := (w, None);
  db_ExecContext _ _ _ w := (w, Ok 1);
  db_QueryContext _ _ _ w := (w, Ok tt);
  db_QueryRowContext _ _ _ w := (w, tt);
  db_PrepareContext _ _ w := (w, Ok 0%nat);
  db_BeginTx _ w := (w, Ok tt);
  db_PingContext _ w := (w, None);
  db_Stats _ := DBStats_zero;
  stmt_Close _ w := w;
  tx_ctx _ := tt;
  tx_ExecContext _ _ _ _ w := (w, Ok 1);
  tx_QueryContext _ _ _ _ w := (w, Ok tt);
  tx_Commit _ w := (w, None);
  tx_Rollback _ w := (w, None);
}.

#[export] Instance yes_pool : SqlPool unit unit unit unit := {
  sql_Open _ _ w := (w, Ok tt);
  pool_configure _ _ _ _ _ w := w;
  pool_PingContext _ _ w := (w, None);
  pool_Close _ w := (w, None);
  pool_Conn _ _ w := (w, Ok tt);
  conn_Close _ w := w;
  conn_ScanOne _ _ _ w := (w, None);
  ctx_Background := tt;
  pool_WithTimeout _ _ w := (w, tt);
  pool_cancel _ w := w;
  time_Sleep _ w := w;
}.

#[export] Instance yes_rows : SqlRows unit unit := {
  rows_Columns _ _ := Ok ["count"];
  rows_Next _ w := (w, false);
  rows_Scan _ w := (w, Ok [VInt 0]);
  rows_Err _ _ := None;
  rows_Close _ w := w;
}.

#[export] Instance yes_stmt : SqlStmt unit unit sql_value unit unit := {
  stmt_QueryRow _ _ w := (w, tt);
  stmt_QueryContext _ _ _ w := (w, Ok tt);
  row_Scan2 _ w := (w, Ok (0, ""));
  rows_ScanUser _ w := (w, Ok (0, "", ""));
  rows_ScanProduct _ w := (w, (0, "", f64_of_Z 0, ""));
  ErrNoRows := External 14 "sql: no rows in result set";
}.

(** Every clock stands still. *)
#[export] Instance yes : Surroundings unit unit unit Z unit unit unit unit unit
    (InMemoryCache cached_value) (InMemoryCache TCPResponse) := {
  su_net := Lab.silence;
  su_result := Lab.lab_result;
  su_network _ := tt;
  su_database _ := tt;
  su_new_rt_cache := NewInMemoryCache;
  su_new_cache := NewInMemoryCache;
  su_envs _ := env 0;
  su_now _ := 0;
  su_oor _ := 0;
  su_getenv _ := "";
  su_first_key := first_key_example;
  su_listen := None;
  su_listening := "127.0.0.1:9090";
  su_time_text _ := None;
  su_zone _ := 0;
  su_show _ := "?";
  su_show_sql := Lab.show_value;
  su_show_result n := pretty (n : Z);
  su_show_stats _ := "{}";
  su_show_metrics _ := "{}";
  su_show_health _ := "{}";
  su_fuel := 5;
  su_schedule := concat (replicate 3 (seq 0 15));
}.
End Agreeable.
